(* ===== verification/_CoqProject ===== *)
-Q . S2P
Prelude.v
GoStrings.v
Netip.v
Errors.v
LioModel.v
LioValid.v
Scsi.v
Configfs.v
FsPaths.v
LioAptpl.v
LioApply.v
Trace.v
LioSync.v
LioPortals.v
LioDelta.v
LioStranded.v
LioEffects.v
LioSafety.v
LioCreate.v
LioAptplProofs.v
LioSteady.v
MemKernel.v
LioWitnesses.v
LioDeltaProofs.v
AppModel.v
AppDb.v
AppWf.v
AppPortals.v
AppAptpl.v
AppAptplProofs.v
AppTranslate.v
AppTranslateProofs.v
Storage.v
AppCoordinator.v
AppObjects.v
AppHosts.v
AppIdentity.v
AppClear.v
AppEvents.v
AppRest.v
AppRun.v
AppAnswers.v
AppSteady.v
AppMutations.v
AppRequests.v
AppClearProofs.v
AppIdentityProofs.v
AppReach.v
AppRestProofs.v
AppDisk.v
AppAtomic.v
AppBytes.v
AppOpLog.v
AppLogged.v
AppLogEdges.v
AppLoggedProofs.v
GoUrl.v
Client.v
ClientProofs.v
ClientServer.v
Saveconfig.v
SaveconfigProofs.v
Lish.v
LishShell.v
LishLocking.v
LishTree.v
Applog.v
Setup.v
SetupSystem.v
SetupProofs.v
SetupFstab.v
SetupPreflight.v
Inspect.v
Daemon.v
Drain.v
MemDisk.v
AppWitnesses.v
SetupWitnesses.v
LishWitnesses.v
DaemonWitnesses.v
