(* ===== verification/Prelude.v ===== *)
(** * glitr: a verification development

    glitr is a block-storage appliance over the Linux kernel's LIO iSCSI
    target. This library models the appliance from its REST interface down to
    the system calls — the packages under src/appliance, src/storage, src/lio
    and the encoders of src/scsi — and what stands around it: the daemon, the
    HTTP client, the shell, the setup of a host and the access log. It proves
    what makes it safe to put disks behind.

    ** The program, and where each part is modelled

    The appliance keeps a database of volumes, snapshots, hosts and
    connections; every change is persisted and then made true in the kernel by
    package lio. From the top:

    - src/appliance/rest.go: [AppRest], the route table, the handlers and their
      answers; events.go: [AppEvents], verdicts, conditions and transitions, and
      [AppOpLog], the records and the opLog threaded through commit. [AppLogged]
      has every request, the start and the re-initialisation once more, each
      with its logging, in the monad [Logged] over [App]; a name there ends in
      [_op]. The definitions without the suffix are those with the log erased,
      which [AppLogged] proves, and carry the other properties.
    - src/appliance/objects.go: [AppObjects]; hosts.go and ops.go: [AppHosts];
      clearpr.go: [AppClear]. One definition per request, with its checks, its
      mutation and its warnings.
    - src/appliance/appliance.go: [AppCoordinator] has the [Coordinator] as the
      record [coord], its published health, persist, the two reconciles,
      [commit] and [persistOnly]; [AppDb] has the loader's validation,
      [AppPortals] the portals; [AppIdentity] has Open, with the identity of
      identity.go and the re-initialisation of reinit.go.
    - src/appliance/translate.go: [AppTranslate], from the database to a
      [Config] of lio, and the allocation of export indexes.
    - src/appliance/aptpl.go: [AppAptpl], the parser of the kernel's saved
      reservation files; model.go, name.go, errcode.go: [AppModel].
    - src/storage, and src/appliance/backup.go: [Storage]. File operations are
      the class [Files]; [AppDisk] adds to it the contract [Disk] of what they
      may do to a file.
    - src/lio/model.go, paths.go, util.go, validate.go: the declarative object
      model. [LioModel] has the records (fields behind a prefix per type:
      [bs_], [t_], [g_], [p_], [l_], [ml_], [acl_]), the paths, the small
      parsers and [Config_Validate]; [LioValid] says what a valid
      configuration is.
    - src/lio/errors.go: [Errors]. An error is a tree of causes; its text is
      kept as format and arguments, its errno and [Kind] are computed.
    - src/lio/configfs/configfs.go: [Configfs]. System calls are the class
      [Kernel]: a kernel may change at any call, also at a read, so whatever
      is proved holds whatever another process does in between. [ST] is a
      state-and-error monad; [sys_op] takes the five changing calls.
    - src/lio/aptplcheck.go, isid.go, prstate.go: [LioAptpl], the text of
      SCSI-3 persistent reservations: saved records and the kernel's
      renderings, with the two regular expressions matched by hand.
    - src/lio/backstore.go, iscsi.go, removal.go: [LioApply]. The state [ctx]
      is the source's [applyCtx]: kernel, change log, drift. The variables of
      its section are the configfs root, the backstores by name and the
      provider of saved records, which is a parameter of the package too.
    - src/lio/config.go, sync.go: [LioSync], the [Manager]: Apply, Remove,
      Discover, Sync, Clear; each returns the report and the error, so that a
      failed pass and its partial report are modelled.
    - src/lio/delta.go: [LioDelta]. [Diff] ranges over Go maps; the order the
      runtime chooses is the parameter [range].
    - src/lio/stranded.go, and the readers of prstate.go: [LioStranded].
    - src/scsi: [Scsi], the initiator side: CDB encoders, reply and sense
      decoders, and the commands over an arbitrary SG_IO.
    - src/cmd/applianced: [Daemon] has the choice of a subcommand, serve up to
      the point where it serves, and reinit; [Drain] has runServer, as a state
      machine over net/http's server; [Inspect] what inspect prints.
    - src/applianceclient: [Client], a definition per method: the URL, the
      request, and what is made of the answer.
    - src/hostlock and src/saveconfig: [Saveconfig], over a [machine], which is
      a kernel and a file system. [HostFiles] adds to [Files] the opening of a
      lock file, flock and temporary files.
    - src/lish and src/cmd/lish: [Lish] has the tree of nodes and the edits of a
      configuration, [LishShell] the session ([Shell], with its output), the
      commands and the modes of the command line.
    - src/setup: [Setup] has distributions and preflight, [SetupSystem] the
      preparation. A host is the class [Host]: commands, ports, an HTTP probe.
    - src/applog: [Applog], levels, attributes and the access-log middleware.
    - Go itself: [GoStrings] (strings, strconv, utf8 as far as used), [Netip]
      (net/netip), [GoUrl] (net/url), [Errors] (errors.Is, os.IsNotExist),
      [Configfs] (path/filepath).

    A computation of the appliance is an [App]: it runs in a [world] — the
    coordinator, the kernel and the file system — and ends in an [outcome],
    one of which is a run-time panic. It is the code under the coordinator's
    mutex, which serialises every operation that changes anything; the health
    it publishes for readers outside the mutex is part of [coord]. [in_kernel]
    and [in_files] lift the two lower monads, [lio_call] the methods of the
    Manager. [perform] ([AppReach]) is one request, and [reachable] a start and
    any requests after it.

    The layers call downwards: [LioSync] and [LioDelta] run [LioApply]'s
    methods in a [ctx]; those lift [Configfs] operations with [fs]; a
    [Configfs] operation checks its path and makes system calls. [Daemon] takes
    the lock of [Saveconfig] and opens a [world] on the machine; [LishShell]
    takes the same lock around each command that changes something, and runs
    [LioSync] under it. [ClientServer] puts [Client] and [AppRest] together:
    the transport is the server's handler over a [world].

    ** What is proved

    Of the appliance:

    - Reachable worlds ([AppReach], on the rules of [AppRun], the mutations of
      [AppMutations], which has the identifiers too, and the requests of
      [AppRequests]): whatever the requests and whatever the kernel and the
      disk answer, the database stays well formed, no request panics and the
      health report is true. The document a reachable world was started on must
      record no block size of zero ([usable_document]): the loader takes one,
      and connecting that object panics ([AppWitnesses], Logs.panic_said).
      [AppSteady] has the rule of [commit] they share.
    - The interface ([AppRestProofs], with the answers of [AppAnswers]): every
      HTTP request is answered and stays in a reachable world, GET changes
      nothing, and a status code says what happened; 409 for the portals and
      for a clear also says that the appliance failed.
    - The database: a commit is all or nothing ([AppAtomic]), with the exact
      remains of a refused one; its records are what the next start loads
      (there too) unless an export index outgrew the LUN numbers; the loader
      accepts exactly the well-formed documents ([AppWf]).
    - The bytes ([AppBytes]): a request never touches the file of an object it
      does not delete or resize.
    - The translation ([AppTranslateProofs]): what is asked of lio validates,
      and grants exactly the recorded access; the index allocated is the
      lowest free one.
    - Clearing a reservation ([AppClearProofs]): the contract of the operation,
      ending by ending.
    - Identity ([AppIdentityProofs]): a start never renames a target. Saved
      records ([AppAptplProofs]): the parser inverts rendering and fails
      closed. Portals ([AppPortals]): sameness is equality as multisets.
    - The log: every request leaves one record, last, true of the database
      and its file, with the outcome and level of the error returned
      ([AppLoggedProofs]; of a clear it says less than happened); the records of
      failures and recoveries alternate and end in the standing condition
      ([AppLogEdges]), and the transitions of /health alone tell the state
      ([AppEvents]).

    Of lio and scsi:

    - Containment and additivity ([LioSafety], with the path lemmas of
      [FsPaths]): every change Sync, Remove and ApplyDelta ask for lands
      strictly below the root and every attribute is one bounded write; Sync
      removes no directory the desired configuration describes, but for portals
      in the way of a desired wildcard not yet bound; Apply removes none at all; a delta whose tree is gone changes nothing; looking changes
      nothing. These speak of the trace of changes of a logged kernel:
      [Trace] has the contract ([LoggedKernel]) and the rules, one per
      construct of the monad, and [LioEffects] what each method may ask for.
    - Order ([LioCreate]): saved reservations are written before a backstore
      is enabled, and a failed creation is a prefix of one script.
    - Idempotence ([LioSteady]): over a tree in place, Apply reports nothing.
    - The incremental reconcile ([LioDeltaProofs]): a delta takes the objects
      of the previous configuration exactly to those of the next, refuses what
      it cannot express, is self-contained, and is empty between equals.
    - Portals ([LioPortals]): over a kernel that binds what no live portal
      refuses, the conflict pass and then the loop of ensureTPG leave every
      desired portal live, whatever was live before.
    - Reservations ([LioAptplProofs]): the silence of the saved-state check is
      earned and so are its alarms; text that is not understood is never read
      as "no holder"; a reservation is called stranded only on evidence.
    - Validation ([LioValid]): [Config_Validate] decides well-formedness, with
      the kind of every rejection.
    - The initiator ([Scsi]): replies are accepted only when complete, every
      reservation command encodes what was asked, capacities saturate.

    Of the programs around them:

    - The daemon ([Daemon]): settings are refused before anything is touched,
      the kernel is left alone without the host's lock, and what is served is a
      started world whose saved reservations come from the kernel's own
      db_root; a re-initialisation never touches the kernel. The drain
      ([Drain]): runServer does not return over a request that is still being
      answered unless the log says so, and it always returns. The report
      ([Inspect]) changes nothing and hides no reservation it read.
    - The client: every call arrives at the route and the names it means
      ([ClientProofs]), and what it says of a create is what happened in the
      appliance ([ClientServer]); both for an endpoint without a path, or with
      a plain one that a proxy strips.
    - Files and the shell: a saved configuration is whole and restoring it is
      its Sync ([SaveconfigProofs]); lish changes the kernel only under the lock
      ([LishLocking]); paths lead back to their nodes and a delete undoes a
      create ([LishTree]).
    - The host: mkfs, mounts and writes happen only on evidence ([SetupProofs],
      on the trace of a [LoggedHost]); fstab converges and nobody else's line is
      lost ([SetupFstab]); preflight's verdict is exactly its conditions
      ([SetupPreflight]).
    - The access log is transparent, and true of every handler that returns
      ([Applog]).

    [MemKernel] is an in-memory configfs to run the definitions on (Sync,
    Discover, a second Sync, Clear), and [LioWitnesses] applies the properties
    to it. [MemDisk] is an in-memory file system and meets [Disk];
    [AppWitnesses] starts an appliance on the two, serves it requests and
    applies the properties there. The two together are the
    machine of [LishWitnesses] and [DaemonWitnesses], which runs the client
    against the appliance too; [SetupWitnesses] runs the setup on a host in
    memory. What the code does otherwise than it says is an Example there.

    ** Bounds and fuel

    Integers are Z; widths are written where the code depends on them
    ([u8]..[u64], [ParseUint], [Atoi], the 64-bit Capacity.Bytes). Recursion is
    structural on lists and strings. A few functions carry fuel:
    [find_registered] the length of its text plus one, every call consuming a
    byte; [lowest_free] (also behind lish's [freeHBA]) the number of used
    indexes plus one, which is enough because some index below that number is
    free ([AppTranslateProofs]); [treeChildren] and [segs_of] more than the
    depth of the tree, which [depth] bounds ([LishTree]); [format_x] the sixteen
    digits of a uint64; [scale] the four turns the loop of humanBytes is bounded
    to. [humanBytes] computes with the 53 bits of a float64.

    ** Parameters

    The kernel and the file system are classes, so whatever is proved of the
    appliance holds for any answers they give; [Disk] is assumed only where a
    property speaks of the content of a file. The order in which Go ranges over
    a map is the parameter [range], any permutation. encoding/json is
    [marshal] and [unmarshal] for the database and [Decoders] for request
    bodies, [encode] and [decode] for saved configurations, and [Codecs] for
    what the client reads; the properties that need them inverse say so. The
    transport of the client is [http_Do], the parser of its endpoint
    [url_Parse]; the embedded files of setup are [assets]. The page size
    the kernel reads with is [pageSize]; the provider of saved records is a
    parameter of lio. Identifiers drawn at random are assumed unused, in the
    properties that say [fresh].

    ** What is not modelled

    Timings and timestamps (SyncTimings, and the two records of a slow commit
    and a slow reconcile): nothing branches on them but those records. Rendered
    sentences: an error, a warning or a report of an unbound reservation is a
    value with its format and arguments, in an answer and in a log record alike,
    and a report is told from one already standing by that value. The request id of a record, which
    applog takes from the context. HTTP headers. What the kernel does with a
    write. The interleaving of readers outside the coordinator's mutex. Of
    log/slog: how a record is rendered and where it goes. The parsing of
    flags (the subcommands of [Daemon] are given theirs), the ticker that calls
    RecheckPR (a request of [AppReach]), progress messages, prompts and the text
    of help. *)

From stdpp Require Export base tactics option list list_numbers strings gmap pretty sorting.
From Stdlib Require Export ZArith Lia.

Declare Scope go_scope.
Delimit Scope go_scope with go.
#[global] Open Scope Z_scope.
#[global] Open Scope go_scope.

(** ** Fallible results

    A Go function returning [(T, error)] returns a [result]; a function whose
    only result is an [error] returns a [result unit]. *)

Inductive result (E A : Type) : Type :=
  | Ok (a : A)
  | Err (e : E).
Arguments Ok {E A} a.
Arguments Err {E A} e.

Definition rbind {E A B} (r : result E A) (f : A → result E B) : result E B :=
  match r with
  | Ok a => f a
  | Err e => Err e
  end.

Notation "'let?' x := r 'in' k" := (rbind r (fun x => k))
  (at level 200, x pattern, r at level 100, k at level 200, right associativity) : go_scope.

(** [if err := f(x); err != nil { return err }] in a loop over [l]. *)
Fixpoint rfor {E A} (f : A → result E unit) (l : list A) : result E unit :=
  match l with
  | [] => Ok tt
  | x :: l => let? _ := f x in rfor f l
  end.

(** A loop that also threads an accumulator through the iterations. *)
Fixpoint rfold {E A S} (f : S → A → result E S) (s : S) (l : list A) : result E S :=
  match l with
  | [] => Ok s
  | x :: l => let? s' := f s x in rfold f s' l
  end.

(** [if c { return e }], the guard form of early return. *)
Definition guard_err {E} (c : bool) (e : E) : result E unit :=
  if c then Err e else Ok tt.

Definition is_ok {E A} (r : result E A) : bool :=
  match r with Ok _ => true | Err _ => false end.

Section rbind_lemmas.
Context {E A B : Type}.

Lemma rbind_Ok (r : result E A) (f : A → result E B) b :
    rbind r f = Ok b ↔ ∃ a, r = Ok a ∧ f a = Ok b.
  Proof. destruct r; simpl; naive_solver. Qed.

Lemma rbind_Err (r : result E A) (f : A → result E B) (e : E) :
    rbind r f = Err e ↔ r = Err e ∨ ∃ a, r = Ok a ∧ f a = Err e.
  Proof. destruct r; simpl; naive_solver. Qed.

End rbind_lemmas.

Section result_lemmas.
Context {E A S : Type}.

Lemma guard_err_Ok (c : bool) (e : E) u : guard_err c e = Ok u ↔ c = false.
  Proof. destruct u, c; simpl; naive_solver. Qed.

Lemma rfor_Ok (f : A → result E unit) l u :
    rfor f l = Ok u ↔ Forall (λ x, f x = Ok tt) l.
  Proof.
    destruct u. induction l as [|x l IH]; simpl.
    - split; [constructor | done].
    - rewrite rbind_Ok, Forall_cons, <- IH. split.
      + intros ([] & ? & ?). done.
      + intros [? ?]. by exists tt.
  Qed.

Lemma rfold_app (f : S → A → result E S) l1 l2 s :
    rfold f s (l1 ++ l2) = let? s' := rfold f s l1 in rfold f s' l2.
  Proof.
    revert s. induction l1 as [|x l1 IH]; intros s; simpl; [done|].
    destruct (f s x); simpl; [apply IH | done].
  Qed.

  (** The invariant rule of a successful fold. *)
Lemma rfold_inv (P : S → Prop) (f : S → A → result E S) l s s' :
    P s → (∀ x s1 s2, x ∈ l → P s1 → f s1 x = Ok s2 → P s2) →
    rfold f s l = Ok s' → P s'.
  Proof.
    revert s. induction l as [|x l IH]; intros s Hs Hf; simpl; [naive_solver|].
    rewrite rbind_Ok. intros (s1 & Hx & Hl).
    eapply IH; [ | | exact Hl]; [eapply Hf; [left | ..]; eassumption |].
    intros y s2 s3 ?. apply Hf. by right.
  Qed.

(** A failed fold failed at one of its steps. *)
Lemma rfold_Err (f : S → A → result E S) l s e :
  rfold f s l = Err e → ∃ s1 x, x ∈ l ∧ f s1 x = Err e.
Proof.
  revert s. induction l as [|x l IH]; intros s; simpl; [done|].
  rewrite rbind_Err. intros [Hx|(s1 & Hx & Hl)].
  - exists s, x. split; [by left | done].
  - apply IH in Hl as (s2 & y & Hy & He). exists s2, y. split; [by right | done].
Qed.
End result_lemmas.

(** ** Loops that refuse a repeated key

    The validators of the source walk a list with a set of the keys seen so
    far: [mem seen k] says [k] is among them. *)

Section distinct.
Context {E A B S : Type} (mem : S → B → Prop) (key : A → B) (P : A → Prop).
Context (f : S → A → result E S).
Context (f_ok : ∀ s x s', f s x = Ok s' →
  P x ∧ ¬ mem s (key x) ∧ ∀ k, mem s' k ↔ k = key x ∨ mem s k).
Context (f_total : ∀ s x, P x → ¬ mem s (key x) → ∃ s', f s x = Ok s').

Lemma rfold_distinct_sound l s s' :
  rfold f s l = Ok s' →
  Forall P l ∧ NoDup (key <$> l) ∧ (∀ x, x ∈ l → ¬ mem s (key x)) ∧
  ∀ k, mem s' k ↔ k ∈ key <$> l ∨ mem s k.
Proof.
  revert s. induction l as [|x l IH]; intros s; simpl.
  - intros [= ->]. split_and!; [constructor | constructor | intros x Hx; inversion Hx |].
    intros k. split; [by right|]. intros [Hk|?]; [inversion Hk | done].
  - rewrite rbind_Ok. intros (s1 & Hx & Hl).
    apply f_ok in Hx as (HP & Hn & Hm). apply IH in Hl as (HF & Hd & Hs & Hk).
    repeat split.
    + by constructor.
    + constructor; [|done]. intros (y & Hy & Hin)%list_elem_of_fmap.
      apply (Hs y Hin). apply Hm. left. by symmetry.
    + intros y [->|Hin]%elem_of_cons; [done|]. intros Hy. apply (Hs y Hin), Hm. by right.
    + rewrite Hk, Hm, elem_of_cons. tauto.
    + rewrite Hk, Hm, elem_of_cons. tauto.
Qed.

Lemma rfold_distinct_complete l s :
  Forall P l → NoDup (key <$> l) → (∀ x, x ∈ l → ¬ mem s (key x)) →
  ∃ s', rfold f s l = Ok s'.
Proof.
  revert s. induction l as [|x l IH]; intros s; simpl; [by exists s|].
  rewrite Forall_cons, NoDup_cons. intros [HP HF] [Hx Hd] Hs.
  destruct (f_total s x HP (Hs x ltac:(by left))) as [s1 Hs1].
  rewrite Hs1. simpl. apply IH; [done..|].
  intros y Hy Hm. apply (f_ok _ _ _ Hs1) in Hm as [Heq|Hm].
  - apply Hx. rewrite <- Heq. by apply list_elem_of_fmap_2.
  - apply (Hs y); [by right | done].
Qed.
End distinct.

(** The same for loops that record several keys per element, and that may fail
    for other reasons: [keys x] are the keys [x] claims. *)
Section distinct_keys.
Context {E A B S : Type} (mem : S → B → Prop) (keys : A → list B) (P : A → Prop).
Context (f : S → A → result E S).
Context (f_ok : ∀ s x s', f s x = Ok s' →
  P x ∧ NoDup (keys x) ∧ (∀ k, k ∈ keys x → ¬ mem s k) ∧ ∀ k, mem s' k ↔ k ∈ keys x ∨ mem s k).
Context (f_total : ∀ s x, P x → NoDup (keys x) → (∀ k, k ∈ keys x → ¬ mem s k) →
  ∃ s', f s x = Ok s').

Lemma rfold_keys_sound l s s' :
  rfold f s l = Ok s' →
  Forall P l ∧ NoDup (mjoin (keys <$> l)) ∧ (∀ k, k ∈ mjoin (keys <$> l) → ¬ mem s k) ∧
  ∀ k, mem s' k ↔ k ∈ mjoin (keys <$> l) ∨ mem s k.
Proof.
  revert s. induction l as [|x l IH]; intros s; simpl.
  - intros [= ->]. split_and!; [constructor | constructor | intros k Hk; inversion Hk |].
    intros k. split; [by right|]. intros [Hk|?]; [inversion Hk | done].
  - rewrite rbind_Ok. intros (s1 & Hx & Hl).
    apply f_ok in Hx as (HP & Hd & Hn & Hm). apply IH in Hl as (HF & Hnd & Hs & Hk).
    assert (Hsep : ∀ k, k ∈ keys x → k ∉ mjoin (keys <$> l)).
    { intros k Hkx Hkl. apply (Hs k Hkl), Hm. by left. }
    split_and!.
    + by constructor.
    + by apply NoDup_app.
    + intros k [Hkx|Hkl]%elem_of_app; [by apply Hn|]. intros Hms. apply (Hs k Hkl), Hm. by right.
    + intros k. rewrite Hk, Hm, elem_of_app. tauto.
Qed.

Lemma rfold_keys_complete l s :
  Forall P l → NoDup (mjoin (keys <$> l)) → (∀ k, k ∈ mjoin (keys <$> l) → ¬ mem s k) →
  ∃ s', rfold f s l = Ok s'.
Proof.
  revert s. induction l as [|x l IH]; intros s; simpl; [by exists s|].
  rewrite Forall_cons, NoDup_app. intros [HP HF] (Hd & Hsep & Hl) Hs.
  destruct (f_total s x HP Hd) as [s1 Hs1].
  { intros k Hk. apply Hs, elem_of_app. by left. }
  rewrite Hs1. simpl. apply IH; [done..|].
  intros k Hk Hm. apply (f_ok _ _ _ Hs1) in Hm as [Hkx|Hm].
  - by apply (Hsep k).
  - apply (Hs k); [|done]. apply elem_of_app. by right.
Qed.
End distinct_keys.

(** ** Tactics *)

(** Case analysis on every [match] of the goal or of a hypothesis. *)
Ltac cases_goal :=
  repeat (case_match; simplify_eq/=; try done).

(** Take a [result] equation apart into its successful steps. *)
Ltac inv_ok :=
  repeat match goal with
  | H : rbind _ _ = Ok _ |- _ =>
      let a := fresh "a" in let H1 := fresh H in
      apply rbind_Ok in H as (a & H1 & H)
  | H : guard_err _ _ = Ok _ |- _ => apply guard_err_Ok in H
  | H : Ok _ = Ok _ |- _ => injection H as H; subst
  | H : Err _ = Ok _ |- _ => discriminate H
  | u : unit |- _ => destruct u
  end.

(** Turn boolean facts of the code into propositions. *)
Ltac bool_facts :=
  repeat match goal with
  | H : _ && _ = true |- _ => apply andb_true_iff in H as [??]
  | H : _ || _ = false |- _ => apply orb_false_iff in H as [??]
  | H : negb _ = true |- _ => apply negb_true_iff in H
  | H : negb _ = false |- _ => apply negb_false_iff in H
  | H : bool_decide _ = true |- _ => apply bool_decide_eq_true in H
  | H : bool_decide _ = false |- _ => apply bool_decide_eq_false in H
  | H : (_ =? _) = true |- _ => apply Z.eqb_eq in H
  | H : (_ =? _) = false |- _ => apply Z.eqb_neq in H
  | H : (_ <? _) = true |- _ => apply Z.ltb_lt in H
  | H : (_ <? _) = false |- _ => apply Z.ltb_ge in H
  | H : (_ <=? _) = true |- _ => apply Z.leb_le in H
  | H : (_ <=? _) = false |- _ => apply Z.leb_gt in H
  end.

(** ** Lists *)

(** [existsb]-style membership with a decidable predicate, as the [found]
    loops of the source write it. *)
Definition any {A} (f : A → bool) (l : list A) : bool := existsb f l.

Lemma any_true {A} (f : A → bool) l : any f l = true ↔ ∃ x, x ∈ l ∧ f x = true.
Proof.
  unfold any. rewrite existsb_exists.
  split; intros (x & Hx & ?); exists x; split; auto; by apply list_elem_of_In.
Qed.

Lemma any_false {A} (f : A → bool) l : any f l = false ↔ ∀ x, x ∈ l → f x = false.
Proof.
  split.
  - intros H x Hx. destruct (f x) eqn:E; [|done].
    assert (any f l = true) by (apply any_true; eauto). congruence.
  - intros H. destruct (any f l) eqn:E; [|done].
    apply any_true in E as (x & Hx & E). rewrite (H x Hx) in E. done.
Qed.

Lemma any_app {A} (f : A → bool) l1 l2 : any f (l1 ++ l2) = any f l1 || any f l2.
Proof. apply existsb_app. Qed.

Lemma filter_Forall {A} (P : A → Prop) `{∀ x, Decision (P x)} l : Forall P (filter P l).
Proof. apply Forall_forall. by intros x [? _]%list_elem_of_filter. Qed.

(** Duplicates of a list of keys, by an equivalent key. *)
Lemma NoDup_fmap_iff {A B C} (f : A → B) (g : A → C) l :
  (∀ x y, x ∈ l → y ∈ l → f x = f y ↔ g x = g y) → NoDup (f <$> l) ↔ NoDup (g <$> l).
Proof.
  induction l as [|x l IH]; intros Hfg; [by split; constructor|].
  rewrite !fmap_cons, !NoDup_cons, IH by (intros; apply Hfg; by right).
  assert (f x ∈ f <$> l ↔ g x ∈ g <$> l) as ->; [|done].
  rewrite !list_elem_of_fmap.
  split; intros (y & Heq & Hy); exists y; (split; [|done]); apply (Hfg x y); auto; by constructor.
Qed.

(** Keys of two sorts in one list. *)
Lemma NoDup_tagged {A B C} (a : A → B) (bs : A → list C) l :
  NoDup (mjoin ((λ x, (inl (a x) : B + C) :: (inr <$> bs x)) <$> l))
  ↔ NoDup (a <$> l) ∧ NoDup (mjoin (bs <$> l)).
Proof.
  assert (Hp : mjoin ((λ x, (inl (a x) : B + C) :: (inr <$> bs x)) <$> l)
               ≡ₚ ((inl : B → B + C) <$> (a <$> l)) ++ ((inr : C → B + C) <$> mjoin (bs <$> l))).
  { induction l as [|x l IH]; [done|]. cbn [fmap list_fmap mjoin list_join].
    rewrite fmap_app. cbn [app]. constructor. rewrite IH. solve_Permutation. }
  rewrite Hp, NoDup_app.
  rewrite (NoDup_fmap (inl : B → B + C)), (NoDup_fmap (inr : C → B + C)) by (intros ?? [=]; done).
  split; [by intros (? & _ & ?)|]. intros [Ha Hb]. split_and!; [done | | done].
  intros k (y & -> & _)%list_elem_of_fmap (z & Hz & _)%list_elem_of_fmap. discriminate.
Qed.

(** ** Machine integers *)

Definition u8 (z : Z) : Z := z mod 256.
Definition u16 (z : Z) : Z := z mod 2 ^ 16.
Definition u32 (z : Z) : Z := z mod 2 ^ 32.
Definition u64 (z : Z) : Z := z mod 2 ^ 64.
Definition maxU32 : Z := 2 ^ 32 - 1.
Definition maxU64 : Z := 2 ^ 64 - 1.
Definition in_u8 (z : Z) : Prop := 0 <= z < 2 ^ 8.
Definition in_u32 (z : Z) : Prop := 0 <= z < 2 ^ 32.
Definition in_u64 (z : Z) : Prop := 0 <= z < 2 ^ 64.

Lemma u32_id z : in_u32 z → u32 z = z.
Proof. apply Z.mod_small. Qed.
Lemma u64_id z : in_u64 z → u64 z = z.
Proof. apply Z.mod_small. Qed.

Create HintDb glitr.
#[export] Hint Resolve u32_id u64_id : glitr.
