(* ===== verification/GoStrings.v ===== *)
(** * Go's strings, strconv and unicode/utf8, as far as the source uses them

    A Go string is a byte sequence: here a [string], one [ascii] per byte.
    [range] over a string and the Unicode-aware functions ([TrimSpace],
    [Fields]) go through [runes], the decoder of unicode/utf8. *)

From S2P Require Import Prelude.
From Stdlib Require Export Ascii.

Definition byte_of (c : ascii) : Z := Z.of_N (N_of_ascii c).
Definition chr (z : Z) : ascii := ascii_of_N (Z.to_N z).
Definition str1 (c : ascii) : string := String c EmptyString.
Definition nl : ascii := chr 10.
Definition nul : ascii := chr 0.
Definition nl_str : string := str1 nl.
Definition slen (s : string) : Z := Z.of_nat (String.length s).

Fixpoint chars (s : string) : list ascii :=
  match s with EmptyString => [] | String c s => c :: chars s end.
Fixpoint of_chars (l : list ascii) : string :=
  match l with [] => EmptyString | c :: l => String c (of_chars l) end.

Fixpoint str_any (f : ascii → bool) (s : string) : bool :=
  match s with EmptyString => false | String c s => f c || str_any f s end.
Fixpoint str_all (f : ascii → bool) (s : string) : bool :=
  match s with EmptyString => true | String c s => f c && str_all f s end.

(** ** Searching *)

Definition HasPrefix (s p : string) : bool := String.prefix p s.
Fixpoint drop_str (n : nat) (s : string) : string :=
  match n, s with
  | O, _ => s
  | S n, String _ s => drop_str n s
  | S _, EmptyString => EmptyString
  end.
Fixpoint take_str (n : nat) (s : string) : string :=
  match n, s with
  | S n, String c s => String c (take_str n s)
  | _, _ => EmptyString
  end.
(** [strings.CutPrefix]. *)
Definition CutPrefix (s p : string) : option string :=
  if HasPrefix s p then Some (drop_str (String.length p) s) else None.
Definition TrimPrefix (s p : string) : string :=
  match CutPrefix s p with Some r => r | None => s end.
Definition HasSuffix (s p : string) : bool :=
  (String.length p <=? String.length s)%nat
  && String.eqb (drop_str (String.length s - String.length p) s) p.
(** [strings.TrimSuffix]. *)
Definition TrimSuffix (s p : string) : string :=
  if HasSuffix s p then take_str (String.length s - String.length p) s else s.

(** [strings.Cut]: split around the first occurrence of [sep]. *)
Fixpoint Cut (s sep : string) : option (string * string) :=
  if HasPrefix s sep then Some (EmptyString, drop_str (String.length sep) s)
  else match s with
       | EmptyString => None
       | String c s' =>
           match Cut s' sep with
           | Some (a, b) => Some (String c a, b)
           | None => None
           end
       end.
(** [strings.Contains]. *)
Definition Contains (s sub : string) : bool :=
  match Cut s sub with Some _ => true | None => false end.
Definition ContainsChar (s : string) (c : ascii) : bool := str_any (Ascii.eqb c) s.
(** [strings.ContainsAny] for an ASCII set of characters. *)
Definition ContainsAny (s : string) (set : list ascii) : bool :=
  str_any (λ c, any (Ascii.eqb c) set) s.

(** [strings.Split] and [strings.SplitSeq] for a one-byte separator: always at
    least one element. *)
Fixpoint Split (s : string) (sep : ascii) : list string :=
  match s with
  | EmptyString => [EmptyString]
  | String c s =>
      if Ascii.eqb c sep then EmptyString :: Split s sep
      else match Split s sep with
           | w :: ws => String c w :: ws
           | [] => [str1 c]
           end
  end.
Fixpoint Join (l : list string) (sep : string) : string :=
  match l with
  | [] => EmptyString
  | [x] => x
  | x :: l => x +:+ sep +:+ Join l sep
  end.

(** [strings.LastIndexByte], as the split the callers make of it: the text
    before and after the last occurrence of [sep]. *)
Fixpoint splitLastByte (s : string) (sep : ascii) : option (string * string) :=
  match s with
  | EmptyString => None
  | String c s =>
      match splitLastByte s sep with
      | Some (h, t) => Some (String c h, t)
      | None => if Ascii.eqb c sep then Some (EmptyString, s) else None
      end
  end.

(** [strings.ReplaceAll s old ""] for a one-byte [old]. *)
Fixpoint RemoveAll (s : string) (c : ascii) : string :=
  match s with
  | EmptyString => EmptyString
  | String d s => if Ascii.eqb c d then RemoveAll s c else String d (RemoveAll s c)
  end.

(** ** UTF-8 (unicode/utf8.DecodeRune) *)

Definition cont_in (lo hi : Z) (c : ascii) : bool :=
  (lo <=? byte_of c) && (byte_of c <=? hi).
Definition is_cont : ascii → bool := cont_in 0x80 0xBF.
Definition rune_error : Z := 0xFFFD.
Definition low6 (c : ascii) : Z := Z.land (byte_of c) 0x3F.
(** The accepted range of the second byte of a three- and four-byte form. *)
Definition second3 (b0 : Z) : ascii → bool :=
  if b0 =? 0xE0 then cont_in 0xA0 0xBF
  else if b0 =? 0xED then cont_in 0x80 0x9F else is_cont.
Definition second4 (b0 : Z) : ascii → bool :=
  if b0 =? 0xF0 then cont_in 0x90 0xBF
  else if b0 =? 0xF4 then cont_in 0x80 0x8F else is_cont.

(** The runes of a string with the bytes each was decoded from; a byte that
    starts no valid encoding is U+FFFD of width one, as in Go. *)
Fixpoint runes (s : string) : list (Z * string) :=
  match s with
  | EmptyString => []
  | String a s1 =>
      let b0 := byte_of a in
      if b0 <? 0x80 then (b0, str1 a) :: runes s1
      else
        match s1 with
        | String b s2 =>
            if (0xC2 <=? b0) && (b0 <=? 0xDF) && is_cont b then
              (Z.lor (Z.shiftl (Z.land b0 0x1F) 6) (low6 b), String a (str1 b)) :: runes s2
            else
              match s2 with
              | String c s3 =>
                  if (0xE0 <=? b0) && (b0 <=? 0xEF) && second3 b0 b && is_cont c then
                    (Z.lor (Z.shiftl (Z.land b0 0x0F) 12)
                       (Z.lor (Z.shiftl (low6 b) 6) (low6 c)), String a (String b (str1 c)))
                    :: runes s3
                  else
                    match s3 with
                    | String d s4 =>
                        if (0xF0 <=? b0) && (b0 <=? 0xF4) && second4 b0 b && is_cont c && is_cont d then
                          (Z.lor (Z.shiftl (Z.land b0 0x07) 18)
                             (Z.lor (Z.shiftl (low6 b) 12)
                                (Z.lor (Z.shiftl (low6 c) 6) (low6 d))),
                           String a (String b (String c (str1 d)))) :: runes s4
                        else (rune_error, str1 a) :: runes s1
                    | EmptyString => (rune_error, str1 a) :: runes s1
                    end
              | EmptyString => (rune_error, str1 a) :: runes s1
              end
        | EmptyString => (rune_error, str1 a) :: runes s1
        end
  end.

(** [unicode.IsSpace]. *)
Definition IsSpace (r : Z) : bool :=
  ((9 <=? r) && (r <=? 13)) || (r =? 32) || (r =? 0x85) || (r =? 0xA0)
  || (r =? 0x1680) || ((0x2000 <=? r) && (r <=? 0x200A)) || (r =? 0x2028)
  || (r =? 0x2029) || (r =? 0x202F) || (r =? 0x205F) || (r =? 0x3000).

Definition unrunes (l : list (Z * string)) : string :=
  foldr (λ r acc, r.2 +:+ acc) EmptyString l.
Fixpoint drop_spaces (l : list (Z * string)) : list (Z * string) :=
  match l with
  | r :: l' => if IsSpace r.1 then drop_spaces l' else l
  | [] => []
  end.
(** [strings.TrimSpace]. *)
Definition TrimSpace (s : string) : string :=
  unrunes (reverse (drop_spaces (reverse (drop_spaces (runes s))))).

(** [strings.Fields]: maximal runs of non-space runes. *)
Fixpoint fields_go (l : list (Z * string)) (cur : string) : list string :=
  match l with
  | [] => if String.eqb cur "" then [] else [cur]
  | r :: l =>
      if IsSpace r.1 then
        (if String.eqb cur "" then fields_go l "" else cur :: fields_go l "")
      else fields_go l (cur +:+ r.2)
  end.
Definition Fields (s : string) : list string := fields_go (runes s) "".

(** [strings.ToLower]. Only ASCII patterns are looked for in its results, so
    the letters outside ASCII are left alone, except the two whose lower case
    is an ASCII letter (U+0130 and U+212A). *)
Definition lower_ascii (c : ascii) : ascii :=
  let b := byte_of c in if (65 <=? b) && (b <=? 90) then chr (b + 32) else c.
Definition lower_rune (r : Z * string) : string :=
  if r.1 =? 0x130 then "i" else if r.1 =? 0x212A then "k"
  else match r.2 with
       | String c EmptyString => str1 (lower_ascii c)
       | s => s
       end.
Definition ToLower (s : string) : string :=
  foldr (λ r acc, lower_rune r +:+ acc) EmptyString (runes s).

(** ** strconv *)

Definition itoa (z : Z) : string := pretty z.

Definition dec_digit (c : ascii) : option Z :=
  let b := byte_of c in if (48 <=? b) && (b <=? 57) then Some (b - 48) else None.
Definition hex_digit (c : ascii) : option Z :=
  let b := byte_of c in
  if (48 <=? b) && (b <=? 57) then Some (b - 48)
  else if (97 <=? b) && (b <=? 102) then Some (b - 87)
  else if (65 <=? b) && (b <=? 70) then Some (b - 55)
  else None.

Fixpoint digits_go (digit : ascii → option Z) (base : Z) (s : string) (acc : Z) : option Z :=
  match s with
  | EmptyString => Some acc
  | String c s =>
      match digit c with
      | Some d => digits_go digit base s (acc * base + d)
      | None => None
      end
  end.
Definition digits_of (digit : ascii → option Z) (base : Z) (s : string) : option Z :=
  match s with EmptyString => None | _ => digits_go digit base s 0 end.

(** [strconv.ParseUint s base bits]; [None] is any error. *)
Definition ParseUint_dec (s : string) (bits : Z) : option Z :=
  match digits_of dec_digit 10 s with
  | Some n => if n <? 2 ^ bits then Some n else None
  | None => None
  end.
Definition ParseUint_hex (s : string) (bits : Z) : option Z :=
  match digits_of hex_digit 16 s with
  | Some n => if n <? 2 ^ bits then Some n else None
  | None => None
  end.
(** [strconv.Atoi], and [strconv.ParseInt s 10 64]: an optional sign, then
    digits, in the range of a 64-bit signed integer. *)
Definition Atoi (s : string) : option Z :=
  let '(neg, body) :=
    match s with
    | String "-" s' => (true, s')
    | String "+" s' => (false, s')
    | _ => (false, s)
    end in
  match digits_of dec_digit 10 body with
  | Some n =>
      if neg then (if n <=? 2 ^ 63 then Some (- n) else None)
      else (if n <? 2 ^ 63 then Some n else None)
  | None => None
  end.

(** [encoding/hex.EncodeToString]. *)
Definition hex_char (d : Z) : ascii := if d <? 10 then chr (48 + d) else chr (87 + d).
Fixpoint hex_encode (l : list Z) : string :=
  match l with
  | [] => EmptyString
  | b :: l => String (hex_char (b / 16)) (String (hex_char (b mod 16)) (hex_encode l))
  end.

(** ** Order of strings: byte-wise, as [sort.Strings] and [os.ReadDir] use it *)

Fixpoint str_leb (a b : string) : bool :=
  match a, b with
  | EmptyString, _ => true
  | String _ _, EmptyString => false
  | String x a, String y b =>
      if Ascii.eqb x y then str_leb a b else byte_of x <? byte_of y
  end.
Fixpoint insert_by {A} (leb : A → A → bool) (x : A) (l : list A) : list A :=
  match l with
  | [] => [x]
  | y :: l' => if leb x y then x :: l else y :: insert_by leb x l'
  end.
(** A stable sort ([slices.SortStableFunc] with [leb x y] for [cmp x y <= 0]). *)
Definition sort_by {A} (leb : A → A → bool) (l : list A) : list A :=
  foldr (insert_by leb) [] l.
Definition sort_strings : list string → list string := sort_by str_leb.

Definition is_lower_hex (c : ascii) : bool :=
  let b := byte_of c in ((48 <=? b) && (b <=? 57)) || ((97 <=? b) && (b <=? 102)).

(** ** Lemmas *)

Lemma chars_app s t : chars (s +:+ t) = chars s ++ chars t.
Proof. induction s as [|c s IH]; [done|]. simpl. f_equal. exact IH. Qed.

Lemma splitLastByte_None s c : Forall (λ d, d ≠ c) (chars s) → splitLastByte s c = None.
Proof.
  induction s as [|d s IH]; [done|]. cbn [chars]. intros [Hd Hs]%Forall_cons.
  simpl. rewrite IH by done. destruct (Ascii.eqb_spec d c); done.
Qed.

(** The last separator is the one before a text that holds none. *)
Lemma splitLastByte_app x s c :
  Forall (λ d, d ≠ c) (chars s) → splitLastByte (x +:+ String c s) c = Some (x, s).
Proof.
  intros Hs. induction x as [|d x IH]; simpl.
  - rewrite splitLastByte_None by done. by rewrite Ascii.eqb_refl.
  - change (String.append x (String c s)) with (x +:+ String c s). by rewrite IH.
Qed.

Lemma app_sep_inj x y s t c :
  Forall (λ d, d ≠ c) (chars s) → Forall (λ d, d ≠ c) (chars t) →
  x +:+ String c s = y +:+ String c t → x = y ∧ s = t.
Proof.
  intros Hs Ht Heq. pose proof (splitLastByte_app x s c Hs) as H1.
  rewrite Heq, splitLastByte_app in H1 by done. by injection H1 as <- <-.
Qed.

Lemma app_assoc_str (a b c : string) : (a +:+ b) +:+ c = a +:+ b +:+ c.
Proof.
  induction a as [|x a IH]; [done|].
  change (String x ((a +:+ b) +:+ c) = String x (a +:+ b +:+ c)). by rewrite IH.
Qed.
Lemma HasPrefix_app p t : HasPrefix (p +:+ t) p = true.
Proof.
  unfold HasPrefix. induction p as [|c p IH]; [by destruct t|]. simpl.
  by destruct (ascii_dec c c).
Qed.

Lemma slen_app s t : slen (s +:+ t) = slen s + slen t.
Proof.
  unfold slen. induction s as [|c s IH]; [done|].
  change (String c s +:+ t) with (String c (s +:+ t)). cbn [String.length]. lia.
Qed.

Lemma insert_by_perm {A} (leb : A → A → bool) x l : insert_by leb x l ≡ₚ x :: l.
Proof.
  induction l as [|y l IH]; cbn [insert_by]; [done|]. destruct (leb x y); [done|].
  rewrite IH. apply Permutation_swap.
Qed.
Lemma sort_by_perm {A} (leb : A → A → bool) l : sort_by leb l ≡ₚ l.
Proof.
  induction l as [|x l IH]; [done|]. change (sort_by leb (x :: l)) with (insert_by leb x (sort_by leb l)).
  by rewrite insert_by_perm, IH.
Qed.
