(* ===== verification/Netip.v ===== *)
(** * net/netip, as far as the source uses it

    [Addr] is a value with one canonical form: an IPv4 address is its 32-bit
    number, an IPv6 address its eight 16-bit groups and a zone. *)

From S2P Require Import Prelude GoStrings.

Inductive Addr : Type :=
  | AddrZero                                      (* the zero, invalid Addr *)
  | Addr4 (v : Z)                                 (* 0 <= v < 2^32 *)
  | Addr6 (groups : list Z) (zone : string).      (* eight groups of 16 bits *)

#[global] Instance Addr_eq_dec : EqDecision Addr.
Proof. solve_decision. Defined.

Record AddrPort : Type := AddrPortFrom { ap_Addr : Addr; ap_Port : Z }.

#[global] Instance AddrPort_eq_dec : EqDecision AddrPort.
Proof. solve_decision. Defined.

Definition IsValid (a : Addr) : bool := match a with AddrZero => false | _ => true end.
Definition Is4 (a : Addr) : bool := match a with Addr4 _ => true | _ => false end.
Definition Is6 (a : Addr) : bool := match a with Addr6 _ _ => true | _ => false end.
Definition Zone (a : Addr) : string := match a with Addr6 _ z => z | _ => "" end.
Definition zeros8 : list Z := [0;0;0;0;0;0;0;0].
(** [IsUnspecified]: [0.0.0.0] or [::], the latter without a zone. *)
Definition IsUnspecified (a : Addr) : bool :=
  match a with
  | AddrZero => false
  | Addr4 v => v =? 0
  | Addr6 g z => bool_decide (g = zeros8) && String.eqb z ""
  end.
Definition Is4In6 (a : Addr) : bool :=
  match a with
  | Addr6 [0;0;0;0;0;f;_;_] _ => f =? 0xffff
  | _ => false
  end.
(** [Unmap]: an IPv4-mapped IPv6 address becomes the IPv4 one. *)
Definition Unmap (a : Addr) : Addr :=
  match a with
  | Addr6 [0;0;0;0;0;f;hi;lo] z => if f =? 0xffff then Addr4 (hi * 2 ^ 16 + lo) else a
  | _ => a
  end.

(** ** Rendering *)

Definition octet (v : Z) (k : Z) : Z := (v / 2 ^ (8 * k)) mod 256.
Definition string4 (v : Z) : string :=
  itoa (octet v 3) +:+ "." +:+ itoa (octet v 2) +:+ "." +:+ itoa (octet v 1)
  +:+ "." +:+ itoa (octet v 0).

Definition hex16 (v : Z) : string :=
  let d k := (v / 16 ^ k) mod 16 in
  let c k := str1 (hex_char (d k)) in
  if v <? 16 then c 0
  else if v <? 256 then c 1 +:+ c 0
  else if v <? 4096 then c 2 +:+ c 1 +:+ c 0
  else c 3 +:+ c 2 +:+ c 1 +:+ c 0.

(** Length of the run of zero groups at the head. *)
Fixpoint zero_run (g : list Z) : nat :=
  match g with
  | 0 :: g => S (zero_run g)
  | _ => O
  end.
(** The first longest run of at least two zero groups: (start, length). *)
Fixpoint best_run (i : nat) (g : list Z) : nat * nat :=
  match g with
  | [] => (O, O)
  | _ :: g' =>
      let here := zero_run g in
      let '(j, best) := best_run (S i) g' in
      if (2 <=? here)%nat && (best <=? here)%nat then (i, here) else (j, best)
  end.
Definition string6_groups (g : list Z) : string :=
  let '(i, n) := best_run O g in
  if (n =? 0)%nat then Join (map hex16 g) ":"
  else Join (map hex16 (take i g)) ":" +:+ "::" +:+ Join (map hex16 (drop (i + n) g)) ":".
Definition with_zone (s z : string) : string :=
  if String.eqb z "" then s else s +:+ "%" +:+ z.
Definition Addr_String (a : Addr) : string :=
  match a with
  | AddrZero => "invalid IP"
  | Addr4 v => string4 v
  | Addr6 g z =>
      if Is4In6 a then
        match Unmap a with
        | Addr4 v => with_zone ("::ffff:" +:+ string4 v) z
        | _ => ""
        end
      else with_zone (string6_groups g) z
  end.
Definition AddrPort_String (p : AddrPort) : string :=
  match ap_Addr p with
  | AddrZero => "invalid AddrPort"
  | Addr4 v => string4 v +:+ ":" +:+ itoa (ap_Port p)
  | a => "[" +:+ Addr_String a +:+ "]:" +:+ itoa (ap_Port p)
  end.

(** ** Parsing *)

(** One decimal octet: digits only, no leading zero, at most 255. *)
Definition parse_octet (s : string) : option Z :=
  match s with
  | String "0" (String _ _) => None
  | _ => match digits_of dec_digit 10 s with
         | Some n => if n <=? 255 then Some n else None
         | None => None
         end
  end.
Definition parse4 (s : string) : option Z :=
  match Split s "." with
  | [a; b; c; d] =>
      a ← parse_octet a; b ← parse_octet b; c ← parse_octet c; d ← parse_octet d;
      Some (a * 2 ^ 24 + b * 2 ^ 16 + c * 2 ^ 8 + d)
  | _ => None
  end.

(** The hexadecimal digits at the head of [s] and what follows them. *)
Fixpoint span_hex (s : string) : string * string :=
  match s with
  | String c s' =>
      match hex_digit c with
      | Some _ => let '(h, t) := span_hex s' in (String c h, t)
      | None => (EmptyString, s)
      end
  | EmptyString => (EmptyString, EmptyString)
  end.

(** The loop of [parseIPv6]: [acc] holds the groups read so far, latest last,
    and [ell] the number of groups before the ellipsis, if one was seen. The
    fuel bounds the number of groups and is never exhausted at 8. *)
Fixpoint parse6_go (fuel : nat) (s : string) (acc : list Z) (ell : option nat)
    : option (list Z * option nat) :=
  match fuel with
  | O => if String.eqb s "" then Some (acc, ell) else None
  | S fuel =>
      let '(h, t) := span_hex s in
      if (4 <? slen h) || String.eqb h "" then None
      else
        v ← digits_of hex_digit 16 h;
        match t with
        | String "." _ =>
            if (match ell with None => negb (length acc =? 6)%nat | Some _ => false end)
               || (6 <? length acc)%nat then None
            else v4 ← parse4 s; Some (acc ++ [v4 / 2 ^ 16; v4 mod 2 ^ 16], ell)
        | EmptyString => Some (acc ++ [v], ell)
        | String ":" EmptyString => None
        | String ":" (String ":" t') =>
            match ell with
            | Some _ => None
            | None =>
                let acc := acc ++ [v] in
                if String.eqb t' "" then Some (acc, Some (length acc))
                else parse6_go fuel t' acc (Some (length acc))
            end
        | String ":" t' => parse6_go fuel t' (acc ++ [v]) ell
        | _ => None
        end
  end.
Definition expand6 (acc : list Z) (ell : option nat) : option (list Z) :=
  if (length acc =? 8)%nat then
    match ell with None => Some acc | Some _ => None end
  else if (8 <? length acc)%nat then None
  else match ell with
       | None => None
       | Some e => Some (take e acc ++ replicate (8 - length acc) 0 ++ drop e acc)
       end.
Definition parse6_groups (s : string) : option (list Z) :=
  match s with
  | String ":" (String ":" EmptyString) => Some zeros8
  | String ":" (String ":" t) =>
      r ← parse6_go 8 t [] (Some O); expand6 r.1 r.2
  | _ => r ← parse6_go 8 s [] None; expand6 r.1 r.2
  end.
Definition parse6 (s : string) : option Addr :=
  match Cut s "%" with
  | Some (a, z) => if String.eqb z "" then None else g ← parse6_groups a; Some (Addr6 g z)
  | None => g ← parse6_groups s; Some (Addr6 g "")
  end.

(** [ParseAddr]: the first of '.', ':' and '%' decides the family. *)
Fixpoint ParseAddr_go (rest s : string) : option Addr :=
  match rest with
  | EmptyString => None
  | String "." _ => v ← parse4 s; Some (Addr4 v)
  | String ":" _ => parse6 s
  | String "%" _ => None
  | String _ rest => ParseAddr_go rest s
  end.
Definition ParseAddr (s : string) : option Addr := ParseAddr_go s s.

(** The inside of a balanced pair of brackets. *)
Definition unbracket (s : string) : option string :=
  match s with
  | String "[" s' =>
      if HasSuffix s' "]" then Some (TrimSuffix s' "]") else None
  | _ => None
  end.

(** [ParseAddrPort]: brackets are required around IPv6 and refused around IPv4. *)
Definition ParseAddrPort (s : string) : option AddrPort :=
  match splitLastByte s ":" with
  | None => None
  | Some (ip, port) =>
      if String.eqb ip "" || String.eqb port "" then None
      else
        p ← ParseUint_dec port 16;
        if HasPrefix ip "[" then
          ip' ← unbracket ip;
          a ← ParseAddr ip';
          if Is4 a then None else Some (AddrPortFrom a p)
        else
          a ← ParseAddr ip;
          if Is6 a then None else Some (AddrPortFrom a p)
  end.

Example print_v6 :
  AddrPort_String (AddrPortFrom (Addr6 [0xfd00;0x10;0x10;0;0;0;0;1] "") 3260)
  = "[fd00:10:10::1]:3260".
Proof. reflexivity. Qed.
Example parse_v6 :
  ParseAddrPort "[FD00:0:0:10:0:0:0:1]:3260"
  = Some (AddrPortFrom (Addr6 [0xfd00;0;0;0x10;0;0;0;1] "") 3260).
Proof. reflexivity. Qed.
Example parse_mapped :
  Unmap <$> ParseAddr "::ffff:10.0.0.1" = Some (Addr4 0x0a000001).
Proof. reflexivity. Qed.
Example parse_bad :
  map ParseAddr ["fd00::1::2"; "1.2.3"; "01.2.3.4"; "::1.2.3.4.5"; "1:2:3:4:5:6:7:8:9"; "fd00:"]
  = [None; None; None; None; None; None].
Proof. reflexivity. Qed.
