(* ===== verification/Errors.v ===== *)
(** * Errors: Go error values, errno, and lio/errors.go

    An [error] is a tree of wrapped causes. The text of a formatted error is
    kept as its format string and arguments, unrendered: nothing in the source
    branches on it. What the source does branch on — the errno reached through
    [errors.Is] and [os.IsNotExist], and the [Kind] reached through
    [errors.As] — is computed by the functions below. *)

From S2P Require Import Prelude GoStrings.

Inductive errno : Type :=
  | ENOENT | EEXIST | ENOTDIR | EISDIR | EINVAL | EBUSY | ENOTEMPTY
  | EACCES | EPERM | EROFS | ENOSPC | ENOMEM | EOPNOTSUPP | EIO
  | EOTHER (n : Z).

#[global] Instance errno_eq_dec : EqDecision errno.
Proof. solve_decision. Defined.

(** lio/errors.go: [Kind]. *)
Inductive Kind : Type :=
  | KindUnknown | KindNotFound | KindInvalidSpec | KindKernelRejected
  | KindDependency | KindBusy | KindIncompatible | KindConfigfs.

#[global] Instance Kind_eq_dec : EqDecision Kind.
Proof. solve_decision. Defined.

Definition Kind_String (k : Kind) : string :=
  match k with
  | KindNotFound => "not-found"
  | KindInvalidSpec => "invalid-spec"
  | KindKernelRejected => "kernel-rejected"
  | KindDependency => "dependency"
  | KindBusy => "busy"
  | KindIncompatible => "incompatible"
  | KindConfigfs => "configfs"
  | KindUnknown => "unknown"
  end.

Inductive goerr : Type :=
  (* an *os.PathError, *os.LinkError or bare errno from a system call *)
  | ErrSys (op path : string) (e : errno)
  (* fmt.Errorf or errors.New that wraps nothing: format and arguments *)
  | ErrMsg (fmt : string) (args : list string)
  (* fmt.Errorf that prints a cause with %v: the cause is text, not wrapped *)
  | ErrMsgV (fmt : string) (args : list string) (cause : goerr)
  (* fmt.Errorf with %w *)
  | ErrWrap (fmt : string) (args : list string) (cause : goerr)
  (* *lio.Error *)
  | ErrLio (kind : Kind) (op obj : string) (cause : option goerr)
  (* the package's sentinel errors *)
  | ErrNoLIOTree
  | ErrHolderUnreadable
  | ErrStaleScope.

(** [errors.Is(err, errno)]. *)
Fixpoint errors_Is (err : goerr) (e : errno) : bool :=
  match err with
  | ErrSys _ _ e' => bool_decide (e = e')
  | ErrWrap _ _ c => errors_Is c e
  | ErrLio _ _ _ (Some c) => errors_Is c e
  | _ => false
  end.
(** [os.IsNotExist] and [os.IsExist] look through system call errors only, not
    through [%w]; [IsExist] also holds of ENOTEMPTY. *)
Definition IsNotExist (err : goerr) : bool :=
  match err with ErrSys _ _ e => bool_decide (e = ENOENT) | _ => false end.
Definition IsExist (err : goerr) : bool :=
  match err with
  | ErrSys _ _ e => bool_decide (e = EEXIST) || bool_decide (e = ENOTEMPTY)
  | _ => false
  end.

Definition errf (kind : Kind) (op obj : string) (err : goerr) : goerr :=
  ErrLio kind op obj (Some err).
Definition wrapf (fmt : string) (args : list string) : goerr := ErrMsg fmt args.

(** [KindOf]: the kind of the first [*Error] on the chain. *)
Fixpoint KindOf (err : goerr) : Kind :=
  match err with
  | ErrLio k _ _ _ => k
  | ErrWrap _ _ c => KindOf c
  | _ => KindUnknown
  end.

(** [Error.Unwrap]. *)
Definition Unwrap (err : goerr) : option goerr :=
  match err with ErrLio _ _ _ c => c | ErrWrap _ _ c => Some c | _ => None end.

(** [Error.Error], from the text of the cause. *)
Definition Error_Error (text : goerr → string) (kind : Kind) (op obj : string) (cause : option goerr) : string :=
  "lio: " +:+ op +:+ " " +:+ obj +:+ ": " +:+ Kind_String kind
  +:+ match cause with Some c => ": " +:+ text c | None => "" end.

Definition classifyCreate (err : goerr) (fallback : Kind) : Kind :=
  if errors_Is err EINVAL || errors_Is err EOPNOTSUPP then KindKernelRejected
  else if errors_Is err ENOENT then KindDependency
  else if errors_Is err EEXIST || errors_Is err ENOTDIR then KindConfigfs
  else if errors_Is err EACCES || errors_Is err EPERM || errors_Is err EROFS
          || errors_Is err ENOSPC || errors_Is err ENOMEM then KindConfigfs
  else fallback.

Definition classifyRemove (err : goerr) (fallback : Kind) : Kind :=
  if errors_Is err EBUSY then KindBusy
  else if errors_Is err ENOTEMPTY then KindDependency
  else if errors_Is err EACCES || errors_Is err EPERM || errors_Is err EROFS then KindConfigfs
  else fallback.

(** lio/backstore.go: [notADir]. *)
Definition notADir (err : goerr) : bool := IsNotExist err || errors_Is err ENOTDIR.
