(* ===== verification/LioModel.v ===== *)
(** * lio: the object model, its validation and its paths

    lio/model.go, lio/util.go, lio/paths.go and lio/validate.go. Records keep
    the source's field names behind a prefix per type ([bs_], [t_], [g_],
    [p_], [l_], [ml_], [acl_]). An [Attributes] map is a [gmap]: the source
    tells a nil map from an empty one only to allocate it. *)

From S2P Require Import Prelude GoStrings Errors Netip.

(** ** model.go *)

Definition DefaultPortalPort : Z := 3260.
Definition FileIO : string := "fileio".
Definition IBlock : string := "iblock".

Record Backstore : Type := mkBackstore {
  bs_Type : string;
  bs_HBA : Z;
  bs_Name : string;
  bs_Dev : string;
  bs_BufferedIO : bool;
  bs_Size : Z;                (* int64 *)
  bs_WWN : string;
  bs_VendorID : string;
  bs_ProductID : string;
  bs_Revision : string;
  bs_Attributes : gmap string string
}.

Record Portal : Type := mkPortal { p_IP : Addr; p_Port : Z (* uint16 *) }.
Record LUN : Type := mkLUN { l_Index : Z; l_Backstore : string }.
Record MappedLUN : Type := mkMappedLUN {
  ml_Index : Z; ml_TPGLUN : Z; ml_WriteProtect : bool
}.
Record ACL : Type := mkACL { acl_InitiatorIQN : string; acl_MappedLUNs : list MappedLUN }.
Record TPG : Type := mkTPG {
  g_Tag : Z;
  g_Enable : bool;
  g_Portals : list Portal;
  g_LUNs : list LUN;
  g_ACLs : list ACL;
  g_Attributes : gmap string string
}.
Record Target : Type := mkTarget { t_IQN : string; t_TPGs : list TPG }.
Record Config : Type := mkConfig { c_Backstores : list Backstore; c_Targets : list Target }.

#[global] Instance Backstore_eq_dec : EqDecision Backstore.
Proof. solve_decision. Defined.
#[global] Instance Portal_eq_dec : EqDecision Portal.
Proof. solve_decision. Defined.
#[global] Instance LUN_eq_dec : EqDecision LUN.
Proof. solve_decision. Defined.
#[global] Instance MappedLUN_eq_dec : EqDecision MappedLUN.
Proof. solve_decision. Defined.
#[global] Instance ACL_eq_dec : EqDecision ACL.
Proof. solve_decision. Defined.
#[global] Instance TPG_eq_dec : EqDecision TPG.
Proof. solve_decision. Defined.
#[global] Instance Target_eq_dec : EqDecision Target.
Proof. solve_decision. Defined.

Definition emptyConfig : Config := mkConfig [] [].

Definition Portal_port (p : Portal) : Z :=
  if p_Port p =? 0 then DefaultPortalPort else p_Port p.

Definition dirName (b : Backstore) : string := bs_Type b +:+ "_" +:+ itoa (bs_HBA b).

(** ** paths.go *)

Definition hbaPath (b : Backstore) : list string := ["core"; dirName b].
Definition objPath (b : Backstore) : list string := ["core"; dirName b; bs_Name b].
Definition targetPath (iqn : string) : list string := ["iscsi"; iqn].
Definition tpgPath (iqn : string) (tag : Z) : list string :=
  ["iscsi"; iqn; "tpgt_" +:+ itoa tag].
Definition Portal_String (p : Portal) : string :=
  AddrPort_String (AddrPortFrom (p_IP p) (Portal_port p)).
Definition portalPath (iqn : string) (tag : Z) (p : Portal) : list string :=
  tpgPath iqn tag ++ ["np"; Portal_String p].

(** [ParsePortal]: an address and port, or a bare address, optionally
    bracketed, whose port is then 0. *)
Definition ParsePortal (name : string) : option Portal :=
  match ParseAddrPort name with
  | Some ap =>
      if String.eqb (Zone (ap_Addr ap)) "" then Some (mkPortal (Unmap (ap_Addr ap)) (ap_Port ap))
      else None
  | None =>
      let bare := match unbracket name with Some b => b | None => name end in
      match ParseAddr bare with
      | None => None
      | Some addr => if String.eqb (Zone addr) "" then Some (mkPortal (Unmap addr) 0) else None
      end
  end.

Definition Portal_key (p : Portal) : AddrPort := AddrPortFrom (p_IP p) (Portal_port p).

Definition lunPath (iqn : string) (tag index : Z) : list string :=
  tpgPath iqn tag ++ ["lun"; "lun_" +:+ itoa index].
Definition aclPath (iqn : string) (tag : Z) (initiator : string) : list string :=
  tpgPath iqn tag ++ ["acls"; initiator].
Definition mappedLunPath (iqn : string) (tag : Z) (initiator : string) (index : Z) : list string :=
  aclPath iqn tag initiator ++ ["lun_" +:+ itoa index].

(** ** util.go *)

Definition splitLast (s : string) (sep : ascii) : option (string * string) := splitLastByte s sep.

Definition lastField (s : string) (sep : ascii) : string :=
  match splitLastByte s sep with
  | Some (_, t) => TrimSpace t
  | None => TrimSpace s
  end.

(** The file name of a LUN symlink: ten hex digits from five random bytes. *)
Definition alias (rand5 : list Z) : string := hex_encode rand5.

Definition sortedKeys (m : gmap string string) : list string :=
  sort_strings ((map_to_list m).*1).

(** The token up to a space, tab or newline. *)
Fixpoint upto_blank (s : string) : string :=
  match s with
  | EmptyString => EmptyString
  | String c s =>
      if any (Ascii.eqb c) [chr 32; chr 9; chr 10] then EmptyString else String c (upto_blank s)
  end.
Definition parseInfoMode (info : string) : string :=
  match Cut info "Mode: " with
  | None => ""
  | Some (_, after) =>
      let rest := upto_blank after in
      if String.eqb rest "O_DSYNC" || String.eqb rest "Buffered-WCE" then rest else ""
  end.

Definition isLetterByte (c : ascii) : bool :=
  let b := byte_of c in ((97 <=? b) && (b <=? 122)) || ((65 <=? b) && (b <=? 90)).
Fixpoint span_digits (s : string) : string :=
  match s with
  | String c s =>
      match dec_digit c with Some _ => String c (span_digits s) | None => EmptyString end
  | EmptyString => EmptyString
  end.
(** [parseInfoSize]: the first "Size: " not preceded by a letter whose digits
    parse. [prev] is the byte before the cursor, [skip] the rest of a match
    being stepped over. *)
Fixpoint parseInfoSize_go (prev : option ascii) (skip : nat) (s : string) : Z :=
  match s with
  | EmptyString => -1
  | String c s' =>
      let next k := parseInfoSize_go (Some c) k s' in
      match skip with
      | S k => next k
      | O =>
          if HasPrefix s "Size: " then
            if match prev with Some p => isLetterByte p | None => false end then next 5%nat
            else
              match Atoi (span_digits (drop_str 6 s)) with
              | Some n => n
              | None => next 5%nat
              end
          else next O
      end
  end.
Definition parseInfoSize (info : string) : Z := parseInfoSize_go None O info.

Definition isHex16 (s : string) : bool :=
  (String.length s =? 16)%nat && str_all is_lower_hex s.

(** ** validate.go *)

Definition maxIQNLen : Z := 223.

(** [range] over the runes of the name, tested with ASCII bounds only: a byte
    of a multi-byte rune is at least 0x80 and passes every test, as its rune
    does. *)
Definition iqn_char_ok (c : ascii) : bool :=
  let r := byte_of c in
  negb ((r =? 47) || (r =? 32) || (r <? 0x20) || (r =? 0x7f)) && negb (r =? 44).
Definition validIQNSeg (iqn : string) : bool :=
  negb (String.eqb iqn "" || String.eqb iqn "." || String.eqb iqn ".." || (maxIQNLen <? slen iqn))
  && str_all iqn_char_ok iqn.
Definition ValidInitiatorIQN (s : string) : bool := HasPrefix s "iqn." && validIQNSeg s.
Definition ValidTargetIQN (s : string) : bool :=
  (HasPrefix s "iqn." || HasPrefix s "naa.") && validIQNSeg s.

Definition validBlockSize (v : string) : bool :=
  any (String.eqb v) ["512"; "1024"; "2048"; "4096"].

Definition Backstore_validate (b : Backstore) : result goerr unit :=
  if negb (String.eqb (bs_Type b) FileIO || String.eqb (bs_Type b) IBlock)
  then Err (wrapf "unsupported backstore type %q" [bs_Type b])
  else if String.eqb (bs_Name b) "" then Err (wrapf "backstore name is required" [])
  else if ContainsAny (bs_Name b) [chr 47; chr 32; chr 9; chr 10]
  then Err (wrapf "backstore name %q contains invalid characters" [bs_Name b])
  else if String.eqb (bs_Name b) "." || String.eqb (bs_Name b) ".."
  then Err (wrapf "backstore name %q is not a name configfs accepts" [bs_Name b])
  else if bs_HBA b <? 0 then Err (wrapf "backstore HBA index must be >= 0" [])
  else if String.eqb (bs_Dev b) ""
  then Err (wrapf "backstore backing device/file path is required" [])
  else if negb (String.eqb (bs_WWN b) "") && negb (isHex16 (bs_WWN b))
  then Err (wrapf "wwn %q must be 16 lowercase hex digits" [bs_WWN b])
  else match bs_Attributes b !! "block_size" with
       | Some v =>
           if negb (validBlockSize v)
           then Err (wrapf "block_size %q must be one of 512, 1024, 2048, 4096" [v])
           else Ok tt
       | None => Ok tt
       end.

Section validate.
(** [id] is the ["target/" + IQN] every error of [Target.validate] names. *)
Context (id : string).
Definition invalid (fmt : string) (args : list string) : goerr :=
  errf KindInvalidSpec "validate" id (wrapf fmt args).

Definition validate_lun (backstores : gset string) (seen : gset Z) (l : LUN)
    : result goerr (gset Z) :=
  if l_Index l <? 0 then Err (invalid "LUN index must be >= 0" [])
  else if decide (l_Index l ∈ seen)
  then Err (invalid "duplicate LUN index %d" [itoa (l_Index l)])
  else if decide (l_Backstore l ∈ backstores) then Ok ({[l_Index l]} ∪ seen)
  else Err (errf KindDependency "validate" id
              (wrapf "LUN %d references unknown backstore %q" [itoa (l_Index l); l_Backstore l])).

Definition validate_portal (seen : list AddrPort) (p : Portal)
    : result goerr (list AddrPort) :=
  if negb (IsValid (p_IP p)) then Err (invalid "portal IP is required" [])
  else
    let key := AddrPortFrom (p_IP p) (Portal_port p) in
    if decide (key ∈ seen) then Err (invalid "duplicate portal %s" [AddrPort_String key])
    else Ok (key :: seen).

Definition validate_mapped_lun (initiator : string) (lunIdx : gset Z) (seen : gset Z)
    (m : MappedLUN) : result goerr (gset Z) :=
  if ml_Index m <? 0
  then Err (invalid "mapped LUN index must be >= 0 (initiator %q)" [initiator])
  else if decide (ml_Index m ∈ seen)
  then Err (invalid "duplicate mapped LUN index %d (initiator %q)"
              [itoa (ml_Index m); initiator])
  else if decide (ml_TPGLUN m ∈ lunIdx) then Ok ({[ml_Index m]} ∪ seen)
  else Err (errf KindDependency "validate" id
              (wrapf "mapped LUN %d references unknown TPG LUN %d"
                 [itoa (ml_Index m); itoa (ml_TPGLUN m)])).

Definition validate_acl (lunIdx : gset Z) (seen : gset string) (acl : ACL)
    : result goerr (gset string) :=
  let i := acl_InitiatorIQN acl in
  if negb (HasPrefix i "iqn.") then Err (invalid "initiator IQN %q must start with iqn." [i])
  else if negb (validIQNSeg i)
  then Err (invalid "initiator IQN %q contains characters invalid for a configfs name" [i])
  else if decide (i ∈ seen) then Err (invalid "duplicate ACL initiator IQN %q" [i])
  else let? _ := rfold (validate_mapped_lun i lunIdx) ∅ (acl_MappedLUNs acl) in
       Ok ({[i]} ∪ seen).

Definition validate_tpg (backstores : gset string) (seen : gset Z) (tpg : TPG)
    : result goerr (gset Z) :=
  if g_Tag tpg <? 1 then Err (invalid "TPG tag must be >= 1, got %d" [itoa (g_Tag tpg)])
  else if decide (g_Tag tpg ∈ seen)
  then Err (invalid "duplicate TPG tag %d" [itoa (g_Tag tpg)])
  else
    let? lunIdx := rfold (validate_lun backstores) ∅ (g_LUNs tpg) in
    let? _ := rfold validate_portal [] (g_Portals tpg) in
    let? _ := rfold (validate_acl lunIdx) ∅ (g_ACLs tpg) in
    Ok ({[g_Tag tpg]} ∪ seen).
End validate.

Definition Target_validate (backstores : gset string) (t : Target) : result goerr unit :=
  let id := "target/" +:+ t_IQN t in
  if negb (HasPrefix (t_IQN t) "iqn.") && negb (HasPrefix (t_IQN t) "naa.")
  then Err (errf KindInvalidSpec "validate" id
              (wrapf "target IQN %q must start with iqn. or naa." [t_IQN t]))
  else if negb (validIQNSeg (t_IQN t))
  then Err (errf KindInvalidSpec "validate" id
              (wrapf "target IQN %q contains characters invalid for a configfs name" [t_IQN t]))
  else let? _ := rfold (validate_tpg id backstores) ∅ (t_TPGs t) in Ok tt.

Definition validate_backstore_entry (names : gset string) (b : Backstore)
    : result goerr (gset string) :=
  match Backstore_validate b with
  | Err err => Err (errf KindInvalidSpec "validate" ("backstore/" +:+ bs_Name b) err)
  | Ok _ =>
      if decide (bs_Name b ∈ names)
      then Err (errf KindInvalidSpec "validate" ("backstore/" +:+ bs_Name b)
                  (wrapf "duplicate backstore name" []))
      else Ok ({[bs_Name b]} ∪ names)
  end.

Definition validate_target_entry (names : gset string) (iqns : gset string) (t : Target)
    : result goerr (gset string) :=
  if decide (t_IQN t ∈ iqns)
  then Err (errf KindInvalidSpec "validate" ("target/" +:+ t_IQN t)
              (wrapf "duplicate target IQN" []))
  else let? _ := Target_validate names t in Ok ({[t_IQN t]} ∪ iqns).

(** [Config.Validate]. *)
Definition Config_Validate (c : Config) : result goerr unit :=
  let? names := rfold validate_backstore_entry ∅ (c_Backstores c) in
  let? _ := rfold (validate_target_entry names) ∅ (c_Targets c) in
  Ok tt.
