(* ===== verification/LioValid.v ===== *)
(** * What Config.Validate accepts

    The declarative meaning of a valid configuration, and the proof that
    [Config_Validate] (lio/validate.go) decides exactly that. The order of the
    checks and the error of each are in the definitions; here is only the set
    of configurations that pass, on which the later files build. *)

From S2P Require Import Prelude GoStrings Errors Netip LioModel.

(** ** The specification *)

(** A usable configfs segment that is also safe inside a comma-separated PR
    record: 1 to 223 bytes, not a dot name, and no slash, space, comma or
    control character. *)
Definition good_name_byte (c : ascii) : Prop :=
  0x20 < byte_of c ∧ byte_of c ≠ 0x7f ∧ c ≠ chr 47 ∧ c ≠ chr 44.
Definition good_iqn_seg (s : string) : Prop :=
  s ≠ "" ∧ s ≠ "." ∧ s ≠ ".." ∧ slen s <= 223 ∧ Forall good_name_byte (chars s).

Definition valid_backstore (b : Backstore) : Prop :=
  (bs_Type b = "fileio" ∨ bs_Type b = "iblock") ∧
  bs_Name b ≠ "" ∧ bs_Name b ≠ "." ∧ bs_Name b ≠ ".." ∧
  Forall (λ c, c ≠ chr 47 ∧ c ≠ chr 32 ∧ c ≠ chr 9 ∧ c ≠ chr 10) (chars (bs_Name b)) ∧
  0 <= bs_HBA b ∧ bs_Dev b ≠ "" ∧
  (bs_WWN b = "" ∨ String.length (bs_WWN b) = 16%nat
                   ∧ Forall (λ c, is_lower_hex c = true) (chars (bs_WWN b))) ∧
  (∀ v, bs_Attributes b !! "block_size" = Some v → v ∈ ["512"; "1024"; "2048"; "4096"]).

Record valid_acl (luns : list LUN) (a : ACL) : Prop := {
  va_prefix : HasPrefix (acl_InitiatorIQN a) "iqn." = true;
  va_iqn : good_iqn_seg (acl_InitiatorIQN a);
  va_distinct : NoDup (ml_Index <$> acl_MappedLUNs a);
  va_mapped : Forall (λ m, 0 <= ml_Index m ∧ ml_TPGLUN m ∈ l_Index <$> luns) (acl_MappedLUNs a)
}.
Record valid_tpg (names : list string) (g : TPG) : Prop := {
  vg_tag : 1 <= g_Tag g;
  vg_luns : Forall (λ l, 0 <= l_Index l ∧ l_Backstore l ∈ names) (g_LUNs g);
  vg_luns_distinct : NoDup (l_Index <$> g_LUNs g);
  vg_portals : Forall (λ p, IsValid (p_IP p) = true) (g_Portals g);
  vg_portals_distinct : NoDup (Portal_key <$> g_Portals g);
  vg_acls : Forall (valid_acl (g_LUNs g)) (g_ACLs g);
  vg_acls_distinct : NoDup (acl_InitiatorIQN <$> g_ACLs g)
}.
Record valid_target (names : list string) (t : Target) : Prop := {
  vt_prefix : HasPrefix (t_IQN t) "iqn." || HasPrefix (t_IQN t) "naa." = true;
  vt_iqn : good_iqn_seg (t_IQN t);
  vt_tpgs : Forall (valid_tpg names) (t_TPGs t);
  vt_distinct : NoDup (g_Tag <$> t_TPGs t)
}.
Record valid_config (c : Config) : Prop := {
  vc_backstores : Forall valid_backstore (c_Backstores c);
  vc_names : NoDup (bs_Name <$> c_Backstores c);
  vc_targets : Forall (valid_target (bs_Name <$> c_Backstores c)) (c_Targets c);
  vc_iqns : NoDup (t_IQN <$> c_Targets c)
}.

(** ** Strings and their characters *)

Lemma str_all_Forall (f : ascii → bool) s : str_all f s = true ↔ Forall (λ c, f c = true) (chars s).
Proof.
  induction s as [|c s IH]; simpl; [split; [constructor|done]|].
  rewrite andb_true_iff, Forall_cons, IH. done.
Qed.
Lemma str_any_false (f : ascii → bool) s : str_any f s = false ↔ Forall (λ c, f c = false) (chars s).
Proof.
  induction s as [|c s IH]; simpl; [split; [constructor|done]|].
  rewrite orb_false_iff, Forall_cons, IH. done.
Qed.
Lemma byte_chr n : 0 <= n < 256 → byte_of (chr n) = n.
Proof. intros H. unfold byte_of, chr. rewrite N_ascii_embedding by lia. lia. Qed.
Lemma chr_byte c : chr (byte_of c) = c.
Proof. unfold byte_of, chr. rewrite N2Z.id. apply ascii_N_embedding. Qed.
Lemma byte_eq c n : 0 <= n < 256 → byte_of c = n ↔ c = chr n.
Proof.
  intros H. split; [intros <-; by rewrite chr_byte | intros ->; by apply byte_chr].
Qed.
Lemma byte_range c : 0 <= byte_of c < 256.
Proof. unfold byte_of. pose proof (N_ascii_bounded c). lia. Qed.

Lemma iqn_char_ok_spec c : iqn_char_ok c = true ↔ good_name_byte c.
Proof.
  unfold iqn_char_ok, good_name_byte.
  rewrite <- (byte_eq c 47), <- (byte_eq c 44) by lia.
  rewrite andb_true_iff, !negb_true_iff, !orb_false_iff, !Z.eqb_neq, Z.ltb_ge. lia.
Qed.

Lemma validIQNSeg_spec s : validIQNSeg s = true ↔ good_iqn_seg s.
Proof.
  unfold validIQNSeg, good_iqn_seg, maxIQNLen.
  rewrite andb_true_iff, negb_true_iff, !orb_false_iff, !String.eqb_neq, Z.ltb_ge, str_all_Forall.
  rewrite (Forall_iff _ _ _ iqn_char_ok_spec). tauto.
Qed.

Lemma block_size_spec v : validBlockSize v = true ↔ v ∈ ["512"; "1024"; "2048"; "4096"].
Proof.
  unfold validBlockSize. rewrite any_true. split.
  - intros (x & Hx & ->%String.eqb_eq). done.
  - intros H. exists v. split; [done | apply String.eqb_refl].
Qed.

Lemma name_chars_ok s :
  ContainsAny s [chr 47; chr 32; chr 9; chr 10] = false
  ↔ Forall (λ c, c ≠ chr 47 ∧ c ≠ chr 32 ∧ c ≠ chr 9 ∧ c ≠ chr 10) (chars s).
Proof.
  unfold ContainsAny. rewrite str_any_false. apply Forall_iff. intros c.
  cbn [any existsb]. rewrite !orb_false_iff, !Ascii.eqb_neq. tauto.
Qed.

Lemma isHex16_spec s :
  isHex16 s = true
  ↔ String.length s = 16%nat ∧ Forall (λ c, is_lower_hex c = true) (chars s).
Proof. unfold isHex16. by rewrite andb_true_iff, Nat.eqb_eq, str_all_Forall. Qed.

(** ** The checks, one at a time *)

Lemma Backstore_validate_spec b : Backstore_validate b = Ok tt ↔ valid_backstore b.
Proof.
  unfold Backstore_validate, valid_backstore, FileIO, IBlock.
  rewrite <- name_chars_ok, <- isHex16_spec. setoid_rewrite <- block_size_spec.
  destruct (_ || _) eqn:E1; cbn [negb].
  2: { apply orb_false_iff in E1 as [?%String.eqb_neq ?%String.eqb_neq]. split; [done | tauto]. }
  apply orb_true_iff in E1. rewrite !String.eqb_eq in E1.
  destruct (String.eqb (bs_Name b) "") eqn:E2.
  { apply String.eqb_eq in E2. split; [done | tauto]. }
  apply String.eqb_neq in E2. destruct (ContainsAny _ _) eqn:E3; [split; [done | intros (_ & _ & _ & _ & ? & _); congruence]|].
  destruct (String.eqb (bs_Name b) "." || _) eqn:E4.
  { apply orb_true_iff in E4. rewrite !String.eqb_eq in E4. split; [done | tauto]. }
  apply orb_false_iff in E4 as [?%String.eqb_neq ?%String.eqb_neq].
  destruct (Z.ltb_spec (bs_HBA b) 0); [split; [done | intros (_ & _ & _ & _ & _ & ? & _); lia]|].
  destruct (String.eqb (bs_Dev b) "") eqn:E5.
  { apply String.eqb_eq in E5. split; [done | tauto]. }
  apply String.eqb_neq in E5. destruct (negb _ && _) eqn:E6.
  { apply andb_true_iff in E6 as [?%negb_true_iff%String.eqb_neq ?%negb_true_iff].
    split; [done|]. intros (_ & _ & _ & _ & _ & _ & _ & [?|?] & _); congruence. }
  assert (bs_WWN b = "" ∨ isHex16 (bs_WWN b) = true).
  { apply andb_false_iff in E6. rewrite !negb_false_iff, String.eqb_eq in E6. done. }
  destruct (bs_Attributes b !! "block_size") as [v|] eqn:E7; [|split; [intros _; split_and!; done | done]].
  destruct (validBlockSize v) eqn:E8; cbn [negb].
  - split; [intros _; split_and!; try done; by intros ? [= <-] | done].
  - split; [done|]. intros (_ & _ & _ & _ & _ & _ & _ & _ & Hv). specialize (Hv v eq_refl). congruence.
Qed.

Lemma mapped_step i (lunIdx seen : gset Z) m s' id :
  validate_mapped_lun id i lunIdx seen m = Ok s' ↔
  (0 <= ml_Index m ∧ ml_TPGLUN m ∈ lunIdx) ∧ ml_Index m ∉ seen ∧ s' = {[ml_Index m]} ∪ seen.
Proof.
  unfold validate_mapped_lun. repeat case_match; bool_facts;
    (split; [intros HH; try discriminate HH; injection HH as <- | intros ([??] & ? & ->)]; try done);
    split_and?; try done; lia.
Qed.

Lemma lun_step id (names : gset string) (seen : gset Z) l s' :
  validate_lun id names seen l = Ok s' ↔
  (0 <= l_Index l ∧ l_Backstore l ∈ names) ∧ l_Index l ∉ seen ∧ s' = {[l_Index l]} ∪ seen.
Proof.
  unfold validate_lun. repeat case_match; bool_facts;
    (split; [intros HH; try discriminate HH; injection HH as <- | intros ([??] & ? & ->)]; try done);
    split_and?; try done; lia.
Qed.

Lemma portal_step id (seen : list AddrPort) p s' :
  validate_portal id seen p = Ok s' ↔
  IsValid (p_IP p) = true ∧ Portal_key p ∉ seen ∧ s' = Portal_key p :: seen.
Proof.
  unfold validate_portal, Portal_key. repeat case_match; bool_facts;
    (split; [intros HH; try discriminate HH; injection HH as <- | intros (? & ? & ->)]; try done);
    split_and?; congruence.
Qed.

(** A loop over a finite set of keys accepts exactly the lists of distinct keys
    whose elements pass. *)
Section gset_loop.
Context {A B : Type} `{Countable B} (key : A → B) (P : A → Prop).
Context (f : gset B → A → result goerr (gset B)).
Context (f_spec : ∀ s x s', f s x = Ok s' ↔ P x ∧ key x ∉ s ∧ s' = {[key x]} ∪ s).

Lemma gset_loop_spec l s' :
  rfold f ∅ l = Ok s' ↔ Forall P l ∧ NoDup (key <$> l) ∧ s' = list_to_set (key <$> l).
Proof.
  assert (Hok : ∀ s x s', f s x = Ok s' →
    P x ∧ ¬ (key x ∈ s) ∧ ∀ k, k ∈ s' ↔ k = key x ∨ k ∈ s).
  { intros s x s1 (HP & Hn & ->)%f_spec. split_and!; [done..|]. set_solver. }
  pose proof (rfold_distinct_sound (λ s k, k ∈ s) key P f Hok) as Hsound.
  split.
  - intros (HF & Hd & _ & Hk)%Hsound. split_and!; [done..|].
    apply set_eq. intros k. rewrite elem_of_list_to_set, (Hk k). set_solver.
  - intros (HF & Hd & ->).
    destruct (rfold_distinct_complete (λ s k, k ∈ s) key P f Hok) with (l := l) (s := ∅ : gset B)
      as [s1 Hs1]; [| done | done | set_solver |].
    { intros s x HP Hn. eexists. apply f_spec. done. }
    rewrite Hs1. f_equal. apply Hsound in Hs1 as (_ & _ & _ & Hk).
    apply set_eq. intros k. rewrite elem_of_list_to_set, (Hk k). set_solver.
Qed.
End gset_loop.

Lemma portals_loop id l :
  (∃ s', rfold (validate_portal id) [] l = Ok s') ↔
  Forall (λ p, IsValid (p_IP p) = true) l ∧ NoDup (Portal_key <$> l).
Proof.
  assert (Hok : ∀ s x s', validate_portal id s x = Ok s' →
    IsValid (p_IP x) = true ∧ ¬ (Portal_key x ∈ s) ∧ ∀ k, k ∈ s' ↔ k = Portal_key x ∨ k ∈ s).
  { intros s x s1 (HP & Hn & ->)%portal_step. split_and!; [done..|]. intros k. by rewrite elem_of_cons. }
  split.
  - intros [s' Hs]. eapply (rfold_distinct_sound (λ s k, k ∈ s) Portal_key) in Hs; [|exact Hok].
    tauto.
  - intros [HF Hd]. eapply (rfold_distinct_complete (λ s k, k ∈ s) Portal_key); [exact Hok| |done..|].
    + intros s x HP Hn. eexists. by apply portal_step.
    + intros x _ Hx. inversion Hx.
Qed.

Lemma acl_step id luns (seen : gset string) a s' :
  validate_acl id (list_to_set (l_Index <$> luns)) seen a = Ok s' ↔
  valid_acl luns a ∧ acl_InitiatorIQN a ∉ seen ∧ s' = {[acl_InitiatorIQN a]} ∪ seen.
Proof.
  unfold validate_acl.
  pose proof (gset_loop_spec ml_Index
    (λ m, 0 <= ml_Index m ∧ ml_TPGLUN m ∈ (list_to_set (l_Index <$> luns) : gset Z)) _
    (λ s m s', mapped_step (acl_InitiatorIQN a) (list_to_set (l_Index <$> luns)) s m s' id)
    (acl_MappedLUNs a)) as Hloop.
  setoid_rewrite elem_of_list_to_set in Hloop.
  destruct (HasPrefix _ _) eqn:Hp; simpl; [|split; [done | by intros ([H1 ???] & _); congruence]].
  destruct (validIQNSeg _) eqn:Hv; simpl;
    [|split; [done | intros ([_ H2 ??] & _); apply validIQNSeg_spec in H2; congruence]].
  apply validIQNSeg_spec in Hv.
  destruct (decide _) as [Hin|Hin]; [split; [done | by intros (_ & ? & _)]|].
  rewrite rbind_Ok. split.
  - intros (ml & (HF & Hd & _)%Hloop & [= <-]). split_and!; [by constructor | done..].
  - intros ([_ _ Hd HF] & _ & ->). eexists. split; [|reflexivity]. apply Hloop. done.
Qed.

Lemma tpg_step id names (seen : gset Z) g s' :
  validate_tpg id (list_to_set names) seen g = Ok s' ↔
  valid_tpg names g ∧ g_Tag g ∉ seen ∧ s' = {[g_Tag g]} ∪ seen.
Proof.
  unfold validate_tpg.
  pose proof (gset_loop_spec l_Index
    (λ l, 0 <= l_Index l ∧ l_Backstore l ∈ (list_to_set names : gset string)) _
    (λ s l s', lun_step id (list_to_set names) s l s') (g_LUNs g)) as Hluns.
  setoid_rewrite elem_of_list_to_set in Hluns.
  pose proof (portals_loop id (g_Portals g)) as Hports.
  pose proof (gset_loop_spec acl_InitiatorIQN (valid_acl (g_LUNs g)) _
    (λ s a s', acl_step id (g_LUNs g) s a s') (g_ACLs g)) as Hacls.
  destruct (Z.ltb_spec (g_Tag g) 1); [split; [done | intros ([] & _); lia]|].
  destruct (decide _) as [Hin|Hin]; [split; [done | by intros (_ & ? & _)]|].
  rewrite rbind_Ok. setoid_rewrite rbind_Ok. setoid_rewrite rbind_Ok. split.
  - intros (li & (HF1 & Hd1 & ->)%Hluns & ps & Hps & ac & (HF3 & Hd3 & _)%Hacls & [= <-]).
    destruct (proj1 Hports (ex_intro _ _ Hps)) as [HF2 Hd2].
    split_and!; [by constructor | done..].
  - intros ([? HF1 Hd1 HF2 Hd2 HF3 Hd3] & _ & ->).
    destruct (proj2 Hports (conj HF2 Hd2)) as [ps Hps].
    exists (list_to_set (l_Index <$> g_LUNs g)). split; [by apply Hluns|].
    exists ps. split; [done|]. eexists. split; [by apply Hacls|]. done.
Qed.

Lemma Target_validate_spec names t :
  Target_validate (list_to_set names) t = Ok tt ↔ valid_target names t.
Proof.
  unfold Target_validate.
  pose proof (gset_loop_spec g_Tag (valid_tpg names) _
    (λ s g s', tpg_step ("target/" +:+ t_IQN t) names s g s') (t_TPGs t)) as Htpgs.
  rewrite <- negb_orb. destruct (_ || _) eqn:Hp; simpl;
    [|split; [done | intros []; congruence]].
  destruct (validIQNSeg _) eqn:Hv; simpl;
    [|split; [done | intros [_ H2 ??]; apply validIQNSeg_spec in H2; congruence]].
  apply validIQNSeg_spec in Hv. rewrite rbind_Ok. split.
  - intros (s & (HF & Hd & _)%Htpgs & _). by constructor.
  - intros [_ _ HF Hd]. eexists. split; [by apply Htpgs | done].
Qed.

Lemma backstore_entry_step names b s' :
  validate_backstore_entry names b = Ok s' ↔
  valid_backstore b ∧ bs_Name b ∉ names ∧ s' = {[bs_Name b]} ∪ names.
Proof.
  unfold validate_backstore_entry. pose proof (Backstore_validate_spec b) as Hb.
  destruct (Backstore_validate b) as [[]|e].
  - destruct (decide _); (split; [intros HH; try discriminate HH; injection HH as <- | intros (?&?&->)]);
      try done. split_and!; [by apply Hb | done..].
  - split; [done|]. intros (Hv & _). apply Hb in Hv. discriminate Hv.
Qed.

Lemma target_entry_step names (iqns : gset string) t s' :
  validate_target_entry (list_to_set names) iqns t = Ok s' ↔
  valid_target names t ∧ t_IQN t ∉ iqns ∧ s' = {[t_IQN t]} ∪ iqns.
Proof.
  unfold validate_target_entry. destruct (decide _) as [?|?].
  - split; [done | by intros (_ & ? & _)].
  - rewrite rbind_Ok. split.
    + intros ([] & Ht%Target_validate_spec & [= <-]). done.
    + intros (Ht & _ & ->). exists tt. split; [by apply Target_validate_spec | done].
Qed.

Lemma Config_Validate_spec c u : Config_Validate c = Ok u ↔ valid_config c.
Proof.
  destruct u. unfold Config_Validate.
  pose proof (gset_loop_spec bs_Name valid_backstore _ backstore_entry_step (c_Backstores c)) as Hb.
  rewrite rbind_Ok. setoid_rewrite rbind_Ok.
  pose proof (gset_loop_spec t_IQN (valid_target (bs_Name <$> c_Backstores c)) _
    (λ s t s', target_entry_step (bs_Name <$> c_Backstores c) s t s') (c_Targets c)) as Ht.
  split.
  - intros (names & (HF & Hd & ->)%Hb & iqns & (HF2 & Hd2 & _)%Ht & _). by constructor.
  - intros [HF Hd HF2 Hd2]. eexists. split; [by apply Hb|].
    eexists. split; [by apply Ht | done].
Qed.

(** C36. [Config.Validate] accepts exactly the well-formed configurations:
    backstores with distinct names and usable types, names, HBA indices,
    devices, serials and block sizes; targets with distinct, configfs-safe,
    comma-free names; TPGs with distinct positive tags; distinct LUN indices
    naming backstores of the same configuration; distinct valid portals; and
    ACLs whose mapped LUNs refer to LUNs of their own TPG. *)
Theorem Config_Validate_exact (c : Config) : Config_Validate c = Ok tt ↔ valid_config c.
Proof. apply Config_Validate_spec. Qed.

(** ** The errors *)

Definition spec_or_dependency (e : goerr) : Prop :=
  KindOf e = KindInvalidSpec ∨ KindOf e = KindDependency.

Ltac kind_cases :=
  repeat (case_match; try discriminate); intros [= <-]; (by left) || (by right).

Lemma validate_tpg_kind id names seen g e :
  validate_tpg id names seen g = Err e → spec_or_dependency e.
Proof.
  unfold validate_tpg. case_match; [kind_cases|]. case_match; [kind_cases|].
  rewrite rbind_Err. intros [(? & l & _ & Hl)%rfold_Err|(li & _ & HH)].
  { revert Hl. unfold validate_lun. kind_cases. }
  revert HH. rewrite rbind_Err. intros [(? & p & _ & Hp)%rfold_Err|(ps & _ & HH)].
  { revert Hp. unfold validate_portal. kind_cases. }
  revert HH. rewrite rbind_Err. intros [(? & a & _ & Ha)%rfold_Err|(ac & _ & HH)]; [|discriminate].
  revert Ha. unfold validate_acl. do 3 (case_match; [kind_cases|]).
  rewrite rbind_Err. intros [(? & m & _ & Hm)%rfold_Err|(? & _ & HH)]; [|discriminate].
  revert Hm. unfold validate_mapped_lun. kind_cases.
Qed.

(** Every rejection of [Config.Validate] is a structured error whose kind
    is invalid-spec or dependency — dependency for a LUN or mapped LUN that
    refers to nothing — so a caller can always tell a bad configuration from a
    kernel or configfs failure. *)
Theorem Config_Validate_kinds (c : Config) (e : goerr) (H : Config_Validate c = Err e) :
  KindOf e = KindInvalidSpec ∨ KindOf e = KindDependency.
Proof.
  revert H. unfold Config_Validate. rewrite rbind_Err.
  intros [(? & b & _ & Hb)%rfold_Err|(names & _ & HH)].
  { revert Hb. unfold validate_backstore_entry. kind_cases. }
  revert HH. rewrite rbind_Err. intros [(? & t & _ & Ht)%rfold_Err|(? & _ & HH)]; [|discriminate].
  revert Ht. unfold validate_target_entry. case_match; [kind_cases|].
  rewrite rbind_Err. intros [Ht|(? & _ & HH)]; [|discriminate].
  revert Ht. unfold Target_validate. do 2 (case_match; [kind_cases|]).
  rewrite rbind_Err. intros [(? & g & _ & Hg)%rfold_Err|(? & _ & HH)]; [|discriminate].
  by apply validate_tpg_kind in Hg.
Qed.

(** A LUN that names a backstore the configuration lacks. *)
Definition dangling : Config :=
  mkConfig [] [mkTarget "iqn.2024-01.x:t" [mkTPG 1 true [] [mkLUN 0 "missing"] [] ∅]].

Lemma Config_Validate_kinds_witness :
  let e := errf KindDependency "validate" "target/iqn.2024-01.x:t"
             (wrapf "LUN %d references unknown backstore %q" ["0"; "missing"]) in
  KindOf e = KindInvalidSpec ∨ KindOf e = KindDependency.
Proof. intros e. apply (Config_Validate_kinds dangling e). vm_compute. reflexivity. Defined.

(** The kind is not always invalid-spec. *)
Lemma Config_Validate_dependency :
  ∃ e, Config_Validate dangling = Err e ∧ KindOf e = KindDependency.
Proof. eexists. split; [vm_compute; reflexivity | reflexivity]. Qed.
