(* ===== verification/Scsi.v ===== *)
(** * Scsi: src/scsi, SCSI persistent reservations over SG_IO

    Bytes are integers in [0, 256), buffers are lists of them. The device is a
    parameter: [W] is the state of the world and [sg_io] is the SG_IO ioctl,
    from the request the code builds to an errno or the fields of the
    sg_io_hdr it reads back. Everything the package computes itself — CDBs,
    parameter lists, decoders, verdicts — is defined here. *)

From S2P Require Import Prelude GoStrings.

(** ** encoding/binary.BigEndian *)

Definition be (l : list Z) : Z := foldl (λ a b, a * 256 + b) 0 l.
Fixpoint be_put (n : nat) (v : Z) : list Z :=
  match n with
  | O => []
  | S n => be_put n (v / 256) ++ [v mod 256]
  end.
(** [b[i:j]]. *)
Definition slice (i j : nat) (l : list Z) : list Z := take (j - i) (drop i l).
Definition byte_at (l : list Z) (i : nat) : Z := nth i l 0.
Definition len (l : list Z) : Z := Z.of_nat (length l).

Definition hex02 (z : Z) : string :=
  String (hex_char (z / 16)) (str1 (hex_char (z mod 16))).
Definition upper_hex_char (d : Z) : ascii := if d <? 10 then chr (48 + d) else chr (55 + d).
Definition HEX02 (z : Z) : string :=
  String (upper_hex_char (z / 16)) (str1 (upper_hex_char (z mod 16))).

(** ** sense.go *)

Definition StatusGood := 0x00.
Definition StatusCheckCondition := 0x02.
Definition StatusConditionMet := 0x04.
Definition StatusBusy := 0x08.
Definition StatusReservationConflict := 0x18.
Definition StatusTaskSetFull := 0x28.
Definition StatusACAActive := 0x30.
Definition StatusTaskAborted := 0x40.

Definition StatusName (s : Z) : string :=
  if s =? StatusGood then "GOOD"
  else if s =? StatusCheckCondition then "CHECK CONDITION"
  else if s =? StatusConditionMet then "CONDITION MET"
  else if s =? StatusBusy then "BUSY"
  else if s =? StatusReservationConflict then "RESERVATION CONFLICT"
  else if s =? StatusTaskSetFull then "TASK SET FULL"
  else if s =? StatusACAActive then "ACA ACTIVE"
  else if s =? StatusTaskAborted then "TASK ABORTED"
  else "UNKNOWN(0x" +:+ hex02 s +:+ ")".

Definition SenseUnitAttention := 0x6.

Record Sense := mkSense {
  s_Key : Z; s_ASC : Z; s_ASCQ : Z; s_Raw : list Z; s_Valid : bool }.

Definition Sense_UnitAttention (s : Sense) : bool :=
  s_Valid s && (s_Key s =? SenseUnitAttention).
Definition firstByte (b : list Z) : Z := match b with [] => 0 | x :: _ => x end.
Definition senseKeyName (k : Z) : string :=
  if k =? 0x0 then "NO SENSE"
  else if k =? 0x1 then "RECOVERED ERROR"
  else if k =? 0x2 then "NOT READY"
  else if k =? 0x3 then "MEDIUM ERROR"
  else if k =? 0x4 then "HARDWARE ERROR"
  else if k =? 0x5 then "ILLEGAL REQUEST"
  else if k =? 0x6 then "UNIT ATTENTION"
  else if k =? 0x7 then "DATA PROTECT"
  else if k =? 0xb then "ABORTED COMMAND"
  else "KEY(0x" +:+ (if k <? 16 then str1 (hex_char k) else hex02 k) +:+ ")".
Definition Sense_String (s : Sense) : string :=
  if negb (s_Valid s) then
    "sense=UNDECODABLE (" +:+ itoa (len (s_Raw s)) +:+ " bytes, response code 0x"
      +:+ hex02 (firstByte (s_Raw s)) +:+ ")"
  else
    "sense=" +:+ itoa (s_Key s) +:+ "/" +:+ HEX02 (s_ASC s) +:+ "h/" +:+ HEX02 (s_ASCQ s)
      +:+ "h (" +:+ senseKeyName (s_Key s) +:+ ")".

Definition parseSense (b : list Z) : option Sense :=
  match b with
  | [] => None
  | b0 :: _ =>
      let undecoded := mkSense 0 0 0 b false in
      let code := Z.land b0 0x7f in
      Some
        (if (code =? 0x70) || (code =? 0x71) then
           if len b <=? 13 then undecoded
           else mkSense (Z.land (byte_at b 2) 0x0f) (byte_at b 12) (byte_at b 13) b true
         else if (code =? 0x72) || (code =? 0x73) then
           if len b <=? 3 then undecoded
           else mkSense (Z.land (byte_at b 1) 0x0f) (byte_at b 2) (byte_at b 3) b true
         else undecoded)
  end.

(** ** sgio.go *)

Record Result := mkResult {
  r_Status : Z; r_StatusName : string; r_Sense : option Sense; r_Data : list Z;
  r_HostStatus : Z; r_DriverStatus : Z }.
Definition zeroResult : Result := mkResult 0 "" None [] 0 0.

Definition OK (r : Result) : bool :=
  (r_Status r =? StatusGood) && (r_HostStatus r =? 0) && (Z.land (r_DriverStatus r) 0x0f =? 0).
Definition Conflict (r : Result) : bool :=
  (r_Status r =? StatusReservationConflict) && (r_HostStatus r =? 0)
  && (Z.land (r_DriverStatus r) 0x0f =? 0).
Definition Result_String (r : Result) : string :=
  "status=0x" +:+ hex02 (r_Status r) +:+ " (" +:+ StatusName (r_Status r) +:+ ")"
  +:+ (match r_Sense r with Some s => " " +:+ Sense_String s | None => "" end)
  +:+ (if negb (r_HostStatus r =? 0) || negb (r_DriverStatus r =? 0)
       then " host=0x" +:+ hex02 (r_HostStatus r / 256) +:+ hex02 (r_HostStatus r mod 256)
            +:+ " driver=0x" +:+ hex02 (r_DriverStatus r / 256)
            +:+ hex02 (r_DriverStatus r mod 256)
       else "").

(** The errors of the package. [ScsiPanic] is a Go run-time panic, which
    unwinds through every function of the package. *)
Inductive scsi_err :=
  | ScsiMsg (fmt : string) (args : list string)
  | ScsiIoctl (errno : Z)
  | StatusError (Op : string) (r : Result)
  | ScsiPanic.

(** error.go *)
Definition StatusError_Error (Op : string) (r : Result) : string :=
  "scsi: device declined " +:+ Op +:+ ": " +:+ Result_String r.
Definition StatusError_UnitAttention (r : Result) : bool :=
  match r_Sense r with Some s => Sense_UnitAttention s | None => false end.

Inductive dxfer := dxferNone | dxferToDev | dxferFromDev.
(** The fields of [sgIOHdr] the code fills in, with the buffers they point to. *)
Record sg_request := mkReq {
  q_cdb : list Z; q_dir : dxfer; q_dxferLen : Z; q_dataOut : list Z; q_mxSbLen : Z;
  q_timeout : Z }.
(** What the kernel leaves in [sgIOHdr] and the two buffers. *)
Record sg_reply := mkRep {
  p_status : Z; p_hostStatus : Z; p_driverStatus : Z; p_resid : Z;
  p_sbLenWr : Z; p_sense : list Z; p_data : list Z }.

Definition DefaultTimeout : Z := 20 * 10 ^ 9.
(** [timeoutMS]: the command timeout in milliseconds. *)
Definition timeoutMS (Timeout : Z) : Z :=
  let t := if Timeout <=? 0 then DefaultTimeout else Timeout in u32 (t / 10 ^ 6).

Definition opPersistentReserveIn := 0x5e.
Definition opPersistentReserveOut := 0x5f.
Definition priReadKeys := 0x00.
Definition priReadReservation := 0x01.
Definition proRegister := 0x00.
Definition proReserve := 0x01.
Definition proRelease := 0x02.
Definition proClear := 0x03.
Definition proPreempt := 0x04.
Definition proPreemptAndAbort := 0x05.
Definition proRegisterIgnoreExistingKey := 0x06.
Definition scopeLU := 0x0.
Definition prOutParamLen := 24.

(** ** pr.go: reservation types and the wire format *)

Definition TypeWriteExclusive := 0x1.
Definition TypeExclusiveAccess := 0x3.
Definition TypeWriteExclusiveRegistrantsOnly := 0x5.
Definition TypeExclusiveAccessRegistrantsOnly := 0x6.
Definition TypeWriteExclusiveAllRegistrants := 0x7.
Definition TypeExclusiveAccessAllRegistrants := 0x8.

Definition ReservationType_Valid (t : Z) : bool :=
  (t =? TypeWriteExclusive) || (t =? TypeExclusiveAccess)
  || (t =? TypeWriteExclusiveRegistrantsOnly) || (t =? TypeExclusiveAccessRegistrantsOnly)
  || (t =? TypeWriteExclusiveAllRegistrants) || (t =? TypeExclusiveAccessAllRegistrants).
Definition ReservationType_String (t : Z) : string :=
  if t =? TypeWriteExclusive then "Write Exclusive"
  else if t =? TypeExclusiveAccess then "Exclusive Access"
  else if t =? TypeWriteExclusiveRegistrantsOnly then "Write Exclusive, Registrants Only"
  else if t =? TypeExclusiveAccessRegistrantsOnly then "Exclusive Access, Registrants Only"
  else if t =? TypeWriteExclusiveAllRegistrants then "Write Exclusive, All Registrants"
  else if t =? TypeExclusiveAccessAllRegistrants then "Exclusive Access, All Registrants"
  else "reservation type 0x" +:+ hex02 t.
Definition errBadResType (op : string) (t : Z) : scsi_err :=
  ScsiMsg "scsi: %s: %v is not a reservation type SPC-6 defines" [op; ReservationType_String t].

Definition prInCDB (sa alloc : Z) : list Z :=
  [opPersistentReserveIn; Z.land sa 0x1f; 0; 0; 0; 0; 0] ++ be_put 2 (u16 alloc) ++ [0].

Definition prOutBytes (sa scope resType key saKey : Z) (aptpl : bool) : list Z * list Z :=
  let cdb := [opPersistentReserveOut; Z.land sa 0x1f;
              Z.lor (u8 (Z.shiftl scope 4)) (Z.land resType 0x0f);
              0; 0; 0; 0; 0; prOutParamLen; 0] in
  let params := be_put 8 key ++ be_put 8 saKey
                  ++ [0; 0; 0; 0; (if aptpl then Z.lor 0 0x01 else 0); 0; 0; 0] in
  (cdb, params).

Fixpoint readKeys_loop (fuel : nat) (data : list Z) (off limit : Z) : list Z :=
  match fuel with
  | O => []
  | S fuel =>
      if off <? limit
      then be (slice (Z.to_nat off) (Z.to_nat (off + 8)) data)
             :: readKeys_loop fuel data (off + 8) limit
      else []
  end.
(** [parseReadKeys]: generation, keys, error. *)
Definition parseReadKeys (data : list Z) : Z * list Z * option scsi_err :=
  if len data <? 8 then
    (0, [], Some (ScsiMsg "scsi: READ KEYS returned %d bytes, want at least 8" [itoa (len data)]))
  else
    let generation := be (slice 0 4 data) in
    let addLen := be (slice 4 8 data) in
    if negb (addLen mod 8 =? 0) then
      (generation, [], Some (ScsiMsg "scsi: READ KEYS additional length %d is not a multiple of 8"
                               [itoa addLen]))
    else if 8 + addLen >? len data then
      (generation, [], Some (ScsiMsg "scsi: READ KEYS reported %d bytes of keys but only %d were transferred"
                               [itoa addLen; itoa (len data - 8)]))
    else (generation, readKeys_loop (length data) data 8 (8 + addLen), None).

Definition parseReadReservation (data : list Z)
    : result scsi_err (bool * Z * Z * Z) :=
  if len data <? 8 then
    Err (ScsiMsg "scsi: READ RESERVATION returned %d bytes, want at least 8" [itoa (len data)])
  else
    let addLen := be (slice 4 8 data) in
    if addLen =? 0 then Ok (false, 0, 0, 0)
    else if (addLen <? 16) || (len data <? 24) then
      Err (ScsiMsg "scsi: READ RESERVATION additional length %d with %d bytes transferred"
             [itoa addLen; itoa (len data)])
    else Ok (true, be (slice 8 16 data), Z.shiftr (byte_at data 21) 4,
             Z.land (byte_at data 21) 0x0f).

(** ** capacity.go *)

Definition opServiceActionIn16 := 0x9e.
Definition saReadCapacity16 := 0x10.
Definition maxLBPPBExp := 15.

Record Capacity := mkCapacity {
  c_LastLBA : Z; c_BlockLength : Z; c_LBPPBExp : Z; c_LowestAlignedLBA : Z;
  c_Result : Result }.

Definition Bytes (c : Capacity) : Z :=
  let blocks := u64 (c_LastLBA c + 1) in
  if blocks =? 0 then maxU64
  else
    let bl := c_BlockLength c in
    if negb (bl =? 0) && (blocks >? maxU64 / bl) then maxU64
    else u64 (blocks * c_BlockLength c).

(** A Go shift of a uint64: the bits that leave the word are lost. *)
Definition shl64 (v n : Z) : Z := u64 (Z.shiftl v n).

Definition PhysicalBlockLength (c : Capacity) : Z :=
  if c_LBPPBExp c >? maxLBPPBExp then c_BlockLength c
  else
    let p := shl64 (c_BlockLength c) (c_LBPPBExp c) in
    if p >? maxU32 then c_BlockLength c else u32 p.

Definition parseCapacity16 (r : Result) (data : list Z) : Capacity * option scsi_err :=
  if len data <? 16 then
    (mkCapacity 0 0 0 0 r,
     Some (ScsiMsg "scsi: READ CAPACITY(16) returned %d bytes, want at least 16" [itoa (len data)]))
  else
    let LastLBA := be (slice 0 8 data) in
    let BlockLength := be (slice 8 12 data) in
    if BlockLength =? 0 then
      (mkCapacity LastLBA 0 0 0 r,
       Some (ScsiMsg "scsi: READ CAPACITY(16) reported a block length of 0" []))
    else
      let LBPPBExp := Z.land (byte_at data 13) 0x0f in
      if shl64 BlockLength LBPPBExp >? maxU32 then
        (mkCapacity LastLBA BlockLength LBPPBExp 0 r,
         Some (ScsiMsg "scsi: READ CAPACITY(16) reported block length %d with LBPPBE %d"
                 [itoa BlockLength; itoa LBPPBExp]))
      else
        (mkCapacity LastLBA BlockLength LBPPBExp
           (Z.land (be (slice 14 16 data)) 0x3fff) r, None).

Record Keys := mkKeys { k_Generation : Z; k_Keys : list Z; k_Result : Result }.
Record Reservation := mkReservation {
  v_Generation : Z; v_Held : bool; v_Key : Z; v_Scope : Z; v_Type : Z; v_Result : Result }.

(** ** The commands, over any device *)

(** A device file, by its descriptor; [dev_owned] when this package opened it.
    Opening, with O_RDWR, and closing are the operating system's. *)
Record Device := mkDevice { dev_f : Z; dev_Timeout : Z; dev_owned : bool }.
Definition NewDevice (f : Z) : Device := mkDevice f 0 false.
Definition File (d : Device) : Z := dev_f d.
Section Files.
Context {W : Type} (os_OpenRDWR : string → W → result Z Z * W) (os_Close : Z → W → result Z unit * W).
Definition Device_Open (path : string) (w : W) : result Z Device * W :=
  match os_OpenRDWR path w with
  | (Err e, w) => (Err e, w)
  | (Ok f, w) => (Ok (mkDevice f 0 true), w)
  end.
Definition Device_Close (d : Device) (w : W) : result Z unit * W :=
  if negb (dev_owned d) then (Ok tt, w) else os_Close (dev_f d) w.
End Files.

Section Device.
Context {W : Type} (sg_io : W → sg_request → result Z sg_reply * W).

(** [send]. [sense[:h.sbLenWr]] panics when the kernel claims more than the
    32 bytes it was given. *)
Definition send (Timeout : Z) (cdb : list Z) (dataIn : Z) (dataOut : list Z) (w : W)
    : result scsi_err Result * W :=
  if (0 <? dataIn) && (0 <? len dataOut) then
    (Err (ScsiMsg "scsi: a command cannot transfer in both directions" []), w)
  else
    let '(dir, dxferLen) :=
      if 0 <? dataIn then (dxferFromDev, u32 dataIn)
      else if 0 <? len dataOut then (dxferToDev, u32 (len dataOut))
      else (dxferNone, 0) in
    match sg_io w (mkReq cdb dir dxferLen dataOut 32 (timeoutMS Timeout)) with
    | (Err errno, w) => (Err (ScsiIoctl errno), w)
    | (Ok h, w) =>
        if 32 <? p_sbLenWr h then (Err ScsiPanic, w)
        else
          let sense :=
            if 0 <? p_sbLenWr h
            then parseSense (take (Z.to_nat (p_sbLenWr h)) (p_sense h)) else None in
          let data :=
            if 0 <? dataIn then
              let n := dataIn - p_resid h in
              let n := Z.max n 0 in
              let n := Z.min n dataIn in
              take (Z.to_nat n) (p_data h)
            else [] in
          (Ok (mkResult (p_status h) (StatusName (p_status h)) sense data
                 (p_hostStatus h) (p_driverStatus h)), w)
    end.

Definition ReadKeys (Timeout : Z) (w : W) : Keys * option scsi_err * W :=
  let alloc := 8192 in
  match send Timeout (prInCDB priReadKeys alloc) alloc [] w with
  | (Err e, w) => (mkKeys 0 [] zeroResult, Some e, w)
  | (Ok r, w) =>
      if negb (OK r) then (mkKeys 0 [] r, Some (StatusError "READ KEYS" r), w)
      else
        match parseReadKeys (r_Data r) with
        | (_, _, Some e) => (mkKeys 0 [] r, Some e, w)
        | (gen, keys, None) => (mkKeys gen keys r, None, w)
        end
  end.

Definition ReadReservation (Timeout : Z) (w : W) : Reservation * option scsi_err * W :=
  let alloc := 256 in
  match send Timeout (prInCDB priReadReservation alloc) alloc [] w with
  | (Err e, w) => (mkReservation 0 false 0 0 0 zeroResult, Some e, w)
  | (Ok r, w) =>
      if negb (OK r) then
        (mkReservation 0 false 0 0 0 r, Some (StatusError "READ RESERVATION" r), w)
      else
        let gen := if 4 <=? len (r_Data r) then be (slice 0 4 (r_Data r)) else 0 in
        match parseReadReservation (r_Data r) with
        | Err e => (mkReservation gen false 0 0 0 r, Some e, w)
        | Ok (held, key, scope, typ) => (mkReservation gen held key scope typ r, None, w)
        end
  end.

Definition ReadCapacity16 (Timeout : Z) (w : W) : Capacity * option scsi_err * W :=
  let alloc := 32 in
  let cdb := [opServiceActionIn16; saReadCapacity16; 0; 0; 0; 0; 0; 0; 0; 0]
               ++ be_put 4 alloc ++ [0; 0] in
  match send Timeout cdb alloc [] w with
  | (Err e, w) => (mkCapacity 0 0 0 0 zeroResult, Some e, w)
  | (Ok r, w) =>
      if negb (OK r) then
        (mkCapacity 0 0 0 0 r, Some (StatusError "READ CAPACITY(16)" r), w)
      else let '(c, e) := parseCapacity16 r (r_Data r) in (c, e, w)
  end.

Definition prOut (Timeout sa scope resType key saKey : Z) (aptpl : bool) (w : W)
    : result scsi_err Result * W :=
  let '(cdb, p) := prOutBytes sa scope resType key saKey aptpl in
  send Timeout cdb 0 p w.

Definition Register (Timeout oldKey key : Z) (aptpl ignoreExisting : bool) (w : W) :=
  let sa := if ignoreExisting then proRegisterIgnoreExistingKey else proRegister in
  prOut Timeout sa 0 0 oldKey key aptpl w.
Definition Reserve (Timeout key resType : Z) (w : W) : result scsi_err Result * W :=
  if negb (ReservationType_Valid resType) then (Err (errBadResType "reserve" resType), w)
  else prOut Timeout proReserve scopeLU resType key 0 false w.
Definition Release (Timeout key resType : Z) (w : W) : result scsi_err Result * W :=
  if negb (ReservationType_Valid resType) then (Err (errBadResType "release" resType), w)
  else prOut Timeout proRelease scopeLU resType key 0 false w.
Definition Clear (Timeout key : Z) (w : W) : result scsi_err Result * W :=
  prOut Timeout proClear 0 0 key 0 false w.
Definition Preempt (Timeout key victim resType : Z) (w : W) : result scsi_err Result * W :=
  if negb (ReservationType_Valid resType) then (Err (errBadResType "preempt" resType), w)
  else prOut Timeout proPreempt scopeLU resType key victim false w.
Definition PreemptAndAbort (Timeout key victim resType : Z) (w : W)
    : result scsi_err Result * W :=
  if negb (ReservationType_Valid resType)
  then (Err (errBadResType "preemptandabort" resType), w)
  else prOut Timeout proPreemptAndAbort scopeLU resType key victim false w.
Definition Unregister (Timeout key : Z) (w : W) : result scsi_err Result * W :=
  prOut Timeout proRegister 0 0 key 0 false w.

End Device.

(** ** Specifications *)

(** The READ KEYS parameter data of SPC-6 6.16.2: PRGENERATION, ADDITIONAL
    LENGTH, the keys, and whatever follows in the buffer. *)
Definition readKeys_payload (data : list Z) (gen : Z) (keys : list Z) : Prop :=
  ∃ rest, data = be_put 4 gen ++ be_put 4 (8 * Z.of_nat (length keys))
                   ++ concat (be_put 8 <$> keys) ++ rest
  ∧ in_u32 gen ∧ Forall in_u64 keys ∧ in_u32 (8 * Z.of_nat (length keys)).

(** A PERSISTENT RESERVE OUT request as a device reads it (SPC-6 6.17). *)
Record pr_out := mkPrOut {
  o_sa : Z; o_scope : Z; o_type : Z; o_key : Z; o_saKey : Z; o_aptpl : bool }.
Definition decode_prOut (cdb params : list Z) : option pr_out :=
  if (byte_at cdb 0 =? 0x5f) && (len cdb =? 10) && (be (slice 5 9 cdb) =? len params)
     && (len params =? 24)
  then Some (mkPrOut (byte_at cdb 1 mod 32) (byte_at cdb 2 / 16) (byte_at cdb 2 mod 16)
               (be (slice 0 8 params)) (be (slice 8 16 params))
               (Z.testbit (byte_at params 20) 0))
  else None.

(** The operations of [Device] that change reservation state, and the request
    each one means. *)
Inductive pr_op :=
  | OpRegister (oldKey key : Z) (aptpl ignoreExisting : bool)
  | OpReserve (key t : Z)
  | OpRelease (key t : Z)
  | OpClear (key : Z)
  | OpPreempt (key victim t : Z)
  | OpPreemptAndAbort (key victim t : Z)
  | OpUnregister (key : Z).
Definition pr_meaning (o : pr_op) : pr_out :=
  match o with
  | OpRegister old key aptpl ign => mkPrOut (if ign then 6 else 0) 0 0 old key aptpl
  | OpReserve key t => mkPrOut 1 0 t key 0 false
  | OpRelease key t => mkPrOut 2 0 t key 0 false
  | OpClear key => mkPrOut 3 0 0 key 0 false
  | OpPreempt key victim t => mkPrOut 4 0 t key victim false
  | OpPreemptAndAbort key victim t => mkPrOut 5 0 t key victim false
  | OpUnregister key => mkPrOut 0 0 0 key 0 false
  end.
Definition pr_keys_ok (o : pr_op) : Prop :=
  in_u64 (o_key (pr_meaning o)) ∧ in_u64 (o_saKey (pr_meaning o)).
(** The reservation type an operation carries, if it carries one. *)
Definition pr_type (o : pr_op) : option Z :=
  match o with
  | OpReserve _ t | OpRelease _ t | OpPreempt _ _ t | OpPreemptAndAbort _ _ t => Some t
  | _ => None
  end.
Definition pr_type_ok (o : pr_op) : bool :=
  match pr_type o with Some t => ReservationType_Valid t | None => true end.
Definition run_pr {W} (sg_io : W → sg_request → result Z sg_reply * W) (Timeout : Z)
    (o : pr_op) (w : W) : result scsi_err Result * W :=
  match o with
  | OpRegister old key aptpl ign => Register sg_io Timeout old key aptpl ign w
  | OpReserve key t => Reserve sg_io Timeout key t w
  | OpRelease key t => Release sg_io Timeout key t w
  | OpClear key => Clear sg_io Timeout key w
  | OpPreempt key victim t => Preempt sg_io Timeout key victim t w
  | OpPreemptAndAbort key victim t => PreemptAndAbort sg_io Timeout key victim t w
  | OpUnregister key => Unregister sg_io Timeout key w
  end.
(** A device that records the requests it receives. *)
Definition recording {W} (sg_io : W → sg_request → result Z sg_reply * W)
    (w : W * list sg_request) (q : sg_request) : result Z sg_reply * (W * list sg_request) :=
  let '(r, w') := sg_io w.1 q in (r, (w', w.2 ++ [q])).

(** ** Big-endian integers *)

Lemma be_snoc l b : be (l ++ [b]) = be l * 256 + b.
Proof. unfold be. rewrite foldl_app. done. Qed.

Lemma be_put_length n v : length (be_put n v) = n.
Proof.
  revert v. induction n as [|n IH]; intros v; simpl; [done|].
  rewrite length_app, IH. simpl. lia.
Qed.

Lemma be_be_put n v : 0 <= v < 256 ^ Z.of_nat n → be (be_put n v) = v.
Proof.
  revert v. induction n as [|n IH]; intros v Hv; [simpl in *; cbn in *; lia|].
  cbn [be_put]. rewrite be_snoc, IH.
  - pose proof (Z.div_mod v 256). lia.
  - rewrite Nat2Z.inj_succ, Z.pow_succ_r in Hv by lia.
    split; [apply Z.div_pos; lia | apply Z.div_lt_upper_bound; lia].
Qed.

Lemma be_put_be l : Forall in_u8 l → be_put (length l) (be l) = l.
Proof.
  induction l as [|b l IH] using rev_ind; [done|].
  rewrite Forall_app, Forall_singleton. intros [Hl Hb]. unfold in_u8 in Hb.
  rewrite length_app, Nat.add_comm. cbn [length Nat.add be_put]. rewrite be_snoc.
  rewrite Z.add_comm, Z.div_add, Z.div_small, Z.add_0_l by lia.
  rewrite Z.mod_add, Z.mod_small by lia. by rewrite IH.
Qed.

Lemma be_range l : Forall in_u8 l → 0 <= be l < 256 ^ Z.of_nat (length l).
Proof.
  induction l as [|b l IH] using rev_ind; [cbn; lia|].
  rewrite Forall_app, Forall_singleton, be_snoc, length_app. intros [Hl Hb].
  unfold in_u8 in Hb. specialize (IH Hl). cbn [length].
  rewrite Nat2Z.inj_add, Z.pow_add_r by lia. lia.
Qed.

Lemma be_put_u8 n v : Forall in_u8 (be_put n v).
Proof.
  revert v. induction n as [|n IH]; intros v; simpl; [constructor|].
  apply Forall_app; split; [apply IH|]. constructor; [|constructor].
  unfold in_u8. pose proof (Z.mod_pos_bound v 256). lia.
Qed.

Lemma slice_app_l (n : nat) (l1 l2 : list Z) :
  length l1 = n → slice 0 n (l1 ++ l2) = l1.
Proof. intros <-. unfold slice. rewrite Nat.sub_0_r, drop_0. apply take_app_length. Qed.

Lemma slice_app_r (i j : nat) (l1 l2 : list Z) :
  (length l1 ≤ i)%nat →
  slice i j (l1 ++ l2) = slice (i - length l1) (j - length l1) l2.
Proof.
  intros H. unfold slice. rewrite drop_app_ge by lia. f_equal. lia.
Qed.

Lemma slice_length (i j : nat) (l : list Z) :
  (i ≤ j ≤ length l)%nat → length (slice i j l) = (j - i)%nat.
Proof. intros H. unfold slice. rewrite length_take, length_drop. lia. Qed.

Lemma byte_at_app (l1 l2 : list Z) (i : nat) :
  (length l1 ≤ i)%nat → byte_at (l1 ++ l2) i = byte_at l2 (i - length l1).
Proof. intros H. by apply app_nth2. Qed.

#[export] Hint Rewrite be_put_length : glitr.

(** ** READ KEYS *)

Lemma readKeys_loop_encoded keys : ∀ fuel pre rest,
  Forall in_u64 keys → (length keys ≤ fuel)%nat →
  readKeys_loop fuel (pre ++ concat (be_put 8 <$> keys) ++ rest) (len pre)
    (len pre + 8 * Z.of_nat (length keys)) = keys.
Proof.
  induction keys as [|k keys IH]; intros fuel pre rest Hk Hf.
  - destruct fuel; simpl; [done|]. unfold len.
    by rewrite (proj2 (Z.ltb_ge _ _)) by lia.
  - apply Forall_cons in Hk as [Hk Hks]. destruct fuel as [|fuel]; [simpl in Hf; lia|].
    rewrite fmap_cons, concat_cons. cbn [readKeys_loop length].
    rewrite (proj2 (Z.ltb_lt _ _)) by (unfold len; lia). f_equal.
    + rewrite slice_app_r by (unfold len; lia).
      replace (_ - _)%nat with 0%nat by (unfold len; lia).
      replace (_ - _)%nat with 8%nat by (unfold len; lia).
      rewrite <- app_assoc, slice_app_l by apply be_put_length.
      apply be_be_put. exact Hk.
    + specialize (IH fuel (pre ++ be_put 8 k) rest Hks ltac:(simpl in Hf; lia)).
      rewrite <- !app_assoc in IH. rewrite <- !app_assoc.
      unfold len in *. rewrite length_app, be_put_length in IH.
      replace (Z.of_nat (length pre) + 8) with (Z.of_nat (length pre + 8)) by lia.
      replace (Z.of_nat (length pre) + _)
        with (Z.of_nat (length pre + 8) + 8 * Z.of_nat (length keys)) by lia.
      exact IH.
Qed.

Lemma concat_be_put8_length keys : length (concat (be_put 8 <$> keys)) = (8 * length keys)%nat.
Proof.
  induction keys as [|k keys IH]; [done|].
  rewrite fmap_cons, concat_cons, length_app, be_put_length, IH. simpl. lia.
Qed.

(** Every byte sequence of a length divisible by eight is a sequence of keys. *)
Lemma decode_keys (n : nat) : ∀ data, Forall in_u8 data → length data = (8 * n)%nat →
  ∃ keys, data = concat (be_put 8 <$> keys) ∧ Forall in_u64 keys ∧ length keys = n.
Proof.
  induction n as [|n IH]; intros data Hd Hl.
  - exists []. destruct data; [|simpl in Hl; lia]. repeat split; constructor.
  - destruct (IH (drop 8 data)) as (keys & Hkeys & Hu & Hn).
    { by apply Forall_drop. }
    { rewrite length_drop. lia. }
    pose proof (Forall_take in_u8 8 data Hd) as Ht.
    assert (length (take 8 data) = 8%nat) as H8 by (rewrite length_take; lia).
    exists (be (take 8 data) :: keys). rewrite fmap_cons, concat_cons. cbn [length].
    split; [|split].
    + rewrite <- (take_drop 8 data) at 1. f_equal; [|exact Hkeys].
      rewrite <- H8 at 2. by rewrite be_put_be.
    + constructor; [|done]. pose proof (be_range _ Ht) as Hr. rewrite H8 in Hr. exact Hr.
    + lia.
Qed.

Lemma parseReadKeys_encoded data gen keys :
  readKeys_payload data gen keys → parseReadKeys data = (gen, keys, None).
Proof.
  intros (rest & -> & Hg & Hk & Hn). unfold parseReadKeys, len.
  assert (Hlen : length (be_put 4 gen ++ be_put 4 (8 * Z.of_nat (length keys))
                  ++ concat (be_put 8 <$> keys) ++ rest)
                 = (8 + 8 * length keys + length rest)%nat).
  { rewrite !length_app, !be_put_length, concat_be_put8_length. lia. }
  rewrite Hlen, (proj2 (Z.ltb_ge _ _)) by lia.
  rewrite (slice_app_l 4) by apply be_put_length.
  rewrite (slice_app_r 4 8) by (rewrite be_put_length; lia).
  rewrite be_put_length.
  change (4 - 4)%nat with 0%nat. change (8 - 4)%nat with 4%nat.
  rewrite slice_app_l by apply be_put_length.
  rewrite !be_be_put by done.
  rewrite Z.mul_comm, Z.mod_mul, Z.mul_comm by lia. cbn [Z.eqb negb].
  rewrite Z.gtb_ltb, (proj2 (Z.ltb_ge _ _)) by lia.
  f_equal. f_equal.
  pose proof (readKeys_loop_encoded keys (8 + 8 * length keys + length rest)
    (be_put 4 gen ++ be_put 4 (8 * Z.of_nat (length keys))) rest Hk ltac:(lia)) as H.
  unfold len in H. rewrite length_app, !be_put_length, <- app_assoc in H. exact H.
Qed.

Lemma parseReadKeys_decoded data gen keys :
  Forall in_u8 data → parseReadKeys data = (gen, keys, None) → readKeys_payload data gen keys.
Proof.
  intros Hd Hp. assert (∃ keys', readKeys_payload data (be (slice 0 4 data)) keys') as [keys' H'].
  { unfold parseReadKeys in Hp. unfold len in Hp.
    destruct (_ <? 8) eqn:E1; [done|]. destruct (negb _) eqn:E2; [done|].
    destruct (_ >? _) eqn:E3; [done|]. bool_facts. clear Hp.
    rewrite Z.gtb_ltb in E3. bool_facts.
    set (g := slice 0 4 data). set (a := slice 4 8 data) in *.
    assert (Hg : Forall in_u8 g) by by apply Forall_take, Forall_drop.
    assert (Ha : Forall in_u8 a) by by apply Forall_take, Forall_drop.
    assert (length g = 4%nat) as Hg4 by (unfold g, slice; rewrite length_take, length_drop; lia).
    assert (length a = 4%nat) as Ha4 by (unfold a, slice; rewrite length_take, length_drop; lia).
    pose proof (be_range g Hg) as Hrg. rewrite Hg4 in Hrg.
    pose proof (be_range a Ha) as Hra. rewrite Ha4 in Hra.
    set (n := Z.to_nat (be a / 8)).
    assert (Hn : be a = 8 * Z.of_nat n) by (unfold n; pose proof (Z.div_mod (be a) 8); lia).
    destruct (decode_keys n (take (8 * n) (drop 8 data))) as (keys' & Hk & Hu & Hkn).
    { by apply Forall_take, Forall_drop. }
    { rewrite length_take, length_drop. lia. }
    exists keys', (drop (8 * n) (drop 8 data)). rewrite <- Hk, take_drop, Hkn, <- Hn.
    rewrite <- Hg4 at 1. rewrite <- Ha4 at 1. rewrite !be_put_be by done.
    split; [|done]. unfold g, a, slice. rewrite !Nat.sub_0_r, drop_0. simpl Nat.sub.
    rewrite <- (take_drop 4 data) at 1. f_equal.
    rewrite <- (take_drop 4 (drop 4 data)) at 1. by rewrite drop_drop. }
  pose proof (parseReadKeys_encoded _ _ _ H') as H. rewrite Hp in H. by injection H as -> ->.
Qed.

(** [parseReadKeys] accepts exactly the READ KEYS payloads of SPC-6 and
    returns exactly the generation and the key list they encode: an ADDITIONAL
    LENGTH that is not a multiple of eight or that the transferred bytes do
    not cover is an error, never a shorter list that reads as complete. *)
Theorem parseReadKeys_exact (data : list Z) (gen : Z) (keys : list Z) (H : Forall in_u8 data) :
  parseReadKeys data = (gen, keys, None) ↔ readKeys_payload data gen keys.
Proof. split; [by apply parseReadKeys_decoded | apply parseReadKeys_encoded]. Qed.

(** The reply fields [OK] consults: a GOOD status byte, no host error, no
    driver code. *)
Definition clean_good (rep : sg_reply) : Prop :=
  p_status rep = 0 ∧ p_hostStatus rep = 0 ∧ Z.land (p_driverStatus rep) 0x0f = 0.
(** The bytes a reply transferred, out of a buffer of [alloc]. *)
Definition transferred (alloc : Z) (rep : sg_reply) : list Z :=
  take (Z.to_nat (Z.min (Z.max (alloc - p_resid rep) 0) alloc)) (p_data rep).
Definition read_request (Timeout sa alloc : Z) : sg_request :=
  mkReq (prInCDB sa alloc) dxferFromDev alloc [] 32 (timeoutMS Timeout).

Lemma send_read {W} (io : W → sg_request → result Z sg_reply * W) T sa alloc w r w' :
  0 < alloc < 2 ^ 32 →
  send io T (prInCDB sa alloc) alloc [] w = (Ok r, w') ↔
  ∃ rep, io w (read_request T sa alloc) = (Ok rep, w') ∧ p_sbLenWr rep <= 32 ∧
    r = mkResult (p_status rep) (StatusName (p_status rep))
          (if 0 <? p_sbLenWr rep then parseSense (take (Z.to_nat (p_sbLenWr rep)) (p_sense rep))
           else None) (transferred alloc rep) (p_hostStatus rep) (p_driverStatus rep).
Proof.
  intros Ha. unfold send, read_request, transferred.
  rewrite (proj2 (Z.ltb_lt 0 alloc)) by lia. rewrite u32_id by (unfold in_u32; lia). simpl.
  destruct (io w _) as [[rep|e] w1] eqn:E.
  - destruct (32 <? p_sbLenWr rep) eqn:Es; bool_facts.
    + split; [done|]. intros (rep' & [= <- <-] & ? & _). lia.
    + split.
      * intros [= <- <-]. exists rep. repeat split; done.
      * intros (rep' & [= <- <-] & _ & ->). done.
  - split; [done|]. intros (rep & ? & _). done.
Qed.

Lemma OK_spec r :
  OK r = true ↔ r_Status r = 0 ∧ r_HostStatus r = 0 ∧ Z.land (r_DriverStatus r) 0x0f = 0.
Proof.
  unfold OK. rewrite !andb_true_iff, !Z.eqb_eq. unfold StatusGood. tauto.
Qed.

(** READ KEYS fails closed: it answers a key list exactly when the ioctl
    succeeded, the status, host and driver verdicts are all clean and the
    bytes actually transferred encode that list; on every other outcome it
    reports an error and no key. *)
Theorem ReadKeys_fail_closed {W} (io : W → sg_request → result Z sg_reply * W)
    (T : Z) (w w' : W) (k : Keys) (e : option scsi_err)
    (Hbytes : ∀ w q rep w', io w q = (Ok rep, w') → Forall in_u8 (p_data rep))
    (Hrun : ReadKeys io T w = (k, e, w')) :
  (e ≠ None → k_Keys k = []) ∧
  (e = None ↔ ∃ rep, io w (read_request T priReadKeys 8192) = (Ok rep, w') ∧
     p_sbLenWr rep <= 32 ∧ clean_good rep ∧
     readKeys_payload (transferred 8192 rep) (k_Generation k) (k_Keys k)).
Proof.
  unfold ReadKeys in Hrun. destruct (send _ _ _ _ _ _) as [[r|e0] w1] eqn:Es.
  - apply send_read in Es as (rep & Hio & Hs & Hr); [|lia].
    assert (Hu : Forall in_u8 (transferred 8192 rep)) by (eapply Forall_take, Hbytes, Hio).
    assert (Hd : r_Data r = transferred 8192 rep) by by rewrite Hr.
    destruct (OK r) eqn:Eok; simpl in Hrun.
    + apply OK_spec in Eok as Hok. rewrite Hr in Hok. cbn in Hok.
      rewrite Hd in Hrun. destruct (parseReadKeys _) as [[gen keys] [e1|]] eqn:Ep.
      * injection Hrun as <- <- <-. split; [done|]. split; [done|].
        intros (rep' & Hio' & _ & _ & Hp). rewrite Hio in Hio'. injection Hio' as <-.
        apply parseReadKeys_encoded in Hp. congruence.
      * injection Hrun as <- <- <-. split; [done|]. split; [|done]. intros _.
        exists rep. repeat split; try tauto. by apply parseReadKeys_decoded.
    + injection Hrun as <- <- <-. split; [done|]. split; [done|].
      intros (rep' & Hio' & _ & Hc & _). rewrite Hio in Hio'. injection Hio' as <-.
      assert (OK r = true) by (apply OK_spec; rewrite Hr; exact Hc). congruence.
  - injection Hrun as <- <- <-. split; [done|]. split; [done|].
    intros (rep & Hio & Hs & _).
    assert (Hx : ∃ r, send io T (prInCDB priReadKeys 8192) 8192 [] w = (Ok r, w1)).
    { eexists. apply send_read; [lia|]. by exists rep. }
    destruct Hx as [r Hx]. congruence.
Qed.

(** ** PERSISTENT RESERVE OUT *)

Lemma prOut_params_length key saKey aptpl sa scope t :
  length (prOutBytes sa scope t key saKey aptpl).2 = 24%nat.
Proof. unfold prOutBytes. cbn [snd]. rewrite !length_app, !be_put_length. done. Qed.

Lemma prOutBytes_decode sa scope t key saKey aptpl :
  0 <= sa < 32 → 0 <= scope < 16 → 0 <= t < 16 → in_u64 key → in_u64 saKey →
  decode_prOut (prOutBytes sa scope t key saKey aptpl).1
    (prOutBytes sa scope t key saKey aptpl).2 = Some (mkPrOut sa scope t key saKey aptpl).
Proof.
  intros Hsa Hsc Ht Hk Hs. unfold decode_prOut, len. rewrite prOut_params_length.
  unfold prOutBytes. cbn [fst snd].
  rewrite (slice_app_l 8), (slice_app_r 8 16), be_put_length by (rewrite be_put_length; lia).
  replace (8 - 8)%nat with 0%nat by lia. replace (16 - 8)%nat with 8%nat by lia.
  rewrite (slice_app_l 8) by apply be_put_length. rewrite !be_be_put by done.
  rewrite (byte_at_app _ _ 20) by (rewrite be_put_length; lia).
  rewrite be_put_length, (byte_at_app _ _ (20 - 8)) by (rewrite be_put_length; lia).
  rewrite be_put_length. cbn [Nat.sub byte_at nth].
  change 0x1f with (Z.ones 5). change 0x0f with (Z.ones 4). rewrite !Z.land_ones by lia.
  rewrite (Z.mod_small sa), (Z.mod_small t) by lia.
  assert (Hor : Z.lor (u8 (Z.shiftl scope 4)) t = scope * 16 + t).
  { unfold u8. rewrite Z.shiftl_mul_pow2, Z.mod_small by lia.
    rewrite <- Z.add_nocarry_lor; [done|].
    apply Z.bits_inj'. intros n Hn. rewrite Z.land_spec, Z.bits_0.
    destruct (Z.lt_ge_cases n 4).
    - rewrite Z.mul_pow2_bits_low by lia. done.
    - rewrite <- (Z.mod_small t (2 ^ 4)) by lia.
      rewrite (Z.mod_pow2_bits_high t 4 n) by lia. by rewrite andb_false_r. }
  rewrite Hor. cbn [opPersistentReserveOut nth Z.eqb Pos.eqb andb].
  replace ((scope * 16 + t) / 16) with scope by (rewrite Z.div_add_l, Z.div_small; lia).
  replace ((scope * 16 + t) mod 16) with t by (rewrite Z.add_comm, Z.mod_add, Z.mod_small; lia).
  rewrite (Z.mod_small sa) by lia. destruct aptpl; reflexivity.
Qed.

Lemma prOut_recorded {W} (io : W → sg_request → result Z sg_reply * W)
    T sa scope t key saKey aptpl w tr r w' tr' :
  0 <= sa < 32 → 0 <= scope < 16 → 0 <= t < 16 → in_u64 key → in_u64 saKey →
  prOut (recording io) T sa scope t key saKey aptpl (w, tr) = (r, (w', tr')) →
  ∃ q, tr' = tr ++ [q] ∧ q_dir q = dxferToDev ∧ q_dxferLen q = 24 ∧
    decode_prOut (q_cdb q) (q_dataOut q) = Some (mkPrOut sa scope t key saKey aptpl).
Proof.
  intros Hsa Hsc Ht Hk Hs Hrun.
  pose proof (prOutBytes_decode sa scope t key saKey aptpl Hsa Hsc Ht Hk Hs) as Hd.
  pose proof (prOut_params_length key saKey aptpl sa scope t) as Hl.
  unfold prOut in Hrun. destruct (prOutBytes _ _ _ _ _ _) as [cdb p].
  cbn [fst snd] in Hd, Hl. unfold send, len in Hrun. rewrite Hl in Hrun.
  change (0 <? 0) with false in Hrun. change (0 <? Z.of_nat 24) with true in Hrun.
  unfold recording in Hrun. cbn [fst snd andb] in Hrun.
  set (q := mkReq _ _ _ _ _ _) in Hrun. destruct (io w q) as [[h|e] w1] in Hrun.
  - destruct (32 <? p_sbLenWr h); injection Hrun as <- <- <-; by exists q.
  - injection Hrun as <- <- <-. by exists q.
Qed.

Lemma Valid_nibble t : ReservationType_Valid t = true → 0 <= t < 16.
Proof.
  unfold ReservationType_Valid, TypeWriteExclusive, TypeExclusiveAccess,
    TypeWriteExclusiveRegistrantsOnly, TypeExclusiveAccessRegistrantsOnly,
    TypeWriteExclusiveAllRegistrants, TypeExclusiveAccessAllRegistrants.
  rewrite !orb_true_iff, !Z.eqb_eq. lia.
Qed.

(** C38. Every reservation-changing operation sends exactly one request, whose
    bytes, read back as SPC-6 lays them out, are the operation the caller asked
    for (keys, type, scope and the APTPL bit); an operation with a reservation
    type SPC-6 does not define is refused before the device sees anything. *)
Theorem pr_wire {W} (io : W → sg_request → result Z sg_reply * W) (T : Z) (o : pr_op)
    (w w' : W) (tr tr' : list sg_request) (r : result scsi_err Result)
    (Hk : pr_keys_ok o) (Hrun : run_pr (recording io) T o (w, tr) = (r, (w', tr'))) :
  if pr_type_ok o
  then ∃ q, tr' = tr ++ [q] ∧ q_dir q = dxferToDev ∧ q_dxferLen q = 24 ∧
         decode_prOut (q_cdb q) (q_dataOut q) = Some (pr_meaning o)
  else tr' = tr ∧ w' = w ∧ is_ok r = false.
Proof.
  destruct Hk as [Hk1 Hk2]. unfold pr_type_ok.
  destruct o as [old key aptpl ign|key t|key t|key|key v t|key v t|key];
    cbn in Hk1, Hk2 |- *; unfold run_pr, Register, Reserve, Release, Clear, Preempt,
      PreemptAndAbort, Unregister in Hrun.
  all: try (destruct (ReservationType_Valid t) eqn:Ev; cbn [negb] in Hrun;
    [apply Valid_nibble in Ev | injection Hrun as <- <- <-; done]).
  all: eapply prOut_recorded; [| | | | | exact Hrun]; try assumption; try done.
  all: try (destruct ign; done).
Qed.

(** ** Capacity *)

(** C39. The capacity of a device is its block count times its block length,
    saturated at the largest uint64 — for every geometry, including a LastLBA
    of MaxUint64. *)
Theorem Bytes_saturates (c : Capacity)
    (Hl : in_u64 (c_LastLBA c)) (Hb : 0 < c_BlockLength c < 2 ^ 32) :
  Bytes c = Z.min maxU64 ((c_LastLBA c + 1) * c_BlockLength c).
Proof.
  unfold Bytes, in_u64, maxU64, u64 in *.
  set (l := c_LastLBA c) in *. set (b := c_BlockLength c) in *.
  destruct (Z.eq_dec l (2 ^ 64 - 1)) as [->|Hne].
  - rewrite Z.sub_add, Z.mod_same by lia. cbn [Z.eqb]. nia.
  - rewrite (Z.mod_small (l + 1)) by lia.
    rewrite (proj2 (Z.eqb_neq _ _)), (proj2 (Z.eqb_neq _ _)) by lia. cbn [negb andb].
    rewrite Z.gtb_ltb. destruct (Z.ltb_spec ((2 ^ 64 - 1) / b) (l + 1)) as [H|H].
    + pose proof (Z.mul_succ_div_gt (2 ^ 64 - 1) b ltac:(lia)). nia.
    + pose proof (Z.mul_div_le (2 ^ 64 - 1) b ltac:(lia)).
      rewrite Z.mod_small by nia. nia.
Qed.

Lemma PhysicalBlockLength_spec c :
  in_u32 (c_BlockLength c) → 0 <= c_LBPPBExp c →
  PhysicalBlockLength c =
    let p := c_BlockLength c * 2 ^ c_LBPPBExp c in
    if (c_LBPPBExp c <=? 15) && (p <=? maxU32) then p else c_BlockLength c.
Proof.
  intros Hb He. unfold PhysicalBlockLength, maxLBPPBExp, in_u32, maxU32, shl64, u64 in *.
  rewrite !Z.gtb_ltb, Z.shiftl_mul_pow2 by lia.
  set (b := c_BlockLength c) in *. set (e := c_LBPPBExp c) in *. cbn zeta.
  destruct (Z.ltb_spec 15 e).
  - rewrite (proj2 (Z.leb_gt _ _)) by lia. done.
  - rewrite (proj2 (Z.leb_le e 15)) by lia. cbn [andb].
    assert (2 ^ e <= 2 ^ 15) by (apply Z.pow_le_mono_r; lia).
    assert (0 < 2 ^ e) by (apply Z.pow_pos_nonneg; lia).
    rewrite (Z.mod_small (b * 2 ^ e)) by nia.
    destruct (Z.ltb_spec (2 ^ 32 - 1) (b * 2 ^ e));
      destruct (Z.leb_spec (b * 2 ^ e) (2 ^ 32 - 1)); try lia.
    apply u32_id. unfold in_u32. nia.
Qed.

(** A READ CAPACITY(16) response is accepted only when it describes a
    device that can exist: at least sixteen bytes, a positive block length and
    a physical block size that fits in 32 bits. The fields are then the ones
    the wire carries (the exponent is the low nibble of byte 13) and the
    physical block is the logical block times two to that exponent. *)
Theorem parseCapacity16_decodes (r : Result) (data : list Z) (c : Capacity)
    (Hd : Forall in_u8 data) (Hp : parseCapacity16 r data = (c, None)) :
  (16 ≤ length data)%nat ∧
  c_LastLBA c = be (slice 0 8 data) ∧ in_u64 (c_LastLBA c) ∧
  c_BlockLength c = be (slice 8 12 data) ∧ 0 < c_BlockLength c < 2 ^ 32 ∧
  c_LBPPBExp c = byte_at data 13 mod 16 ∧
  PhysicalBlockLength c = c_BlockLength c * 2 ^ c_LBPPBExp c ∧
  PhysicalBlockLength c < 2 ^ 32.
Proof.
  unfold parseCapacity16, len in Hp. destruct (_ <? 16) eqn:El; [done|].
  destruct (_ =? 0) eqn:Eb; [done|]. destruct (_ >? maxU32) eqn:Ep; [done|].
  injection Hp as <-. rewrite Z.gtb_ltb in Ep. bool_facts.
  assert (Hs : ∀ i j, (i ≤ j ≤ 16)%nat → 0 <= be (slice i j data) < 256 ^ Z.of_nat (j - i)).
  { intros i j Hij. assert (Hu : Forall in_u8 (slice i j data)) by by apply Forall_take, Forall_drop.
    apply be_range in Hu. rewrite slice_length in Hu by lia. exact Hu. }
  pose proof (Hs 0%nat 8%nat ltac:(lia)) as H0. pose proof (Hs 8%nat 12%nat ltac:(lia)) as H8.
  change (256 ^ Z.of_nat (8 - 0)) with (2 ^ 64) in H0.
  change (256 ^ Z.of_nat (12 - 8)) with (2 ^ 32) in H8.
  rewrite PhysicalBlockLength_spec; cbn [c_LastLBA c_BlockLength c_LBPPBExp].
  2: { unfold in_u32. exact H8. }
  2: { apply Z.land_nonneg. right. lia. }
  assert (Hn : Z.land (byte_at data 13) 0x0f = byte_at data 13 mod 16)
    by (change 0x0f with (Z.ones 4); by rewrite Z.land_ones by lia).
  rewrite Hn in *.
  pose proof (Z.mod_pos_bound (byte_at data 13) 16 ltac:(lia)) as Hm.
  set (e := byte_at data 13 mod 16) in *. set (b := be (slice 8 12 data)) in *.
  assert (2 ^ e <= 2 ^ 15) by (apply Z.pow_le_mono_r; lia).
  assert (0 < 2 ^ e) by (apply Z.pow_pos_nonneg; lia).
  unfold shl64, u64 in Ep. rewrite Z.shiftl_mul_pow2, Z.mod_small in Ep by nia.
  rewrite (proj2 (Z.leb_le e 15)), (proj2 (Z.leb_le (b * 2 ^ e) maxU32)) by lia. cbn [andb].
  unfold in_u64, maxU32 in *. repeat split; lia.
Qed.

(** ** Witnesses *)

Definition demo_keys : list Z :=
  be_put 4 7 ++ be_put 4 16 ++ be_put 8 0xdeadbeef ++ be_put 8 0xcafe.
(** A device that always answers GOOD with the payload above. *)
Definition demo_io (w : nat) (q : sg_request) : result Z sg_reply * nat :=
  (Ok (mkRep 0 0 0 (q_dxferLen q - 24) 0 [] demo_keys), S w).

Lemma demo_keys_u8 : Forall in_u8 demo_keys.
Proof. unfold demo_keys. rewrite !Forall_app. repeat split; apply be_put_u8. Qed.

Lemma parseReadKeys_exact_witness :
  parseReadKeys demo_keys = (7, [0xdeadbeef; 0xcafe], None)
  ↔ readKeys_payload demo_keys 7 [0xdeadbeef; 0xcafe].
Proof. exact (parseReadKeys_exact _ _ _ demo_keys_u8). Defined.

Lemma ReadKeys_fail_closed_witness :
  let k := mkKeys 7 [0xdeadbeef; 0xcafe] (mkResult 0 "GOOD" None demo_keys 0 0) in
  (@None scsi_err ≠ None → k_Keys k = []) ∧
  (@None scsi_err = None ↔
     ∃ rep, demo_io 0 (read_request 0 priReadKeys 8192) = (Ok rep, 1%nat) ∧
       p_sbLenWr rep <= 32 ∧ clean_good rep ∧
       readKeys_payload (transferred 8192 rep) (k_Generation k) (k_Keys k)).
Proof.
  intros k. refine (ReadKeys_fail_closed demo_io 0 0%nat 1%nat k None _ _).
  - intros w q rep w' H. injection H as <- <-. apply demo_keys_u8.
  - vm_compute. reflexivity.
Defined.

Lemma pr_wire_witness :
  ∃ q, [mkReq (prOutBytes 5 0 5 0xaa 0xbb false).1 dxferToDev 24
          (prOutBytes 5 0 5 0xaa 0xbb false).2 32 20000] = [] ++ [q]
    ∧ q_dir q = dxferToDev ∧ q_dxferLen q = 24
    ∧ decode_prOut (q_cdb q) (q_dataOut q)
      = Some (pr_meaning (OpPreemptAndAbort 0xaa 0xbb TypeWriteExclusiveRegistrantsOnly)).
Proof.
  refine (pr_wire demo_io 0 (OpPreemptAndAbort 0xaa 0xbb TypeWriteExclusiveRegistrantsOnly)
            0%nat 1%nat [] _ (Ok (mkResult 0 "GOOD" None [] 0 0)) _ _).
  - split; unfold in_u64; simpl; lia.
  - vm_compute. reflexivity.
Defined.

Lemma Bytes_saturates_witness :
  Bytes (mkCapacity (2 ^ 64 - 1) 512 0 0 zeroResult) = Z.min maxU64 (2 ^ 64 * 512).
Proof.
  exact (Bytes_saturates (mkCapacity (2 ^ 64 - 1) 512 0 0 zeroResult)
           ltac:(unfold in_u64; simpl; lia) ltac:(simpl; lia)).
Defined.

Definition demo_capacity : list Z :=
  be_put 8 0xfffff ++ be_put 4 512 ++ [0; 0x13; 0x40; 0x02].
Lemma parseCapacity16_decodes_witness :
  let c := mkCapacity 0xfffff 512 3 2 zeroResult in
  (16 ≤ length demo_capacity)%nat ∧
  c_LastLBA c = be (slice 0 8 demo_capacity) ∧ in_u64 (c_LastLBA c) ∧
  c_BlockLength c = be (slice 8 12 demo_capacity) ∧ 0 < c_BlockLength c < 2 ^ 32 ∧
  c_LBPPBExp c = byte_at demo_capacity 13 mod 16 ∧
  PhysicalBlockLength c = c_BlockLength c * 2 ^ c_LBPPBExp c ∧
  PhysicalBlockLength c < 2 ^ 32.
Proof.
  intros c. refine (parseCapacity16_decodes zeroResult demo_capacity c _ _).
  - unfold demo_capacity. rewrite !Forall_app.
    repeat split; try apply be_put_u8. repeat constructor; unfold in_u8; lia.
  - vm_compute. reflexivity.
Defined.
