(* ===== verification/Configfs.v ===== *)
(** * lio/configfs: the file-system layer, over an abstract kernel

    [ST S A] is a computation over a state [S] that may fail with a Go error.
    [Kernel K] is the interface to the system calls the source makes; a call
    may change [K] even when it only reads, so another process may act
    between any two calls. Everything configfs.go computes — path checks,
    joining, the interpretation of errno, link resolution — is defined here
    on top of that interface. *)

From S2P Require Import Prelude GoStrings Errors.

(** ** The state-and-error monad *)

Definition ST (S A : Type) : Type := S → result goerr A * S.

Definition ret {S A} (a : A) : ST S A := λ s, (Ok a, s).
Definition throw {S A} (e : goerr) : ST S A := λ s, (Err e, s).
Definition bind {S A B} (m : ST S A) (f : A → ST S B) : ST S B :=
  λ s, match m s with
       | (Ok a, s) => f a s
       | (Err e, s) => (Err e, s)
       end.
(** [v, err := m]: the error as a value, for the callers that look at it. *)
Definition try {S A} (m : ST S A) : ST S (result goerr A) :=
  λ s, let '(r, s) := m s in (Ok r, s).
(** [if err := m; err != nil { return f(err) }]. *)
Definition onerr {S A} (m : ST S A) (f : goerr → goerr) : ST S A :=
  λ s, match m s with
       | (Err e, s) => (Err (f e), s)
       | r => r
       end.
Definition of_result {S A} (r : result goerr A) : ST S A := λ s, (r, s).

(** [m] gives the answer [a] in some state. *)
Definition answered {S A} (m : ST S A) (a : A) : Prop := ∃ s s', m s = (Ok a, s').

Notation "'do' x '<-' m ';' k" := (bind m (fun x => k))
  (at level 200, x pattern, m at level 100, k at level 200, right associativity) : go_scope.
Notation "m ';;' k" := (bind m (fun _ => k))
  (at level 100, k at level 200, right associativity) : go_scope.

(** A loop whose body may return an error. *)
Fixpoint mfor {S A} (f : A → ST S unit) (l : list A) : ST S unit :=
  match l with
  | [] => ret tt
  | x :: l => f x;; mfor f l
  end.
(** A loop that appends at most a few results per iteration. *)
Fixpoint mcollect {S A B} (f : A → ST S (list B)) (l : list A) : ST S (list B) :=
  match l with
  | [] => ret []
  | x :: l => do ys <- f x; do rest <- mcollect f l; ret (ys ++ rest)
  end.
(** A loop that threads a value. *)
Fixpoint mfold {S A B} (f : B → A → ST S B) (b : B) (l : list A) : ST S B :=
  match l with
  | [] => ret b
  | x :: l => do b <- f b x; mfold f b l
  end.

Lemma bind_Ok {S A B} (m : ST S A) (g : A → ST S B) s b s2 : bind m g s = (Ok b, s2) →
  ∃ a s1, m s = (Ok a, s1) ∧ g a s1 = (Ok b, s2).
Proof. unfold bind. destruct (m s) as [[a|e] s1]; [by exists a, s1 | done]. Qed.
Lemma onerr_Ok {S A} (m : ST S A) f s a s2 : onerr m f s = (Ok a, s2) → m s = (Ok a, s2).
Proof. unfold onerr. by destruct (m s) as [[] ?]; intros [=]; subst. Qed.

(** ** The kernel interface *)

Inductive ftype := FDir | FFile (* regular *) | FLink | FOther.
#[global] Instance ftype_eq_dec : EqDecision ftype.
Proof. solve_decision. Defined.

(** The system calls that change the tree. *)
Inductive sysop :=
  | SysMkdir (path : string)
  | SysRmdir (path : string)
  | SysUnlink (path : string)
  | SysSymlink (target link : string)
  | SysWrite (path data : string).
#[global] Instance sysop_eq_dec : EqDecision sysop.
Proof. solve_decision. Defined.

Class Kernel (K : Type) := {
  sys_lstat : string → K → result errno ftype * K;
  sys_stat : string → K → result errno (ftype * Z) * K;         (* type and size *)
  sys_readdir : string → K → result errno (list (string * ftype)) * K;
  sys_readlink : string → K → result errno string * K;
  sys_readfile : string → K → result errno string * K;
  sys_random : K → list Z * K;                                  (* rand.Read of 5 bytes *)
  sys_op : sysop → K → result errno unit * K
}.

(** ** path/filepath *)

Fixpoint clean_go (rooted : bool) (stack : list string) (l : list string) : list string :=
  match l with
  | [] => reverse stack
  | s :: l =>
      if String.eqb s "" || String.eqb s "." then clean_go rooted stack l
      else if String.eqb s ".." then
        match stack with
        | t :: stack' =>
            if String.eqb t ".." then clean_go rooted (s :: stack) l
            else clean_go rooted stack' l
        | [] => clean_go rooted (if rooted then [] else [s]) l
        end
      else clean_go rooted (s :: stack) l
  end.
Definition slash : ascii := chr 47.
Definition IsAbs (p : string) : bool := HasPrefix p "/".
(** [filepath.Clean]. *)
Definition Clean (p : string) : string :=
  if String.eqb p "" then "."
  else
    let body := Join (clean_go (IsAbs p) [] (Split p slash)) "/" in
    if IsAbs p then "/" +:+ body
    else if String.eqb body "" then "." else body.
(** [filepath.Join]: empty elements are dropped; no elements give "". *)
Definition path_Join (l : list string) : string :=
  match filter (λ s, s ≠ "") l with
  | [] => ""
  | l => Clean (Join l "/")
  end.
(** [filepath.Dir]. *)
Definition Dir (p : string) : string :=
  match splitLastByte p slash with
  | Some (h, _) => Clean (h +:+ "/")
  | None => "."
  end.

(** ** configfs.go *)

Definition DefaultRoot : string := "/sys/kernel/config/target".
Definition maxAttrWrite : Z := 4095.

Definition validSeg (s : string) : bool :=
  negb (String.eqb s "") && negb (String.eqb s ".") && negb (String.eqb s "..")
  && negb (ContainsChar s slash).
Definition checkParts (parts : list string) : result goerr unit :=
  rfor (λ p, if validSeg p then Ok tt
             else Err (wrapf "configfs: invalid path component %q" [p])) parts.

Definition Path (root : string) (parts : list string) : string := path_Join (root :: parts).

Definition safePath (root : string) (parts : list string) : result goerr string :=
  if String.eqb root "" then Err (wrapf "configfs: FS has no Root" [])
  else let? _ := checkParts parts in Ok (Path root parts).

Definition entry_le (a b : string * ftype) : bool := str_leb a.1 b.1.

Section FS.
Context {K : Type} `{Kernel K} (root : string).

(** The os package: a system call whose errno becomes a *PathError. *)
Definition sys {A} (op p : string) (call : K → result errno A * K) : ST K A :=
  λ k, match call k with
       | (Ok a, k) => (Ok a, k)
       | (Err e, k) => (Err (ErrSys op p e), k)
       end.
Definition os_Lstat (p : string) : ST K ftype := sys "lstat" p (sys_lstat p).
Definition os_Stat (p : string) : ST K (ftype * Z) := sys "stat" p (sys_stat p).
(** [os.ReadDir] sorts by name. *)
Definition os_ReadDir (p : string) : ST K (list (string * ftype)) :=
  do l <- sys "open" p (sys_readdir p); ret (sort_by entry_le l).
Definition os_Readlink (p : string) : ST K string := sys "readlink" p (sys_readlink p).
Definition os_ReadFile (p : string) : ST K string := sys "open" p (sys_readfile p).

Definition safe {A} (parts : list string) (f : string → ST K A) : ST K A :=
  do p <- of_result (safePath root parts); f p.

Definition Exists (parts : list string) : ST K bool :=
  safe parts (λ p,
    do r <- try (os_Lstat p);
    match r with
    | Ok _ => ret true
    | Err err => if IsNotExist err then ret false else throw err
    end).

Definition Mkdir (parts : list string) : ST K unit :=
  safe parts (λ p,
    do r <- try (sys "mkdir" p (sys_op (SysMkdir p)));
    match r with
    | Ok _ => ret tt
    | Err err =>
        if IsExist err then
          do fi <- try (os_Lstat p);
          match fi with
          | Ok FDir => ret tt
          | _ => throw err
          end
        else throw err
    end).

Definition Rmdir (parts : list string) : ST K unit :=
  safe parts (λ p,
    do r <- try (sys "rmdir" p (sys_op (SysRmdir p)));
    match r with
    | Err err => if IsNotExist err then ret tt else throw err
    | Ok _ => ret tt
    end).

Definition Unlink (parts : list string) : ST K unit :=
  safe parts (λ p,
    do r <- try (sys "unlink" p (sys_op (SysUnlink p)));
    match r with
    | Err err => if IsNotExist err then ret tt else throw err
    | Ok _ => ret tt
    end).

Definition ReadDir (parts : list string) : ST K (list string) :=
  safe parts (λ p, do entries <- os_ReadDir p; ret entries.*1).

Definition IsDir (parts : list string) : ST K bool :=
  safe parts (λ p,
    do r <- try (os_Stat p);
    match r with
    | Ok (t, _) => ret (bool_decide (t = FDir))
    | Err err => if IsNotExist err then ret false else throw err
    end).

Definition ReadAttr (parts : list string) : ST K string :=
  safe parts (λ p, do b <- os_ReadFile p; ret (TrimSuffix b nl_str)).

Definition WriteAttr (value : string) (parts : list string) : ST K unit :=
  safe parts (λ p,
    if maxAttrWrite <? slen value + 1
    then throw (wrapf "configfs: attribute value too large (%d bytes; max %d incl. newline)"
                  [itoa (slen value); itoa maxAttrWrite])
    else sys "open" p (sys_op (SysWrite p (value +:+ nl_str)))).

Definition sameLinkTarget (link target : string) : ST K bool :=
  do existing <- os_Readlink link;
  let existing := if IsAbs existing then existing else path_Join [Dir link; existing] in
  ret (String.eqb (Clean existing) (Clean target)).

(** [err == nil && same]. *)
Definition is_same (r : result goerr bool) : bool :=
  match r with Ok b => b | Err _ => false end.

Definition Symlink (target : string) (linkParts : list string) : ST K unit :=
  of_result (checkParts linkParts);;
  let link := Path root linkParts in
  do same <- try (sameLinkTarget link target);
  if is_same same then ret tt
  else
    do r <- try (sys "symlink" link (sys_op (SysSymlink target link)));
    match r with
    | Ok _ => ret tt
    | Err err =>
        if IsExist err then
          do same <- try (sameLinkTarget link target);
          if is_same same then ret tt else throw err
        else throw err
    end.

Definition ReadLink (parts : list string) : ST K string := safe parts os_Readlink.

Definition ListSymlinks (dirParts : list string) : ST K (list string) :=
  safe dirParts (λ p,
    do entries <- os_ReadDir p;
    ret (filter (λ e : string * ftype, e.2 = FLink) entries).*1).

(** [FindSymlink]: name and resolved target of the first symlink child; both
    empty when there is none. *)
Definition FindSymlink (dirParts : list string) : ST K (string * string) :=
  safe dirParts (λ dir,
    do entries <- os_ReadDir dir;
    match filter (λ e : string * ftype, e.2 = FLink) entries with
    | [] => ret ("", "")
    | (name, _) :: _ =>
        let link := path_Join [dir; name] in
        do t <- os_Readlink link;
        let t := if IsAbs t then t else path_Join [dir; t] in
        ret (name, Clean t)
    end).
End FS.

(** ** A kernel that records what it is asked to change *)

#[global] Instance Traced {K} `{Kernel K} : Kernel (K * list sysop) := {
  sys_lstat p k := let '(r, k') := sys_lstat p k.1 in (r, (k', k.2));
  sys_stat p k := let '(r, k') := sys_stat p k.1 in (r, (k', k.2));
  sys_readdir p k := let '(r, k') := sys_readdir p k.1 in (r, (k', k.2));
  sys_readlink p k := let '(r, k') := sys_readlink p k.1 in (r, (k', k.2));
  sys_readfile p k := let '(r, k') := sys_readfile p k.1 in (r, (k', k.2));
  sys_random k := let '(r, k') := sys_random k.1 in (r, (k', k.2));
  sys_op o k := let '(r, k') := sys_op o k.1 in (r, (k', k.2 ++ [o]))
}.
