(* ===== verification/FsPaths.v ===== *)
(** * path/filepath and configfs paths: where a list of segments leads

    [Path root parts] (lio/configfs) under a clean absolute root is the root's
    segments followed by [parts], as long as every part passes the package's
    own check: nothing in a checked path can climb out of the root. *)

From S2P Require Import Prelude GoStrings Errors Configfs.

(** ** Split and Join *)

Definition free_of (c : ascii) (s : string) : Prop := Forall (λ d, d ≠ c) (chars s).

Lemma ContainsChar_false s c : ContainsChar s c = false ↔ free_of c s.
Proof.
  unfold ContainsChar, free_of. induction s as [|d s IH]; simpl; [split; [constructor | done]|].
  rewrite orb_false_iff, Forall_cons, Ascii.eqb_neq, IH. naive_solver.
Qed.

Lemma Split_free s c : free_of c s → Split s c = [s].
Proof.
  unfold free_of. induction s as [|d s IH]; [done|]. cbn [chars]. intros [Hd Hs]%Forall_cons.
  cbn [Split]. apply Ascii.eqb_neq in Hd. by rewrite Hd, IH.
Qed.

Lemma Split_sep s t c : free_of c s → Split (s +:+ str1 c +:+ t) c = s :: Split t c.
Proof.
  unfold free_of. induction s as [|d s IH]; cbn [chars].
  - intros _. simpl. by rewrite Ascii.eqb_refl.
  - intros [Hd Hs]%Forall_cons. change (String d s +:+ str1 c +:+ t) with (String d (s +:+ str1 c +:+ t)).
    cbn [Split]. apply Ascii.eqb_neq in Hd. by rewrite Hd, IH.
Qed.

Lemma Join_cons2 x y l sep : Join (x :: y :: l) sep = x +:+ sep +:+ Join (y :: l) sep.
Proof. done. Qed.

Lemma Split_Join l c : l ≠ [] → Forall (free_of c) l → Split (Join l (str1 c)) c = l.
Proof.
  induction l as [|x l IH]; [done|]. intros _ [Hx Hl]%Forall_cons.
  destruct l as [|y l]; [by apply Split_free|].
  rewrite Join_cons2, Split_sep by done. by rewrite IH.
Qed.

Lemma Join_app l1 l2 sep : l1 ≠ [] → l2 ≠ [] → Join (l1 ++ l2) sep = Join l1 sep +:+ sep +:+ Join l2 sep.
Proof.
  intros H1 H2. induction l1 as [|x l1 IH]; [done|].
  destruct l1 as [|y l1].
  - destruct l2; done.
  - change ((x :: y :: l1) ++ l2) with (x :: y :: (l1 ++ l2)). rewrite !Join_cons2.
    change (y :: l1 ++ l2) with ((y :: l1) ++ l2). rewrite IH by done.
    by rewrite !app_assoc_str.
Qed.

(** ** Clean paths *)

Definition good_segs : list string → Prop := Forall (λ s, validSeg s = true).
(** The clean absolute path of some segments. *)
Definition abs (segs : list string) : string := "/" +:+ Join segs "/".
(** A configfs root as the package uses it: absolute and clean. *)
Definition clean_root (root : string) (segs : list string) : Prop :=
  segs ≠ [] ∧ good_segs segs ∧ root = abs segs.

Lemma validSeg_spec s :
  validSeg s = true ↔ s ≠ "" ∧ s ≠ "." ∧ s ≠ ".." ∧ free_of slash s.
Proof.
  unfold validSeg. rewrite !andb_true_iff, !negb_true_iff, !String.eqb_neq, ContainsChar_false.
  tauto.
Qed.

Lemma good_segs_free l : good_segs l → Forall (free_of slash) l.
Proof. intros H. eapply Forall_impl; [exact H|]. intros s Hs%validSeg_spec. tauto. Qed.

Lemma clean_go_good rooted stack l :
  good_segs l → clean_go rooted stack l = reverse stack ++ l.
Proof.
  revert stack. induction l as [|s l IH]; intros stack; cbn [clean_go]; [by rewrite app_nil_r|].
  intros [(H1 & H2 & H3 & _)%validSeg_spec Hl]%Forall_cons.
  apply String.eqb_neq in H1, H2, H3. rewrite H1, H2, H3. cbn [orb].
  rewrite IH by done. by rewrite reverse_cons, <- (assoc_L (++)).
Qed.

Lemma Clean_abs l : l ≠ [] → good_segs l → Clean (abs l) = abs l.
Proof.
  intros Hne Hl. unfold Clean, abs.
  change (String.eqb ("/" +:+ Join l "/") "") with false. cbv iota.
  change (IsAbs ("/" +:+ Join l "/")) with (HasPrefix (String "/" (Join l "/")) "/").
  assert (HasPrefix (String "/" (Join l "/")) "/" = true) as -> by (simpl; by destruct (Join l "/")).
  change ("/" +:+ Join l "/") with ("" +:+ str1 slash +:+ Join l (str1 slash)).
  rewrite Split_sep by constructor. rewrite Split_Join by (done || by apply good_segs_free).
  cbn [clean_go]. change (String.eqb "" "" || _) with true. cbv iota.
  rewrite clean_go_good by done. done.
Qed.

Lemma Join_nonempty l : l ≠ [] → good_segs l → Join l "/" ≠ "".
Proof.
  intros Hne Hl. destruct l as [|x l]; [done|]. apply Forall_cons in Hl as [(Hx & _)%validSeg_spec _].
  destruct x as [|c x]; [done|]. by destruct l.
Qed.

Lemma filter_good l : good_segs l → filter (λ s, s ≠ "") l = l.
Proof.
  induction l as [|x l IH]; [done|]. intros [(Hx & _)%validSeg_spec Hl]%Forall_cons.
  rewrite filter_cons_True by done. by rewrite IH.
Qed.

(** The path of checked parts is the root's segments and then the parts. *)
Lemma Path_abs root segs parts :
  clean_root root segs → good_segs parts → Path root parts = abs (segs ++ parts).
Proof.
  intros (Hne & Hs & ->) Hp. unfold Path, path_Join.
  rewrite filter_cons_True by done. rewrite filter_good by done.
  assert (Join (abs segs :: parts) "/" = abs (segs ++ parts)) as ->.
  { destruct parts as [|p parts]; [by rewrite app_nil_r|].
    rewrite Join_cons2. unfold abs. rewrite Join_app by done. by rewrite !app_assoc_str. }
  apply Clean_abs; [by destruct segs | by apply Forall_app].
Qed.

Lemma checkParts_Ok parts u : checkParts parts = Ok u ↔ good_segs parts.
Proof.
  unfold checkParts, good_segs. rewrite rfor_Ok. apply Forall_iff.
  intros s. by destruct (validSeg s).
Qed.

(** Two checked lists of parts have the same path only if they are equal. *)
Lemma abs_inj l1 l2 : l1 ≠ [] → l2 ≠ [] → good_segs l1 → good_segs l2 → abs l1 = abs l2 → l1 = l2.
Proof.
  intros ? ? ?%good_segs_free ?%good_segs_free Heq.
  assert (Join l1 (str1 slash) = Join l2 (str1 slash)) as HJ by (injection Heq; done).
  rewrite <- (Split_Join l1 slash), <- (Split_Join l2 slash) by done. by rewrite HJ.
Qed.

Lemma Path_inj root segs p1 p2 :
  clean_root root segs → good_segs p1 → good_segs p2 → Path root p1 = Path root p2 → p1 = p2.
Proof.
  intros Hr H1 H2. rewrite !(Path_abs root segs) by done. destruct Hr as (Hne & Hs & _).
  intros Heq%abs_inj; [by apply (inj (segs ++.)) in Heq | by destruct segs ..
                      | by apply Forall_app | by apply Forall_app].
Qed.

(** [p] is strictly below [root]: some checked, non-empty parts lead to it. *)
Definition below (root p : string) : Prop :=
  ∃ segs parts, clean_root root segs ∧ parts ≠ [] ∧ good_segs parts ∧ p = abs (segs ++ parts).

Lemma DefaultRoot_clean : clean_root DefaultRoot ["sys"; "kernel"; "config"; "target"].
Proof. split_and!; [done | repeat constructor | reflexivity]. Qed.

(** ** Decimal numbers are good segments *)

Lemma pretty_N_char_free c : (∀ n : N, pretty_N_char n ≠ c) → ∀ x s, free_of c s → free_of c (pretty_N_go x s).
Proof.
  intros Hc x. induction (N.lt_wf_0 x) as [x _ IH]; intros s Hs.
  destruct (decide (0 < x)%N) as [Hx|Hx].
  - rewrite pretty_N_go_step by done. apply IH; [apply N.div_lt; lia|].
    constructor; [apply Hc | done].
  - assert (x = 0%N) as -> by lia. by rewrite pretty_N_go_0.
Qed.

Lemma itoa_free z : free_of slash (itoa z).
Proof.
  assert (∀ n : N, free_of slash (pretty n)) as HN.
  { intros n. unfold pretty, pretty_N. case_decide; [repeat constructor; done|].
    apply pretty_N_char_free; [|constructor]. intros m. unfold pretty_N_char. by repeat case_match. }
  unfold itoa. destruct z; simpl.
  - repeat constructor; done.
  - apply HN.
  - constructor; [done | apply HN].
Qed.

Lemma free_of_app c s t : free_of c s → free_of c t → free_of c (s +:+ t).
Proof. unfold free_of. rewrite chars_app. apply Forall_app_2. Qed.

(** A numbered name ["prefix" ++ "_" ++ n] is a good segment. *)
Lemma numbered_good p z : free_of slash p → (2 < String.length p)%nat → validSeg (p +:+ itoa z) = true.
Proof.
  intros Hp Hl. apply validSeg_spec.
  destruct p as [|a [|b [|c p]]]; simpl in Hl; try lia.
  split_and!; try done. by apply free_of_app, itoa_free.
Qed.
