(* ===== verification/LioAptpl.v ===== *)
(** * lio/aptplcheck.go, lio/isid.go, lio/prstate.go: SCSI-3 PR text, parsed

    The pure half: saved APTPL records, the kernel's renderings of
    registrations, reservation holder, type and session ids, and the question
    whether the export a record was made through still exists. The half that
    reads the kernel is in [LioApply] and [LioStranded]. *)

From S2P Require Import Prelude GoStrings Errors LioModel.

(** ** aptplRecord *)

Record aptplRecord := mkRec {
  a_Initiator : string;
  a_Target : string;
  a_TPGT : Z;
  a_MappedLUN : Z;
  a_TargetLUN : Z;
  a_Key : Z;
  a_Holder : bool;
  a_ResType : Z
}.
Definition emptyRecord : aptplRecord := mkRec "" "" 0 0 0 0 false 0.

Definition set_Initiator v r :=
  mkRec v (a_Target r) (a_TPGT r) (a_MappedLUN r) (a_TargetLUN r) (a_Key r) (a_Holder r) (a_ResType r).
Definition set_Target v r :=
  mkRec (a_Initiator r) v (a_TPGT r) (a_MappedLUN r) (a_TargetLUN r) (a_Key r) (a_Holder r) (a_ResType r).
Definition set_TPGT v r :=
  mkRec (a_Initiator r) (a_Target r) v (a_MappedLUN r) (a_TargetLUN r) (a_Key r) (a_Holder r) (a_ResType r).
Definition set_MappedLUN v r :=
  mkRec (a_Initiator r) (a_Target r) (a_TPGT r) v (a_TargetLUN r) (a_Key r) (a_Holder r) (a_ResType r).
Definition set_TargetLUN v r :=
  mkRec (a_Initiator r) (a_Target r) (a_TPGT r) (a_MappedLUN r) v (a_Key r) (a_Holder r) (a_ResType r).
Definition set_Key v r :=
  mkRec (a_Initiator r) (a_Target r) (a_TPGT r) (a_MappedLUN r) (a_TargetLUN r) v (a_Holder r) (a_ResType r).
Definition set_Holder v r :=
  mkRec (a_Initiator r) (a_Target r) (a_TPGT r) (a_MappedLUN r) (a_TargetLUN r) (a_Key r) v (a_ResType r).
Definition set_ResType v r :=
  mkRec (a_Initiator r) (a_Target r) (a_TPGT r) (a_MappedLUN r) (a_TargetLUN r) (a_Key r) (a_Holder r) v.

(** The value of one field; [None] is the error of that field. *)
Definition parseField (k v : string) (r : aptplRecord) : option aptplRecord :=
  if String.eqb k "initiator_node" then Some (set_Initiator v r)
  else if String.eqb k "target_node" then Some (set_Target v r)
  else if String.eqb k "tpgt" then option_map (λ n, set_TPGT n r) (Atoi v)
  else if String.eqb k "mapped_lun" then option_map (λ n, set_MappedLUN n r) (Atoi v)
  else if String.eqb k "target_lun" then option_map (λ n, set_TargetLUN n r) (Atoi v)
  else if String.eqb k "sa_res_key" then option_map (λ n, set_Key n r) (ParseUint_dec v 64)
  else if String.eqb k "res_type" then option_map (λ n, set_ResType n r) (ParseUint_hex v 8)
  else if String.eqb k "res_holder" then
    (if String.eqb v "0" then Some (set_Holder false r)
     else if String.eqb v "1" then Some (set_Holder true r) else None)
  else Some r.

Definition parseStep (st : aptplRecord * list string) (f : string)
    : result goerr (aptplRecord * list string) :=
  match Cut (TrimSpace f) "=" with
  | None => Ok st
  | Some (k, v) =>
      match parseField k v st.1 with
      | Some r => Ok (r, k :: st.2)
      | None => Err (wrapf "field %s=%q" [k; v])
      end
  end.

Definition requiredFields : list string :=
  ["initiator_node"; "target_node"; "tpgt"; "mapped_lun"; "target_lun"; "sa_res_key"; "res_holder"].

Definition comma : ascii := chr 44.
Definition parseAPTPLRecord (rec : string) : result goerr aptplRecord :=
  let? st := rfold parseStep (emptyRecord, []) (Split rec comma) in
  let? _ := rfor (λ k, if any (String.eqb k) st.2 then Ok tt
                       else Err (wrapf "missing field %q" [k])) requiredFields in
  Ok st.1.

(** ** Does the export a record was made through still exist? *)

Definition lun_exposes (g : TPG) (ml : MappedLUN) (b : Backstore) : bool :=
  any (λ l, (l_Index l =? ml_TPGLUN ml) && String.eqb (l_Backstore l) (bs_Name b)) (g_LUNs g).

Definition exported (r : aptplRecord) (cfg : Config) (b : Backstore) : bool :=
  any (λ t, String.eqb (t_IQN t) (a_Target r) &&
    any (λ g, (g_Tag g =? a_TPGT r) &&
      any (λ acl, String.eqb (acl_InitiatorIQN acl) (a_Initiator r) &&
        any (λ ml, (ml_Index ml =? a_MappedLUN r) && (ml_TPGLUN ml =? a_TargetLUN r)
                   && lun_exposes g ml b)
          (acl_MappedLUNs acl))
        (g_ACLs g))
      (t_TPGs t))
    (c_Targets cfg).

Definition excluded (r : aptplRecord) : string :=
  let t := a_ResType r in
  if (t =? 0x05) || (t =? 0x06) || (t =? 0x07) || (t =? 0x08)
  then "initiators that are not registered"
  else if (t =? 0x01) || (t =? 0x03) then "every other initiator"
  else "other initiators".

Definition count {A} (f : A → Z) (l : list A) : Z := foldr (λ x n, f x + n) 0 l.

Definition exportedMappings (cfg : Config) (b : Backstore) (ignoreInitiator : string) : Z :=
  count (λ t,
    count (λ g,
      count (λ acl,
        if String.eqb (acl_InitiatorIQN acl) ignoreInitiator then 0
        else count (λ ml,
               count (λ l, if (l_Index l =? ml_TPGLUN ml) && String.eqb (l_Backstore l) (bs_Name b)
                           then 1 else 0) (g_LUNs g))
               (acl_MappedLUNs acl))
        (g_ACLs g))
      (t_TPGs t))
    (c_Targets cfg).

(** ** The kernel's renderings *)

Record liveReg := mkLiveReg { lr_Initiator : string; lr_Key : Z }.
#[global] Instance liveReg_eq_dec : EqDecision liveReg.
Proof. solve_decision. Defined.

(** One line of [parseRegistrations]: skipped, unparsed, or a registration. *)
Inductive regLine := RegSkip | RegUnparsed | RegOk (r : liveReg).

(** [before, _, _ := strings.Cut(s, sep)]. *)
Definition Cut_before (s sep : string) : string :=
  match Cut s sep with Some (a, _) => a | None => s end.

Definition parseRegLine (line : string) : regLine :=
  let line := TrimSpace (RemoveAll line nul) in
  if String.eqb line "" || String.eqb line "None" || HasSuffix line "Registrations:"
  then RegSkip
  else
    match Cut line " Node: " with
    | None => RegUnparsed
    | Some (_, rest) =>
        match Cut rest " Key: " with
        | None => RegUnparsed
        | Some (node, keyPart) =>
            let iqn := Cut_before node "," in
            let keyStr := Cut_before (TrimSpace keyPart) " " in
            match ParseUint_hex (TrimPrefix keyStr "0x") 64 with
            | None => RegUnparsed
            | Some key => RegOk (mkLiveReg (TrimSpace iqn) key)
            end
        end
    end.
Definition parseRegistrations (s : string) : list liveReg * Z :=
  foldr (λ line acc,
    match parseRegLine line with
    | RegSkip => acc
    | RegUnparsed => (acc.1, acc.2 + 1)
    | RegOk r => (r :: acc.1, acc.2)
    end) ([], 0) (Split s nl).

Definition noHolder : string := "No SPC-3 Reservation holder".

(** isid.go: [isidRE], twelve lower-case hex digits. *)
Definition isISID (s : string) : bool :=
  (String.length s =? 12)%nat && str_all is_lower_hex s.

(** [parseHolder]: initiator, ISID, and whether the text was understood. *)
Definition parseHolder (s : string) : string * string * bool :=
  let s := TrimSpace (RemoveAll s nul) in
  match Cut s " Initiator: " with
  | None => if String.eqb s noHolder then ("", "", true) else ("", "", false)
  | Some (_, rest) =>
      match Cut (TrimSpace rest) "," with
      | None =>
          let name := TrimSpace (TrimSpace rest) in
          if String.eqb name "" then ("", "", false) else (name, "", true)
      | Some (name, tail) =>
          let name := TrimSpace name in
          if String.eqb name "" then ("", "", false)
          else
            match CutPrefix (TrimSpace tail) "i,0x" with
            | None => (name, "", true)
            | Some got =>
                match Fields got with
                | [] => (name, "", true)
                | f :: _ =>
                    let got := ToLower f in
                    if isISID got then (name, got, true) else (name, "", true)
                end
            end
      end
  end.

(** prstate.go: [prTypeText]. *)
Definition prTypeText (s : string) : string :=
  let s := TrimSpace (RemoveAll s nul) in
  match Cut s "Reservation Type:" with
  | Some (_, rest) => TrimSpace rest
  | None => ""
  end.

Record Reservation := mkRes { rv_Holder : string; rv_ISID : string; rv_Type : string; rv_SPC2 : bool }.

Definition AllRegistrants (r : Reservation) : bool :=
  Contains (ToLower (rv_Type r)) "all registrants".

(** ** isid.go: the two regular expressions, matched by hand

    RE2's [\s] is tab, newline, form feed, carriage return and space. *)

Definition re_space (c : ascii) : bool :=
  any (Ascii.eqb c) [chr 9; chr 10; chr 12; chr 13; chr 32].
Definition is_hex (c : ascii) : bool :=
  match hex_digit c with Some _ => true | None => false end.

Fixpoint skip_space (s : string) : string :=
  match s with
  | String c s' => if re_space c then skip_space s' else s
  | EmptyString => EmptyString
  end.
Definition two_spaces (s : string) : bool :=
  match s with
  | String a (String b _) => re_space a && re_space b
  | _ => false
  end.
(** [([0-9a-fA-F ]+?)\s\s]: the shortest non-empty run of the class that two
    white-space characters follow. *)
Fixpoint lazy_hex (s : string) : option string :=
  match s with
  | String c s' =>
      if is_hex c || Ascii.eqb c (chr 32) then
        if two_spaces s' then Some (str1 c)
        else option_map (String c) (lazy_hex s')
      else None
  | EmptyString => None
  end.
(** [ISID:\s*0x([0-9a-fA-F ]+?)\s\s], leftmost match. *)
Fixpoint find_session (s : string) : option string :=
  match
    match CutPrefix s "ISID:" with
    | Some r => match CutPrefix (skip_space r) "0x" with
                | Some r => lazy_hex r
                | None => None
                end
    | None => None
    end
  with
  | Some m => Some m
  | None => match s with String _ s' => find_session s' | EmptyString => None end
  end.

Definition ParseSessionISID (info : string) : result goerr string :=
  match find_session (RemoveAll info nul) with
  | None => Err (wrapf "no ISID found in ACL info; the session may be logged out" [])
  | Some m =>
      let got := ToLower (RemoveAll m (chr 32)) in
      if isISID got then Ok got
      else Err (wrapf "extracted %q from the ACL info, which is not a 12-hex-digit ISID" [got])
  end.

Fixpoint span_hex (s : string) : string * string :=
  match s with
  | String c s' =>
      if is_hex c then let '(h, r) := span_hex s' in (String c h, r) else (EmptyString, s)
  | EmptyString => (EmptyString, EmptyString)
  end.
(** [(\S+?),i,0x([0-9a-fA-F]+)] at the start of [s]: the two groups and what
    follows the match. *)
Fixpoint lazy_node (s : string) : option (string * string * string) :=
  match s with
  | String c s' =>
      if re_space c then None
      else
        let more := match lazy_node s' with
                    | Some (n, h, r) => Some (String c n, h, r)
                    | None => None
                    end in
        match CutPrefix s' ",i,0x" with
        | Some r =>
            let '(h, rest) := span_hex r in
            if String.eqb h "" then more else Some (str1 c, h, rest)
        | None => more
        end
  | EmptyString => None
  end.
(** [FindAllStringSubmatch] of [iSCSI Node:\s*(\S+?),i,0x([0-9a-fA-F]+)]:
    non-overlapping matches, left to right. *)
Fixpoint find_registered (fuel : nat) (s : string) : list (string * string) :=
  match fuel with
  | O => []
  | S fuel =>
      match s with
      | EmptyString => []
      | String _ s' =>
          match CutPrefix s "iSCSI Node:" with
          | Some r =>
              match lazy_node (skip_space r) with
              | Some (n, h, rest) => (n, h) :: find_registered fuel rest
              | None => find_registered fuel s'
              end
          | None => find_registered fuel s'
          end
      end
  end.

Definition ParseRegisteredISIDs (s : string) : result goerr (gmap string string) :=
  let s := RemoveAll s nul in
  rfold (λ (out : gmap string string) m,
    let got := ToLower m.2 in
    if isISID got then Ok (<[m.1 := got]> out)
    else Err (wrapf "registration for %s carries %q, which is not a 12-hex-digit ISID" [m.1; got]))
    ∅ (find_registered (S (String.length s)) s).

(** ** prstate.go: the state read back *)

Definition prMaxRegLine : Z := 384.
Record PRState := mkPRState {
  st_Registrations : list liveReg; st_Holder : string; st_HolderKnown : bool;
  st_Type : string; st_APTPLActive : bool; st_Truncated : bool }.
Definition zeroPRState : PRState := mkPRState [] "" false "" false false.

Example parse_holder_ex :
  parseHolder ("SPC-3 Reservation: iSCSI Initiator: iqn.x:h,i,0x00023d000004" +:+ nl_str)
  = ("iqn.x:h", "00023d000004", true).
Proof. vm_compute. reflexivity. Qed.
Example parse_session_ex :
  ParseSessionISID "LIO Session ID: 1   ISID: 0x00 02 3d 00 00 01  TSIH: 1" = Ok "00023d000001".
Proof. vm_compute. reflexivity. Qed.
Example parse_registered_ex :
  ParseRegisteredISIDs
    ("iSCSI Node: iqn.a,i,0x00023d000004 Key: 0xaa" +:+ nl_str +:+ "iSCSI Node: iqn.b Key: 0xbb")
  = Ok {["iqn.a" := "00023d000004"]}.
Proof. vm_compute. reflexivity. Qed.
