(* ===== verification/LioApply.v ===== *)
(** * lio/backstore.go, lio/iscsi.go, lio/removal.go: the apply context

    [applyCtx] of the source is the state [ctx K] (the kernel, the change log
    and the drift found so far) together with the variables of the section
    (the configfs root, the desired backstores by name, and the provider of
    saved SCSI-3 PR records). A method of [applyCtx] is an [ST (ctx K)]
    computation; one that only uses the configfs handle is an [ST K] one,
    lifted by [fs]. *)

From S2P Require Import Prelude GoStrings Errors Netip LioModel Configfs LioAptpl.

(** ** Reports *)

(** [AttrDrift]. *)
Record AttrDrift := mkDrift {
  d_Backstore : string; d_Type : string; d_Attr : string;
  d_Live : string; d_Desired : string; d_Err : option goerr }.

(** [AttrDrift.String], from the text of an error. *)
Definition AttrDrift_String (text : goerr → string) (d : AttrDrift) : string :=
  let id := "backstore/" +:+ d_Type d +:+ "/" +:+ d_Backstore d in
  match d_Err d with
  | Some e =>
      id +:+ ": " +:+ (if String.eqb (d_Attr d) "" then "the backstore" else "attrib/" +:+ d_Attr d)
      +:+ " could not be read (" +:+ text e
      +:+ ") -- whether the live device matches the desired configuration is UNKNOWN"
  | None =>
      if String.eqb (d_Attr d) "block_size" then
        id +:+ ": GEOMETRY MISMATCH -- the live device has block_size " +:+ d_Live d +:+ " but " +:+ d_Desired d
        +:+ " is the desired value; initiators see " +:+ d_Live d +:+ " while the desired configuration says "
        +:+ d_Desired d
        +:+ ". It cannot be changed while the volume is exported; unexport it (an operator decision about a device an initiator may have mounted) to converge"
      else if String.eqb (d_Attr d) "emulate_write_cache" then
        let '(mode, claim) := if String.eqb (d_Live d) "1" then ("buffered (page cache)", "a volatile cache")
                              else ("write-through (O_DSYNC)", "no cache") in
        id +:+ ": WRITE CACHE MODE MISMATCH -- the live backing mode is " +:+ mode
        +:+ ", which is fixed when the object is created and cannot be changed on a live device. emulate_write_cache is held at "
        +:+ d_Live d +:+ " so the initiator is honestly told there is " +:+ claim +:+ "; the requested value "
        +:+ d_Desired d
        +:+ " would make the device lie about its durability. The mode converges on the next boot, when the backstore is rebuilt from the desired config"
      else
        id +:+ ": attrib/" +:+ d_Attr d +:+ " is " +:+ d_Live d +:+ ", wanted " +:+ d_Desired d
        +:+ " -- immutable while the volume is exported, left alone"
  end.

(** The lines of [Report.APTPLUnbound], one constructor per message. *)
Inductive aptpl_report :=
  (* "saved SCSI-3 PR state could not be read" *)
  | RepSavedUnreadable (id : string) (err : goerr)
  (* "saved SCSI-3 PR record %d is unparsable" *)
  | RepUnparsable (id : string) (i : nat) (err : goerr)
  (* "%d SCSI-3 PR registration(s) are saved and still exported but could not be read back" *)
  | RepLiveUnreadable (id : string) (n : nat) (err : goerr)
  (* "%d line(s) of the kernel's live SCSI-3 PR registrations could not be parsed" *)
  | RepUnparsedLines (id : string) (n : Z)
  (* "saved SCSI-3 PR registration for initiator %s is still exported but is NOT live" *)
  | RepNotLive (id initiator : string) (key mappedLUN : Z)
  (* "a saved SCSI-3 RESERVATION HOLDER (%s) is still exported but the live holder could not be read back" *)
  | RepHolderUnreadable (id holder : string) (err : goerr)
  (* "the saved SCSI-3 RESERVATION HOLDER is %s but the live holder is %q" *)
  | RepHolderWrong (id holder liveHolder : string)
  (* "the saved holder (%s) is no longer exported and the live holder could not be read back" *)
  | RepLapsedUnreadable (id lapsed : string) (err : goerr) (survivors : Z)
  (* "the saved holder (%s) is no longer exported and no reservation is held" *)
  | RepLapsed (id lapsed : string) (survivors : Z) (who : string).

(** ** backstore.go: pure parts *)

Definition defaultBlockSize : Z := 512.
Definition blockSize (b : Backstore) : Z :=
  match bs_Attributes b !! "block_size" with
  | Some v => match Atoi v with
              | Some n => if 0 <? n then n else defaultBlockSize
              | None => defaultBlockSize
              end
  | None => defaultBlockSize
  end.
Definition bufferedOpt (b : Backstore) : string :=
  if bs_BufferedIO b then ",fd_buffered_io=1" else "".
Definition wwnDirFields (b : Backstore) : list (string * string) :=
  [("vendor_id", bs_VendorID b); ("product_id", bs_ProductID b); ("revision", bs_Revision b)].

(** ** iscsi.go: [portalApplyOrder] *)

Definition portal_cmp (a b : Portal) : Z :=
  if IsUnspecified (p_IP a) && negb (IsUnspecified (p_IP b)) then -1
  else if negb (IsUnspecified (p_IP a)) && IsUnspecified (p_IP b) then 1
  else 0.
Definition portalApplyOrder (portals : list Portal) : list Portal :=
  if (length portals <? 2)%nat then portals
  else sort_by (λ a b, portal_cmp a b <=? 0) portals.

(** ** config.go: directory names *)

Definition parseTPGT (name : string) : option Z :=
  match CutPrefix name "tpgt_" with
  | Some r => match Atoi r with Some n => if 0 <=? n then Some n else None | None => None end
  | None => None
  end.
Definition parseLUN (name : string) : option Z :=
  match CutPrefix name "lun_" with
  | Some r => match Atoi r with Some n => if 0 <=? n then Some n else None | None => None end
  | None => None
  end.
Fixpoint trim_right_slash (s : string) : string :=
  match s with
  | EmptyString => EmptyString
  | String c s =>
      let r := trim_right_slash s in
      if Ascii.eqb c slash && String.eqb r "" then "" else String c r
  end.
Definition lastPathSegment (p : string) : string :=
  let p := trim_right_slash p in
  match splitLastByte p slash with Some (_, t) => t | None => p end.
Definition backstoreNameFromPath (p : string) : string := lastPathSegment p.
Definition lunIndexFromPath (p : string) : Z :=
  match parseLUN (lastPathSegment p) with Some idx => idx | None => 0 end.

(** ** The context *)

Record ctx (K : Type) := mkCtx {
  cx_k : K; cx_changes : list string; cx_drift : list AttrDrift }.
Arguments mkCtx {K}.
Arguments cx_k {K}.
Arguments cx_changes {K}.
Arguments cx_drift {K}.

Section Ctx.
Context {K : Type}.
(** A configfs operation inside the context. *)
Definition fs {A} (m : ST K A) : ST (ctx K) A :=
  λ c, let '(r, k) := m (cx_k c) in (r, mkCtx k (cx_changes c) (cx_drift c)).
Definition note (s : string) : ST (ctx K) unit :=
  λ c, (Ok tt, mkCtx (cx_k c) (cx_changes c ++ [s]) (cx_drift c)).
Definition add_drift (d : AttrDrift) : ST (ctx K) unit :=
  λ c, (Ok tt, mkCtx (cx_k c) (cx_changes c) (cx_drift c ++ [d])).
Definition driftUnknown (b : Backstore) (key : string) (err : goerr) : ST (ctx K) unit :=
  add_drift (mkDrift (bs_Name b) (bs_Type b) key "" "" (Some err)).
Definition driftNote (b : Backstore) (key cur want : string) : ST (ctx K) unit :=
  add_drift (mkDrift (bs_Name b) (bs_Type b) key cur want None).
End Ctx.

(** [if notADir(err) { continue }; return nil, err]. *)
Definition skip_notADir {S A B} (m : ST S A) (dflt : B) (f : A → ST S B) : ST S B :=
  do r <- try m;
  match r with
  | Ok a => f a
  | Err err => if notADir err then ret dflt else throw err
  end.

Section Apply.
Context {K : Type} `{Kernel K} (root : string).
Context (stateBackstores : gmap string Backstore).
Context (aptplRecords : option (Backstore → ST K (list string))).

Definition bs_id (b : Backstore) : string := "backstore/" +:+ bs_Type b +:+ "/" +:+ bs_Name b.

(** ** Exports of a backstore *)

Definition tally (counts : gmap string Z) (target : string) : gmap string Z :=
  <[target := default 0 (counts !! target) + 1]> counts.

Definition lunRefCounts : ST K (gmap string Z) :=
  do r <- try (ReadDir root ["iscsi"]);
  match r with
  | Err err => if IsNotExist err then ret ∅ else throw err
  | Ok iqns =>
      mfold (λ counts iqn,
        skip_notADir (ReadDir root ["iscsi"; iqn]) counts (λ tpgs,
          mfold (λ counts tpg,
            if negb (HasPrefix tpg "tpgt_") then ret counts
            else
              skip_notADir (ReadDir root ["iscsi"; iqn; tpg; "lun"]) counts (λ luns,
                mfold (λ counts lun,
                  skip_notADir (FindSymlink root ["iscsi"; iqn; tpg; "lun"; lun]) counts (λ nt,
                    if String.eqb nt.2 "" then ret counts else ret (tally counts nt.2)))
                  counts luns))
            counts tpgs))
        ∅ iqns
  end.

Definition countLUNRefs (b : Backstore) : ST K Z :=
  do counts <- lunRefCounts;
  ret (default 0 (counts !! Path root (objPath b))).

Definition immutableWhileExported (b : Backstore) (err : goerr) : ST K bool :=
  if negb (errors_Is err EINVAL) then ret false
  else
    do r <- try (countLUNRefs b);
    ret (match r with Ok n => 0 <? n | Err _ => false end).

(** ** ensureBackstore *)

Definition controlString (b : Backstore) : ST K string :=
  if String.eqb (bs_Type b) FileIO then
    do size <-
      (if bs_Size b =? 0 then
         do r <- try (os_Stat (bs_Dev b));
         match r with
         | Err err => throw (ErrMsgV "cannot stat backing file %q: %v" [bs_Dev b] err)
         | Ok (FFile, n) => ret n
         | Ok _ => ret 0
         end
       else ret (bs_Size b));
    if 0 <? size then
      let bs := blockSize b in
      if negb (Z.rem size bs =? 0)
      then throw (wrapf "size %d is not a multiple of block_size %d; the kernel would truncate the trailing partial block" [itoa size; itoa bs])
      else ret ("fd_dev_name=" +:+ bs_Dev b +:+ ",fd_dev_size=" +:+ itoa size +:+ bufferedOpt b)
    else ret ("fd_dev_name=" +:+ bs_Dev b +:+ bufferedOpt b)
  else if String.eqb (bs_Type b) IBlock then ret ("udev_path=" +:+ bs_Dev b)
  else throw (wrapf "unsupported backstore type %q" [bs_Type b]).

Definition validateAttr (b : Backstore) (key val : string) : ST K unit :=
  if String.eqb key "block_size" then
    (if validBlockSize val then ret tt
     else throw (wrapf "block_size %q is not one of 512, 1024, 2048, 4096" [val]))
  else if String.eqb key "emulate_write_cache" then
    (if String.eqb val "0" || String.eqb val "1" then ret tt
     else throw (wrapf "emulate_write_cache %q is not 0 or 1" [val]))
  else if String.eqb key "optimal_sectors" then
    match Atoi val with
    | Some n =>
        if n <? 0 then throw (wrapf "optimal_sectors %q is not a non-negative integer" [val])
        else
          do r <- try (ReadAttr root (objPath b ++ ["attrib"; "hw_max_sectors"]));
          match r with
          | Err _ => ret tt
          | Ok raw =>
              match Atoi raw with
              | Some maxSectors =>
                  if maxSectors <=? 0 then ret tt
                  else if maxSectors <? n
                  then throw (wrapf "optimal_sectors %d exceeds this device's hw_max_sectors (%d)" [itoa n; itoa maxSectors])
                  else ret tt
              | None => ret tt
              end
          end
    | None => throw (wrapf "optimal_sectors %q is not a non-negative integer" [val])
    end
  else ret tt.

Definition constrainWriteCache (b : Backstore) (info : string)
    : ST (ctx K) (gmap string string) :=
  let key := "emulate_write_cache" in
  match bs_Attributes b !! key with
  | None => ret (bs_Attributes b)
  | Some want =>
      if negb (String.eqb (bs_Type b) FileIO) || String.eqb info "" then ret (bs_Attributes b)
      else
        let mode := parseInfoMode info in
        if String.eqb mode "" then ret (bs_Attributes b)
        else
          let live := if String.eqb mode "Buffered-WCE" then "1" else "0" in
          if String.eqb live want then ret (bs_Attributes b)
          else driftNote b key live want;; ret (<[key := live]> (bs_Attributes b))
  end.

Definition kcfg (op obj : string) : goerr → goerr := errf KindConfigfs op obj.
Definition krej (op obj : string) : goerr → goerr := errf KindKernelRejected op obj.
Definition kcreate (k : Kind) (op obj : string) (err : goerr) : goerr :=
  errf (classifyCreate err k) op obj err.
Definition kremove (k : Kind) (op obj : string) (err : goerr) : goerr :=
  errf (classifyRemove err k) op obj err.

Definition reconcile_wwn (b : Backstore) (id : string) : ST (ctx K) unit :=
  if String.eqb (bs_WWN b) "" then ret tt
  else
    do raw <- onerr (fs (ReadAttr root (objPath b ++ ["wwn"; "vpd_unit_serial"]))) (kcfg "apply" id);
    if String.eqb (lastField raw (chr 58)) (bs_WWN b) then ret tt
    else
      onerr (fs (WriteAttr root (bs_WWN b) (objPath b ++ ["wwn"; "vpd_unit_serial"])))
        (krej "apply" (id +:+ " wwn"));;
      note (id +:+ " wwn=" +:+ bs_WWN b).

Definition reconcile_ident (b : Backstore) (id : string) (f : string * string)
    : ST (ctx K) unit :=
  if String.eqb f.2 "" then ret tt
  else
    do cur <- onerr (fs (ReadAttr root (objPath b ++ ["wwn"; f.1]))) (kcfg "apply" (id +:+ " wwn/" +:+ f.1));
    if String.eqb cur f.2 then ret tt
    else
      onerr (fs (WriteAttr root f.2 (objPath b ++ ["wwn"; f.1])))
        (krej "apply" (id +:+ " wwn/" +:+ f.1));;
      note (id +:+ " wwn/" +:+ f.1 +:+ "=" +:+ f.2).

Definition attr_of (m : gmap string string) (k : string) : string := default "" (m !! k).

Definition reconcile_attr (b : Backstore) (id : string) (attrs : gmap string string) (k : string)
    : ST (ctx K) unit :=
  let want := attr_of attrs k in
  let p := objPath b ++ ["attrib"; k] in
  do cur <- onerr (fs (ReadAttr root p)) (kcfg "apply" (id +:+ " attrib/" +:+ k));
  if String.eqb cur want then ret tt
  else
    onerr (fs (validateAttr b k want)) (krej "apply" (id +:+ " attrib/" +:+ k));;
    do w <- try (fs (WriteAttr root want p));
    match w with
    | Err err =>
        do imm <- fs (immutableWhileExported b err);
        if negb imm then throw (errf KindKernelRejected "apply" (id +:+ " attrib/" +:+ k) err)
        else driftNote b k cur want
    | Ok _ => note (id +:+ " attrib/" +:+ k +:+ "=" +:+ want)
    end.

Definition reconcile_size (b : Backstore) (id info : string) : ST (ctx K) unit :=
  if (0 <? bs_Size b) && String.eqb (bs_Type b) FileIO then
    let cur := parseInfoSize info in
    if cur <? 0 then
      throw (errf KindConfigfs "apply" (id +:+ " size")
               (wrapf "cannot parse size from fileio info %q" [info]))
    else
      let bs := blockSize b in
      if bs_Size b - Z.rem (bs_Size b) bs =? cur - Z.rem cur bs then ret tt
      else if bs_Size b <? cur then
        throw (errf KindIncompatible "apply" id
                 (wrapf "size %d < current %d (shrink unsupported)" [itoa (bs_Size b); itoa cur]))
      else if negb (Z.rem (bs_Size b) bs =? 0) then
        throw (errf KindInvalidSpec "apply" id
                 (wrapf "size %d is not a multiple of block_size %d" [itoa (bs_Size b); itoa bs]))
      else
        let ctl := "fd_dev_name=" +:+ bs_Dev b +:+ ",fd_dev_size=" +:+ itoa (bs_Size b) in
        onerr (fs (WriteAttr root ctl (objPath b ++ ["control"]))) (krej "apply" (id +:+ " resize"));;
        note (id +:+ " size=" +:+ itoa (bs_Size b))
  else ret tt.

Definition reconcileBackstoreMutable (b : Backstore) (id : string) : ST (ctx K) unit :=
  reconcile_wwn b id;;
  mfor (reconcile_ident b id) (wwnDirFields b);;
  do info <- (if String.eqb (bs_Type b) FileIO
              then onerr (fs (ReadAttr root (objPath b ++ ["info"]))) (kcfg "apply" (id +:+ " info"))
              else ret "");
  do attrs <- constrainWriteCache b info;
  mfor (reconcile_attr b id attrs) (sortedKeys attrs);;
  reconcile_size b id info.

Definition load_record (b : Backstore) (id rec : string) : ST (ctx K) unit :=
  if String.eqb (TrimSpace rec) "" then ret tt
  else
    onerr (fs (WriteAttr root rec (objPath b ++ ["pr"; "res_aptpl_metadata"])))
      (krej "apply" (id +:+ " pr/res_aptpl_metadata"));;
    note ("restored PR registration on " +:+ id).

Definition loadAPTPL (b : Backstore) (id : string) : ST (ctx K) unit :=
  match aptplRecords with
  | None => ret tt
  | Some provider =>
      do recs <- onerr (fs (provider b)) (errf KindInvalidSpec "apply" (id +:+ " pr/res_aptpl_metadata"));
      mfor (load_record b id) recs
  end.

(** The create path of [ensureBackstore], from the HBA directory on. *)
Definition createBackstore (b : Backstore) (id : string) : ST (ctx K) unit :=
  onerr (fs (Mkdir root (hbaPath b))) (kcreate KindConfigfs "apply" id);;
  onerr (fs (Mkdir root (objPath b))) (kcreate KindConfigfs "apply" id);;
  do control <- onerr (fs (controlString b)) (errf KindInvalidSpec "apply" id);
  onerr (fs (WriteAttr root control (objPath b ++ ["control"]))) (krej "apply" id);;
  onerr (fs (WriteAttr root (bs_Dev b) (objPath b ++ ["udev_path"]))) (krej "apply" id);;
  loadAPTPL b id;;
  onerr (fs (WriteAttr root "1" (objPath b ++ ["enable"]))) (krej "apply" id);;
  mfor (λ k, onerr (fs (WriteAttr root (attr_of (bs_Attributes b) k) (objPath b ++ ["attrib"; k])))
               (krej "apply" (id +:+ " attrib/" +:+ k)))
    (sortedKeys (bs_Attributes b));;
  mfor (λ f : string * string,
          if String.eqb f.2 "" then ret tt
          else onerr (fs (WriteAttr root f.2 (objPath b ++ ["wwn"; f.1])))
                 (krej "apply" (id +:+ " wwn/" +:+ f.1)))
    (wwnDirFields b);;
  (if String.eqb (bs_WWN b) "" then ret tt
   else onerr (fs (WriteAttr root (bs_WWN b) (objPath b ++ ["wwn"; "vpd_unit_serial"])))
          (krej "apply" id));;
  note ("created " +:+ id).

Definition ensureBackstore (b : Backstore) : ST (ctx K) unit :=
  let id := bs_id b in
  onerr (of_result (Backstore_validate b)) (errf KindInvalidSpec "apply" id);;
  do ok <- onerr (fs (Exists root (objPath b))) (kcfg "apply" id);
  if negb ok then createBackstore b id
  else
    do r <- try (fs (ReadAttr root (objPath b ++ ["enable"])));
    match r with
    | Err err =>
        if negb (IsNotExist err) then
          throw (errf KindConfigfs "apply" id
                   (ErrMsgV "the object exists but its enable state could not be read: %v" [] err))
        else createBackstore b id
    | Ok enabled =>
        if String.eqb enabled "1" then
          do cur <- onerr (fs (ReadAttr root (objPath b ++ ["udev_path"]))) (kcfg "apply" id);
          if negb (String.eqb cur (bs_Dev b)) then
            throw (errf KindIncompatible "apply" id
                     (wrapf "backing path is %q, want %q" [cur; bs_Dev b]))
          else reconcileBackstoreMutable b id
        else createBackstore b id
    end.

Definition removeBackstore (b : Backstore) : ST (ctx K) unit :=
  let id := bs_id b in
  onerr (fs (Rmdir root (objPath b))) (kremove KindBusy "remove" id);;
  do _ <- try (fs (Rmdir root (hbaPath b)));
  note ("removed " +:+ id).

(** ** iSCSI objects *)

Definition unlinkAll (dirParts : list string) : ST K unit :=
  do r <- try (ListSymlinks root dirParts);
  match r with
  | Err err => if IsNotExist err then ret tt else throw err
  | Ok links => mfor (λ l, Unlink root (dirParts ++ [l])) links
  end.

Definition ensurePortal (iqn : string) (tag : Z) (p : Portal) : ST (ctx K) unit :=
  let id := "portal/" +:+ iqn +:+ "/" +:+ Portal_String p in
  do ok <- onerr (fs (Exists root (portalPath iqn tag p))) (kcfg "apply" id);
  if ok : bool then ret tt
  else
    onerr (fs (Mkdir root (portalPath iqn tag p))) (kcreate KindKernelRejected "apply" id);;
    note ("created " +:+ id).

(** The tail of [ensureLUN] and [ensureMappedLUN]: link under a fresh name. *)
Definition link_alias (want : string) (dir : list string) : ST K unit :=
  do name <- (λ k, let '(rand5, k) := sys_random k in (Ok (alias rand5), k));
  Symlink root want (dir ++ [name]).

Definition ensureLUN (iqn : string) (tag : Z) (l : LUN) : ST (ctx K) unit :=
  let id := "lun/" +:+ iqn +:+ "/lun_" +:+ itoa (l_Index l) in
  match stateBackstores !! l_Backstore l with
  | None => throw (errf KindDependency "apply" id
                     (wrapf "references unknown backstore %q" [l_Backstore l]))
  | Some bs =>
      let want := Path root (objPath bs) in
      let p := lunPath iqn tag (l_Index l) in
      let link :=
        onerr (fs (link_alias want p)) (krej "apply" id);;
        note ("created " +:+ id +:+ " -> " +:+ l_Backstore l) in
      do ok <- onerr (fs (Exists root p)) (kcfg "apply" id);
      if ok : bool then
        do nt <- onerr (fs (FindSymlink root p)) (kcfg "apply" id);
        let cur := nt.2 in
        if String.eqb cur want then ret tt
        else if negb (String.eqb cur "") then
          onerr (fs (unlinkAll p)) (krej "apply" id);;
          note ("re-pointing " +:+ id +:+ " (was -> " +:+ backstoreNameFromPath cur +:+ ")");;
          link
        else link
      else onerr (fs (Mkdir root p)) (kcreate KindKernelRejected "apply" id);; link
  end.

Definition ensureWriteProtect (iqn : string) (tag : Z) (initiator : string) (m : MappedLUN)
    (id : string) : ST (ctx K) unit :=
  let want := if ml_WriteProtect m then "1" else "0" in
  let p := mappedLunPath iqn tag initiator (ml_Index m) ++ ["write_protect"] in
  do cur <- onerr (fs (ReadAttr root p)) (kcfg "apply" (id +:+ " write_protect"));
  if String.eqb cur want then ret tt
  else
    onerr (fs (WriteAttr root want p)) (krej "apply" (id +:+ " write_protect"));;
    note (id +:+ " write_protect=" +:+ want).

Definition ensureMappedLUN (iqn : string) (tag : Z) (initiator : string) (m : MappedLUN)
    : ST (ctx K) unit :=
  let id := "mappedlun/" +:+ initiator +:+ "/lun_" +:+ itoa (ml_Index m) in
  let want := Path root (lunPath iqn tag (ml_TPGLUN m)) in
  let p := mappedLunPath iqn tag initiator (ml_Index m) in
  let link :=
    onerr (fs (link_alias want p)) (krej "apply" id);;
    note ("created " +:+ id +:+ " -> lun_" +:+ itoa (ml_TPGLUN m));;
    ensureWriteProtect iqn tag initiator m id in
  do ok <- onerr (fs (Exists root p)) (kcfg "apply" id);
  if ok : bool then
    do nt <- onerr (fs (FindSymlink root p)) (kcfg "apply" id);
    let cur := nt.2 in
    if String.eqb cur want then ensureWriteProtect iqn tag initiator m id
    else if negb (String.eqb cur "") then
      onerr (fs (unlinkAll p)) (krej "apply" id);;
      note ("re-pointing " +:+ id);;
      link
    else link
  else onerr (fs (Mkdir root p)) (kcreate KindKernelRejected "apply" id);; link.

Definition ensureACL (iqn : string) (tag : Z) (acl : ACL) : ST (ctx K) unit :=
  let id := "acl/" +:+ iqn +:+ "/" +:+ acl_InitiatorIQN acl in
  let p := aclPath iqn tag (acl_InitiatorIQN acl) in
  do ok <- onerr (fs (Exists root p)) (kcfg "apply" id);
  (if ok : bool then ret tt
   else onerr (fs (Mkdir root p)) (kcreate KindKernelRejected "apply" id);;
        note ("created " +:+ id));;
  mfor (ensureMappedLUN iqn tag (acl_InitiatorIQN acl)) (acl_MappedLUNs acl).

Definition ensure_tpg_attr (iqn : string) (tpg : TPG) (id k : string) : ST (ctx K) unit :=
  let want := attr_of (g_Attributes tpg) k in
  let p := tpgPath iqn (g_Tag tpg) ++ ["attrib"; k] in
  do r <- try (fs (ReadAttr root p));
  match r with
  | Err err =>
      if IsNotExist err then note (id +:+ " attrib/" +:+ k +:+ " not supported by this kernel, skipped")
      else throw (errf KindConfigfs "apply" (id +:+ " attrib/" +:+ k) err)
  | Ok cur =>
      if String.eqb cur want then ret tt
      else
        onerr (fs (WriteAttr root want p)) (krej "apply" (id +:+ " attrib/" +:+ k));;
        do r <- try (fs (ReadAttr root p));
        match r with
        | Ok after =>
            if negb (String.eqb after want)
            then note (id +:+ " attrib/" +:+ k +:+ "=" +:+ want +:+ " NOT APPLIED (kernel kept "
                         +:+ after +:+ ")")
            else note (id +:+ " attrib/" +:+ k +:+ "=" +:+ want)
        | Err _ => note (id +:+ " attrib/" +:+ k +:+ "=" +:+ want)
        end
  end.

Definition ensure_enable (iqn : string) (tpg : TPG) (id : string) : ST (ctx K) unit :=
  let want := if g_Enable tpg then "1" else "0" in
  let ep := tpgPath iqn (g_Tag tpg) ++ ["enable"] in
  do cur <- onerr (fs (ReadAttr root ep)) (kcfg "apply" (id +:+ " enable"));
  if String.eqb cur want then ret tt
  else
    onerr (fs (WriteAttr root want ep)) (krej "apply" (id +:+ " enable"));;
    note (id +:+ " enable=" +:+ want).

(** The loop of [ensureTPG] over the portals. *)
Definition ensurePortals (iqn : string) (tpg : TPG) : ST (ctx K) unit :=
  mfor (ensurePortal iqn (g_Tag tpg)) (portalApplyOrder (g_Portals tpg)).

Definition ensureTPG (iqn : string) (tpg : TPG) : ST (ctx K) unit :=
  let id := "tpg/" +:+ iqn +:+ "/tpgt_" +:+ itoa (g_Tag tpg) in
  let p := tpgPath iqn (g_Tag tpg) in
  do ok <- onerr (fs (Exists root p)) (kcfg "apply" id);
  (if ok : bool then ret tt
   else onerr (fs (Mkdir root p)) (kcreate KindKernelRejected "apply" id);;
        note ("created " +:+ id));;
  mfor (ensure_tpg_attr iqn tpg id) (sortedKeys (g_Attributes tpg));;
  ensurePortals iqn tpg;;
  mfor (ensureLUN iqn (g_Tag tpg)) (g_LUNs tpg);;
  mfor (ensureACL iqn (g_Tag tpg)) (g_ACLs tpg);;
  ensure_enable iqn tpg id.

Definition ensureTarget (t : Target) : ST (ctx K) unit :=
  let id := "target/" +:+ t_IQN t in
  onerr (fs (Mkdir root ["iscsi"])) (kcreate KindConfigfs "apply" id);;
  do ok <- onerr (fs (Exists root (targetPath (t_IQN t)))) (kcfg "apply" id);
  (if ok : bool then ret tt
   else onerr (fs (Mkdir root (targetPath (t_IQN t)))) (kcreate KindKernelRejected "apply" id);;
        note ("created " +:+ id));;
  mfor (ensureTPG (t_IQN t)) (t_TPGs t).

(** ** removal.go *)

Definition removeLUN (iqn : string) (tag index : Z) : ST (ctx K) unit :=
  let id := "lun/" +:+ iqn +:+ "/lun_" +:+ itoa index in
  onerr (fs (unlinkAll (lunPath iqn tag index))) (kremove KindConfigfs "remove" id);;
  onerr (fs (Rmdir root (lunPath iqn tag index))) (kremove KindBusy "remove" id).

Definition removeMappedLUN (iqn : string) (tag : Z) (initiator : string) (index : Z)
    : ST (ctx K) unit :=
  let id := "mappedlun/" +:+ initiator +:+ "/lun_" +:+ itoa index in
  onerr (fs (unlinkAll (mappedLunPath iqn tag initiator index))) (kremove KindConfigfs "remove" id);;
  onerr (fs (Rmdir root (mappedLunPath iqn tag initiator index))) (kremove KindBusy "remove" id).

Definition removeACL (iqn : string) (tag : Z) (initiator : string) : ST (ctx K) unit :=
  do r <- try (fs (ReadDir root (aclPath iqn tag initiator)));
  do children <-
    match r with
    | Ok l => ret l
    | Err err => if IsNotExist err then ret []
                 else throw (errf KindConfigfs "list" ("acl/" +:+ initiator) err)
    end;
  mfor (λ c, match parseLUN c with
             | Some idx => removeMappedLUN iqn tag initiator idx
             | None => ret tt
             end) children;;
  onerr (fs (Rmdir root (aclPath iqn tag initiator)))
    (kremove KindBusy "remove" ("acl/" +:+ iqn +:+ "/" +:+ initiator)).

(** The [children] closure of [removeTPG]. *)
Definition tpg_children (iqn : string) (tag : Z) (group : string) : ST (ctx K) (list string) :=
  do r <- try (fs (ReadDir root (tpgPath iqn tag ++ [group])));
  match r with
  | Ok names => ret names
  | Err err =>
      if notADir err then ret []
      else throw (errf KindConfigfs "remove"
                    ("tpg/" +:+ iqn +:+ "/tpgt_" +:+ itoa tag +:+ "/" +:+ group) err)
  end.

Definition remove_acl_entry (iqn : string) (tag : Z) (aclName : string) : ST (ctx K) unit :=
  do r <- try (fs (IsDir root (aclPath iqn tag aclName)));
  match r with
  | Ok true => removeACL iqn tag aclName
  | Ok false => ret tt
  | Err err =>
      if notADir err then ret tt
      else throw (errf KindConfigfs "remove" ("acl/" +:+ iqn +:+ "/" +:+ aclName) err)
  end.

Definition removeTPG (iqn : string) (tag : Z) : ST (ctx K) unit :=
  do acls <- tpg_children iqn tag "acls";
  mfor (remove_acl_entry iqn tag) acls;;
  do luns <- tpg_children iqn tag "lun";
  mfor (λ ln, match parseLUN ln with
              | Some idx => removeLUN iqn tag idx
              | None => ret tt
              end) luns;;
  do nps <- tpg_children iqn tag "np";
  mfor (λ np, onerr (fs (Rmdir root (tpgPath iqn tag ++ ["np"; np])))
                (kremove KindBusy "remove" ("portal/" +:+ iqn +:+ "/" +:+ np))) nps;;
  onerr (fs (Rmdir root (tpgPath iqn tag)))
    (kremove KindBusy "remove" ("tpg/" +:+ iqn +:+ "/tpgt_" +:+ itoa tag)).

Definition removeTarget (iqn : string) : ST (ctx K) unit :=
  let id := "target/" +:+ iqn in
  do ok <- onerr (fs (Exists root (targetPath iqn))) (kcfg "remove" id);
  if negb ok then ret tt
  else
    do tpgs <- onerr (fs (ReadDir root (targetPath iqn))) (kcfg "remove" id);
    mfor (λ td, match parseTPGT td with
                | Some tag => removeTPG iqn tag
                | None => ret tt
                end) tpgs;;
    onerr (fs (Rmdir root (targetPath iqn))) (kremove KindBusy "remove" id);;
    note ("removed " +:+ id).

(** ** verifyAPTPL *)

Definition reportLapsedHolder (cfg : Config) (b : Backstore) (id lapsed : string)
    (rec : aptplRecord) : ST K (list aptpl_report) :=
  let survivors := exportedMappings cfg b lapsed in
  if survivors =? 0 then ret []
  else
    do r <- try (ReadAttr root (objPath b ++ ["pr"; "res_holder"]));
    match r with
    | Err err => ret [RepLapsedUnreadable id lapsed err survivors]
    | Ok live =>
        let '(h, _, _) := parseHolder live in
        if negb (String.eqb h "") then ret []
        else ret [RepLapsed id lapsed survivors (excluded rec)]
    end.

(** The saved side of [verifyBackstoreAPTPL]: the reports for records that do
    not parse, the records still exported, the last lapsed holder. *)
Fixpoint saved_side (cfg : Config) (b : Backstore) (id : string) (i : nat) (recs : list string)
    : list aptpl_report * list aptplRecord * option aptplRecord :=
  match recs with
  | [] => ([], [], None)
  | rec :: recs =>
      let '(out, want, lapsed) := saved_side cfg b id (S i) recs in
      if String.eqb (TrimSpace rec) "" then (out, want, lapsed)
      else
        match parseAPTPLRecord rec with
        | Err err => (RepUnparsable id i err :: out, want, lapsed)
        | Ok r =>
            if exported r cfg b then (out, r :: want, lapsed)
            else if a_Holder r
            then (out, want, match lapsed with Some l => Some l | None => Some r end)
            else (out, want, lapsed)
        end
  end.

(** The first exported holder; [""] is no holder. *)
Fixpoint saved_holder (want : list aptplRecord) : string :=
  match want with
  | [] => ""
  | r :: want => if a_Holder r then a_Initiator r else saved_holder want
  end.
Definition lapsed_name (lapsed : option aptplRecord) : string :=
  match lapsed with Some r => a_Initiator r | None => "" end.
Definition has_reg (regs : list liveReg) (r : aptplRecord) : bool :=
  any (λ g, bool_decide (g = mkLiveReg (a_Initiator r) (a_Key r))) regs.
Definition not_live (id : string) (regs : list liveReg) (want : list aptplRecord)
    : list aptpl_report :=
  (λ r, RepNotLive id (a_Initiator r) (a_Key r) (a_MappedLUN r))
    <$> filter (λ r, has_reg regs r = false) want.

Definition check_holder (b : Backstore) (id holder : string) : ST K (list aptpl_report) :=
  do r <- try (ReadAttr root (objPath b ++ ["pr"; "res_holder"]));
  match r with
  | Err err => ret [RepHolderUnreadable id holder err]
  | Ok got =>
      let '(liveHolder, _, _) := parseHolder got in
      if negb (String.eqb liveHolder holder) then ret [RepHolderWrong id holder liveHolder]
      else ret []
  end.

(** The live side of [verifyBackstoreAPTPL], from the read of the kernel's
    registrations on. *)
Definition verify_live (cfg : Config) (b : Backstore) (id : string) (out : list aptpl_report)
    (want : list aptplRecord) (lapsed : option aptplRecord) : ST K (list aptpl_report) :=
  let lapsedHolder := lapsed_name lapsed in
  do live <- try (ReadAttr root (objPath b ++ ["pr"; "res_pr_registered_i_pts"]));
  match live with
  | Err err => ret (out ++ [RepLiveUnreadable id (length want) err])
  | Ok live =>
      let '(regs, unparsed) := parseRegistrations live in
      let out := out ++ (if 0 <? unparsed then [RepUnparsedLines id unparsed] else []) in
      let out := out ++ not_live id regs want in
      let holder := saved_holder want in
      do more <-
        (if String.eqb holder "" && negb (String.eqb lapsedHolder "")
         then reportLapsedHolder cfg b id lapsedHolder (default emptyRecord lapsed)
         else ret []);
      do more2 <- (if negb (String.eqb holder "") then check_holder b id holder else ret []);
      ret (out ++ more ++ more2)
  end.

Definition verifyBackstoreAPTPL (provider : Backstore → ST K (list string))
    (cfg : Config) (b : Backstore) : ST K (list aptpl_report) :=
  let id := bs_id b in
  do r <- try (provider b);
  match r with
  | Err err => ret [RepSavedUnreadable id err]
  | Ok recs =>
      let '(out, want, lapsed) := saved_side cfg b id 0 recs in
      if (length want =? 0)%nat && (length out =? 0)%nat && String.eqb (lapsed_name lapsed) ""
      then ret []
      else verify_live cfg b id out want lapsed
  end.

Definition verifyAPTPL (cfg : Config) : ST K (list aptpl_report) :=
  match aptplRecords with
  | None => ret []
  | Some provider => mcollect (verifyBackstoreAPTPL provider cfg) (c_Backstores cfg)
  end.

(** ** VerifyDrift *)

Definition verify_drift_attr (b : Backstore) (k : string) : ST (ctx K) unit :=
  do r <- try (fs (ReadAttr root (objPath b ++ ["attrib"; k])));
  match r with
  | Err err => driftUnknown b k err
  | Ok cur =>
      if String.eqb cur (attr_of (bs_Attributes b) k) then ret tt
      else driftNote b k cur (attr_of (bs_Attributes b) k)
  end.

Definition verify_drift_one (counts : result goerr (gmap string Z)) (b : Backstore)
    : ST (ctx K) unit :=
  match counts with
  | Err cerr =>
      driftUnknown b "" (ErrWrap "cannot determine whether the backstore is exported: %w" [] cerr)
  | Ok counts =>
      do r <- try (fs (Exists root (objPath b)));
      match r with
      | Err err => driftUnknown b "" err
      | Ok false => ret tt
      | Ok true =>
          if default 0 (counts !! Path root (objPath b)) =? 0 then ret tt
          else mfor (verify_drift_attr b) (sortedKeys (bs_Attributes b))
      end
  end.

Definition VerifyDrift (cfg : Config) (k : K) : list AttrDrift * K :=
  let '(_, c) :=
    (do counts <- try (fs lunRefCounts); mfor (verify_drift_one counts) (c_Backstores cfg))
      (mkCtx k [] []) in
  (cx_drift c, cx_k c).
End Apply.
