(* ===== verification/Trace.v ===== *)
(** * What a computation asks the kernel to change

    A logged kernel is one whose state remembers, in order, the changes it
    was asked for; [emits P m] says that [m], from any state and whatever the
    kernel answers, only asks for changes that satisfy [P]. The rules follow
    the constructs of the monad; the lemmas at the end say what each configfs
    operation may emit. *)

From S2P Require Import Prelude GoStrings Errors Configfs FsPaths LioAptpl LioApply.

(** ** Logged kernels *)

Class HasTrace (S : Type) := trace : S → list sysop.

#[global] Instance ctx_trace {K} `{HasTrace K} : HasTrace (ctx K) := λ c, trace (cx_k c).

(** The contract a logged kernel keeps: reads leave the log alone, a change
    is appended to it whether or not the kernel carries it out. *)
Class LoggedKernel (K : Type) `{Kernel K} `{HasTrace K} : Prop := {
  log_lstat p k : trace (sys_lstat p k).2 = trace k;
  log_stat p k : trace (sys_stat p k).2 = trace k;
  log_readdir p k : trace (sys_readdir p k).2 = trace k;
  log_readlink p k : trace (sys_readlink p k).2 = trace k;
  log_readfile p k : trace (sys_readfile p k).2 = trace k;
  log_random k : trace (sys_random k).2 = trace k;
  log_op o k : trace (sys_op o k).2 = trace k ++ [o]
}.

#[global] Instance traced_trace {K} : HasTrace (K * list sysop) := snd.
(** Any kernel becomes a logged one. *)
#[global] Instance traced_logged {K} `{Kernel K} : LoggedKernel (K * list sysop).
Proof.
  split; intros; destruct k as [k l]; simpl;
    repeat match goal with |- context [let '(_, _) := ?x in _] => destruct x end; done.
Qed.

Definition emits {S A} `{HasTrace S} (P : sysop → Prop) (m : ST S A) : Prop :=
  ∀ s, ∃ l, trace (m s).2 = trace s ++ l ∧ Forall P l.
(** A computation that changes nothing. *)
Definition quiet {S A} `{HasTrace S} (m : ST S A) : Prop := emits (λ _, False) m.

Create HintDb emits.

Section rules.
Context {S : Type} `{HasTrace S} (P : sysop → Prop).

Lemma emits_same {A} (m : ST S A) : (∀ s, trace (m s).2 = trace s) → emits P m.
Proof. intros Hm s. exists []. by rewrite app_nil_r. Qed.
Lemma emits_ret {A} (a : A) : emits P (ret a).
Proof. by apply emits_same. Qed.
Lemma emits_throw {A} e : emits P (throw (A := A) e).
Proof. by apply emits_same. Qed.
Lemma emits_of_result {A} (r : result goerr A) : emits P (of_result r).
Proof. by apply emits_same. Qed.

Lemma emits_bind_Ok {A B} (m : ST S A) (f : A → ST S B) :
  emits P m → (∀ s a s', m s = (Ok a, s') → emits P (f a)) → emits P (bind m f).
Proof.
  intros Hm Hf s. destruct (Hm s) as (l & Hl & HP). unfold bind.
  destruct (m s) as [[a|e] s'] eqn:E; cbn [snd] in *; [|by exists l].
  destruct (Hf _ _ _ E s') as (l' & Hl' & HP'). exists (l ++ l').
  rewrite Hl', Hl, (assoc_L (++)). split; [done | by apply Forall_app].
Qed.
Lemma emits_bind {A B} (m : ST S A) (f : A → ST S B) :
  emits P m → (∀ a, emits P (f a)) → emits P (bind m f).
Proof. intros Hm Hf. apply emits_bind_Ok; auto. Qed.

Lemma emits_try {A} (m : ST S A) : emits P m → emits P (try m).
Proof. intros Hm s. destruct (Hm s) as (l & ?). exists l. unfold try. by destruct (m s). Qed.
Lemma emits_onerr {A} (m : ST S A) f : emits P m → emits P (onerr m f).
Proof.
  intros Hm s. destruct (Hm s) as (l & ?). exists l. unfold onerr. by destruct (m s) as [[] ?].
Qed.

Lemma emits_mfor {A} (f : A → ST S unit) l : (∀ x, x ∈ l → emits P (f x)) → emits P (mfor f l).
Proof.
  induction l as [|x l IH]; intros Hf; cbn [mfor]; [apply emits_ret|].
  apply emits_bind; [apply Hf; left|]. intros _. apply IH. intros y ?. apply Hf. by right.
Qed.
Lemma emits_mcollect {A B} (f : A → ST S (list B)) l :
  (∀ x, x ∈ l → emits P (f x)) → emits P (mcollect f l).
Proof.
  induction l as [|x l IH]; intros Hf; cbn [mcollect]; [apply emits_ret|].
  apply emits_bind; [apply Hf; left|]. intros ys. apply emits_bind; [|intros; apply emits_ret].
  apply IH. intros y ?. apply Hf. by right.
Qed.
Lemma emits_mfold {A B} (f : B → A → ST S B) b l :
  (∀ b x, x ∈ l → emits P (f b x)) → emits P (mfold f b l).
Proof.
  revert b. induction l as [|x l IH]; intros b Hf; cbn [mfold]; [apply emits_ret|].
  apply emits_bind; [apply Hf; left|]. intros b'. apply IH. intros ? y ?. apply Hf. by right.
Qed.

Lemma emits_weaken {A} (Q : sysop → Prop) (m : ST S A) :
  emits Q m → (∀ o, Q o → P o) → emits P m.
Proof.
  intros Hm HQ s. destruct (Hm s) as (l & ? & ?). exists l. split; [done|]. by eapply Forall_impl.
Qed.
Lemma emits_quiet {A} (m : ST S A) : quiet m → emits P m.
Proof. intros Hm. by eapply emits_weaken. Qed.

Lemma emits_skip {A B} (m : ST S A) (dflt : B) f :
  emits P m → (∀ a, emits P (f a)) → emits P (skip_notADir m dflt f).
Proof.
  intros Hm Hf. unfold skip_notADir. apply emits_bind; [by apply emits_try|].
  intros [a|e]; [apply Hf|]. destruct (notADir e); [apply emits_ret | apply emits_throw].
Qed.

(** The log after a run, as the callers of the computation see it. *)
Lemma emits_run {A} (m : ST S A) s r s' :
  emits P m → m s = (r, s') → ∃ l, trace s' = trace s ++ l ∧ Forall P l.
Proof. intros Hm E. destruct (Hm s) as (l & ?). exists l. by rewrite E in *. Qed.
End rules.

Lemma quiet_run {S A} `{HasTrace S} (m : ST S A) s r s' :
  quiet m → m s = (r, s') → trace s' = trace s.
Proof.
  intros Hm E. destruct (Hm s) as (l & Hl & HP). rewrite E in Hl. simpl in Hl.
  destruct l as [|o l]; [by rewrite Hl, app_nil_r|]. by apply Forall_cons in HP as [[] _].
Qed.

Section ctx_rules.
Context {K : Type} `{HasTrace K} (P : sysop → Prop).
Lemma emits_fs {A} (m : ST K A) : emits P m → emits P (fs m).
Proof.
  intros Hm c. destruct (Hm (cx_k c)) as (l & ?). exists l. unfold fs, trace, ctx_trace.
  by destruct (m (cx_k c)).
Qed.
Lemma emits_note s : emits P (note (K := K) s).
Proof. by apply emits_same. Qed.
Lemma emits_add_drift d : emits P (add_drift (K := K) d).
Proof. by apply emits_same. Qed.
End ctx_rules.

#[export] Hint Resolve emits_ret emits_throw emits_of_result emits_note emits_add_drift : emits.

(** One construct of the monad at a time; leaves go to the hints. *)
Ltac emit_step :=
  match goal with
  | |- emits _ (bind _ _) => apply emits_bind; [|intros]
  | |- emits _ (skip_notADir _ _ _) => apply emits_skip; [|intros]
  | |- emits _ (try _) => apply emits_try
  | |- emits _ (onerr _ _) => apply emits_onerr
  | |- emits _ (fs _) => apply emits_fs
  | |- emits _ (mfor _ _) => apply emits_mfor; intros
  | |- emits _ (mcollect _ _) => apply emits_mcollect; intros
  | |- emits _ (mfold _ _ _) => apply emits_mfold; intros
  | |- emits _ (if ?b then _ else _) => let E := fresh "E" in destruct b eqn:E
  | |- emits _ (match ?x with _ => _ end) => let E := fresh "E" in destruct x eqn:E
  | |- emits _ (let _ := _ in _) => cbv zeta
  end.
Ltac emit := cbv zeta; repeat (first [solve [eauto 3 with emits] | emit_step]; cbv beta zeta).

(** ** The configfs operations *)

(** Parts the configfs layer accepts, of something strictly below the root. *)
Definition legal (parts : list string) : Prop := parts ≠ [] ∧ good_segs parts.

(** [P] allows every change of the shape each operation can make. *)
Class Allows_mkdir (root : string) (P : sysop → Prop) : Prop :=
  allow_mkdir parts : legal parts → P (SysMkdir (Path root parts)).
Class Allows_unlink (root : string) (P : sysop → Prop) : Prop :=
  allow_unlink parts : legal parts → P (SysUnlink (Path root parts)).
Class Allows_write (root : string) (P : sysop → Prop) : Prop :=
  allow_write parts v : legal parts → slen v < 4095 → P (SysWrite (Path root parts) (v +:+ nl_str)).

Section ops.
Context {K : Type} `{LoggedKernel K} (root : string) (P : sysop → Prop).

Lemma emits_sys {A} op p (call : K → result errno A * K) :
  (∀ k, trace (call k).2 = trace k) → emits P (sys op p call).
Proof. intros Hc. apply emits_same. intros s. unfold sys. rewrite <- (Hc s). by destruct (call s) as [[] ?]. Qed.
Lemma emits_op op p o : P o → emits P (sys op p (sys_op o)).
Proof.
  intros Ho s. exists [o]. unfold sys. rewrite <- (log_op o s).
  destruct (sys_op o s) as [[] ?]; (split; [done | by constructor]).
Qed.
Lemma emits_Lstat p : emits P (os_Lstat p).
Proof. apply emits_sys, log_lstat. Qed.
Lemma emits_Stat p : emits P (os_Stat p).
Proof. apply emits_sys, log_stat. Qed.
Lemma emits_Readlink p : emits P (os_Readlink p).
Proof. apply emits_sys, log_readlink. Qed.
Lemma emits_ReadFile p : emits P (os_ReadFile p).
Proof. apply emits_sys, log_readfile. Qed.
Lemma emits_os_ReadDir p : emits P (os_ReadDir p).
Proof. unfold os_ReadDir. emit. apply emits_sys, log_readdir. Qed.

Lemma safePath_Ok parts p : safePath root parts = Ok p → good_segs parts ∧ p = Path root parts.
Proof.
  unfold safePath. destruct (String.eqb root ""); [done|].
  rewrite rbind_Ok. intros (u & Hc%checkParts_Ok & [= <-]). done.
Qed.
Lemma emits_safe {A} parts (f : string → ST K A) :
  (good_segs parts → emits P (f (Path root parts))) → emits P (safe root parts f).
Proof.
  intros Hf. unfold safe. apply emits_bind_Ok; [apply emits_of_result|].
  intros s p s' [= Hp _]. apply safePath_Ok in Hp as [Hg ->]. by apply Hf.
Qed.

Local Hint Resolve emits_Lstat emits_Stat emits_Readlink emits_ReadFile emits_os_ReadDir : emits.
Ltac safe_emit := intros; apply emits_safe; intros; emit.

Lemma emits_Exists parts : emits P (Exists root parts).
Proof. safe_emit. Qed.
Lemma emits_IsDir parts : emits P (IsDir root parts).
Proof. safe_emit. Qed.
Lemma emits_ReadDir parts : emits P (ReadDir root parts).
Proof. safe_emit. Qed.
Lemma emits_ReadAttr parts : emits P (ReadAttr root parts).
Proof. safe_emit. Qed.
Lemma emits_ListSymlinks parts : emits P (ListSymlinks root parts).
Proof. safe_emit. Qed.
Lemma emits_FindSymlink parts : emits P (FindSymlink root parts).
Proof. safe_emit. Qed.
Lemma emits_sameLinkTarget link target : emits P (sameLinkTarget link target).
Proof. unfold sameLinkTarget. emit. Qed.

Lemma emits_Mkdir parts : Allows_mkdir root P → parts ≠ [] → emits P (Mkdir root parts).
Proof. safe_emit. by apply emits_op, allow_mkdir. Qed.
Lemma emits_Rmdir parts :
  (good_segs parts → P (SysRmdir (Path root parts))) → emits P (Rmdir root parts).
Proof. safe_emit. by apply emits_op; auto. Qed.
Lemma emits_Unlink parts : Allows_unlink root P → parts ≠ [] → emits P (Unlink root parts).
Proof. safe_emit. by apply emits_op, allow_unlink. Qed.
Lemma emits_WriteAttr v parts : Allows_write root P → parts ≠ [] → emits P (WriteAttr root v parts).
Proof.
  safe_emit. apply emits_op, allow_write; [done|]. apply Z.ltb_ge in E. unfold maxAttrWrite in E. lia.
Qed.
Lemma emits_Symlink target parts :
  (good_segs parts → P (SysSymlink target (Path root parts))) → emits P (Symlink root target parts).
Proof.
  intros HP. unfold Symlink. apply emits_bind_Ok; [apply emits_of_result|].
  intros s u s' [= Hc%checkParts_Ok _]. emit; try apply emits_sameLinkTarget. by apply emits_op, HP.
Qed.
End ops.

#[export] Hint Resolve emits_Lstat emits_Stat emits_Readlink emits_ReadFile emits_os_ReadDir
  emits_Exists emits_IsDir emits_ReadDir emits_ReadAttr emits_ListSymlinks emits_FindSymlink
  emits_Mkdir emits_Unlink emits_WriteAttr : emits.

(** Paths are never empty. *)
Lemma app_one_nonempty {A} (l : list A) x : l ++ [x] ≠ [].
Proof. by destruct l. Qed.
#[export] Hint Resolve app_one_nonempty : emits.
#[export] Hint Extern 1 (_ ≠ []) => discriminate : emits.
