(* ===== verification/LioSync.v ===== *)
(** * lio/config.go, lio/sync.go and discovery: the declarative reconcile

    [Manager] is the pair of the configfs root and the provider of saved
    SCSI-3 PR records. A method that returns a Report beside an error returns
    both here too, so that the partial report of a failed pass is modelled. *)

From S2P Require Import Prelude GoStrings Errors Netip LioModel Configfs LioAptpl LioApply LioValid.

Record Report := mkReport {
  rp_Changes : list string; rp_Drift : list AttrDrift; rp_APTPLUnbound : list aptpl_report }.
Definition emptyReport : Report := mkReport [] [] [].
Definition Changed (r : Report) : bool := (0 <? Z.of_nat (length (rp_Changes r))).

Definition backstoreKey (b : Backstore) : string :=
  bs_Type b +:+ "_" +:+ itoa (bs_HBA b) +:+ "/" +:+ bs_Name b.

(** ** Portals: what stands in the way of what *)

Definition wildcardPrecludes (w other : Addr) : bool :=
  IsValid w && IsValid other && IsUnspecified w.
Definition same_key (p q : Portal) : bool := bool_decide (Portal_key p = Portal_key q).
Definition blockedWildcardOnPort (live : Portal) (desired alive : list Portal) : bool :=
  if IsUnspecified (p_IP live) then false
  else
    any (λ d, (Portal_port d =? Portal_port live) && IsUnspecified (p_IP d)
              && negb (any (λ a, same_key a d) alive)) desired.
Definition portalConflictsWithAny (live : Portal) (desired alive : list Portal) : bool :=
  if any (λ d, same_key live d) desired then blockedWildcardOnPort live desired alive
  else
    any (λ d, (Portal_port live =? Portal_port d)
              && (wildcardPrecludes (p_IP live) (p_IP d) || wildcardPrecludes (p_IP d) (p_IP live)))
      desired.

(** [for _, t := range cfg.Targets { ... return g, true }]: the first match. *)
Definition desiredTPG (cfg : Config) (iqn : string) (tag : Z) : option TPG :=
  head (filter (λ g, g_Tag g = tag)
          (mjoin (t_TPGs <$> filter (λ t, t_IQN t = iqn) (c_Targets cfg)))).

(** A Go map built by a loop: the last entry of a key wins. *)
Definition to_map {A B} `{Countable B} (key : A → B) (l : list A) : gmap B A :=
  foldl (λ m a, <[key a := a]> m) ∅ l.
Definition keys_of {A B} `{Countable B} (key : A → B) (l : list A) : gset B :=
  list_to_set (key <$> l).

Definition discoveredBackstoreAttrs : list string :=
  ["block_size"; "emulate_write_cache"; "emulate_tpu"; "emulate_tpws"; "optimal_sectors"].
Definition discoveredTPGAttrs : list string :=
  ["authentication"; "cache_dynamic_acls"; "default_cmdsn_depth"; "default_erl";
   "demo_mode_discovery"; "demo_mode_write_protect"; "fabric_prot_type"; "generate_node_acls";
   "login_keys_workaround"; "login_timeout"; "prod_mode_write_protect"; "t10_pi";
   "tpg_enabled_sendtargets"].

Section Discover.
Context {K : Type} `{Kernel K} (root : string).

(** A read whose absence is ordinary: [None] for ENOENT, an error otherwise. *)
Definition optional {A} (m : ST K A) (f : goerr → goerr) : ST K (option A) :=
  do r <- try m;
  match r with
  | Ok a => ret (Some a)
  | Err err => if IsNotExist err then ret None else throw (f err)
  end.

Definition discover_attrs (read : string → ST K string) (f : string → goerr → goerr)
    (ks : list string) : ST K (gmap string string) :=
  mfold (λ m k,
    do v <- optional (read k) (f k);
    ret (match v with Some v => <[k := v]> m | None => m end)) ∅ ks.

(** One object of [discoverBackstores]. *)
Definition discover_backstore (hba plugin : string) (hbaIdx : Z) (name : string)
    : ST K (list Backstore) :=
  do isDir <- onerr (IsDir root ["core"; hba; name])
                (errf KindConfigfs "discover" ("core/" +:+ hba +:+ "/" +:+ name));
  if negb isDir then ret []
  else
    let id := "core/" +:+ hba +:+ "/" +:+ name in
    let rd (parts : list string) (what : string) :=
      optional (ReadAttr root (["core"; hba; name] ++ parts))
        (errf KindConfigfs "discover" (id +:+ " " +:+ what)) in
    do dev <- rd ["udev_path"] "udev_path";
    do serial <- rd ["wwn"; "vpd_unit_serial"] "vpd_unit_serial";
    do vendor <- rd ["wwn"; "vendor_id"] "vendor_id";
    do product <- rd ["wwn"; "product_id"] "product_id";
    do revision <- rd ["wwn"; "revision"] "revision";
    do info <- rd ["info"] "info";
    do sz_mode <-
      (match info with
       | None => ret (0, false)
       | Some info =>
           let sz := parseInfoSize info in
           if sz <? 0 then
             throw (errf KindConfigfs "discover" (id +:+ " info")
                      (ErrMsg "cannot read the size out of %q" [TrimSpace info]))
           else
             let mode := parseInfoMode info in
             let sz := if 0 <? sz then sz else 0 in
             if String.eqb mode "Buffered-WCE" then ret (sz, true)
             else if String.eqb mode "O_DSYNC" then ret (sz, false)
             else throw (errf KindConfigfs "discover" (id +:+ " info")
                           (ErrMsg "cannot read the backing mode out of %q" [TrimSpace info]))
       end);
    do attrs <- discover_attrs (λ k, ReadAttr root ["core"; hba; name; "attrib"; k])
                  (λ k, errf KindConfigfs "discover" (id +:+ " attrib/" +:+ k))
                  discoveredBackstoreAttrs;
    ret [mkBackstore plugin hbaIdx name (default "" dev) sz_mode.2 sz_mode.1
           (match serial with Some s => lastField s (chr 58) | None => "" end)
           (default "" vendor) (default "" product) (default "" revision) attrs].

Definition discover_hba (hba : string) : ST K (list Backstore) :=
  match splitLast hba (chr 95) with
  | None => ret []
  | Some (plugin, idx) =>
      match Atoi idx with
      | None => ret []
      | Some hbaIdx =>
          do objs <- onerr (ReadDir root ["core"; hba])
                       (errf KindConfigfs "discover" ("core/" +:+ hba));
          mcollect (discover_backstore hba plugin hbaIdx) objs
      end
  end.

Definition discoverBackstores : ST K (list Backstore) :=
  do hbas <- optional (ReadDir root ["core"]) (errf KindConfigfs "discover" "core");
  match hbas with
  | None => ret []
  | Some hbas => mcollect discover_hba hbas
  end.

Definition discover_lun (iqn : string) (tag : Z) (id ld : string) : ST K (list LUN) :=
  match parseLUN ld with
  | None => ret []
  | Some idx =>
      do nt <- onerr (FindSymlink root (lunPath iqn tag idx))
                 (errf KindConfigfs "discover" (id +:+ " lun_" +:+ itoa idx));
      ret [mkLUN idx (if String.eqb nt.2 "" then "" else backstoreNameFromPath nt.2)]
  end.

Definition discover_mapped_lun (iqn : string) (tag : Z) (aclName c : string)
    : ST K (list MappedLUN) :=
  match parseLUN c with
  | None => ret []
  | Some idx =>
      do nt <- onerr (FindSymlink root (mappedLunPath iqn tag aclName idx))
                 (errf KindConfigfs "discover" ("acls/" +:+ aclName +:+ " lun_" +:+ itoa idx));
      do wp <- optional (ReadAttr root (mappedLunPath iqn tag aclName idx ++ ["write_protect"]))
                 (errf KindConfigfs "discover" ("acls/" +:+ aclName +:+ " write_protect"));
      ret [mkMappedLUN idx (if String.eqb nt.2 "" then 0 else lunIndexFromPath nt.2)
             (String.eqb (default "" wp) "1")]
  end.

Definition discover_acl (iqn : string) (tag : Z) (id aclName : string) : ST K (list ACL) :=
  do isDir <- onerr (IsDir root (aclPath iqn tag aclName))
                (errf KindConfigfs "discover" (id +:+ " acls/" +:+ aclName));
  if negb isDir then ret []
  else
    do children <- onerr (ReadDir root (aclPath iqn tag aclName))
                     (errf KindConfigfs "discover" ("acls/" +:+ aclName));
    do mls <- mcollect (discover_mapped_lun iqn tag aclName) children;
    ret [mkACL aclName mls].

Definition discoverTPG (iqn : string) (tag : Z) : ST K TPG :=
  let id := "iscsi/" +:+ iqn +:+ "/tpgt_" +:+ itoa tag in
  let p := tpgPath iqn tag in
  do en <- optional (ReadAttr root (p ++ ["enable"])) (errf KindConfigfs "discover" (id +:+ " enable"));
  do attrs <- discover_attrs (λ k, ReadAttr root (p ++ ["attrib"; k]))
                (λ k, errf KindConfigfs "discover" (id +:+ " attrib/" +:+ k)) discoveredTPGAttrs;
  do nps <- onerr (ReadDir root (p ++ ["np"])) (errf KindConfigfs "discover" ("iscsi/" +:+ iqn +:+ " np"));
  let portals := omap ParsePortal nps in
  do lds <- onerr (ReadDir root (p ++ ["lun"])) (errf KindConfigfs "discover" ("iscsi/" +:+ iqn +:+ " lun"));
  do luns <- mcollect (discover_lun iqn tag id) lds;
  do aclNames <- onerr (ReadDir root (p ++ ["acls"])) (errf KindConfigfs "discover" ("iscsi/" +:+ iqn +:+ " acls"));
  do acls <- mcollect (discover_acl iqn tag id) aclNames;
  ret (mkTPG tag (String.eqb (default "" en) "1") portals luns acls attrs).

Definition discover_target (iqn : string) : ST K (list Target) :=
  if String.eqb iqn "discovery_auth" || String.eqb iqn "lio_version" then ret []
  else
    do isDir <- onerr (IsDir root ["iscsi"; iqn]) (errf KindConfigfs "discover" ("iscsi/" +:+ iqn));
    if negb isDir then ret []
    else
      do tpgDirs <- onerr (ReadDir root ["iscsi"; iqn]) (errf KindConfigfs "discover" ("iscsi/" +:+ iqn));
      do tpgs <- mcollect (λ td, match parseTPGT td with
                                 | None => ret []
                                 | Some tag => do g <- discoverTPG iqn tag; ret [g]
                                 end) tpgDirs;
      ret [mkTarget iqn tpgs].

Definition discoverTargets : ST K (list Target) :=
  do iqns <- optional (ReadDir root ["iscsi"]) (errf KindConfigfs "discover" "iscsi");
  match iqns with
  | None => ret []
  | Some iqns => mcollect discover_target iqns
  end.

(** [Manager.Discover]. *)
Definition Discover : ST K Config :=
  do ok <- onerr (IsDir root []) (errf KindConfigfs "discover" root);
  if negb ok then throw (errf KindConfigfs "discover" root ErrNoLIOTree)
  else
    do bs <- discoverBackstores;
    do ts <- discoverTargets;
    ret (mkConfig bs ts).

(** [Manager.DBRoot]. *)
Definition DBRoot : ST K string :=
  do v <- onerr (ReadAttr root ["dbroot"]) (errf KindConfigfs "read" "dbroot");
  let v := TrimSpace v in
  if negb (HasPrefix v "/") then
    throw (errf KindKernelRejected "read" "dbroot"
             (wrapf "kernel reported a non-absolute db_root %q" [v]))
  else ret v.
End Discover.

Section Manager.
Context {K : Type} `{Kernel K} (root : string).
Context (aptplRecords : option (Backstore → ST K (list string))).

(** ** Apply and Remove *)

Definition bs_by_name (cfg : Config) : gmap string Backstore := to_map bs_Name (c_Backstores cfg).

(** A pass over the tree and the report it leaves: (report, error, kernel). *)
Definition run_pass (m : ST (ctx K) unit) (changes : list string) (drift : list AttrDrift) (k : K)
    : Report * option goerr * K :=
  match m (mkCtx k changes drift) with
  | (Ok _, c) => (mkReport (cx_changes c) (cx_drift c) [], None, cx_k c)
  | (Err e, c) => (mkReport (cx_changes c) (cx_drift c) [], Some e, cx_k c)
  end.

Definition with_unbound (r : Report) (u : list aptpl_report) : Report :=
  mkReport (rp_Changes r) (rp_Drift r) u.

(** [verifyAPTPL] never fails; an error would be a gap of the model. *)
Definition verify_reports (cfg : Config) (k : K) : list aptpl_report * K :=
  match verifyAPTPL root aptplRecords cfg k with
  | (Ok l, k) => (l, k)
  | (Err _, k) => ([], k)
  end.

Definition apply_pass (bs : gmap string Backstore) (add : Config) : ST (ctx K) unit :=
  mfor (ensureBackstore root aptplRecords) (c_Backstores add);;
  mfor (ensureTarget root bs) (c_Targets add).

Definition Apply (cfg : Config) (k : K) : Report * option goerr * K :=
  match Config_Validate cfg with
  | Err e => (emptyReport, Some e, k)
  | Ok _ =>
      match run_pass (apply_pass (bs_by_name cfg) cfg) [] [] k with
      | (rep, Some e, k) => (rep, Some e, k)
      | (rep, None, k) =>
          let '(unbound, k) := verify_reports cfg k in (with_unbound rep unbound, None, k)
      end
  end.

Definition remove_pass (cfg : Config) : ST (ctx K) unit :=
  mfor (λ t, removeTarget root (t_IQN t)) (c_Targets cfg);;
  mfor (removeBackstore root) (c_Backstores cfg).
Definition Remove (cfg : Config) (k : K) : Report * option goerr * K :=
  run_pass (remove_pass cfg) [] [] k.

(** ** Prune *)

Definition prunePortals (iqn : string) (actual desired : TPG) : ST (ctx K) unit :=
  mfor (λ p,
    if any (λ d, same_key p d) (g_Portals desired) then ret tt
    else
      onerr (fs (Rmdir root (portalPath iqn (g_Tag actual) p)))
        (kremove KindBusy "prune" ("portal/" +:+ iqn +:+ "/" +:+ Portal_String p));;
      note ("pruned portal/" +:+ iqn +:+ "/" +:+ Portal_String p)) (g_Portals actual).

Definition pruneLUNs (iqn : string) (actual desired : TPG) : ST (ctx K) unit :=
  let want := keys_of l_Index (g_LUNs desired) in
  mfor (λ l,
    if decide (l_Index l ∈ want) then ret tt
    else
      removeLUN root iqn (g_Tag actual) (l_Index l);;
      note ("pruned lun/" +:+ iqn +:+ "/lun_" +:+ itoa (l_Index l))) (g_LUNs actual).

Definition prune_mapped (iqn : string) (tag : Z) (acl da : ACL) : ST (ctx K) unit :=
  let wantML := keys_of ml_Index (acl_MappedLUNs da) in
  mfor (λ ml,
    if decide (ml_Index ml ∈ wantML) then ret tt
    else
      removeMappedLUN root iqn tag (acl_InitiatorIQN acl) (ml_Index ml);;
      note ("pruned mappedlun/" +:+ acl_InitiatorIQN acl +:+ "/lun_" +:+ itoa (ml_Index ml)))
    (acl_MappedLUNs acl).

Definition pruneACLs (iqn : string) (actual desired : TPG) : ST (ctx K) unit :=
  let want := to_map acl_InitiatorIQN (g_ACLs desired) in
  mfor (λ acl,
    match want !! acl_InitiatorIQN acl with
    | None =>
        removeACL root iqn (g_Tag actual) (acl_InitiatorIQN acl);;
        note ("pruned acl/" +:+ iqn +:+ "/" +:+ acl_InitiatorIQN acl)
    | Some da => prune_mapped iqn (g_Tag actual) acl da
    end) (g_ACLs actual).

Definition prune_tpg (iqn : string) (dTPGs : gmap Z TPG) (g : TPG) : ST (ctx K) unit :=
  match dTPGs !! g_Tag g with
  | None => removeTPG root iqn (g_Tag g)
  | Some dg => prunePortals iqn g dg;; pruneACLs iqn g dg;; pruneLUNs iqn g dg
  end.

Definition prune_target (dTargets : gmap string Target) (t : Target) : ST (ctx K) unit :=
  match dTargets !! t_IQN t with
  | None => removeTarget root (t_IQN t)
  | Some dt => mfor (prune_tpg (t_IQN t) (to_map g_Tag (t_TPGs dt))) (t_TPGs t)
  end.

Definition prune (desired actual : Config) : ST (ctx K) unit :=
  let dTargets := to_map t_IQN (c_Targets desired) in
  let dBackstores := keys_of backstoreKey (c_Backstores desired) in
  mfor (prune_target dTargets) (c_Targets actual);;
  mfor (λ b, if decide (backstoreKey b ∈ dBackstores) then ret tt else removeBackstore root b)
    (c_Backstores actual).

Definition prune_conflicts_tpg (desired : Config) (iqn : string) (ag : TPG) : ST K unit :=
  match desiredTPG desired iqn (g_Tag ag) with
  | None => ret tt
  | Some dg =>
      mfor (λ live,
        if negb (portalConflictsWithAny live (g_Portals dg) (g_Portals ag)) then ret tt
        else onerr (Rmdir root (portalPath iqn (g_Tag ag) live))
               (kremove KindBusy "prune" ("portal/" +:+ iqn +:+ "/" +:+ Portal_String live)))
        (g_Portals ag)
  end.
Definition pruneConflictingPortals (desired : Config) : ST K unit :=
  do actual <- Discover root;
  mfor (λ at_, mfor (prune_conflicts_tpg desired (t_IQN at_)) (t_TPGs at_)) (c_Targets actual).

(** ** Sync *)

Definition Sync (desired : Config) (k : K) : Report * option goerr * K :=
  match Config_Validate desired with
  | Err e => (emptyReport, Some e, k)
  | Ok _ =>
      match pruneConflictingPortals desired k with
      | (Err e, k) => (emptyReport, Some e, k)
      | (Ok _, k) =>
          match Apply desired k with
          | (rep, Some e, k) => (rep, Some e, k)
          | (rep, None, k) =>
              match Discover root k with
              | (Err e, k) => (rep, Some e, k)
              | (Ok actual, k) =>
                  match run_pass (prune desired actual) (rp_Changes rep) (rp_Drift rep) k with
                  | (rep', Some e, k) => (with_unbound rep' (rp_APTPLUnbound rep), Some e, k)
                  | (rep', None, k) =>
                      let '(unbound, k) := verify_reports desired k in
                      (with_unbound rep' unbound, None, k)
                  end
              end
          end
      end
  end.

Definition Clear (k : K) : Report * option goerr * K := Sync emptyConfig k.

(** [Manager.VerifyAPTPL]. *)
Definition VerifyAPTPL (cfg : Config) (k : K) : list aptpl_report * K := verify_reports cfg k.
End Manager.

(** ** Keyed lists

    Objects are looked up in maps built by looping over a list. When the keys
    are distinct, as they are in a valid configuration, such a map is the
    list. *)

Lemma to_map_app {A B} `{Countable B} (key : A → B) l x :
  to_map key (l ++ [x]) = <[key x := x]> (to_map key l).
Proof. unfold to_map. by rewrite foldl_app. Qed.

Lemma to_map_None {A B} `{Countable B} (key : A → B) l k :
  to_map key l !! k = None ↔ k ∉ key <$> l.
Proof.
  induction l as [|x l IH] using rev_ind; [split; [intros _ Hk; inversion Hk | done]|].
  rewrite to_map_app, fmap_app, elem_of_app, lookup_insert_None, IH. simpl.
  rewrite list_elem_of_singleton. naive_solver.
Qed.

Lemma to_map_Some {A B} `{Countable B} (key : A → B) l k x :
  NoDup (key <$> l) → to_map key l !! k = Some x ↔ x ∈ l ∧ key x = k.
Proof.
  induction l as [|y l IH] using rev_ind; [split; [done | intros [Hx _]; inversion Hx]|].
  rewrite fmap_app, NoDup_app. intros (Hl & Hy & _). rewrite to_map_app.
  assert (key y ∉ key <$> l) as Hny.
  { intros Hin. apply (Hy _ Hin). simpl. by left. }
  rewrite lookup_insert_Some, IH by done. rewrite elem_of_app, list_elem_of_singleton. split.
  - intros [[<- ->]|(Hne & Hx & Hk)]; auto.
  - intros [[Hx| ->] Hk]; [right | left; auto]. split_and!; [|done..].
    intros He. apply Hny. rewrite He, <- Hk. by apply list_elem_of_fmap_2.
Qed.

Lemma NoDup_key_inj {A B} (key : A → B) (l : list A) x y :
  NoDup (key <$> l) → x ∈ l → y ∈ l → key x = key y → x = y.
Proof.
  induction l as [|z l IH]; [intros _ Hx; inversion Hx|].
  rewrite fmap_cons, NoDup_cons. intros [Hz Hl] [->|Hx]%elem_of_cons [->|Hy]%elem_of_cons Hk; auto.
  - exfalso. apply Hz. rewrite Hk. by apply list_elem_of_fmap_2.
  - exfalso. apply Hz. rewrite <- Hk. by apply list_elem_of_fmap_2.
Qed.

Lemma key_elem {A B} (key : A → B) (l : list A) k : k ∈ key <$> l ↔ ∃ x, x ∈ l ∧ key x = k.
Proof. rewrite list_elem_of_fmap. naive_solver. Qed.

Lemma keys_of_map {A B} `{Countable B} (key : A → B) l k :
  k ∈ (map_to_list (to_map key l)).*1 ↔ k ∈ key <$> l.
Proof.
  rewrite list_elem_of_fmap. split.
  - intros ([k' x] & -> & Hx%elem_of_map_to_list). simpl.
    destruct (decide (k' ∈ key <$> l)) as [|Hn]; [done|].
    apply to_map_None in Hn. congruence.
  - intros Hk. destruct (to_map key l !! k) as [x|] eqn:E.
    + exists (k, x). split; [done|]. by apply elem_of_map_to_list.
    + by apply to_map_None in E.
Qed.

Lemma elem_keys_of {A B} `{Countable B} (key : A → B) l k : k ∈ keys_of key l ↔ k ∈ key <$> l.
Proof. unfold keys_of. by rewrite elem_of_list_to_set. Qed.

(** ** The TPGs of a configuration *)

Definition tpg_at (c : Config) (iqn : string) (tag : Z) (g : TPG) : Prop :=
  ∃ t, t ∈ c_Targets c ∧ t_IQN t = iqn ∧ g ∈ t_TPGs t ∧ g_Tag g = tag.

Lemma tpg_at_unique c iqn tag g1 g2 :
  valid_config c → tpg_at c iqn tag g1 → tpg_at c iqn tag g2 → g1 = g2.
Proof.
  intros V (t1 & Ht1 & H1 & Hg1 & <-) (t2 & Ht2 & H2 & Hg2 & Htag).
  assert (t1 = t2) as -> by (apply (NoDup_key_inj t_IQN (c_Targets c)); [apply V|done..|congruence]).
  pose proof (vc_targets _ V) as HF. rewrite Forall_forall in HF.
  apply (NoDup_key_inj g_Tag (t_TPGs t2)); [eapply vt_distinct, HF; done|done..].
Qed.

Lemma tpg_at_valid c iqn tag g :
  valid_config c → tpg_at c iqn tag g → valid_tpg (bs_Name <$> c_Backstores c) g.
Proof.
  intros V (t & Ht & _ & Hg & _). pose proof (vc_targets _ V) as HF. rewrite Forall_forall in HF.
  pose proof (vt_tpgs _ _ (HF t Ht)) as HG. rewrite Forall_forall in HG. auto.
Qed.
