(* ===== verification/LioPortals.v ===== *)
(** * Portals: the order of binding, and why a reconcile cannot wedge

    The two loops of a Sync that touch portals, [prune_conflicts_tpg]
    (lio/sync.go, pruneConflictingPortals) and [ensurePortals] (the loop of
    ensureTPG, lio/iscsi.go), against a kernel of which [binds] says what
    sync.go documents: it binds a portal that no live one refuses ([refuses]).
    The argument is made on lists of portals first ([bind_all],
    [after_conflict_prune], which are not code) and the loops are then shown
    to do what these say. *)

From S2P Require Import Prelude GoStrings Errors Netip LioModel LioValid Configfs LioAptpl LioApply.
From S2P Require Import LioSync.

Definition wild (p : Portal) : bool := IsUnspecified (p_IP p).

(** ** portalApplyOrder *)

Lemma portal_cmp_le a b : (portal_cmp a b <=? 0) = wild a || negb (wild b).
Proof. unfold portal_cmp, wild. by destruct (IsUnspecified _), (IsUnspecified _). Qed.

Definition wild_first (l : list Portal) : list Portal :=
  filter (λ p, wild p = true) l ++ filter (λ p, wild p = false) l.

Lemma insert_wild_first x us ns :
  Forall (λ p, wild p = true) us → Forall (λ p, wild p = false) ns →
  insert_by (λ a b, portal_cmp a b <=? 0) x (us ++ ns)
  = if wild x then x :: us ++ ns else us ++ x :: ns.
Proof.
  intros Hu Hn. induction Hu as [|u us Hu Hus IH]; simpl.
  - destruct Hn as [|n ns Hn Hns]; simpl; [by destruct (wild x)|].
    rewrite portal_cmp_le, Hn. simpl. rewrite orb_true_r. by destruct (wild x).
  - rewrite portal_cmp_le, Hu, IH. simpl. by destruct (wild x).
Qed.

Lemma portalApplyOrder_wild_first l : portalApplyOrder l = wild_first l.
Proof.
  unfold portalApplyOrder. destruct (Nat.ltb_spec (length l) 2) as [Hl|_].
  - destruct l as [|p [|? ?]]; [done| |simpl in Hl; lia]. unfold wild_first.
    rewrite !filter_cons, !filter_nil. by destruct (wild p).
  - unfold sort_by, wild_first. induction l as [|p l IH]; [done|].
    simpl foldr. rewrite IH, insert_wild_first by apply filter_Forall.
    rewrite !filter_cons. by destruct (wild p).
Qed.

Lemma wild_first_elem p l : p ∈ wild_first l ↔ p ∈ l.
Proof.
  unfold wild_first. rewrite elem_of_app, !list_elem_of_filter. destruct (wild p); naive_solver.
Qed.

(** [portalApplyOrder] is the stable partition of its argument: the
    wildcard portals, then the others, each group in the order the caller
    wrote it. The outcome of binding them is therefore a property of the set,
    and nothing is lost, added or otherwise reordered. *)
Theorem portalApplyOrder_partition (l : list Portal) :
  portalApplyOrder l
  = filter (λ p, wild p = true) l ++ filter (λ p, wild p = false) l
  ∧ portalApplyOrder l ≡ₚ l.
Proof.
  rewrite portalApplyOrder_wild_first. split; [done|]. unfold wild_first.
  induction l as [|p l IH]; [done|]. rewrite !filter_cons.
  destruct (wild p); simpl; [by rewrite IH|].
  rewrite <- Permutation_middle. by rewrite IH.
Qed.

(** ** The kernel's bind rule *)

(** What a wildcard address serves: [0.0.0.0] IPv4 only, [::] both families. *)
Definition covers (w other : Addr) : bool :=
  IsUnspecified w && (Is6 w || Is4 other).

(** A live portal that makes the kernel refuse a new one on the same port: a
    new wildcard is refused by any other address already there, a new specific
    address by a wildcard that covers it. *)
Definition refuses (live new : Portal) : bool :=
  (Portal_port live =? Portal_port new) && negb (same_key live new)
  && (wild new || covers (p_IP live) (p_IP new)).

(** Adding portals one after another, skipping those already live. *)
Fixpoint bind_all (alive news : list Portal) : option (list Portal) :=
  match news with
  | [] => Some alive
  | p :: news =>
      if any (λ a, same_key a p) alive then bind_all alive news
      else if any (λ a, refuses a p) alive then None
      else bind_all (alive ++ [p]) news
  end.

(** The desired set does not ask for an address a desired wildcard already
    serves — the overlap no order of binding could realise. *)
Definition no_overlap (desired : list Portal) : Prop :=
  ∀ w d, w ∈ desired → d ∈ desired → Portal_port w = Portal_port d →
    same_key w d = false → covers (p_IP w) (p_IP d) = false.

(** What [pruneConflictingPortals] leaves of a TPG's live portals. *)
Definition after_conflict_prune (desired alive : list Portal) : list Portal :=
  filter (λ p, portalConflictsWithAny p desired alive = false) alive.

Lemma same_key_refl p : same_key p p = true.
Proof. by apply bool_decide_eq_true. Qed.
Lemma same_key_sym p q : same_key p q = same_key q p.
Proof. unfold same_key. apply bool_decide_ext. naive_solver. Qed.
Lemma same_key_spec p q :
  same_key p q = true ↔ p_IP p = p_IP q ∧ Portal_port p = Portal_port q.
Proof.
  unfold same_key, Portal_key. rewrite bool_decide_eq_true. split; [by intros [= -> ->]|].
  intros [-> ->]. done.
Qed.
Lemma wild_valid p : wild p = true → IsValid (p_IP p) = true.
Proof. unfold wild. by destruct (p_IP p). Qed.

(** Two wildcards on one port are one portal, in a set without overlap. *)
Lemma no_overlap_wild desired p q :
  no_overlap desired → p ∈ desired → q ∈ desired → Portal_port p = Portal_port q →
  wild p = true → wild q = true → same_key p q = true.
Proof.
  intros Hno Hp Hq Hport Wp Wq. destruct (same_key p q) eqn:Ek; [done|].
  pose proof (Hno p q Hp Hq Hport Ek) as H1.
  pose proof (Hno q p Hq Hp (eq_sym Hport) ltac:(by rewrite same_key_sym)) as H2.
  unfold covers, wild in *. rewrite Wp in H1. rewrite Wq in H2. simpl in *.
  destruct (p_IP p) eqn:Ep; try discriminate; destruct (p_IP q) eqn:Eq; try discriminate.
Qed.

Lemma wild_covers_wild p : wild p = true → covers (p_IP p) (p_IP p) = true.
Proof. unfold wild, covers. destruct (p_IP p); simpl; [done|by intros ->|by intros ->]. Qed.

(** A live portal the conflict prune keeps refuses no desired portal that is
    not itself live afterwards. *)
Lemma kept_refuses_nothing desired alive a d :
  no_overlap desired → Forall (λ p, IsValid (p_IP p) = true) (desired ++ alive) →
  a ∈ after_conflict_prune desired alive → d ∈ desired →
  any (λ x, same_key x d) (after_conflict_prune desired alive) = false →
  refuses a d = false.
Proof.
  intros Hno Hval Ha Hd Hnew. apply list_elem_of_filter in Ha as [Hc Ha].
  destruct (refuses a d) eqn:Er; [|done]. exfalso.
  unfold refuses in Er. apply andb_true_iff in Er as [Er Hcov].
  apply andb_true_iff in Er as [Hport Hk]. apply Z.eqb_eq in Hport. apply negb_true_iff in Hk.
  rewrite Forall_forall in Hval.
  assert (Va : IsValid (p_IP a) = true) by (apply Hval, elem_of_app; by right).
  assert (Vd : IsValid (p_IP d) = true) by (apply Hval, elem_of_app; by left).
  unfold portalConflictsWithAny in Hc. destruct (any (λ d0, same_key a d0) desired) eqn:Edes.
  - (* [a] is itself desired *)
    apply any_true in Edes as (a' & Ha' & Hka). apply same_key_spec in Hka as [Hip Hpt].
    assert (Hk' : same_key a' d = false).
    { destruct (same_key a' d) eqn:E; [|done]. apply same_key_spec in E as [E1 E2].
      assert (same_key a d = true) by (apply same_key_spec; split; congruence). congruence. }
    destruct (wild d) eqn:Wd.
    + destruct (wild a) eqn:Wa.
      * assert (same_key a' d = true); [|congruence].
        apply (no_overlap_wild desired); try done; [congruence | unfold wild in *; congruence].
      * unfold blockedWildcardOnPort in Hc. unfold wild in Wa. rewrite Wa in Hc.
        rewrite any_false in Hc. specialize (Hc d Hd). rewrite Hport, Z.eqb_refl in Hc.
        unfold wild in Wd. rewrite Wd in Hc. simpl in Hc. apply negb_false_iff, any_true in Hc.
        destruct Hc as (b & Hb & Hbd). rewrite any_false in Hnew.
        assert (Hbk : b ∈ after_conflict_prune desired alive).
        { apply list_elem_of_filter. split; [|done]. unfold portalConflictsWithAny.
          assert (any (λ d0, same_key b d0) desired = true) as -> by (apply any_true; eauto).
          unfold blockedWildcardOnPort. apply same_key_spec in Hbd as [-> _]. by rewrite Wd. }
        specialize (Hnew b Hbk). simpl in Hnew. congruence.
    + simpl in Hcov. rewrite Hip in Hcov.
      rewrite (Hno a' d) in Hcov; try done. congruence.
  - (* [a] is not desired: it would have been pruned *)
    rewrite any_false in Hc. specialize (Hc d Hd). rewrite Hport, Z.eqb_refl in Hc. simpl in Hc.
    apply orb_false_iff in Hc as [Hc1 Hc2]. unfold wildcardPrecludes in Hc1, Hc2.
    rewrite Va, Vd in Hc1, Hc2. simpl in Hc1, Hc2. unfold wild, covers in Hcov.
    rewrite Hc1, Hc2 in Hcov. done.
Qed.

(** Binding in apply order, from a set of live portals that refuse none of the
    ones still missing. [done] is the part of the desired list already dealt
    with; everything live is either original or from [done]. *)
Lemma bind_all_ok desired orig : no_overlap desired →
  ∀ news done alive,
  wild_first desired = done ++ news →
  (∀ a, a ∈ alive → a ∈ orig ∨ a ∈ done) → (∀ a, a ∈ orig → a ∈ alive) →
  (∀ a d, a ∈ orig → d ∈ desired → any (λ x, same_key x d) orig = false → refuses a d = false) →
  (∀ d, d ∈ done → any (λ x, same_key x d) alive = true) →
  ∃ alive', bind_all alive news = Some alive' ∧
    (∀ a, a ∈ alive → a ∈ alive') ∧ (∀ d, d ∈ desired → any (λ x, same_key x d) alive' = true).
Proof.
  intros Hno. induction news as [|p news IH]; intros dn alive Hsplit Hal Horig Hrefs Hdone.
  - exists alive. split_and!; [done..|]. intros d Hd. apply Hdone.
    rewrite app_nil_r in Hsplit. rewrite <- Hsplit. by apply wild_first_elem.
  - assert (Hp : p ∈ desired).
    { apply wild_first_elem. rewrite Hsplit, elem_of_app. right. by left. }
    assert (Hsplit' : wild_first desired = (dn ++ [p]) ++ news) by (rewrite Hsplit, <- app_assoc; done).
    simpl. destruct (any (λ a, same_key a p) alive) eqn:Ealive.
    + apply (IH (dn ++ [p])); try done.
      * intros a Ha. destruct (Hal a Ha); rewrite elem_of_app; auto.
      * intros d [Hd| ->%list_elem_of_singleton]%elem_of_app; auto.
    + assert (any (λ a, refuses a p) alive = false) as ->.
      { apply any_false. intros a Ha.
        rewrite any_false in Ealive. pose proof (Ealive a Ha) as Hk.
        destruct (Hal a Ha) as [Ho|Hd].
        - apply Hrefs; [done..|]. apply any_false. intros x Hx. by apply Ealive, Horig.
        - assert (Had : a ∈ desired) by (apply wild_first_elem; rewrite Hsplit, elem_of_app; by left).
          unfold refuses. destruct (Z.eqb_spec (Portal_port a) (Portal_port p)) as [Hport|]; [|done].
          simpl in Hk. rewrite Hk. simpl. rewrite (Hno a p) by done. rewrite orb_false_r.
          destruct (wild p) eqn:Wp; [|done].
          (* [a] comes before the wildcard [p], so it is a wildcard too *)
          assert (wild a = true).
          { unfold wild_first in Hsplit.
            destruct (app_eq_inv _ _ _ _ Hsplit) as [(k & H1 & H2)|(k & H1 & H2)].
            - assert (a ∈ filter (λ p, wild p = true) desired) as Hf by (rewrite H1, elem_of_app; by left).
              by apply list_elem_of_filter in Hf as [? _].
            - assert (p ∈ filter (λ p, wild p = false) desired) as Hf
                by (rewrite H2, elem_of_app; right; by left).
              apply list_elem_of_filter in Hf as [? _]. congruence. }
          pose proof (no_overlap_wild _ a p Hno Had Hp Hport ltac:(done) Wp). congruence. }
      destruct (IH (dn ++ [p]) (alive ++ [p])) as (alive' & Hb & Hsub & Hall); try done.
      * intros a [Ha| ->%list_elem_of_singleton]%elem_of_app; rewrite elem_of_app.
        -- destruct (Hal a Ha); auto.
        -- right. right. by left.
      * intros a Ha. rewrite elem_of_app. left. auto.
      * intros d [Hd| ->%list_elem_of_singleton]%elem_of_app; rewrite any_app.
        -- by rewrite (Hdone d Hd).
        -- simpl. rewrite same_key_refl. simpl. apply orb_true_r.
      * exists alive'. split_and!; [done| |done]. intros a Ha. apply Hsub. rewrite elem_of_app. by left.
Qed.

(** On lists: what the conflict prune leaves, and the desired portals in apply
    order, are never refused and end with every desired portal live. *)
Lemma bind_all_converges (desired alive : list Portal)
    (Hno : no_overlap desired)
    (Hval : Forall (λ p, IsValid (p_IP p) = true) (desired ++ alive)) :
  ∃ alive',
    bind_all (after_conflict_prune desired alive) (portalApplyOrder desired) = Some alive' ∧
    (∀ a, a ∈ after_conflict_prune desired alive → a ∈ alive') ∧
    (∀ d, d ∈ desired → any (λ x, same_key x d) alive' = true).
Proof.
  rewrite portalApplyOrder_wild_first.
  apply (bind_all_ok desired (after_conflict_prune desired alive) Hno _ []); try done.
  - by left.
  - intros a d Ha Hd Hnew. by eapply kept_refuses_nothing.
  - intros d Hd. inversion Hd.
Qed.

(** ** The loops *)

Section loops.
Context {K : Type} `{Kernel K} (root iqn : string) (tag : Z).
(** The portals at stake, and which addresses and ports the kernel serves. *)
Context (ps : list Portal) (live : K → AddrPort → bool).

(** What is asked of the kernel about the directories of these portals: that a
    portal's directory exists when it is live, that a live one can be removed
    (established sessions do not hold it), and that one is created when no live
    portal refuses it. *)
Record binds : Prop := mkBinds {
  b_exists k p : p ∈ ps → Exists root (portalPath iqn tag p) k = (Ok (live k (Portal_key p)), k);
  b_rmdir k p : p ∈ ps → live k (Portal_key p) = true →
    ∃ k', Rmdir root (portalPath iqn tag p) k = (Ok tt, k') ∧
      ∀ x, live k' x = live k x && negb (bool_decide (x = Portal_key p));
  b_mkdir k p : p ∈ ps → live k (Portal_key p) = false →
    (∀ q, q ∈ ps → live k (Portal_key q) = true → refuses q p = false) →
    ∃ k', Mkdir root (portalPath iqn tag p) k = (Ok tt, k') ∧
      ∀ x, live k' x = bool_decide (x = Portal_key p) || live k x
}.
Context (Hb : binds).

(** The portals of [l] are the live ones. *)
Definition shows (k : K) (l : list Portal) : Prop :=
  l ⊆ ps ∧ ∀ x, live k x = true ↔ x ∈ Portal_key <$> l.

Lemma any_key p l : any (λ q, same_key q p) l = true ↔ Portal_key p ∈ Portal_key <$> l.
Proof.
  rewrite any_true, list_elem_of_fmap. unfold same_key. split; intros (q & H1 & H2); exists q.
  - split; [by apply bool_decide_eq_true in H2|done].
  - split; [done|]. by apply bool_decide_eq_true.
Qed.

Lemma ensure_loop news : ∀ alive alive' c, news ⊆ ps → shows (cx_k c) alive →
  bind_all alive news = Some alive' →
  ∃ c', mfor (ensurePortal root iqn tag) news c = (Ok tt, c') ∧ shows (cx_k c') alive'.
Proof.
  induction news as [|p news IH]; intros alive alive' c Hn Hs Hbind.
  { injection Hbind as <-. by exists c. }
  assert (Hp : p ∈ ps) by (apply Hn; left). assert (Hn' : news ⊆ ps) by (intros q Hq; apply Hn; by right).
  destruct c as [k ch dr]. destruct Hs as [Hsub Hs]. cbn [cx_k] in Hs.
  cbn [mfor bind_all] in *. unfold bind at 1, ensurePortal, bind at 1, onerr at 1, fs at 1. cbn [cx_k].
  rewrite (b_exists Hb) by done. destruct (any (λ a, same_key a p) alive) eqn:Ha.
  - apply any_key, Hs in Ha. rewrite Ha. cbn [ret cx_changes cx_drift]. by apply (IH alive).
  - assert (Hl : live k (Portal_key p) = false).
    { apply not_true_iff_false. intros Ht%Hs%any_key. congruence. }
    rewrite Hl. destruct (any (λ a, refuses a p) alive) eqn:Hr; [done|]. rewrite any_false in Hr.
    destruct (b_mkdir Hb k p Hp Hl) as (k' & Hk & Hl').
    { intros q Hq Hlq. apply Hs, list_elem_of_fmap in Hlq as (a & Hka & Hal).
      rewrite <- (Hr a Hal). unfold refuses, same_key, wild. injection Hka as Hip Hport. unfold Portal_key in *.
      by rewrite Hip, Hport. }
    unfold bind at 1, onerr at 1, fs at 1. cbn [cx_k cx_changes cx_drift]. rewrite Hk. cbn [note cx_k cx_changes cx_drift].
    apply (IH (alive ++ [p])); [done| |done]. split.
    + intros q [Hq| ->%list_elem_of_singleton]%elem_of_app; [by apply Hsub | done].
    + intros x. cbn [cx_k]. rewrite Hl', fmap_app, elem_of_app, orb_true_iff, bool_decide_eq_true, Hs. cbn.
      rewrite list_elem_of_singleton. tauto.
Qed.

Lemma prune_loop desired alive todo : ∀ k kept, NoDup (Portal_key <$> kept ++ todo) → kept ++ todo ⊆ ps →
  shows k (kept ++ todo) →
  ∃ k', mfor (λ p, if negb (portalConflictsWithAny p desired alive) then ret tt
                   else onerr (Rmdir root (portalPath iqn tag p))
                          (kremove KindBusy "prune" ("portal/" +:+ iqn +:+ "/" +:+ Portal_String p))) todo k
        = (Ok tt, k') ∧
    shows k' (kept ++ filter (λ p, portalConflictsWithAny p desired alive = false) todo).
Proof.
  induction todo as [|p todo IH]; intros k kept Hnd Hps Hs; [by exists k|].
  assert (Hp : p ∈ ps) by (apply Hps; rewrite elem_of_app; right; left).
  cbn [mfor]. unfold bind at 1. rewrite filter_cons.
  destruct (portalConflictsWithAny p desired alive) eqn:Hc; cbn [negb].
  - rewrite decide_False by done. destruct Hs as [Hsub Hs].
    destruct (b_rmdir Hb k p Hp) as (k' & Hk & Hl).
    { apply Hs. rewrite fmap_app, elem_of_app. right. left. }
    unfold onerr at 1. rewrite Hk. rewrite fmap_app, fmap_cons in Hnd.
    apply IH.
    + rewrite fmap_app. rewrite <- Permutation_middle in Hnd. by apply NoDup_cons in Hnd as [_ ?].
    + intros q Hq. apply Hps. rewrite elem_of_app in *. destruct Hq; [by left | right; by right].
    + rewrite <- Permutation_middle in Hnd. apply NoDup_cons in Hnd as [Hnew _]. split.
      * intros q Hq. apply Hps. rewrite elem_of_app in *. destruct Hq; [by left | right; by right].
      * intros x. rewrite Hl, andb_true_iff, negb_true_iff, bool_decide_eq_false, Hs.
        rewrite !fmap_app, fmap_cons, !elem_of_app, elem_of_cons. split; [tauto|].
        intros Hx. split; [tauto|]. intros ->. apply Hnew. by rewrite elem_of_app.
  - rewrite decide_True by done. cbn [ret].
    destruct (IH k (kept ++ [p])) as (k' & Hk & Hs'); [by rewrite <- (assoc_L (++))..|].
    exists k'. split; [done|]. by rewrite <- (assoc_L (++)) in Hs'.
Qed.

(** C37. A reconcile of portals cannot wedge. Take a TPG as [Discover] found it,
    the one of the desired configuration with its name and tag, and any kernel
    that binds a portal no live one refuses, and in which the portals found are
    the live ones: the pass of pruneConflictingPortals over the TPG succeeds,
    and, from any later state in which the same portals are live, the loop of
    ensureTPG over the desired portals succeeds too and leaves every one of
    them live. The desired set must have no overlap that no order of binding
    could realise ([no_overlap]: an address that one of its own wildcards
    already serves), and the addresses on both sides must be valid. So
    switching between a wildcard and explicit addresses does not crash-loop. *)
Theorem portals_converge (desired : Config) (found g : TPG) (k : K)
    (Hg : desiredTPG desired iqn (g_Tag found) = Some g) (Htag : g_Tag found = tag)
    (Hps : ps = g_Portals g ++ g_Portals found) (Hnd : NoDup (Portal_key <$> g_Portals found))
    (Hlive : ∀ x, live k x = true ↔ x ∈ Portal_key <$> g_Portals found)
    (Hno : no_overlap (g_Portals g)) (Hval : Forall (λ p, IsValid (p_IP p) = true) ps) :
  ∃ k1, prune_conflicts_tpg root desired iqn found k = (Ok tt, k1) ∧
  ∀ c, (∀ x, live (cx_k c) x = live k1 x) →
  ∃ c', ensurePortals root iqn g c = (Ok tt, c') ∧
    ∀ p, p ∈ g_Portals g → live (cx_k c') (Portal_key p) = true.
Proof using Hb.
  assert (Hgt : g_Tag g = tag).
  { unfold desiredTPG in Hg. apply head_Some_elem_of, list_elem_of_filter in Hg as [? _]. congruence. }
  rewrite Hps in Hval. unfold prune_conflicts_tpg, ensurePortals. rewrite Hg, Hgt, Htag.
  destruct (prune_loop (g_Portals g) (g_Portals found) (g_Portals found) k []) as (k1 & Hk1 & Hs1); [done| | |].
  { intros q Hq. rewrite Hps, elem_of_app. by right. }
  { split; [|done]. intros q Hq. rewrite Hps, elem_of_app. by right. }
  exists k1. split; [done|]. intros c Hc.
  destruct (bind_all_converges (g_Portals g) (g_Portals found) Hno Hval) as (alive' & Hbind & _ & Hall).
  assert (Hs2 : shows (cx_k c) (after_conflict_prune (g_Portals g) (g_Portals found))).
  { destruct Hs1 as [Hsub1 Hs1]. split; [exact Hsub1|]. intros x. rewrite Hc. apply Hs1. }
  assert (Hn : portalApplyOrder (g_Portals g) ⊆ ps).
  { intros q Hq. rewrite portalApplyOrder_wild_first in Hq. rewrite wild_first_elem in Hq.
    rewrite Hps, elem_of_app. by left. }
  destruct (ensure_loop _ _ _ c Hn Hs2 Hbind) as (c' & Hc' & _ & Hlive').
  exists c'. split; [done|]. intros p Hp. by apply Hlive', any_key, Hall.
Qed.
End loops.

(** No portal flaps: when every desired portal is already live, the
    conflict prune leaves each of them alone, whatever else is live beside
    them. *)
Theorem steady_state_keeps_portals (desired alive : list Portal) (p : Portal)
    (Hlive : ∀ d, d ∈ desired → any (λ a, same_key a d) alive = true)
    (Hp : any (λ d, same_key p d) desired = true) :
  portalConflictsWithAny p desired alive = false.
Proof.
  unfold portalConflictsWithAny. rewrite Hp. unfold blockedWildcardOnPort.
  destruct (IsUnspecified _); [done|]. apply any_false. intros d Hd.
  rewrite (Hlive d Hd). simpl. apply andb_false_r.
Qed.

(** ** Witnesses: the wildcard replaced by explicit addresses, and back *)

Definition v4 (a b c d port : Z) : Portal := mkPortal (Addr4 (a * 2^24 + b * 2^16 + c * 2^8 + d)) port.
Definition any4 : Portal := v4 0 0 0 0 3260.
Definition fd00_1 : Portal := mkPortal (Addr6 [0xfd00; 0; 0; 0; 0; 0; 0; 1] "") 3260.

(** A kernel that knows the directories of two portals of one TPG, and binds by
    the rule: a wildcard refuses to join a specific address. Its state is the
    list of the live ones. *)
Section toy.
Context (root iqn : string) (tag : Z) (ps : list Portal).
Definition at_path (p : string) : option Portal :=
  head (filter (λ q, Path root (portalPath iqn tag q) = p) ps).
Definition serves (k : list AddrPort) (x : AddrPort) : bool := bool_decide (x ∈ k).
Definition toy_lstat (p : string) (k : list AddrPort) : result errno ftype * list AddrPort :=
  (match at_path p with
   | Some q => if serves k (Portal_key q) then Ok FDir else Err ENOENT
   | None => Err ENOENT
   end, k).
Definition toy_op (o : sysop) (k : list AddrPort) : result errno unit * list AddrPort :=
  match o with
  | SysRmdir p =>
      match at_path p with
      | Some q => (Ok tt, filter (λ x, x ≠ Portal_key q) k)
      | None => (Err ENOENT, k)
      end
  | SysMkdir p =>
      match at_path p with
      | Some q => if any (λ a, serves k (Portal_key a) && refuses a q) ps then (Err EINVAL, k)
                  else (Ok tt, Portal_key q :: k)
      | None => (Err ENOENT, k)
      end
  | _ => (Err EINVAL, k)
  end.
#[local] Instance toy : Kernel (list AddrPort) :=
  Build_Kernel (list AddrPort) toy_lstat (λ _ k, (Err ENOENT, k)) (λ _ k, (Err ENOENT, k))
    (λ _ k, (Err ENOENT, k)) (λ _ k, (Err ENOENT, k)) (λ k, ([], k)) toy_op.

Lemma toy_binds : Forall (λ p, safePath root (portalPath iqn tag p) = Ok (Path root (portalPath iqn tag p)) ∧
    at_path (Path root (portalPath iqn tag p)) = Some p) ps →
  binds root iqn tag ps serves.
Proof.
  intros HF. rewrite Forall_forall in HF.
  split; intros k p Hp; destruct (HF p Hp) as [Hs Ha];
    unfold Exists, Mkdir, Rmdir, safe, of_result, bind, try, os_Lstat, sys; rewrite Hs; cbn [sys_lstat sys_op toy];
    unfold toy_lstat, toy_op; rewrite Ha.
  - by destruct (serves k (Portal_key p)).
  - intros _. eexists. split; [done|]. intros x. unfold serves.
    rewrite <- bool_decide_not, <- bool_decide_and. apply bool_decide_ext. rewrite list_elem_of_filter. tauto.
  - intros _ Hr. assert (any (λ a, serves k (Portal_key a) && refuses a p) ps = false) as ->.
    { apply any_false. intros a Hin. destruct (serves k (Portal_key a)) eqn:Hl; [|done]. by rewrite Hr. }
    eexists. split; [done|]. intros x. unfold serves. rewrite <- bool_decide_or. apply bool_decide_ext.
    by rewrite elem_of_cons.
Qed.
End toy.

(** An IPv6 portal is live and the IPv4 wildcard is to join it. *)
Definition np_found : TPG := mkTPG 1 true [fd00_1] [] [] ∅.
Definition np_wanted : TPG := mkTPG 1 true [fd00_1; any4] [] [] ∅.
Definition np_iqn : string := "iqn.2004-01.com.example:storage".
Definition np_ports : list Portal := [fd00_1; any4; fd00_1].
#[local] Instance np_kernel : Kernel (list AddrPort) := toy DefaultRoot np_iqn 1 np_ports.
Lemma portals_converge_witness :
  ∃ k1, prune_conflicts_tpg DefaultRoot (mkConfig [] [mkTarget np_iqn [np_wanted]]) np_iqn np_found [Portal_key fd00_1]
          = (Ok tt, k1) ∧
  ∀ c, (∀ x, serves (cx_k c) x = serves k1 x) →
  ∃ c', ensurePortals DefaultRoot np_iqn np_wanted c = (Ok tt, c') ∧
    ∀ p, p ∈ g_Portals np_wanted → serves (cx_k c') (Portal_key p) = true.
Proof.
  apply (portals_converge DefaultRoot np_iqn 1 np_ports serves).
  - apply toy_binds. repeat constructor; vm_compute; reflexivity.
  - reflexivity.
  - reflexivity.
  - reflexivity.
  - by apply (bool_decide_unpack _).
  - intros x. unfold serves. apply bool_decide_eq_true.
  - change (g_Portals np_wanted) with [fd00_1; any4]. intros w d Hw Hd. rewrite !elem_of_cons in Hw, Hd.
    destruct Hw as [->|[->|Hw]]; [| |by inversion Hw];
      (destruct Hd as [->|[->|Hd]]; [| |by inversion Hd]); intros _ Hk; vm_compute in Hk |- *; done.
  - repeat constructor.
Defined.
(** On that kernel the order matters: the wildcard is refused while the other
    portal is live, and binding the two in the order written fails. *)
Example order_matters :
  ((Mkdir DefaultRoot (portalPath np_iqn 1 any4) [Portal_key fd00_1]).1 ≠ Ok tt)
  ∧ (mfor (ensurePortal DefaultRoot np_iqn 1) (g_Portals np_wanted) (mkCtx ([] : list AddrPort) [] [])).1 ≠ Ok tt
  ∧ (ensurePortals DefaultRoot np_iqn np_wanted (mkCtx ([] : list AddrPort) [] [])).1 = Ok tt.
Proof. vm_compute. by split_and!. Qed.

Lemma steady_state_keeps_portals_witness :
  portalConflictsWithAny fd00_1 [fd00_1; any4] [any4; fd00_1] = false.
Proof.
  apply steady_state_keeps_portals; [|reflexivity].
  intros d [->|[->|Hd]%elem_of_cons]%elem_of_cons; [reflexivity..|by inversion Hd].
Defined.
