(* ===== verification/LioDelta.v ===== *)
(** * lio/delta.go: incremental reconcile

    [Diff] ranges over Go maps, whose order is unspecified: [range] is any
    function that permutes a list, and stands for the order the runtime
    happens to choose. *)

From S2P Require Import Prelude GoStrings Errors Netip LioModel Configfs LioAptpl LioApply LioSync.

Record LUNRef := mkLUNRef { lf_IQN : string; lf_Tag : Z; lf_Index : Z }.
Record MappedLUNRef := mkMappedLUNRef {
  mf_IQN : string; mf_Tag : Z; mf_Initiator : string; mf_Index : Z }.
Record ACLRef := mkACLRef { af_IQN : string; af_Tag : Z; af_Initiator : string }.
Record RemoveSet := mkRemoveSet {
  rm_MappedLUNs : list MappedLUNRef; rm_ACLs : list ACLRef; rm_LUNs : list LUNRef;
  rm_Backstores : list Backstore }.
Definition emptyRemove : RemoveSet := mkRemoveSet [] [] [] [].
Definition RemoveSet_Empty (r : RemoveSet) : bool :=
  (length (rm_MappedLUNs r) =? 0)%nat && (length (rm_ACLs r) =? 0)%nat
  && (length (rm_LUNs r) =? 0)%nat && (length (rm_Backstores r) =? 0)%nat.
Record Delta := mkDelta { d_Add : Config; d_Remove : RemoveSet }.
Definition Delta_Empty (d : Delta) : bool :=
  (length (c_Backstores (d_Add d)) =? 0)%nat && (length (c_Targets (d_Add d)) =? 0)%nat
  && RemoveSet_Empty (d_Remove d).

Definition rm_app (r1 r2 : RemoveSet) : RemoveSet :=
  mkRemoveSet (rm_MappedLUNs r1 ++ rm_MappedLUNs r2) (rm_ACLs r1 ++ rm_ACLs r2)
    (rm_LUNs r1 ++ rm_LUNs r2) (rm_Backstores r1 ++ rm_Backstores r2).

Definition sameStringMap (a b : gmap string string) : bool :=
  (size a =? size b)%nat
  && forallb (λ kv, match b !! kv.1 with
                    | Some bv => String.eqb bv kv.2
                    | None => false
                    end) (map_to_list a).

Definition backstoreEqual (a b : Backstore) : bool :=
  String.eqb (bs_Type a) (bs_Type b) && (bs_HBA a =? bs_HBA b) && String.eqb (bs_Name a) (bs_Name b)
  && String.eqb (bs_Dev a) (bs_Dev b) && (bs_Size a =? bs_Size b) && String.eqb (bs_WWN a) (bs_WWN b)
  && Bool.eqb (bs_BufferedIO a) (bs_BufferedIO b)
  && String.eqb (bs_VendorID a) (bs_VendorID b) && String.eqb (bs_ProductID a) (bs_ProductID b)
  && String.eqb (bs_Revision a) (bs_Revision b)
  && sameStringMap (bs_Attributes a) (bs_Attributes b).

(** [samePortals]: equal lengths and equal counts of every key. *)
Definition count_key (k : AddrPort) (l : list Portal) : nat :=
  length (filter (λ p, Portal_key p = k) l).
Definition samePortals (a b : list Portal) : bool :=
  (length a =? length b)%nat
  && forallb (λ p, (count_key (Portal_key p) a =? count_key (Portal_key p) b)%nat) (a ++ b).

Definition movedIdentity (prev : gmap string Backstore) (b : Backstore) : bool :=
  existsb (λ kp : string * Backstore,
    String.eqb (bs_Name kp.2) (bs_Name b) && negb (String.eqb kp.1 (backstoreKey b)))
    (map_to_list prev).

(** The keys of a map that are not among those of [next]. *)
Definition absent_from {A B} `{Countable B} (key : A → B) (next : list A) (k : B) : bool :=
  negb (bool_decide (k ∈ key <$> next)).

Definition changed_from {A B} `{Countable B, EqDecision A} (key : A → B) (prev : gmap B A) (a : A) : bool :=
  match prev !! key a with
  | Some old => negb (bool_decide (old = a))
  | None => true
  end.

(** New, or different from the one recorded under its key. *)
Definition changedBackstore (prev : gmap string Backstore) (b : Backstore) : bool :=
  match prev !! backstoreKey b with
  | Some old => negb (backstoreEqual old b)
  | None => true
  end.

Section Diff.
Context (range : ∀ A, list A → list A).
Arguments range {A}.

Definition diffACL (iqn : string) (tag : Z) (prevACL : gmap string ACL) (na : ACL)
    : list ACL * list MappedLUNRef :=
  match prevACL !! acl_InitiatorIQN na with
  | None => ([na], [])
  | Some pa =>
      let prevML := to_map ml_Index (acl_MappedLUNs pa) in
      let addML := filter (λ ml, changed_from ml_Index prevML ml = true) (acl_MappedLUNs na) in
      let gone := filter (λ idx, absent_from ml_Index (acl_MappedLUNs na) idx = true)
                    (range (map_to_list prevML).*1) in
      (match addML with [] => [] | _ => [mkACL (acl_InitiatorIQN na) addML] end,
       (λ idx, mkMappedLUNRef iqn tag (acl_InitiatorIQN na) idx) <$> gone)
  end.

Definition diffTPG (iqn : string) (prev next : TPG) : TPG * bool * RemoveSet :=
  let prevLUN := to_map l_Index (g_LUNs prev) in
  let addLUNs := filter (λ l, changed_from l_Index prevLUN l = true) (g_LUNs next) in
  let goneLUNs := filter (λ idx, absent_from l_Index (g_LUNs next) idx = true)
                    (range (map_to_list prevLUN).*1) in
  let prevACL := to_map acl_InitiatorIQN (g_ACLs prev) in
  let per_acl := diffACL iqn (g_Tag prev) prevACL <$> g_ACLs next in
  let addACLs := mjoin per_acl.*1 in
  let goneACLs := filter (λ i, absent_from acl_InitiatorIQN (g_ACLs next) i = true)
                    (range (map_to_list prevACL).*1) in
  (mkTPG (g_Tag next) (g_Enable next) [] addLUNs addACLs ∅,
   negb ((length addLUNs =? 0)%nat && (length addACLs =? 0)%nat),
   mkRemoveSet (mjoin per_acl.*2)
     ((λ i, mkACLRef iqn (g_Tag prev) i) <$> goneACLs)
     ((λ idx, mkLUNRef iqn (g_Tag prev) idx) <$> goneLUNs) []).

(** One TPG of [next]: [None] when the delta is refused. *)
Definition diff_tpg_step (iqn : string) (prevG : gmap Z TPG) (ng : TPG)
    : option (list TPG * RemoveSet) :=
  match prevG !! g_Tag ng with
  | None => None
  | Some pg =>
      if negb (Bool.eqb (g_Enable pg) (g_Enable ng))
         || negb (sameStringMap (g_Attributes pg) (g_Attributes ng))
         || negb (samePortals (g_Portals pg) (g_Portals ng))
      then None
      else
        let '(ag, changed, rm) := diffTPG iqn pg ng in
        Some (if changed : bool then [ag] else [], rm)
  end.

Definition diff_target_step (prevT : gmap string Target) (nt : Target)
    : option (list Target * RemoveSet) :=
  match prevT !! t_IQN nt with
  | None => None
  | Some pt =>
      if negb (length (t_TPGs pt) =? length (t_TPGs nt))%nat then None
      else
        let prevG := to_map g_Tag (t_TPGs pt) in
        match mapM (diff_tpg_step (t_IQN nt) prevG) (t_TPGs nt) with
        | None => None
        | Some l =>
            let addTPGs := mjoin l.*1 in
            Some (match addTPGs with [] => [] | _ => [mkTarget (t_IQN nt) addTPGs] end,
                  foldr rm_app emptyRemove l.*2)
        end
  end.

(** [addReferencedBackstores]: the backstores a LUN of [add] names and [add]
    lacks, taken from [next], in the order the LUNs name them. *)
Definition lun_refs (c : Config) : list string :=
  t ← c_Targets c; g ← t_TPGs t; l_Backstore <$> g_LUNs g.
Definition add_reference (byName : gmap string Backstore) (acc : list Backstore) (name : string)
    : list Backstore :=
  if bool_decide (name ∈ bs_Name <$> acc) then acc
  else match byName !! name with Some b => acc ++ [b] | None => acc end.
Definition addReferencedBackstores (add next : Config) : Config :=
  mkConfig (foldl (add_reference (to_map bs_Name (c_Backstores next))) (c_Backstores add)
              (lun_refs add))
    (c_Targets add).

Definition diff_backstores (prev next : Config) : list Backstore * list Backstore :=
  let prevBS := to_map backstoreKey (c_Backstores prev) in
  (filter (λ b, changedBackstore prevBS b = true) (c_Backstores next),
   (filter (λ kb : string * Backstore,
              absent_from backstoreKey (c_Backstores next) kb.1 = true)
      (range (map_to_list prevBS))).*2).

Definition Diff (prev next : Config) : option Delta :=
  let prevBS := to_map backstoreKey (c_Backstores prev) in
  let '(addBS, rmBS) := diff_backstores prev next in
  if existsb (movedIdentity prevBS) (c_Backstores next) then None
  else if negb (length (c_Targets prev) =? length (c_Targets next))%nat then None
  else
    match mapM (diff_target_step (to_map t_IQN (c_Targets prev))) (c_Targets next) with
    | None => None
    | Some l =>
        let add := mkConfig addBS (mjoin l.*1) in
        let rm := rm_app (foldr rm_app emptyRemove l.*2) (mkRemoveSet [] [] [] rmBS) in
        Some (mkDelta (addReferencedBackstores add next) rm)
    end.
End Diff.

Section ApplyDelta.
Context {K : Type} `{Kernel K} (root : string).
Context (aptplRecords : option (Backstore → ST K (list string))).

Definition check_tpg (iqn : string) (g : TPG) : ST K unit :=
  do ok <- onerr (Exists root (tpgPath iqn (g_Tag g)))
             (errf KindConfigfs "apply-delta" ("tpg/" +:+ iqn));
  if negb ok then
    throw (ErrWrap "%w: tpg/%s/tpgt_%d is absent, so this delta describes a tree that no longer exists"
             [iqn; itoa (g_Tag g)] ErrStaleScope)
  else ret tt.
Definition checkScope (desired : Config) : ST K unit :=
  mfor (λ t, mfor (check_tpg (t_IQN t)) (t_TPGs t)) (c_Targets desired).

Definition applyRemovals (rm : RemoveSet) : ST (ctx K) unit :=
  mfor (λ r, removeMappedLUN root (mf_IQN r) (mf_Tag r) (mf_Initiator r) (mf_Index r);;
             note ("removed mappedlun/" +:+ mf_Initiator r +:+ "/lun_" +:+ itoa (mf_Index r)))
    (rm_MappedLUNs rm);;
  mfor (λ r, removeACL root (af_IQN r) (af_Tag r) (af_Initiator r);;
             note ("removed acl/" +:+ af_IQN r +:+ "/" +:+ af_Initiator r))
    (rm_ACLs rm);;
  mfor (λ r, removeLUN root (lf_IQN r) (lf_Tag r) (lf_Index r);;
             note ("removed lun/" +:+ lf_IQN r +:+ "/lun_" +:+ itoa (lf_Index r)))
    (rm_LUNs rm);;
  mfor (removeBackstore root) (rm_Backstores rm).

Definition ApplyDelta (desired : Config) (d : Delta) (k : K) : Report * option goerr * K :=
  match checkScope desired k with
  | (Err e, k) => (emptyReport, Some e, k)
  | (Ok _, k) =>
      run_pass (apply_pass root aptplRecords (bs_by_name (d_Add d)) (d_Add d);;
                applyRemovals (d_Remove d)) [] [] k
  end.
End ApplyDelta.
