(* ===== verification/LioStranded.v ===== *)
(** * lio/prstate.go, lio/stranded.go and ReservationHolder: live PR state

    Everything here only reads the kernel. *)

From S2P Require Import Prelude GoStrings Errors Netip LioModel Configfs LioAptpl LioApply LioSync.

Record UndecidedStrand := mkUndecided {
  u_TargetIQN : string; u_LiveSessions : Z; u_VisibleSessions : Z; u_Backstores : list string }.
Record StrandedReservation := mkStranded {
  sr_Backstore : string; sr_Initiator : string; sr_WantISID : string; sr_LiveISID : string;
  sr_ResType : string }.
Record StrandReport := mkStrandReport {
  Stranded : list StrandedReservation; Undecided : list UndecidedStrand }.
Record blindness := mkBlind { bl_live : Z; bl_visible : Z }.

Definition resTypeText (s : StrandedReservation) : string :=
  if String.eqb (sr_ResType s) "" then "could not be read" else sr_ResType s.
(** What an operator is told. *)
Definition Stranded_String (s : StrandedReservation) : string :=
  sr_Backstore s +:+ ": reservation held by " +:+ sr_Initiator s
  +:+ " cannot be released by it — the registration requires session id " +:+ sr_WantISID s
  +:+ " and the sessions this target can see for it are " +:+ sr_LiveISID s +:+ " (type: " +:+ resTypeText s
  +:+ "). It is STILL ENFORCING (this over-fences rather than failing open), so nothing is at risk and nothing here will clear it: a stranded reservation and a deliberate one are indistinguishable from this side. To clear it, register a new key from a CURRENT session (register-and-ignore-existing-key works from any session, unlike preempt, which needs a registration the kernel can still locate) and then preempt or clear. Detaching the holder frees its registrations, but that is NOT a reliable clear on its own: if the detach removes the LAST attachment the backstore is pruned, and re-attaching recreates it -- at which point a SAVED APTPL record is replayed and the reservation comes back. MEASURED. To make a detach stick, the saved record has to be discarded with it. The appliance's clear-reservation operation does both and keeps the volume, its data and its mappings; deleting the volume also does both. All of these DROP the fence, so establish that this reservation is genuinely stranded rather than deliberate before using any of them".
Definition Undecided_String (u : UndecidedStrand) : string :=
  u_TargetIQN u +:+ ": cannot tell whether these reservations are stranded — the "
  +:+ (if u_LiveSessions u <? 0
       then "target's live session count could not be read, so a session identifier that does not match the one visible per ACL may still belong to a live session. "
       else "kernel reports " +:+ itoa (u_LiveSessions u) +:+ " live sessions but renders only "
            +:+ itoa (u_VisibleSessions u)
            +:+ " of them (one per ACL, the last active), so a holder's session identifier that does not match the visible one may still be live. This is normal with multipath. Nothing is wrong with the reservations; the DETECTOR is blind here. ")
  +:+ "Affected: " +:+ Join (u_Backstores u) ", ".

Section Stranded.
Context {K : Type} `{Kernel K} (root : string).

Definition rd_clean (s : string) : string := TrimSpace (RemoveAll s nul).

(** [Manager.ReservationHolder]. *)
Definition ReservationHolder (b : Backstore) : ST K Reservation :=
  do raw <- ReadAttr root (objPath b ++ ["pr"; "res_holder"]);
  let clean := rd_clean raw in
  let '(holder, isid, known) := parseHolder raw in
  if negb known then
    throw (errf KindConfigfs "read" ("backstore/" +:+ bs_Name b +:+ " pr/res_holder")
             (ErrWrap "%w: %q" [clean] ErrHolderUnreadable))
  else
    let spc2 := HasPrefix clean "SPC-2 Reservation:" in
    if String.eqb holder "" then ret (mkRes holder isid "" spc2)
    else
      do r <- try (ReadAttr root (objPath b ++ ["pr"; "res_pr_type"]));
      ret (mkRes holder isid (match r with Ok v => prTypeText v | Err _ => "" end) spc2).

(** [Manager.PRState]; [pageSize] is [prPageSize], read from the system. *)
Definition PRState_read (pageSize : Z) (b : Backstore) : ST K PRState :=
  do regs <- onerr (ReadAttr root (objPath b ++ ["pr"; "res_pr_registered_i_pts"]))
               (errf KindConfigfs "read" ("backstore/" +:+ bs_Name b +:+ " pr/res_pr_registered_i_pts"));
  let '(parsed, unparsed) := parseRegistrations regs in
  let truncated := (0 <? unparsed) || (pageSize - prMaxRegLine <=? slen regs) in
  do v <- onerr (ReadAttr root (objPath b ++ ["pr"; "res_holder"]))
            (errf KindConfigfs "read" ("backstore/" +:+ bs_Name b +:+ " pr/res_holder"));
  let '(holder, _, known) := parseHolder v in
  do typ <-
    (if String.eqb holder "" then ret ""
     else
       do r <- try (ReadAttr root (objPath b ++ ["pr"; "res_pr_type"]));
       ret (match r with Ok v => prTypeText v | Err _ => "" end));
  do r <- try (ReadAttr root (objPath b ++ ["pr"; "res_aptpl_active"]));
  ret (mkPRState parsed holder known typ
         (match r with Ok v => Contains v "Activated" | Err _ => false end) truncated).

(** The session an ACL's info attribute renders, if it can be read. *)
Definition acl_session (iqn : string) (tag : Z) (initiator : string) : ST K (option string) :=
  do r <- try (ReadAttr root (aclPath iqn tag initiator ++ ["info"]));
  ret (match r with
       | Ok raw => match ParseSessionISID raw with Ok got => Some got | Err _ => None end
       | Err _ => None
       end).

Definition liveSessionCount (iqn : string) : ST K Z :=
  do raw <- ReadAttr root (targetPath iqn ++ ["fabric_statistics"; "iscsi_instance"; "sessions"]);
  match Atoi (rd_clean raw) with
  | Some n => ret n
  | None => throw (wrapf "session count for %s is %q, which is not a number" [iqn; TrimSpace raw])
  end.

Definition visible_tpg (iqn : string) (visible : Z) (g : TPG) : ST K Z :=
  do r <- try (ReadDir root (tpgPath iqn (g_Tag g) ++ ["acls"]));
  match r with
  | Err _ => ret visible
  | Ok names =>
      mfold (λ visible n,
        do s <- acl_session iqn (g_Tag g) n;
        ret (match s with Some _ => visible + 1 | None => visible end)) visible names
  end.

Definition blind_target (out : gmap string blindness) (t : Target) : ST K (gmap string blindness) :=
  do visible <- mfold (visible_tpg (t_IQN t)) 0 (t_TPGs t);
  do live <- try (liveSessionCount (t_IQN t));
  ret (match live with
       | Err _ => <[t_IQN t := mkBlind (-1) visible]> out
       | Ok live => if visible <? live then <[t_IQN t := mkBlind live visible]> out else out
       end).
Definition blindTargets (cfg : Config) : ST K (gmap string blindness) :=
  mfold blind_target ∅ (c_Targets cfg).

(** The first TPG of [tags] the initiator has a session on. *)
Fixpoint has_session (iqn initiator : string) (tpgs : list TPG) : ST K bool :=
  match tpgs with
  | [] => ret false
  | g :: tpgs =>
      do s <- acl_session iqn (g_Tag g) initiator;
      match s with Some _ => ret true | None => has_session iqn initiator tpgs end
  end.
Fixpoint blind_target_for (initiator : string) (blind : gmap string blindness) (ts : list Target)
    : ST K string :=
  match ts with
  | [] => ret ""
  | t :: ts =>
      if bool_decide (is_Some (blind !! t_IQN t)) then
        do s <- has_session (t_IQN t) initiator (t_TPGs t);
        if s : bool then ret (t_IQN t) else blind_target_for initiator blind ts
      else blind_target_for initiator blind ts
  end.
Definition blindTargetFor (cfg : Config) (initiator : string) (blind : gmap string blindness)
    : ST K string :=
  if bool_decide (blind = ∅) then ret "" else blind_target_for initiator blind (c_Targets cfg).

Definition add_isid (out : list string) (got : string) : list string :=
  if bool_decide (got ∈ out) then out else out ++ [got].
Definition live_isids_go (initiator : string) (cfg : Config) : ST K (list string) :=
  mfold (λ out t,
    mfold (λ out g,
      do s <- acl_session (t_IQN t) (g_Tag g) initiator;
      ret (match s with Some got => add_isid out got | None => out end)) out (t_TPGs t))
    [] (c_Targets cfg).
(** [liveISIDs]: sorted, without duplicates; empty means no session. *)
Definition liveISIDs (cfg : Config) (initiator : string) : ST K (list string) :=
  do out <- live_isids_go initiator cfg; ret (sort_strings out).

(** What the check concludes about one backstore. *)
Inductive strand :=
  | NotStranded
  | UndecidedOn (target name : string)
  | StrandedAt (s : StrandedReservation).

Definition strand_check (cfg : Config) (blind : gmap string blindness) (b : Backstore)
    : ST K strand :=
  do r <- try (ReservationHolder b);
  match r with
  | Err _ => ret NotStranded
  | Ok res =>
      if String.eqb (rv_Holder res) "" || String.eqb (rv_ISID res) "" then ret NotStranded
      else if rv_SPC2 res then ret NotStranded
      else if AllRegistrants res then ret NotStranded
      else
        do live <- liveISIDs cfg (rv_Holder res);
        if (length live =? 0)%nat || bool_decide (rv_ISID res ∈ live) then ret NotStranded
        else
          let name := bs_id b in
          do t <- blindTargetFor cfg (rv_Holder res) blind;
          if negb (String.eqb t "") then ret (UndecidedOn t name)
          else ret (StrandedAt (mkStranded name (rv_Holder res) (rv_ISID res)
                                  (Join live ", ") (rv_Type res)))
  end.

Definition add_strand (acc : list StrandedReservation * gmap string (list string)) (s : strand) :=
  match s with
  | NotStranded => acc
  | UndecidedOn t name => (acc.1, <[t := default [] (acc.2 !! t) ++ [name]]> acc.2)
  | StrandedAt s => (acc.1 ++ [s], acc.2)
  end.

Definition undecided_le (a b : UndecidedStrand) : bool := str_leb (u_TargetIQN a) (u_TargetIQN b).
(** The reports of [undecided], in target order. *)
Definition undecided_reports (blind : gmap string blindness) (undecided : gmap string (list string))
    : list UndecidedStrand :=
  sort_by undecided_le
    ((λ tn : string * list string,
        let bl := default (mkBlind 0 0) (blind !! tn.1) in
        mkUndecided tn.1 (bl_live bl) (bl_visible bl) (sort_strings tn.2))
     <$> map_to_list undecided).

Definition StrandedReservations (cfg : Config) : ST K StrandReport :=
  do blind <- blindTargets cfg;
  do acc <- mfold (λ acc b, do s <- strand_check cfg blind b; ret (add_strand acc s))
              ([], ∅) (c_Backstores cfg);
  ret (mkStrandReport acc.1 (undecided_reports blind acc.2)).
End Stranded.
