(* ===== verification/LioEffects.v ===== *)
(** * What the reconciler may change

    For each method of [applyCtx] and [Manager]: the changes it can ask the
    kernel for, whatever the kernel answers. *)

From S2P Require Import Prelude GoStrings Errors Netip LioModel LioValid Configfs FsPaths LioAptpl.
From S2P Require Import LioApply Trace LioSync LioStranded LioDelta.

(** The provider of saved PR records reads files of its own: it changes
    nothing under the configfs root. *)
Definition quiet_provider {K} `{HasTrace K} (aptplRecords : option (Backstore → ST K (list string))) : Prop :=
  ∀ p b, aptplRecords = Some p → quiet (p b).

(** ** Computations that only read *)

Section quiet.
Context {K : Type} `{LoggedKernel K} (root : string) (P : sysop → Prop).

Lemma emits_lunRefCounts : emits P (lunRefCounts root).
Proof. unfold lunRefCounts. emit. Qed.
Lemma emits_countLUNRefs b : emits P (countLUNRefs root b).
Proof. unfold countLUNRefs. emit. apply emits_lunRefCounts. Qed.
Lemma emits_immutableWhileExported b err : emits P (immutableWhileExported root b err).
Proof. unfold immutableWhileExported. emit. apply emits_countLUNRefs. Qed.
Lemma emits_controlString b : emits P (controlString (K := K) b).
Proof. unfold controlString. emit. Qed.
Lemma emits_validateAttr b k v : emits P (validateAttr root b k v).
Proof. unfold validateAttr. emit. Qed.
Lemma emits_constrainWriteCache b info : emits P (constrainWriteCache (K := K) b info).
Proof. unfold constrainWriteCache. emit. Qed.

Lemma emits_optional {A} (m : ST K A) f : emits P m → emits P (optional m f).
Proof. intros. unfold optional. emit. Qed.
Lemma emits_discover_attrs read f ks : (∀ k, emits P (read k)) → emits P (discover_attrs (K := K) read f ks).
Proof. intros. unfold discover_attrs. emit. by apply emits_optional. Qed.
Ltac dis := emit; try (apply emits_optional || (apply emits_discover_attrs; intros)); eauto with emits.

Lemma emits_discover_backstore hba plugin i name : emits P (discover_backstore root hba plugin i name).
Proof. unfold discover_backstore. dis. Qed.
Lemma emits_discover_hba hba : emits P (discover_hba root hba).
Proof. unfold discover_hba. emit. apply emits_discover_backstore. Qed.
Lemma emits_discoverBackstores : emits P (discoverBackstores root).
Proof. unfold discoverBackstores. dis. apply emits_discover_hba. Qed.
Lemma emits_discover_lun iqn tag id ld : emits P (discover_lun root iqn tag id ld).
Proof. unfold discover_lun. dis. Qed.
Lemma emits_discover_mapped_lun iqn tag acl c : emits P (discover_mapped_lun root iqn tag acl c).
Proof. unfold discover_mapped_lun. dis. Qed.
Lemma emits_discover_acl iqn tag id acl : emits P (discover_acl root iqn tag id acl).
Proof. unfold discover_acl. dis. apply emits_discover_mapped_lun. Qed.
Lemma emits_discoverTPG iqn tag : emits P (discoverTPG root iqn tag).
Proof. unfold discoverTPG. dis; [apply emits_discover_lun | apply emits_discover_acl]. Qed.
Lemma emits_discover_target iqn : emits P (discover_target root iqn).
Proof. unfold discover_target. dis. apply emits_discoverTPG. Qed.
Lemma emits_discoverTargets : emits P (discoverTargets root).
Proof. unfold discoverTargets. dis. apply emits_discover_target. Qed.
Lemma emits_Discover : emits P (Discover root).
Proof. unfold Discover. emit; [apply emits_discoverBackstores | apply emits_discoverTargets]. Qed.

Lemma emits_reportLapsedHolder cfg b id lapsed rec : emits P (reportLapsedHolder root cfg b id lapsed rec).
Proof. unfold reportLapsedHolder. emit. Qed.
Lemma emits_check_holder b id holder : emits P (check_holder root b id holder).
Proof. unfold check_holder. emit. Qed.
Lemma emits_verifyBackstoreAPTPL provider cfg b :
  emits P (provider b) → emits P (verifyBackstoreAPTPL root provider cfg b).
Proof.
  intros. unfold verifyBackstoreAPTPL, verify_live. emit; eauto using emits_reportLapsedHolder, emits_check_holder.
Qed.
Lemma emits_verifyAPTPL aptplRecords cfg : quiet_provider aptplRecords → emits P (verifyAPTPL root aptplRecords cfg).
Proof.
  intros Hp. unfold verifyAPTPL. emit. by apply emits_verifyBackstoreAPTPL, emits_quiet, Hp.
Qed.

Lemma emits_ReservationHolder b : emits P (ReservationHolder root b).
Proof. unfold ReservationHolder. emit. Qed.
Lemma emits_PRState_read n b : emits P (PRState_read root n b).
Proof. unfold PRState_read. emit. Qed.
Lemma emits_acl_session iqn tag i : emits P (acl_session root iqn tag i).
Proof. unfold acl_session. emit. Qed.
Lemma emits_liveSessionCount iqn : emits P (liveSessionCount root iqn).
Proof. unfold liveSessionCount. emit. Qed.
Lemma emits_visible_tpg iqn v g : emits P (visible_tpg root iqn v g).
Proof. unfold visible_tpg. emit. apply emits_acl_session. Qed.
Lemma emits_blind_target out t : emits P (blind_target root out t).
Proof. unfold blind_target. emit; [apply emits_visible_tpg | apply emits_liveSessionCount]. Qed.
Lemma emits_has_session iqn i tpgs : emits P (has_session root iqn i tpgs).
Proof. induction tpgs; cbn [has_session]; emit; auto using emits_acl_session. Qed.
Lemma emits_blind_target_for i blind ts : emits P (blind_target_for root i blind ts).
Proof. induction ts; cbn [blind_target_for]; emit; auto using emits_has_session. Qed.
Lemma emits_strand_check cfg blind b : emits P (strand_check root cfg blind b).
Proof.
  unfold strand_check, liveISIDs, live_isids_go, blindTargetFor.
  emit; auto using emits_ReservationHolder, emits_acl_session, emits_blind_target_for.
Qed.
Lemma emits_StrandedReservations cfg : emits P (StrandedReservations root cfg).
Proof.
  unfold StrandedReservations, blindTargets. emit; [apply emits_blind_target | apply emits_strand_check].
Qed.
End quiet.

#[export] Hint Resolve emits_lunRefCounts emits_immutableWhileExported emits_controlString
  emits_validateAttr emits_constrainWriteCache emits_Discover : emits.

(** ** The apply side: every change is a checked one *)

Section apply.
Context {K : Type} `{LoggedKernel K} (root : string) (P : sysop → Prop).
Context `{!Allows_mkdir root P, !Allows_unlink root P, !Allows_write root P}.
(** Where a symbolic link may point. *)
Context (good_target : string → Prop).
Context (allow_symlink : ∀ target parts, good_target target → legal parts →
  P (SysSymlink target (Path root parts))).
Context (stateBackstores : gmap string Backstore) (aptplRecords : option (Backstore → ST K (list string))).
Context (Hprovider : quiet_provider aptplRecords).

Lemma emits_reconcile b id : emits P (reconcileBackstoreMutable root b id).
Proof.
  unfold reconcileBackstoreMutable, reconcile_wwn, reconcile_ident, reconcile_attr, reconcile_size.
  emit.
Qed.
Lemma emits_loadAPTPL b id : emits P (loadAPTPL root aptplRecords b id).
Proof. unfold loadAPTPL, load_record. emit. by apply emits_quiet, Hprovider. Qed.
Lemma emits_createBackstore b id : emits P (createBackstore root aptplRecords b id).
Proof. unfold createBackstore. emit. apply emits_loadAPTPL. Qed.
Lemma emits_ensureBackstore b : emits P (ensureBackstore root aptplRecords b).
Proof. unfold ensureBackstore. emit; auto using emits_createBackstore, emits_reconcile. Qed.

Lemma emits_unlinkAll dir : emits P (unlinkAll root dir).
Proof. unfold unlinkAll. emit. Qed.
Lemma emits_link_alias want dir : good_target want → emits P (link_alias root want dir).
Proof.
  intros. unfold link_alias. emit.
  - apply emits_same. intros s. rewrite <- (log_random s). by destruct (sys_random s).
  - apply emits_Symlink. intros. apply allow_symlink; [done|]. split; [apply app_one_nonempty | done].
Qed.
Lemma emits_ensurePortal iqn tag p : emits P (ensurePortal root iqn tag p).
Proof. unfold ensurePortal. emit. Qed.
Lemma emits_ensurePortals iqn g : emits P (ensurePortals root iqn g).
Proof. unfold ensurePortals. emit. apply emits_ensurePortal. Qed.
Lemma emits_ensureLUN iqn tag l :
  (∀ b, stateBackstores !! l_Backstore l = Some b → good_target (Path root (objPath b))) →
  emits P (ensureLUN root stateBackstores iqn tag l).
Proof. intros. unfold ensureLUN. emit; auto using emits_unlinkAll, emits_link_alias. Qed.
Lemma emits_ensureWriteProtect iqn tag i m id : emits P (ensureWriteProtect root iqn tag i m id).
Proof. unfold ensureWriteProtect. emit. Qed.
Lemma emits_ensureMappedLUN iqn tag i m :
  good_target (Path root (lunPath iqn tag (ml_TPGLUN m))) → emits P (ensureMappedLUN root iqn tag i m).
Proof.
  intros. unfold ensureMappedLUN.
  emit; auto using emits_unlinkAll, emits_link_alias, emits_ensureWriteProtect.
Qed.

(** The targets of the links of a TPG, a target, a configuration. *)
Definition acl_links (iqn : string) (tag : Z) (a : ACL) : Prop :=
  Forall (λ m, good_target (Path root (lunPath iqn tag (ml_TPGLUN m)))) (acl_MappedLUNs a).
Definition tpg_links (iqn : string) (g : TPG) : Prop :=
  Forall (λ l, ∀ b, stateBackstores !! l_Backstore l = Some b → good_target (Path root (objPath b)))
    (g_LUNs g)
  ∧ Forall (acl_links iqn (g_Tag g)) (g_ACLs g).
Definition target_links (t : Target) : Prop := Forall (tpg_links (t_IQN t)) (t_TPGs t).

Lemma emits_ensureACL iqn tag a : acl_links iqn tag a → emits P (ensureACL root iqn tag a).
Proof.
  unfold acl_links. rewrite Forall_forall. intros Ha. unfold ensureACL.
  emit. by apply emits_ensureMappedLUN, Ha.
Qed.
Lemma emits_ensure_tpg_attr iqn g id k : emits P (ensure_tpg_attr root iqn g id k).
Proof. unfold ensure_tpg_attr. emit. Qed.
Lemma emits_ensureTPG iqn g : tpg_links iqn g → emits P (ensureTPG root stateBackstores iqn g).
Proof.
  intros [Hl Ha]. rewrite Forall_forall in Hl. rewrite Forall_forall in Ha. unfold ensureTPG, ensure_enable.
  emit; auto using emits_ensure_tpg_attr, emits_ensurePortals, emits_ensureACL.
  by apply emits_ensureLUN, Hl.
Qed.
Lemma emits_ensureTarget t : target_links t → emits P (ensureTarget root stateBackstores t).
Proof.
  intros Ht. unfold target_links in Ht. rewrite Forall_forall in Ht. unfold ensureTarget.
  emit. by apply emits_ensureTPG, Ht.
Qed.
Lemma emits_apply_pass cfg :
  Forall target_links (c_Targets cfg) → emits P (apply_pass root aptplRecords stateBackstores cfg).
Proof.
  rewrite Forall_forall. intros. unfold apply_pass.
  emit; auto using emits_ensureBackstore, emits_ensureTarget.
Qed.
End apply.

(** ** The removal side *)

Section remove.
Context {K : Type} `{LoggedKernel K} (root : string) (P : sysop → Prop).
(** The directories that may go, and the links in them. *)
Context (gone : list string → Prop).
Context (allow_rmdir : ∀ parts, gone parts → good_segs parts → P (SysRmdir (Path root parts))).
Context (allow_unlink_in : ∀ parts name, gone parts → good_segs (parts ++ [name]) →
  P (SysUnlink (Path root (parts ++ [name])))).

Lemma emits_rm parts : gone parts → emits P (Rmdir root parts).
Proof. intros. by apply emits_Rmdir; auto. Qed.
Lemma emits_unlinkAll_gone dir : gone dir → emits P (unlinkAll root dir).
Proof.
  intros. unfold unlinkAll. emit. unfold Unlink. apply emits_safe. intros. emit.
  by apply emits_op, allow_unlink_in.
Qed.

Lemma emits_removeLUN iqn tag i : gone (lunPath iqn tag i) → emits P (removeLUN root iqn tag i).
Proof. intros. unfold removeLUN. emit; auto using emits_rm, emits_unlinkAll_gone. Qed.
Lemma emits_removeMappedLUN iqn tag ini i :
  gone (mappedLunPath iqn tag ini i) → emits P (removeMappedLUN root iqn tag ini i).
Proof. intros. unfold removeMappedLUN. emit; auto using emits_rm, emits_unlinkAll_gone. Qed.
Lemma emits_removeACL iqn tag ini :
  (∀ rest, gone (aclPath iqn tag ini ++ rest)) → emits P (removeACL root iqn tag ini).
Proof.
  intros Hg. pose proof (Hg []) as Hg0. rewrite app_nil_r in Hg0.
  unfold removeACL. emit; auto using emits_rm. by apply emits_removeMappedLUN, Hg.
Qed.
Lemma emits_removeTPG iqn tag :
  (∀ rest, gone (tpgPath iqn tag ++ rest)) → emits P (removeTPG root iqn tag).
Proof.
  intros Hg. pose proof (Hg []) as Hg0. rewrite app_nil_r in Hg0.
  unfold removeTPG, tpg_children, remove_acl_entry.
  emit; auto using emits_rm.
  - apply emits_removeACL. intros rest. apply (Hg (_ :: _ :: rest)).
  - apply emits_removeLUN, Hg.
Qed.
Lemma emits_removeTarget iqn :
  (∀ rest, gone (targetPath iqn ++ rest)) → emits P (removeTarget root iqn).
Proof.
  intros Hg. pose proof (Hg []) as Hg0. rewrite app_nil_r in Hg0.
  unfold removeTarget. emit; auto using emits_rm. apply emits_removeTPG. intros rest. apply (Hg (_ :: rest)).
Qed.
Lemma emits_removeBackstore b : gone (objPath b) → gone (hbaPath b) → emits P (removeBackstore root b).
Proof. intros. unfold removeBackstore. emit; auto using emits_rm. Qed.
End remove.

(** ** What a desired configuration lacks *)

Section surplus.
Context (d : Config).
(** The directories of objects that [d] does not describe. An HBA directory
    is in the list because the kernel makes it with the first object below it;
    it is asked to go when an object below it goes, and the kernel refuses
    while others remain. *)
Inductive surplus : list string → Prop :=
  | sur_target iqn rest : iqn ∉ t_IQN <$> c_Targets d → surplus (targetPath iqn ++ rest)
  | sur_tpg iqn tag rest : (∀ g, ¬ tpg_at d iqn tag g) → surplus (tpgPath iqn tag ++ rest)
  | sur_portal iqn tag g p : tpg_at d iqn tag g → Portal_key p ∉ Portal_key <$> g_Portals g →
      surplus (portalPath iqn tag p)
  | sur_lun iqn tag g i : tpg_at d iqn tag g → i ∉ l_Index <$> g_LUNs g → surplus (lunPath iqn tag i)
  | sur_acl iqn tag g ini rest : tpg_at d iqn tag g → ini ∉ acl_InitiatorIQN <$> g_ACLs g →
      surplus (aclPath iqn tag ini ++ rest)
  | sur_mapped iqn tag g a i : tpg_at d iqn tag g → a ∈ g_ACLs g →
      i ∉ ml_Index <$> acl_MappedLUNs a → surplus (mappedLunPath iqn tag (acl_InitiatorIQN a) i)
  | sur_backstore b : backstoreKey b ∉ backstoreKey <$> c_Backstores d → surplus (objPath b)
  | sur_hba b : backstoreKey b ∉ backstoreKey <$> c_Backstores d → surplus (hbaPath b).
End surplus.

Section prune.
Context {K : Type} `{LoggedKernel K} (root : string) (P : sysop → Prop) (d : Config).
Context (Vd : valid_config d).
Context (allow_rmdir : ∀ parts, surplus d parts → good_segs parts → P (SysRmdir (Path root parts))).
Context (allow_unlink_in : ∀ parts name, surplus d parts → good_segs (parts ++ [name]) →
  P (SysUnlink (Path root (parts ++ [name])))).
Local Hint Resolve emits_rm : emits.

Lemma emits_prunePortals iqn (actual dg : TPG) :
  tpg_at d iqn (g_Tag actual) dg → emits P (prunePortals root iqn actual dg).
Proof.
  intros Hg. unfold prunePortals. emit. apply (emits_rm root P (surplus d)); [done|].
  eapply sur_portal; [done|]. intros (q & Hk & Hq)%list_elem_of_fmap.
  apply not_true_iff_false in E. apply E, any_true. exists q. split; [done|].
  unfold same_key. by apply bool_decide_eq_true.
Qed.
Lemma emits_pruneLUNs iqn (actual dg : TPG) :
  tpg_at d iqn (g_Tag actual) dg → emits P (pruneLUNs root iqn actual dg).
Proof.
  intros Hg. unfold pruneLUNs. emit. apply (emits_removeLUN root P (surplus d)); [done..|].
  eapply sur_lun; [done|]. by rewrite <- elem_keys_of.
Qed.
Lemma emits_pruneACLs iqn (actual dg : TPG) :
  tpg_at d iqn (g_Tag actual) dg → emits P (pruneACLs root iqn actual dg).
Proof.
  intros Hg. unfold pruneACLs, prune_mapped. emit.
  - apply (emits_removeMappedLUN root P (surplus d)); [done..|].
    apply to_map_Some in E as [Ha <-]; [|eapply vg_acls_distinct, tpg_at_valid; done].
    eapply sur_mapped; [done..|]. by rewrite <- elem_keys_of.
  - apply (emits_removeACL root P (surplus d)); [done..|]. intros rest.
    eapply sur_acl; [done|]. by apply to_map_None in E.
Qed.
Lemma emits_prune_tpg t g :
  t ∈ c_Targets d → emits P (prune_tpg root (t_IQN t) (to_map g_Tag (t_TPGs t)) g).
Proof.
  intros Ht. unfold prune_tpg. pose proof (vc_targets _ Vd) as HF. rewrite Forall_forall in HF.
  pose proof (vt_distinct _ _ (HF t Ht)) as Hd.
  destruct (to_map _ _ !! _) as [dg|] eqn:E.
  - apply to_map_Some in E as [Hdg Htag]; [|done].
    assert (tpg_at d (t_IQN t) (g_Tag g) dg) by by exists t.
    emit; auto using emits_prunePortals, emits_pruneLUNs, emits_pruneACLs.
  - apply (emits_removeTPG root P (surplus d)); [done..|]. intros rest. apply sur_tpg.
    intros g' (t' & Ht' & Hiqn & Hg' & Htag).
    assert (t' = t) as -> by (by apply (NoDup_key_inj t_IQN (c_Targets d)); [apply Vd|..]).
    apply to_map_None in E. apply E. rewrite <- Htag. by apply list_elem_of_fmap_2.
Qed.
Lemma emits_prune actual : emits P (prune root d actual).
Proof.
  unfold prune. emit.
  - unfold prune_target. destruct (to_map _ _ !! _) as [dt|] eqn:E.
    + apply to_map_Some in E as [Hdt <-]; [|apply Vd]. emit. by apply emits_prune_tpg.
    + apply (emits_removeTarget root P (surplus d)); [done..|]. intros rest. apply sur_target.
      by apply to_map_None in E.
  - apply (emits_removeBackstore root P (surplus d)); [done|apply sur_backstore|apply sur_hba];
      by rewrite <- elem_keys_of.
Qed.
End prune.

(** ** Portals the conflict pass takes down before anything is built *)

(** A live portal that is not desired, on a port where it or a desired portal
    is a wildcard. *)
Definition excludes_desired (desired : list Portal) (live : Portal) : Prop :=
  Portal_key live ∉ Portal_key <$> desired ∧
  ∃ q, q ∈ desired ∧ Portal_port q = Portal_port live ∧ (IsUnspecified (p_IP live) || IsUnspecified (p_IP q)) = true.
(** A live portal with a specific address, desired or not, on a port where a
    desired wildcard is not live yet: the wildcard cannot be bound before it
    goes, and the apply that follows binds it again. *)
Definition awaits_wildcard (desired alive : list Portal) (live : Portal) : Prop :=
  IsUnspecified (p_IP live) = false ∧
  ∃ w, w ∈ desired ∧ Portal_port w = Portal_port live ∧ IsUnspecified (p_IP w) = true ∧
    Portal_key w ∉ Portal_key <$> alive.

Lemma any_same_key p l : any (λ q, same_key p q) l = false ↔ Portal_key p ∉ Portal_key <$> l.
Proof.
  rewrite any_false. unfold same_key. split.
  - intros Hl (q & Hk & Hq)%list_elem_of_fmap. specialize (Hl q Hq). by apply bool_decide_eq_false in Hl.
  - intros Hk q Hq. apply bool_decide_eq_false. intros He. apply Hk. rewrite He. by apply list_elem_of_fmap_2.
Qed.
Lemma any_same_key_r p l : any (λ q, same_key q p) l = false ↔ Portal_key p ∉ Portal_key <$> l.
Proof.
  rewrite <- any_same_key. unfold same_key. rewrite !any_false.
  split; intros Hl q Hq; rewrite <- (Hl q Hq); apply bool_decide_ext; naive_solver.
Qed.

Lemma portalConflicts_cases live desired alive : portalConflictsWithAny live desired alive = true →
  excludes_desired desired live ∨ awaits_wildcard desired alive live.
Proof.
  unfold portalConflictsWithAny. destruct (any (λ d, same_key live d) desired) eqn:Hk.
  - unfold blockedWildcardOnPort. destruct (IsUnspecified (p_IP live)) eqn:Hw; [done|].
    intros (w & Hw' & [[Hp%Z.eqb_eq Hu]%andb_true_iff Hn%negb_true_iff%any_same_key_r]%andb_true_iff)%any_true.
    right. split; [done|]. by exists w.
  - intros (q & Hq & [Hp%Z.eqb_eq Hw]%andb_true_iff)%any_true. left. apply any_same_key in Hk. split; [done|].
    exists q. split_and!; [done..|]. unfold wildcardPrecludes in Hw.
    destruct (IsUnspecified (p_IP live)), (IsUnspecified (p_IP q)); try done.
    by rewrite !andb_false_r in Hw.
Qed.

(** The directory of a portal that was found live and stands in the way. *)
Definition conflicting (d found : Config) (parts : list string) : Prop :=
  ∃ iqn tag g ag live, tpg_at d iqn tag g ∧ tpg_at found iqn tag ag ∧ live ∈ g_Portals ag ∧
    (excludes_desired (g_Portals g) live ∨ awaits_wildcard (g_Portals g) (g_Portals ag) live) ∧
    parts = portalPath iqn tag live.

Lemma desiredTPG_at d iqn tag g : desiredTPG d iqn tag = Some g → tpg_at d iqn tag g.
Proof.
  unfold desiredTPG. intros E. apply head_Some_elem_of, list_elem_of_filter in E as [Htag Hin].
  apply list_elem_of_join in Hin as (gs & Hg & Hgs).
  apply list_elem_of_fmap in Hgs as (t & -> & Ht). apply list_elem_of_filter in Ht as [Hiqn Ht].
  by exists t.
Qed.

Lemma emits_conflict_pass {K} `{LoggedKernel K} root (P : sysop → Prop) d found :
  (∀ parts, conflicting d found parts → good_segs parts → P (SysRmdir (Path root parts))) →
  emits P (mfor (λ t, mfor (prune_conflicts_tpg (K := K) root d (t_IQN t)) (t_TPGs t)) (c_Targets found)).
Proof.
  intros HP. apply emits_mfor. intros t Ht. apply emits_mfor. intros ag Hag. unfold prune_conflicts_tpg. emit.
  apply emits_Rmdir, HP. apply negb_false_iff in E0. eexists _, _, _, ag, _.
  split_and!; [by eapply desiredTPG_at | by exists t | done | by apply portalConflicts_cases | done].
Qed.
