(* ===== verification/LioSafety.v ===== *)
(** * Where the reconciler writes, and what it never removes

    The properties of [Sync], [Apply], [Remove] and [ApplyDelta] on their
    traces of changes: every change lands strictly below the configfs root,
    every attribute is one bounded write, [Apply] removes no directory, and
    [Sync] removes none that the desired configuration has, but for the portals
    that keep a desired wildcard from being bound. *)

From S2P Require Import Prelude GoStrings Errors Netip LioModel LioValid Configfs FsPaths LioAptpl.
From S2P Require Import LioApply Trace LioSync LioStranded LioDelta LioEffects.

(** ** Specifications of a single change *)

(** A change lands strictly below the root, and an attribute is written with
    one newline-terminated write no longer than configfs accepts. *)
Definition lands_in (root : string) (o : sysop) : Prop :=
  match o with
  | SysMkdir p | SysRmdir p | SysUnlink p | SysSymlink _ p => below root p
  | SysWrite p data => below root p ∧ slen data <= maxAttrWrite ∧ ∃ v, data = v +:+ nl_str
  end.
(** And a link points strictly below the root. *)
Definition confined (root : string) (o : sysop) : Prop :=
  lands_in root o ∧ match o with SysSymlink t _ => below root t | _ => True end.

Section below.
Context (root : string) (segs : list string) (Hroot : clean_root root segs).

Lemma below_Path parts : parts ≠ [] → good_segs parts → below root (Path root parts).
Proof. intros. exists segs, parts. split_and!; try done. by apply Path_abs. Qed.

Lemma lands_mkdir : Allows_mkdir root (lands_in root).
Proof. intros parts []. by apply below_Path. Qed.
Lemma lands_unlink : Allows_unlink root (lands_in root).
Proof. intros parts []. by apply below_Path. Qed.
Lemma lands_write : Allows_write root (lands_in root).
Proof.
  intros parts v [] Hv. split_and!; [by apply below_Path | | by exists v].
  rewrite slen_app. unfold maxAttrWrite. change (slen nl_str) with 1. lia.
Qed.
Lemma confined_mkdir : Allows_mkdir root (confined root).
Proof. intros parts Hp. split; [by apply lands_mkdir | done]. Qed.
Lemma confined_unlink : Allows_unlink root (confined root).
Proof. intros parts Hp. split; [by apply lands_unlink | done]. Qed.
Lemma confined_write : Allows_write root (confined root).
Proof. intros parts v Hp Hv. split; [by apply lands_write | done]. Qed.
End below.

(** ** What a whole pass asks for *)

(** A run that returns a report: the changes it asked for are [P]. *)
Definition runs {K R} `{HasTrace K} (P : sysop → Prop) (f : K → R * K) : Prop :=
  ∀ k, ∃ l, trace (f k).2 = trace k ++ l ∧ Forall P l.

Section runs.
Context {K : Type} `{LoggedKernel K} (root : string).
Context (aptplRecords : option (Backstore → ST K (list string))).
Context (Hprovider : quiet_provider aptplRecords) (P : sysop → Prop).

Lemma run_pass_emits m c d k rep e k' :
  emits P m → run_pass m c d k = (rep, e, k') → ∃ l, trace k' = trace k ++ l ∧ Forall P l.
Proof.
  intros Hm E. unfold run_pass in E.
  destruct (m (mkCtx k c d)) as [r c'] eqn:Em. pose proof (emits_run P m _ _ _ Hm Em) as Hl.
  by destruct r; simplify_eq.
Qed.
Lemma verify_reports_trace cfg k u k' :
  verify_reports root aptplRecords cfg k = (u, k') → trace k' = trace k.
Proof.
  unfold verify_reports. destruct (verifyAPTPL root aptplRecords cfg k) as [r k1] eqn:E.
  assert (trace k1 = trace k) by (eapply quiet_run, E; by apply emits_verifyAPTPL).
  by destruct r; intros [= <- <-].
Qed.

Lemma Apply_runs cfg :
  (valid_config cfg → emits P (apply_pass root aptplRecords (bs_by_name cfg) cfg)) →
  runs P (Apply root aptplRecords cfg).
Proof.
  intros Hm k. unfold Apply. destruct (Config_Validate cfg) as [u|e] eqn:V.
  2: { exists []. by rewrite app_nil_r. }
  apply Config_Validate_spec in V. destruct (run_pass _ _ _ _) as [[rep e] k1] eqn:E.
  pose proof (run_pass_emits _ _ _ _ _ _ _ (Hm V) E) as Hl. destruct e as [e|]; [done|].
  destruct (verify_reports _ _ _ _) as [u' k2] eqn:Ev. simpl.
  by rewrite (verify_reports_trace _ _ _ _ Ev).
Qed.
Lemma Remove_runs cfg : emits P (remove_pass root cfg) → runs P (Remove root cfg).
Proof.
  intros Hm k. unfold Remove. destruct (run_pass _ _ _ _) as [[rep e] k1] eqn:E.
  by eapply run_pass_emits in E.
Qed.
Lemma ApplyDelta_runs desired d :
  emits P (apply_pass root aptplRecords (bs_by_name (d_Add d)) (d_Add d);; applyRemovals root (d_Remove d)) →
  runs P (ApplyDelta root aptplRecords desired d).
Proof.
  intros Hm k. unfold ApplyDelta. destruct (checkScope root desired k) as [r k1] eqn:Ec.
  assert (trace k1 = trace k) as Hk.
  { eapply quiet_run, Ec. unfold checkScope, check_tpg, quiet. emit. }
  destruct r as [u|e]; simpl; rewrite <- Hk; [|by exists []; rewrite app_nil_r].
  destruct (run_pass _ _ _ k1) as [[rep e] k2] eqn:E. by eapply run_pass_emits in E.
Qed.

Lemma runs_app (t0 t1 t2 : list sysop) :
  (∃ l, t1 = t0 ++ l ∧ Forall P l) → (∃ l, t2 = t1 ++ l ∧ Forall P l) → ∃ l, t2 = t0 ++ l ∧ Forall P l.
Proof.
  intros (l1 & -> & Hl1) (l2 & -> & Hl2). exists (l1 ++ l2). rewrite (assoc_L (++)).
  split; [done | by apply Forall_app].
Qed.

(** The pass of [pruneConflictingPortals] over what it found. *)
Notation conflict_pass desired found :=
  (mfor (λ t, mfor (prune_conflicts_tpg root desired (t_IQN t)) (t_TPGs t)) (c_Targets found)).
Lemma conflicts_run desired k :
  (∀ found, (Discover root k).1 = Ok found → emits P (conflict_pass desired found)) →
  ∃ l, trace (pruneConflictingPortals root desired k).2 = trace k ++ l ∧ Forall P l.
Proof.
  intros Hm. unfold pruneConflictingPortals, bind. destruct (Discover root k) as [r k1] eqn:E.
  assert (trace k1 = trace k) as Hk by (eapply quiet_run, E; apply emits_Discover).
  destruct r as [found|e]; cbn; rewrite <- Hk; [|exists []; by rewrite app_nil_r].
  specialize (Hm found eq_refl). destruct (mfor _ _ k1) as [r k2] eqn:E2. by eapply emits_run in E2.
Qed.

Lemma Sync_runs desired k :
  (valid_config desired →
     (∀ found, (Discover root k).1 = Ok found → emits P (conflict_pass desired found))
     ∧ emits P (apply_pass root aptplRecords (bs_by_name desired) desired)
     ∧ ∀ actual, emits P (prune root desired actual)) →
  ∃ l, trace (Sync root aptplRecords desired k).2 = trace k ++ l ∧ Forall P l.
Proof.
  intros Hm. unfold Sync. destruct (Config_Validate desired) as [u|e] eqn:V.
  2: { exists []. by rewrite app_nil_r. }
  apply Config_Validate_spec in V. destruct (Hm V) as (Hc & Ha & Hp).
  pose proof (conflicts_run desired k Hc) as Hl1.
  destruct (pruneConflictingPortals _ _ _) as [r k1] eqn:E1.
  destruct r as [u1|e1]; [|done].
  pose proof (Apply_runs desired (λ _, Ha) k1) as Hl2.
  destruct (Apply _ _ _ k1) as [[rep e] k2]. pose proof (runs_app _ _ _ Hl1 Hl2) as Hl12.
  destruct e as [e|]; [done|].
  destruct (Discover root k2) as [r k3] eqn:E3.
  assert (trace k3 = trace k2) as Hk3 by (eapply quiet_run, E3; apply emits_Discover).
  simpl in Hl12. rewrite <- Hk3 in Hl12. destruct r as [actual|e3]; [|done].
  destruct (run_pass _ _ _ _) as [[rep' e] k4] eqn:E4.
  pose proof (runs_app _ _ _ Hl12 (run_pass_emits _ _ _ _ _ _ _ (Hp actual) E4)) as Hl4.
  destruct e as [e|]; [done|].
  destruct (verify_reports _ _ _ _) as [u' k5] eqn:Ev. simpl.
  by rewrite (verify_reports_trace _ _ _ _ Ev).
Qed.
End runs.

(** ** Containment *)

Lemma good_iqn_validSeg s : good_iqn_seg s → validSeg s = true.
Proof.
  intros (H1 & H2 & H3 & _ & Hc). apply validSeg_spec. split_and!; [done..|].
  eapply Forall_impl; [exact Hc|]. intros c (_ & _ & ? & _). done.
Qed.
Lemma objPath_good b : valid_backstore b → good_segs (objPath b).
Proof.
  intros (Ht & Hn & Hd & Hdd & Hc & _). repeat constructor.
  - unfold dirName. rewrite <- app_assoc_str.
    destruct Ht as [-> | ->]; apply numbered_good; try (simpl; lia); repeat constructor; done.
  - apply validSeg_spec. split_and!; [done..|]. eapply Forall_impl; [exact Hc|]. intros c [? _]. done.
Qed.
Lemma tpgPath_good iqn tag : validSeg iqn = true → good_segs (tpgPath iqn tag).
Proof.
  intros. repeat constructor; [done|]. apply numbered_good; [repeat constructor; done | simpl; lia].
Qed.
Lemma lun_seg_good i : validSeg ("lun_" +:+ itoa i) = true.
Proof. apply numbered_good; [repeat constructor; done | simpl; lia]. Qed.
Lemma lunPath_good iqn tag i : validSeg iqn = true → good_segs (lunPath iqn tag i).
Proof.
  intros. apply Forall_app. split; [by apply tpgPath_good|]. repeat constructor. apply lun_seg_good.
Qed.
Lemma bs_by_name_elem c n b : bs_by_name c !! n = Some b → b ∈ c_Backstores c.
Proof.
  unfold bs_by_name. induction (c_Backstores c) as [|x l IH] using rev_ind; [done|].
  rewrite to_map_app, lookup_insert_Some, elem_of_app, list_elem_of_singleton. naive_solver.
Qed.

(** In a valid configuration every link points at a checked path. *)
Lemma valid_links root segs c :
  clean_root root segs → valid_config c →
  Forall (target_links root (below root) (bs_by_name c)) (c_Targets c).
Proof.
  intros Hr V. pose proof (vc_targets _ V) as HT. pose proof (vc_backstores _ V) as HB.
  rewrite Forall_forall in HB. eapply Forall_impl; [exact HT|]. intros t Ht.
  eapply Forall_impl; [apply (vt_tpgs _ _ Ht)|]. intros g Hg. split.
  - apply Forall_forall. intros l _ b Hb%bs_by_name_elem. apply (below_Path _ segs); [done..|].
    by apply objPath_good, HB.
  - apply Forall_forall. intros a _. apply Forall_forall. intros m _.
    apply (below_Path _ segs); [done..|]. apply lunPath_good, good_iqn_validSeg, Ht.
Qed.

Lemma confined_link root segs target parts :
  clean_root root segs → below root target → legal parts → confined root (SysSymlink target (Path root parts)).
Proof. intros Hr Ht []. split; [by apply (below_Path _ segs) | done]. Qed.
Lemma confined_rmdir root segs parts :
  clean_root root segs → parts ≠ [] → good_segs parts → confined root (SysRmdir (Path root parts)).
Proof. intros. split; [by apply (below_Path _ segs) | done]. Qed.
Lemma confined_unlink_in root segs parts name :
  clean_root root segs → good_segs (parts ++ [name]) → confined root (SysUnlink (Path root (parts ++ [name]))).
Proof. intros. split; [apply (below_Path _ segs); [done | apply app_one_nonempty | done] | done]. Qed.

Lemma surplus_nonempty d parts : surplus d parts → parts ≠ [].
Proof. by destruct 1. Qed.
Lemma conflicting_nonempty d found parts : conflicting d found parts → parts ≠ [].
Proof. by intros (? & ? & ? & ? & ? & ? & ? & ? & ? & ->). Qed.

(** C1. Sync stays inside its root. Whatever configuration it is given, valid
    or not, and whatever the kernel answers, every directory, link and file
    the pass creates, writes or removes is strictly below the configfs root,
    every link it makes points strictly below the root too, and every
    attribute is set by a single newline-terminated write of at most 4095
    bytes. *)
Theorem Sync_confined {K} `{LoggedKernel K} (root : string) (segs : list string)
    (aptplRecords : option (Backstore → ST K (list string))) (desired : Config) (k : K)
    (Hroot : clean_root root segs) (Hprovider : quiet_provider aptplRecords) :
  ∃ l, trace (Sync root aptplRecords desired k).2 = trace k ++ l ∧ Forall (confined root) l.
Proof.
  apply Sync_runs; [done|]. intros V. split_and!.
  - intros found _. apply emits_conflict_pass. intros parts Hc ?.
    apply (confined_rmdir _ segs); [done | by eapply conflicting_nonempty | done].
  - pose proof (confined_mkdir _ _ Hroot). pose proof (confined_unlink _ _ Hroot).
    pose proof (confined_write _ _ Hroot).
    apply (emits_apply_pass root (confined root)) with (good_target := below root);
      eauto using confined_link, valid_links.
  - intros actual. apply emits_prune; [done|..].
    + intros parts Hs ?. apply (confined_rmdir _ segs); [done | by eapply surplus_nonempty | done].
    + intros. by apply (confined_unlink_in _ segs).
Qed.

(** ** What Sync removes *)

(** The directories a configuration describes. A portal is left out: it is
    compared by address and port, not by the name of its directory. *)
Inductive wanted (d : Config) : list string → Prop :=
  | want_target t : t ∈ c_Targets d → wanted d (targetPath (t_IQN t))
  | want_tpg iqn tag g : tpg_at d iqn tag g → wanted d (tpgPath iqn tag)
  | want_lun iqn tag g l : tpg_at d iqn tag g → l ∈ g_LUNs g → wanted d (lunPath iqn tag (l_Index l))
  | want_acl iqn tag g a : tpg_at d iqn tag g → a ∈ g_ACLs g →
      wanted d (aclPath iqn tag (acl_InitiatorIQN a))
  | want_mapped iqn tag g a m : tpg_at d iqn tag g → a ∈ g_ACLs g → m ∈ acl_MappedLUNs a →
      wanted d (mappedLunPath iqn tag (acl_InitiatorIQN a) (ml_Index m))
  | want_backstore b : b ∈ c_Backstores d → wanted d (objPath b).

Lemma numbered_inj p a b : p +:+ itoa a = p +:+ itoa b → a = b.
Proof. intros H. apply (inj (String.append p)) in H. by apply (inj pretty) in H. Qed.

Lemma dirName_key b b' : dirName b = dirName b' → bs_Name b = bs_Name b' → backstoreKey b = backstoreKey b'.
Proof. intros Hd Hn. unfold backstoreKey. rewrite Hn. revert Hd. unfold dirName. rewrite <- !app_assoc_str. by intros ->. Qed.

Lemma tpg_at_target d iqn tag g : tpg_at d iqn tag g → iqn ∈ t_IQN <$> c_Targets d.
Proof. intros (t & Ht & <- & _). by apply list_elem_of_fmap_2. Qed.

Ltac same_paths :=
  repeat match goal with
  | H : "tpgt_" +:+ itoa _ = "tpgt_" +:+ itoa _ |- _ => apply numbered_inj in H; subst
  | H : "lun_" +:+ itoa _ = "lun_" +:+ itoa _ |- _ => apply numbered_inj in H; subst
  | V : valid_config ?d, H1 : tpg_at ?d ?i ?t ?g, H2 : tpg_at ?d ?i ?t ?g' |- _ =>
      is_var g'; assert (g' = g) by (by eapply tpg_at_unique); clear H2; subst
  end.

(** Nothing that is asked to go is wanted. *)
Lemma surplus_not_wanted d parts : valid_config d → surplus d parts → ¬ wanted d parts.
Proof.
  intros V Hs Hw.
  destruct Hs as [i rest Hi|i tag rest Hn|i tag g p Hg Hp|i tag g x Hg Hx|i tag g ini rest Hg Hini
                 |i tag g a x Hg Ha Hx|b Hb|b Hb]; inversion Hw as
    [t Ht Heq|i' tag' g' Hg' Heq|i' tag' g' l Hg' Hl Heq|i' tag' g' a' Hg' Ha' Heq
    |i' tag' g' a' m Hg' Ha' Hm Heq|b' Hb' Heq]; simplify_list_eq; same_paths;
    try (by eapply Hn); try (by apply Hi, list_elem_of_fmap_2); try (by eapply Hi, tpg_at_target);
    try (by apply Hx, list_elem_of_fmap_2); try (by apply Hini, list_elem_of_fmap_2).
  - assert (a' = a) as ->; [|by apply Hx, list_elem_of_fmap_2].
    apply (NoDup_key_inj acl_InitiatorIQN (g_ACLs g)); [by eapply vg_acls_distinct, tpg_at_valid | done..].
  - apply Hb. rewrite (dirName_key b b') by congruence. by apply list_elem_of_fmap_2.
Qed.

Lemma conflicting_not_wanted d found parts : conflicting d found parts → ¬ wanted d parts.
Proof. intros (i & t & g & ag & p & _ & _ & _ & _ & ->) Hw. inversion Hw; simplify_list_eq. Qed.

Lemma tpg_at_good d iqn tag g : valid_config d → tpg_at d iqn tag g → validSeg iqn = true.
Proof.
  intros V (t & Ht & <- & _). pose proof (vc_targets _ V) as HT. rewrite Forall_forall in HT.
  by apply good_iqn_validSeg, (HT t).
Qed.
Lemma acl_at_good d iqn tag g a :
  valid_config d → tpg_at d iqn tag g → a ∈ g_ACLs g → good_segs (aclPath iqn tag (acl_InitiatorIQN a)).
Proof.
  intros V Hg Ha. apply Forall_app. split; [by eapply tpgPath_good, tpg_at_good|].
  pose proof (vg_acls _ _ (tpg_at_valid _ _ _ _ V Hg)) as HA. rewrite Forall_forall in HA.
  repeat constructor. by apply good_iqn_validSeg, (HA a).
Qed.
Lemma wanted_good d parts : valid_config d → wanted d parts → good_segs parts.
Proof.
  intros V [t Ht|iqn tag g Hg|iqn tag g l Hg Hl|iqn tag g a Hg Ha|iqn tag g a m Hg Ha Hm|b Hb].
  - pose proof (vc_targets _ V) as HT. rewrite Forall_forall in HT.
    repeat constructor. by apply good_iqn_validSeg, (HT t).
  - by eapply tpgPath_good, tpg_at_good.
  - by eapply lunPath_good, tpg_at_good.
  - by eapply acl_at_good.
  - apply Forall_app. split; [by eapply acl_at_good|]. repeat constructor. apply lun_seg_good.
  - pose proof (vc_backstores _ V) as HB. rewrite Forall_forall in HB. by apply objPath_good, HB.
Qed.

(** A removal Sync may ask for, when it first found [found] in the kernel: of a
    directory the configuration does not describe (for a portal: of an address
    and port it does not have), or of a portal found live that is in the way of
    a desired one; and of no directory the configuration describes. *)
Definition prunes_only (root : string) (d : Config) (found : result goerr Config) (o : sysop) : Prop :=
  match o with
  | SysRmdir p =>
      (∃ parts, (surplus d parts ∨ ∃ f, found = Ok f ∧ conflicting d f parts) ∧ p = Path root parts)
      ∧ ∀ parts, wanted d parts → p ≠ Path root parts
  | _ => True
  end.

Lemma prunes_only_rmdir root segs d found parts :
  clean_root root segs → valid_config d → surplus d parts ∨ (∃ f, found = Ok f ∧ conflicting d f parts) →
  good_segs parts → prunes_only root d found (SysRmdir (Path root parts)).
Proof.
  intros Hr V Hp Hg. split; [by exists parts|]. intros parts' Hw Heq.
  apply (Path_inj _ segs) in Heq as ->; [|done..|by eapply wanted_good].
  destruct Hp as [Hs|(f & _ & Hc)]; [by eapply surplus_not_wanted | by eapply conflicting_not_wanted].
Qed.

(** An apply pass asks for anything but the removal of a directory. *)
Lemma emits_apply_any {K} `{LoggedKernel K} root (P : sysop → Prop)
    (aptplRecords : option (Backstore → ST K (list string))) bs cfg :
  quiet_provider aptplRecords → (∀ o, match o with SysRmdir _ => True | _ => P o end) →
  emits P (apply_pass root aptplRecords bs cfg).
Proof.
  intros Hq HP. assert (Allows_mkdir root P) by (intros ??; apply (HP (SysMkdir _))).
  assert (Allows_unlink root P) by (intros ??; apply (HP (SysUnlink _))).
  assert (Allows_write root P) by (intros ????; apply (HP (SysWrite _ _))).
  apply (emits_apply_pass root P) with (good_target := λ _, True); try done.
  - intros ?? _ _. apply (HP (SysSymlink _ _)).
  - apply Forall_true. intros t. apply Forall_true. intros g.
    split; apply Forall_true; [done|]. intros a. by apply Forall_true.
Qed.

Lemma Sync_prunes_only {K} `{LoggedKernel K} (root : string) (segs : list string)
    (aptplRecords : option (Backstore → ST K (list string))) (desired : Config) (k : K)
    (Hroot : clean_root root segs) (Hprovider : quiet_provider aptplRecords) :
  ∃ l, trace (Sync root aptplRecords desired k).2 = trace k ++ l
       ∧ Forall (prunes_only root desired (Discover root k).1) l.
Proof.
  apply Sync_runs; [done|]. intros V. split_and!.
  - intros found Hf. apply emits_conflict_pass. intros. eapply prunes_only_rmdir; eauto.
  - apply (emits_apply_any root); [done|]. by intros [].
  - intros actual. apply emits_prune; [done| |done]. intros. eapply prunes_only_rmdir; eauto.
Qed.

(** C5. Sync removes only what the desired configuration does not have, or what
    keeps a desired portal from being bound. A directory it asks the kernel to
    remove is that of a target, TPG, LUN, ACL, mapped LUN or backstore the
    configuration does not describe, of a portal whose address and port the
    configuration does not have, or of a portal that the first discovery found
    live and that is in the way: an undesired one on the port of a desired one
    where either is a wildcard, or, even if desired, a specific address on the
    port of a desired wildcard that is not live yet ([awaits_wildcard]; the
    apply that follows binds it again). The directory of a desired target, TPG,
    LUN, ACL, mapped LUN or backstore is never removed, however the tree was
    found. *)
Theorem Sync_keeps_desired {K} `{LoggedKernel K} (root : string) (segs : list string)
    (aptplRecords : option (Backstore → ST K (list string))) (desired : Config) (k : K)
    (Hroot : clean_root root segs) (Hprovider : quiet_provider aptplRecords) :
  ∃ l, trace (Sync root aptplRecords desired k).2 = trace k ++ l
       ∧ Forall (prunes_only root desired (Discover root k).1) l.
Proof. by apply (Sync_prunes_only root segs). Qed.

Definition not_rmdir (o : sysop) : Prop := match o with SysRmdir _ => False | _ => True end.

(** Apply is additive: it never asks for the removal of a directory, and
    when the configuration does not validate it asks for nothing at all. *)
Theorem Apply_additive {K} `{LoggedKernel K} (root : string)
    (aptplRecords : option (Backstore → ST K (list string))) (cfg : Config) (k : K)
    (Hprovider : quiet_provider aptplRecords) :
  ∃ l, trace (Apply root aptplRecords cfg k).2 = trace k ++ l
       ∧ Forall (λ o, not_rmdir o ∧ valid_config cfg) l.
Proof.
  apply Apply_runs; [done|]. intros V.
  apply (emits_apply_any root); [done|]. by intros [].
Qed.

(** ** Removals and deltas *)

Section landed_removals.
Context {K : Type} `{LoggedKernel K} (root : string) (segs : list string) (Hroot : clean_root root segs).
Let nonempty (parts : list string) : Prop := parts ≠ [].

Lemma lands_rmdir parts : nonempty parts → good_segs parts → lands_in root (SysRmdir (Path root parts)).
Proof. by apply (below_Path _ segs). Qed.
Lemma lands_unlink_in parts name :
  nonempty parts → good_segs (parts ++ [name]) → lands_in root (SysUnlink (Path root (parts ++ [name]))).
Proof. intros _. apply (below_Path _ segs); [done | apply app_one_nonempty]. Qed.

Lemma remove_pass_lands cfg : emits (lands_in root) (remove_pass root cfg).
Proof.
  unfold remove_pass. emit.
  - apply (emits_removeTarget root _ nonempty); [apply lands_rmdir | apply lands_unlink_in | done].
  - by apply (emits_removeBackstore root _ nonempty); [apply lands_rmdir | ..].
Qed.
Lemma applyRemovals_lands rm : emits (lands_in root) (applyRemovals root rm).
Proof.
  unfold applyRemovals. emit.
  - apply (emits_removeMappedLUN root _ nonempty); [apply lands_rmdir | apply lands_unlink_in | done].
  - apply (emits_removeACL root _ nonempty); [apply lands_rmdir | apply lands_unlink_in | done].
  - apply (emits_removeLUN root _ nonempty); [apply lands_rmdir | apply lands_unlink_in | done].
  - by apply (emits_removeBackstore root _ nonempty); [apply lands_rmdir | ..].
Qed.
End landed_removals.

(** The passes that do not validate their input still cannot leave the
    root: every change Remove and ApplyDelta ask for lands strictly below it,
    whatever names the configuration and the delta carry. *)
Theorem Remove_ApplyDelta_confined {K} `{LoggedKernel K} (root : string) (segs : list string)
    (aptplRecords : option (Backstore → ST K (list string))) (cfg : Config) (d : Delta) (k : K)
    (Hroot : clean_root root segs) (Hprovider : quiet_provider aptplRecords) :
  (∃ l, trace (Remove root cfg k).2 = trace k ++ l ∧ Forall (lands_in root) l)
  ∧ (∃ l, trace (ApplyDelta root aptplRecords cfg d k).2 = trace k ++ l ∧ Forall (lands_in root) l).
Proof.
  split.
  - apply Remove_runs. by eapply remove_pass_lands.
  - apply ApplyDelta_runs. pose proof (lands_mkdir _ _ Hroot). pose proof (lands_unlink _ _ Hroot).
    pose proof (lands_write _ _ Hroot). apply emits_bind; [|intros _; by eapply applyRemovals_lands].
    apply (emits_apply_pass root _) with (good_target := λ _, True); try done.
    + intros t parts _ []. by apply (below_Path _ segs).
    + apply Forall_true. intros t. apply Forall_true. intros g.
      split; apply Forall_true; [done|]. intros a. by apply Forall_true.
Qed.

(** A loop fails when one of its bodies does, from every state the loop can
    reach it in. *)
Lemma mfor_fails {S A} (I : S → Prop) (f : A → ST S unit) l x :
  x ∈ l → (∀ y s, I s → I (f y s).2) → (∀ s, I s → is_ok (f x s).1 = false) →
  ∀ s, I s → is_ok (mfor f l s).1 = false.
Proof.
  intros Hx HI Hf. induction Hx as [x l|x y l Hx IH]; intros s Hs; cbn [mfor]; unfold bind.
  - specialize (Hf s Hs). by destruct (f x s) as [[] ?].
  - specialize (HI y s Hs). destruct (f y s) as [[] s']; [by apply IH | done].
Qed.
Lemma mfor_inv {S A} (I : S → Prop) (f : A → ST S unit) l :
  (∀ y s, I s → I (f y s).2) → ∀ s, I s → I (mfor f l s).2.
Proof.
  intros HI. induction l as [|x l IH]; intros s Hs; cbn [mfor]; [done|]. unfold bind.
  specialize (HI x s Hs). destruct (f x s) as [[] s']; [by apply IH | done].
Qed.

Section stale.
Context {K : Type} `{LoggedKernel K} (root : string).
(** States that looking at a path does not leave. *)
Context (I : K → Prop) (Hstay : ∀ p k, I k → I (sys_lstat p k).2).

Lemma check_tpg_stays iqn g k : I k → I (check_tpg root iqn g k).2.
Proof.
  intros Hk. unfold check_tpg, onerr, Exists, safe, of_result, bind.
  destruct (safePath root _) as [p|e]; [|done]. unfold try, os_Lstat, sys.
  specialize (Hstay p k Hk). destruct (sys_lstat p k) as [[r|e] k']; cbn [snd] in *; [done|].
  by destruct (IsNotExist _).
Qed.
Lemma check_tpg_stale iqn g k :
  I k → (∀ k, I k → (sys_lstat (Path root (tpgPath iqn (g_Tag g))) k).1 = Err ENOENT) →
  is_ok (check_tpg root iqn g k).1 = false.
Proof.
  intros Hi Hk. unfold check_tpg, onerr, Exists, safe, of_result, bind.
  destruct (safePath root _) as [p|e] eqn:E; [|done].
  apply safePath_Ok in E as [_ ->]. unfold try, os_Lstat, sys.
  specialize (Hk k Hi). destruct (sys_lstat _ k) as [r k']. simpl in Hk. by subst.
Qed.

(** A delta is refused when the tree it was computed against is gone. If
    any TPG of the configuration the delta leads to is absent, ApplyDelta
    fails before it changes anything: the report is empty and the kernel has
    been asked for no change. *)
Theorem ApplyDelta_stale_scope (aptplRecords : option (Backstore → ST K (list string)))
    (desired : Config) (d : Delta) (t : Target) (g : TPG) (k : K)
    (Ht : t ∈ c_Targets desired) (Hg : g ∈ t_TPGs t) (Hk : I k)
    (Hgone : ∀ k, I k → (sys_lstat (Path root (tpgPath (t_IQN t) (g_Tag g))) k).1 = Err ENOENT) :
  ∃ e k', ApplyDelta root aptplRecords desired d k = (emptyReport, Some e, k') ∧ trace k' = trace k.
Proof.
  assert (is_ok (checkScope root desired k).1 = false) as Hf.
  { apply (mfor_fails I _ _ t); [done| | |done].
    - intros t' s Hs. apply mfor_inv; [|done]. intros. by apply check_tpg_stays.
    - intros s Hs. apply (mfor_fails I _ _ g); [done| | |done]; intros.
      + by apply check_tpg_stays.
      + by apply check_tpg_stale. }
  assert (quiet (checkScope root desired)) as Hq by (unfold checkScope, check_tpg, quiet; emit).
  unfold ApplyDelta. destruct (checkScope root desired k) as [r k'] eqn:E. destruct r as [|e]; [done|].
  exists e, k'. split; [done|]. by eapply quiet_run.
Qed.
End stale.

(** ** What only looks *)

Lemma VerifyDrift_trace {K} `{LoggedKernel K} root cfg (k : K) :
  trace (VerifyDrift root cfg k).2 = trace k.
Proof.
  unfold VerifyDrift. destruct (bind _ _ _) as [r c] eqn:E.
  change (trace c = trace (mkCtx k [] [])). eapply quiet_run; [|exact E].
  unfold quiet, verify_drift_one, verify_drift_attr. emit.
Qed.

(** Looking changes nothing. Discover, VerifyDrift, VerifyAPTPL,
    ReservationHolder, PRState and StrandedReservations never ask the kernel
    for a change, on any answer, error or not. *)
Theorem observers_change_nothing {K} `{LoggedKernel K} (root : string)
    (aptplRecords : option (Backstore → ST K (list string))) (cfg : Config) (b : Backstore)
    (pageSize : Z) (k : K) (Hprovider : quiet_provider aptplRecords) :
  trace (Discover root k).2 = trace k
  ∧ trace (VerifyDrift root cfg k).2 = trace k
  ∧ trace (VerifyAPTPL root aptplRecords cfg k).2 = trace k
  ∧ trace (ReservationHolder root b k).2 = trace k
  ∧ trace (PRState_read root pageSize b k).2 = trace k
  ∧ trace (StrandedReservations root cfg k).2 = trace k.
Proof.
  assert (∀ A (m : ST K A), quiet m → trace (m k).2 = trace k) as Hq.
  { intros A m Hm. destruct (m k) as [r k'] eqn:E. by eapply quiet_run. }
  split_and!.
  - apply Hq, emits_Discover.
  - apply VerifyDrift_trace.
  - unfold VerifyAPTPL. destruct (verify_reports _ _ _ _) as [u k'] eqn:E. by eapply verify_reports_trace.
  - apply Hq, emits_ReservationHolder.
  - apply Hq, emits_PRState_read.
  - apply Hq, emits_StrandedReservations.
Qed.
