(* ===== verification/LioCreate.v ===== *)
(** * The order in which a backstore is brought up

    The kernel accepts saved SCSI-3 PR metadata only before an object is
    enabled, so [ensureBackstore] (lio/backstore.go) must write every record
    first. The create path is shown to follow one script, from which a
    failure only cuts the tail. *)

From S2P Require Import Prelude GoStrings Errors LioModel Configfs FsPaths LioAptpl LioApply Trace.
From S2P Require Import LioEffects.

(** ** Computations that follow a script *)

Section outcome.
Context {S : Type} `{HasTrace S}.

(** What was asked for satisfies [Full] on success, [Part] on failure. *)
Definition outcome {A} (m : ST S A) (Full Part : list sysop → Prop) : Prop :=
  ∀ s, ∃ l, trace (m s).2 = trace s ++ l ∧ if is_ok (m s).1 then Full l else Part l.
Definition exactly {A} (m : ST S A) (L : list sysop) : Prop := outcome m (L =.) (λ l, l `prefix_of` L).

Lemma outcome_bind {A B} (m : ST S A) (f : A → ST S B) L (Full Part : list sysop → Prop) :
  exactly m L → (∀ l, l `prefix_of` L → Part l) →
  (∀ a, outcome (f a) (λ l, Full (L ++ l)) (λ l, Part (L ++ l))) → outcome (bind m f) Full Part.
Proof.
  intros Hm Hp Hf s. destruct (Hm s) as (l & Hl & Hr). unfold bind.
  destruct (m s) as [[a|e] s'] eqn:E; cbn [fst snd is_ok] in *; [|by exists l; auto].
  subst. destruct (Hf a s') as (l' & Hl' & Hr'). exists (l ++ l').
  by rewrite Hl', Hl, (assoc_L (++)).
Qed.
Lemma outcome_read {A B} (m : ST S A) (f : A → ST S B) (Full Part : list sysop → Prop) :
  quiet m → Part [] → (∀ s a s', m s = (Ok a, s') → outcome (f a) Full Part) →
  outcome (bind m f) Full Part.
Proof.
  intros Hm Hp Hf s. unfold bind. destruct (m s) as [[a|e] s'] eqn:E.
  - rewrite <- (quiet_run m _ _ _ Hm E). by eapply Hf.
  - exists []. cbn [fst snd is_ok]. by rewrite (quiet_run m _ _ _ Hm E), app_nil_r.
Qed.
Lemma outcome_mono {A} (m : ST S A) (F P F' P' : list sysop → Prop) :
  outcome m F P → (∀ l, F l → F' l) → (∀ l, P l → P' l) → outcome m F' P'.
Proof.
  intros Hm HF HP s. destruct (Hm s) as (l & ? & Hr). exists l. split; [done|].
  destruct (is_ok _); auto.
Qed.

Lemma exactly_bind {A B} (m : ST S A) (f : A → ST S B) L1 L2 :
  exactly m L1 → (∀ a, exactly (f a) L2) → exactly (bind m f) (L1 ++ L2).
Proof.
  intros Hm Hf. eapply outcome_bind; [exact Hm | intros l ?; by apply prefix_app_r|]. intros a.
  eapply outcome_mono; [apply Hf | intros l <-; done | intros l; apply prefix_app].
Qed.
Lemma exactly_quiet {A} (m : ST S A) : quiet m → exactly m [].
Proof.
  intros Hm s. exists []. destruct (m s) as [r s'] eqn:E.
  cbn [fst snd]. rewrite (quiet_run m _ _ _ Hm E), app_nil_r. split; [done|]. destruct r; [done | apply prefix_nil].
Qed.
Lemma exactly_onerr {A} (m : ST S A) g L : exactly m L → exactly (onerr m g) L.
Proof. intros Hm s. destruct (Hm s) as (l & ?). exists l. unfold onerr. by destruct (m s) as [[] ?]. Qed.
Lemma exactly_mfor {A} (f : A → ST S unit) (L : A → list sysop) l :
  (∀ x, exactly (f x) (L x)) → exactly (mfor f l) (mjoin (L <$> l)).
Proof.
  intros Hf. induction l as [|x l IH]; cbn [mfor]; [apply exactly_quiet, emits_ret|].
  apply exactly_bind; [done|]. intros _. apply IH.
Qed.
End outcome.

Lemma exactly_fs {K A} `{HasTrace K} (m : ST K A) L : exactly m L → exactly (fs m) L.
Proof.
  intros Hm c. destruct (Hm (cx_k c)) as (l & ?). exists l. unfold fs, trace, ctx_trace.
  by destruct (m (cx_k c)).
Qed.

Section ops.
Context {K : Type} `{LoggedKernel K} (root : string).

Lemma exactly_op op p o : exactly (sys op p (sys_op o)) [o].
Proof.
  intros s. exists [o]. unfold sys. rewrite <- (log_op o s). destruct (sys_op o s) as [[] ?]; (split; [done | first [done | by exists []]]).
Qed.
Lemma exactly_safe {A} parts (f : string → ST K A) o :
  exactly (f (Path root parts)) [o] → exactly (safe root parts f) [o].
Proof.
  intros Hf. unfold safe, of_result. destruct (safePath root parts) as [p|e] eqn:E.
  - apply safePath_Ok in E as [_ ->]. done.
  - intros s. exists []. unfold bind. simpl. rewrite app_nil_r. split; [done | apply prefix_nil].
Qed.
Lemma exactly_Mkdir parts : exactly (Mkdir root parts) [SysMkdir (Path root parts)].
Proof.
  apply exactly_safe. set (m := sys _ _ _). assert (exactly m [SysMkdir (Path root parts)]) as Hm by apply exactly_op.
  change [SysMkdir (Path root parts)] with ([SysMkdir (Path root parts)] ++ []).
  apply exactly_bind; [|intros r; apply exactly_quiet; unfold quiet; emit].
  intros s. exists [SysMkdir (Path root parts)]. unfold try, m, sys. rewrite <- (log_op _ s).
  destruct (sys_op _ s) as [[] ?]; (split; [done | first [done | by exists []]]).
Qed.
Lemma exactly_WriteAttr v parts :
  exactly (WriteAttr root v parts) [SysWrite (Path root parts) (v +:+ nl_str)].
Proof.
  apply exactly_safe. destruct (maxAttrWrite <? _); [|apply exactly_op].
  intros s. exists []. rewrite app_nil_r. split; [done | apply prefix_nil].
Qed.
End ops.

(** ** The script of the create path *)

Section script.
Context (root : string) (b : Backstore).
Let at_ (parts : list string) : string := Path root (objPath b ++ parts).
Let wr (parts : list string) (v : string) : sysop := SysWrite (at_ parts) (v +:+ nl_str).

(** Before the records: the object is made and given its backing. *)
Definition script_head (control : string) : list sysop :=
  [SysMkdir (Path root (hbaPath b)); SysMkdir (Path root (objPath b));
   wr ["control"] control; wr ["udev_path"] (bs_Dev b)].
(** Every saved record that is not blank, in the provider's order. *)
Definition script_records (recs : list string) : list sysop :=
  mjoin ((λ rec, if String.eqb (TrimSpace rec) "" then [] else [wr ["pr"; "res_aptpl_metadata"] rec]) <$> recs).
(** From the enable on. *)
Definition script_tail : list sysop :=
  [wr ["enable"] "1"]
  ++ mjoin ((λ k, [wr ["attrib"; k] (attr_of (bs_Attributes b) k)]) <$> sortedKeys (bs_Attributes b))
  ++ mjoin ((λ f : string * string, if String.eqb f.2 "" then [] else [wr ["wwn"; f.1] f.2]) <$> wwnDirFields b)
  ++ (if String.eqb (bs_WWN b) "" then [] else [wr ["wwn"; "vpd_unit_serial"] (bs_WWN b)]).
Definition create_script (control : string) (recs : list string) : list sysop :=
  script_head control ++ script_records recs ++ script_tail.
End script.

Section create.
Context {K : Type} `{LoggedKernel K} (root : string).

Local Hint Resolve exactly_op exactly_Mkdir exactly_WriteAttr : emits.
Ltac exact_write := apply exactly_onerr, exactly_fs, exactly_WriteAttr.

Lemma exactly_load_record b id rec :
  exactly (load_record (K := K) root b id rec)
    (if String.eqb (TrimSpace rec) "" then []
     else [SysWrite (Path root (objPath b ++ ["pr"; "res_aptpl_metadata"])) (rec +:+ nl_str)]).
Proof.
  unfold load_record. destruct (String.eqb _ _); [apply exactly_quiet, emits_ret|].
  rewrite <- (app_nil_r [SysWrite _ _]).
  apply exactly_bind; [exact_write | intros _; apply exactly_quiet, emits_note].
Qed.

(** The part of [createBackstore] after the records. *)
Lemma exactly_create_tail b id :
  exactly (S := ctx K)
    (onerr (fs (WriteAttr root "1" (objPath b ++ ["enable"]))) (krej "apply" id);;
     mfor (λ k, onerr (fs (WriteAttr root (attr_of (bs_Attributes b) k) (objPath b ++ ["attrib"; k])))
                  (krej "apply" (id +:+ " attrib/" +:+ k)))
       (sortedKeys (bs_Attributes b));;
     mfor (λ f : string * string,
             if String.eqb f.2 "" then ret tt
             else onerr (fs (WriteAttr root f.2 (objPath b ++ ["wwn"; f.1])))
                    (krej "apply" (id +:+ " wwn/" +:+ f.1)))
       (wwnDirFields b);;
     (if String.eqb (bs_WWN b) "" then ret tt
      else onerr (fs (WriteAttr root (bs_WWN b) (objPath b ++ ["wwn"; "vpd_unit_serial"])))
             (krej "apply" id));;
     note ("created " +:+ id))
    (script_tail root b).
Proof.
  unfold script_tail. apply exactly_bind; [exact_write|intros _].
  apply exactly_bind; [apply exactly_mfor; intros; exact_write | intros _].
  apply exactly_bind.
  { apply exactly_mfor. intros f. destruct (String.eqb _ _); [apply exactly_quiet, emits_ret | exact_write]. }
  intros _. rewrite <- (app_nil_r (if String.eqb _ _ then _ else _)).
  apply exactly_bind; [|intros _; apply exactly_quiet, emits_note].
  destruct (String.eqb _ _); [apply exactly_quiet, emits_ret | exact_write].
Qed.

Lemma fs_onerr_answered {A} (m : ST K A) g c (a : A) c' :
  onerr (fs m) g c = (Ok a, c') → answered m a.
Proof.
  unfold onerr, fs. destruct (m (cx_k c)) as [[x|e] k'] eqn:E; [|done].
  intros [= <- <-]. by exists (cx_k c), k'.
Qed.

(** The changes of a creation that succeeded, and of one that failed. *)
Definition create_done (provider : Backstore → ST K (list string)) (b : Backstore) (l : list sysop) : Prop :=
  ∃ control recs, answered (controlString b) control ∧ answered (provider b) recs
    ∧ l = create_script root b control recs.
Definition create_failed (provider : Backstore → ST K (list string)) (b : Backstore) (l : list sysop) : Prop :=
  (∃ control, l `prefix_of` script_head root b control)
  ∨ (∃ control recs, answered (controlString b) control ∧ answered (provider b) recs
       ∧ l `prefix_of` create_script root b control recs).

Lemma create_after_head provider b id control :
  quiet (provider b) → answered (controlString b) control →
  outcome (S := ctx K)
    (loadAPTPL root (Some provider) b id;;
     onerr (fs (WriteAttr root "1" (objPath b ++ ["enable"]))) (krej "apply" id);;
     mfor (λ k, onerr (fs (WriteAttr root (attr_of (bs_Attributes b) k) (objPath b ++ ["attrib"; k])))
                  (krej "apply" (id +:+ " attrib/" +:+ k)))
       (sortedKeys (bs_Attributes b));;
     mfor (λ f : string * string,
             if String.eqb f.2 "" then ret tt
             else onerr (fs (WriteAttr root f.2 (objPath b ++ ["wwn"; f.1])))
                    (krej "apply" (id +:+ " wwn/" +:+ f.1)))
       (wwnDirFields b);;
     (if String.eqb (bs_WWN b) "" then ret tt
      else onerr (fs (WriteAttr root (bs_WWN b) (objPath b ++ ["wwn"; "vpd_unit_serial"])))
             (krej "apply" id));;
     note ("created " +:+ id))
    (λ l, create_done provider b (script_head root b control ++ l))
    (λ l, create_failed provider b (script_head root b control ++ l)).
Proof.
  intros Hq Hc s.
  destruct (provider b (cx_k s)) as [[recs|e] k1] eqn:Ep; pose proof (quiet_run _ _ _ _ Hq Ep) as Hk1.
  - assert (answered (provider b) recs) as Hr by by eexists _, _.
    pose proof (exactly_bind _ _ _ _
      (exactly_mfor (load_record (K := K) root b id) _ recs (exactly_load_record b id))
      (λ _, exactly_create_tail b id)) as Hx.
    destruct (Hx (mkCtx k1 (cx_changes s) (cx_drift s))) as (l & Hl & Hres).
    exists l. revert Hl Hres. unfold loadAPTPL, bind, onerr, fs. rewrite Ep.
    unfold trace at 2 4, ctx_trace. cbn [cx_k]. rewrite Hk1.
    intros Hl Hres. split; [exact Hl|]. destruct (is_ok _).
    + exists control, recs. subst. done.
    + right. exists control, recs. split_and!; [done..|]. unfold create_script. by apply prefix_app.
  - exists []. unfold loadAPTPL, bind, onerr, fs. rewrite Ep. cbn [fst snd is_ok].
    unfold trace, ctx_trace. cbn [cx_k]. rewrite !app_nil_r. split; [exact Hk1|].
    left. by exists control.
Qed.

(** C33. Saved reservations are restored before a backstore is enabled, or it
    is not enabled. The changes a backstore's creation asks for are, in order,
    a prefix of one script: the HBA and object directories, the control
    string, the backing path, one write per saved record that is not blank,
    then the enable, the attributes and the identity. A creation that succeeds
    runs the whole script; one that cannot read the saved records stops before
    the first of them, and so never reaches the enable. *)
Theorem createBackstore_script (provider : Backstore → ST K (list string)) (b : Backstore)
    (id : string) (c : ctx K) (Hprovider : quiet (provider b)) :
  ∃ l, trace (createBackstore root (Some provider) b id c).2 = trace c ++ l
    ∧ if is_ok (createBackstore root (Some provider) b id c).1
      then create_done provider b l else create_failed provider b l.
Proof.
  revert c. change (outcome (createBackstore root (Some provider) b id)
                     (create_done provider b) (create_failed provider b)).
  assert (∀ control n l, l `prefix_of` take n (script_head root b control) →
          create_failed provider b l) as Hhead.
  { intros control n l Hl. left. exists control. etrans; [exact Hl | apply prefix_take]. }
  unfold createBackstore.
  apply (outcome_bind _ _ [SysMkdir (Path root (hbaPath b))]).
  { apply exactly_onerr, exactly_fs, exactly_Mkdir. }
  { intros l Hl. apply (Hhead "" 1%nat), Hl. }
  intros _. apply (outcome_bind _ _ [SysMkdir (Path root (objPath b))]).
  { apply exactly_onerr, exactly_fs, exactly_Mkdir. }
  { intros l Hl. apply (Hhead "" 2%nat), (prefix_app [_] _ _ Hl). }
  intros _. apply outcome_read.
  { unfold quiet. emit. }
  { by apply (Hhead "" 2%nat). }
  intros s control s' E%fs_onerr_answered.
  eapply (outcome_bind _ _ [_]); [apply exactly_onerr, exactly_fs, exactly_WriteAttr | |].
  { intros l Hl. apply (Hhead control 3%nat), (prefix_app [_; _] _ _ Hl). }
  intros _. eapply (outcome_bind _ _ [_]); [apply exactly_onerr, exactly_fs, exactly_WriteAttr | |].
  { intros l Hl. apply (Hhead control 4%nat), (prefix_app [_; _; _] _ _ Hl). }
  intros _. by apply create_after_head.
Qed.
End create.
