(* ===== verification/LioAptplProofs.v ===== *)
(** * What a silent reservation check means

    [verifyBackstoreAPTPL] (lio/backstore.go) reports on saved SCSI-3 PR state
    that did not take effect. The properties here say that its silence is
    earned: every record was understood, every registration whose export still
    exists was seen live, and the reservation holder is the saved one; and
    that its alarm is not raised for a registration that lapsed with its
    export. Beside them, what the two parsers of the kernel's renderings
    conclude from text they do not know. *)

From S2P Require Import Prelude GoStrings Errors LioModel Configfs LioAptpl LioApply LioSync.
From S2P Require Import LioStranded.

(** ** The saved side *)

Definition blank (rec : string) : Prop := TrimSpace rec = "".
(** The saved records that parse, in order. *)
Definition saved (recs : list string) : list aptplRecord :=
  omap (λ rec, if String.eqb (TrimSpace rec) "" then None
               else match parseAPTPLRecord rec with Ok r => Some r | Err _ => None end) recs.
Definition still_exported (cfg : Config) (b : Backstore) (recs : list string) : list aptplRecord :=
  filter (λ r, exported r cfg b = true) (saved recs).
(** Saved holders whose own export is gone; the last one is the one reported. *)
Definition lapsed_holders (cfg : Config) (b : Backstore) (recs : list string) : list aptplRecord :=
  filter (λ r, exported r cfg b = false ∧ a_Holder r = true) (saved recs).

Lemma saved_side_spec cfg b id recs : ∀ i out want lapsed,
  saved_side cfg b id i recs = (out, want, lapsed) →
  want = still_exported cfg b recs ∧ lapsed = last (lapsed_holders cfg b recs)
  ∧ (out = [] ↔ ∀ rec, rec ∈ recs → blank rec ∨ ∃ r, parseAPTPLRecord rec = Ok r)
  ∧ ∀ rep, rep ∈ out → ∃ n e, rep = RepUnparsable id n e.
Proof.
  unfold still_exported, lapsed_holders.
  induction recs as [|rec recs IH]; intros i out want lapsed; cbn [saved_side].
  { intros [= <- <- <-]. split_and!; [done|done|set_solver|set_solver]. }
  destruct (saved_side cfg b id (S i) recs) as [[out' want'] lapsed'] eqn:E.
  destruct (IH _ _ _ _ E) as (-> & -> & Hout & Hrep). clear IH E.
  unfold saved. cbn [omap list_omap]. fold (saved recs). unfold blank in *.
  setoid_rewrite elem_of_cons.
  destruct (String.eqb_spec (TrimSpace rec) "") as [Hb|Hb].
  { intros [= <- <- <-]. split_and!; [done..| |done]. rewrite Hout. naive_solver. }
  destruct (parseAPTPLRecord rec) as [r|e] eqn:Er.
  2: { intros [= <- <- <-]. split_and!; [done..| |set_solver].
       split; [done|]. intros Hall. destruct (Hall rec ltac:(by left)) as [?|[r ?]]; congruence. }
  rewrite !filter_cons. destruct (exported r cfg b) eqn:Ex.
  - intros [= <- <- <-]. split_and!; [by rewrite decide_True| |rewrite Hout; naive_solver|done].
    by rewrite decide_False by naive_solver.
  - rewrite (decide_False (P := false = true)) by done.
    destruct (a_Holder r) eqn:Eh; intros [= <- <- <-]; (split_and!; [done| |rewrite Hout; naive_solver|done]).
    + rewrite decide_True by done. by rewrite last_cons.
    + by rewrite decide_False by naive_solver.
Qed.

Lemma run_bind_try {K A B} (m : ST K A) (f : result goerr A → ST K B) k b k' :
  bind (try m) f k = (Ok b, k') → ∃ r k1, m k = (r, k1) ∧ f r k1 = (Ok b, k').
Proof. unfold bind, try. destruct (m k) as [r k1]. eauto. Qed.

Lemma app_nil_both {A} (l1 l2 : list A) : l1 ++ l2 = [] → l1 = [] ∧ l2 = [].
Proof. by destruct l1, l2. Qed.

Section verify.
Context {K : Type} `{Kernel K} (root : string).

Definition pr_text (b : Backstore) (file text : string) : Prop :=
  answered (ReadAttr root (objPath b ++ ["pr"; file])) text.
(** The holder a rendering of [res_holder] names. *)
Definition named_holder (text : string) : string := (parseHolder text).1.1.

Lemma not_live_nil id regs want :
  not_live id regs want = [] → ∀ r, r ∈ want → mkLiveReg (a_Initiator r) (a_Key r) ∈ regs.
Proof.
  unfold not_live. intros Hn r Hr. destruct (has_reg regs r) eqn:E.
  - unfold has_reg in E. apply any_true in E as (g & Hg & ->%bool_decide_eq_true). done.
  - exfalso. apply fmap_nil_inv in Hn. assert (r ∈ filter (λ r, has_reg regs r = false) want) as Hin
      by by apply list_elem_of_filter.
    rewrite Hn in Hin. inversion Hin.
Qed.

Lemma check_holder_silent b id holder k k' :
  check_holder root b id holder k = (Ok [], k') → ∃ text, pr_text b "res_holder" text ∧ named_holder text = holder.
Proof.
  unfold check_holder. intros (r & k1 & Hr & E)%run_bind_try. destruct r as [got|e]; [|done].
  unfold named_holder. exists got. split; [by exists k, k1|]. revert E.
  destruct (parseHolder got) as [[h i] kn]. destruct (String.eqb_spec h holder); [|done]. done.
Qed.

Lemma reportLapsed_silent cfg b id lapsed rec k k' :
  reportLapsedHolder root cfg b id lapsed rec k = (Ok [], k') →
  exportedMappings cfg b lapsed = 0 ∨ ∃ text, pr_text b "res_holder" text ∧ named_holder text ≠ "".
Proof.
  unfold reportLapsedHolder. destruct (Z.eqb_spec (exportedMappings cfg b lapsed) 0); [by left|].
  intros (r & k1 & Hr & E)%run_bind_try. destruct r as [live|e]; [|done].
  right. unfold named_holder. exists live. split; [by exists k, k1|]. revert E.
  destruct (parseHolder live) as [[h i] kn]. by destruct (String.eqb_spec h "").
Qed.

(** What the saved records of a backstore require of the live kernel. *)
Record restored (cfg : Config) (b : Backstore) (recs : list string) : Prop := {
  rs_parsed : ∀ rec, rec ∈ recs → blank rec ∨ ∃ r, parseAPTPLRecord rec = Ok r;
  rs_live : still_exported cfg b recs = [] ∨
    ∃ text, pr_text b "res_pr_registered_i_pts" text ∧ (parseRegistrations text).2 <= 0
      ∧ ∀ r, r ∈ still_exported cfg b recs →
          mkLiveReg (a_Initiator r) (a_Key r) ∈ (parseRegistrations text).1;
  rs_holder : let holder := saved_holder (still_exported cfg b recs) in
    holder ≠ "" → ∃ text, pr_text b "res_holder" text ∧ named_holder text = holder;
  rs_lapsed : ∀ r, saved_holder (still_exported cfg b recs) = "" →
    last (lapsed_holders cfg b recs) = Some r → a_Initiator r ≠ "" →
    exportedMappings cfg b (a_Initiator r) = 0
    ∨ ∃ text, pr_text b "res_holder" text ∧ named_holder text ≠ ""
}.

Lemma saved_holder_nil : saved_holder [] = "".
Proof. done. Qed.

Lemma verify_live_silent cfg b id out want lapsed k k' :
  verify_live root cfg b id out want lapsed k = (Ok [], k') →
  out = [] ∧
  (∃ text, pr_text b "res_pr_registered_i_pts" text ∧ (parseRegistrations text).2 <= 0
     ∧ ∀ r, r ∈ want → mkLiveReg (a_Initiator r) (a_Key r) ∈ (parseRegistrations text).1)
  ∧ (saved_holder want ≠ "" → ∃ text, pr_text b "res_holder" text ∧ named_holder text = saved_holder want)
  ∧ (saved_holder want = "" → lapsed_name lapsed ≠ "" →
       exportedMappings cfg b (lapsed_name lapsed) = 0
       ∨ ∃ text, pr_text b "res_holder" text ∧ named_holder text ≠ "").
Proof.
  unfold verify_live. intros (r & k1 & Hr & E)%run_bind_try.
  destruct r as [live|e]; [|injection E as Hnil _; by destruct out].
  assert (pr_text b "res_pr_registered_i_pts" live) as Hlive by by exists k, k1.
  destruct (parseRegistrations live) as [regs unparsed] eqn:Ep. revert E. cbv zeta. unfold bind at 1.
  set (m1 := if _ : bool then reportLapsedHolder _ _ _ _ _ _ else _).
  destruct (m1 k1) as [[more|e] k2] eqn:E1; [|done]. unfold bind.
  set (m2 := if _ : bool then check_holder _ _ _ _ else _).
  destruct (m2 k2) as [[more2|e] k3] eqn:E2; [|done].
  intros [= Hnil <-]. apply app_nil_both in Hnil as [[[-> Hu]%app_nil_both Hn]%app_nil_both [-> ->]%app_nil_both].
  split_and!; [done| | |].
  - exists live. rewrite Ep. cbn [fst snd]. split_and!; [done| |by eapply not_live_nil].
    destruct (Z.ltb_spec 0 unparsed); [done | lia].
  - intros Hh. apply String.eqb_neq in Hh. unfold m2 in E2. rewrite Hh in E2. cbn [negb] in E2. revert E2. by apply check_holder_silent.
  - intros Hh Hl. apply String.eqb_eq in Hh. apply String.eqb_neq in Hl.
    unfold m1 in E1. rewrite Hh, Hl in E1. cbn [andb negb] in E1. revert E1. by apply reportLapsed_silent.
Qed.

(** C34. Silence about saved reservations is earned. When the check of a
    backstore reports nothing, the saved records were read and every one that
    is not blank was understood; every registration whose export still exists
    was seen among the kernel's live registrations, in a listing that was
    understood to its last line; if one of them is the reservation holder, the
    kernel names that initiator as the holder; and if only a holder that lost
    its export is saved, then no one else can reach the device or some
    reservation is held. *)
Theorem verifyBackstoreAPTPL_silent (provider : Backstore → ST K (list string)) (cfg : Config)
    (b : Backstore) (k k' : K)
    (Hsilent : verifyBackstoreAPTPL root provider cfg b k = (Ok [], k')) :
  ∃ recs, answered (provider b) recs ∧ restored cfg b recs.
Proof.
  revert Hsilent. unfold verifyBackstoreAPTPL. intros (r & k1 & Hr & E)%run_bind_try.
  destruct r as [recs|e]; [|done]. exists recs. split; [by exists k, k1|].
  destruct (saved_side cfg b (bs_id b) 0 recs) as [[out want] lapsed] eqn:Es.
  apply saved_side_spec in Es as (Hw & Hl & Hout & _).
  destruct ((length want =? 0)%nat && _ && _) eqn:Eq.
  - apply andb_true_iff in Eq as [[Ew%Nat.eqb_eq Eo%Nat.eqb_eq]%andb_true_iff El%String.eqb_eq].
    apply length_zero_iff_nil in Ew. apply length_zero_iff_nil in Eo. rewrite Hw in Ew.
    split; rewrite ?Ew; [by apply Hout | by left | done |].
    intros r _ Hlast Hne. subst lapsed. rewrite Hlast in El. done.
  - apply verify_live_silent in E as (-> & Hlive & Hh & Hlap). subst want. split.
    + by apply Hout.
    + by right.
    + done.
    + intros r Hs Hlast Hne. subst lapsed. rewrite Hlast in Hlap. by apply Hlap.
Qed.

(** What each alarm asserts, from the saved records and the kernel's text. *)
Definition earned (cfg : Config) (b : Backstore) (recs : list string) (rep : aptpl_report) : Prop :=
  match rep with
  | RepNotLive _ ini key ml =>
      ∃ r text, r ∈ still_exported cfg b recs ∧ pr_text b "res_pr_registered_i_pts" text
        ∧ a_Initiator r = ini ∧ a_Key r = key ∧ a_MappedLUN r = ml
        ∧ mkLiveReg ini key ∉ (parseRegistrations text).1
  | RepHolderWrong _ holder live =>
      ∃ text, holder = saved_holder (still_exported cfg b recs) ∧ holder ≠ ""
        ∧ pr_text b "res_holder" text ∧ named_holder text = live ∧ live ≠ holder
  | RepLapsed _ lapsed survivors _ =>
      ∃ r text, last (lapsed_holders cfg b recs) = Some r ∧ a_Initiator r = lapsed
        ∧ saved_holder (still_exported cfg b recs) = ""
        ∧ survivors = exportedMappings cfg b lapsed ∧ survivors ≠ 0
        ∧ pr_text b "res_holder" text ∧ named_holder text = ""
  | RepUnparsedLines _ n =>
      ∃ text, pr_text b "res_pr_registered_i_pts" text ∧ n = (parseRegistrations text).2 ∧ 0 < n
  | _ => True
  end.

Lemma check_holder_earned cfg b recs id k out k' rep :
  let holder := saved_holder (still_exported cfg b recs) in
  holder ≠ "" → check_holder root b id holder k = (Ok out, k') → rep ∈ out → earned cfg b recs rep.
Proof.
  intros holder Hne. unfold check_holder. intros (r & k1 & Hr & E)%run_bind_try.
  destruct r as [got|e]; [|injection E as <- _; intros ->%list_elem_of_singleton; done].
  assert (pr_text b "res_holder" got) as Ht by by exists k, k1. revert E.
  destruct (parseHolder got) as [[h i] kn] eqn:Eh.
  destruct (String.eqb_spec h holder) as [|Hh]; intros [= <- _]; [intros Hin; inversion Hin|].
  intros ->%list_elem_of_singleton. exists got. unfold named_holder. by rewrite Eh.
Qed.
Lemma reportLapsed_earned cfg b recs id r k out k' rep :
  last (lapsed_holders cfg b recs) = Some r → saved_holder (still_exported cfg b recs) = "" →
  reportLapsedHolder root cfg b id (a_Initiator r) r k = (Ok out, k') → rep ∈ out → earned cfg b recs rep.
Proof.
  intros Hl Hs. unfold reportLapsedHolder.
  destruct (Z.eqb_spec (exportedMappings cfg b (a_Initiator r)) 0); [intros [= <- _] Hin; inversion Hin|].
  intros (x & k1 & Hx & E)%run_bind_try.
  destruct x as [live|e]; [|injection E as <- _; intros ->%list_elem_of_singleton; done].
  assert (pr_text b "res_holder" live) as Ht by by exists k, k1. revert E.
  destruct (parseHolder live) as [[h i] kn] eqn:Eh.
  destruct (String.eqb_spec h "") as [->|Hh]; intros [= <- _]; [|intros Hin; inversion Hin].
  intros ->%list_elem_of_singleton. exists r, live. unfold named_holder. by rewrite Eh.
Qed.

Lemma verify_live_earned cfg b recs id out want lapsed k out' k' rep :
  want = still_exported cfg b recs → lapsed = last (lapsed_holders cfg b recs) →
  (∀ rep, rep ∈ out → earned cfg b recs rep) →
  verify_live root cfg b id out want lapsed k = (Ok out', k') → rep ∈ out' → earned cfg b recs rep.
Proof.
  intros Hw Hl Hout. unfold verify_live. intros (r & k1 & Hr & E)%run_bind_try.
  destruct r as [live|e].
  2: { injection E as <- _. rewrite elem_of_app, list_elem_of_singleton. by intros [?| ->]; [auto|]. }
  assert (pr_text b "res_pr_registered_i_pts" live) as Ht by by exists k, k1.
  destruct (parseRegistrations live) as [regs unparsed] eqn:Ep. revert E. cbv zeta. unfold bind at 1.
  set (m1 := if _ : bool then reportLapsedHolder _ _ _ _ _ _ else _).
  destruct (m1 k1) as [[more|e] k2] eqn:E1; [|done]. unfold bind.
  set (m2 := if _ : bool then check_holder _ _ _ _ else _).
  destruct (m2 k2) as [[more2|e] k3] eqn:E2; [|done]. intros [= <- <-].
  rewrite !elem_of_app. intros [[[Hin|Hin]|Hin]|[Hin|Hin]].
  - by apply Hout.
  - destruct (Z.ltb_spec 0 unparsed); [|by inversion Hin].
    apply list_elem_of_singleton in Hin as ->. exists live. by rewrite Ep.
  - unfold not_live in Hin. apply list_elem_of_fmap in Hin as (x & -> & Hx).
    apply list_elem_of_filter in Hx as [Hf Hx]. exists x, live. rewrite <- Hw, Ep. split_and!; try done.
    intros Hreg. apply not_true_iff_false in Hf. apply Hf, any_true. eexists. split; [exact Hreg|].
    by apply bool_decide_eq_true.
  - subst m1. destruct (String.eqb_spec (saved_holder want) "") as [Hs|Hs]; cbn [andb] in E1.
    2: { injection E1 as <- _. inversion Hin. }
    destruct lapsed as [r|]; cbn [lapsed_name] in E1; [|injection E1 as <- _; inversion Hin].
    destruct (negb _); [|injection E1 as <- _; inversion Hin].
    eapply reportLapsed_earned; [done | by rewrite <- Hw | exact E1 | exact Hin].
  - subst m2. destruct (String.eqb_spec (saved_holder want) "") as [Hs|Hs]; cbn [negb] in E2.
    { injection E2 as <- _. inversion Hin. }
    rewrite Hw in E2, Hs. by eapply check_holder_earned.
Qed.

(** No false alarm about a reservation. Whatever the check of a backstore
    reports, it read the saved records (or says it could not), and what it
    says is so: a registration called not live is one whose export still
    exists and which the kernel's listing lacks — never one that lapsed with
    its export; a wrong holder is named in the kernel's own text; and a lapsed
    holder is reported only when no saved holder is still exported, others can
    still reach the device, and the kernel names no holder. *)
Theorem verifyBackstoreAPTPL_alarm (provider : Backstore → ST K (list string)) (cfg : Config)
    (b : Backstore) (k k' : K) (out : list aptpl_report) (rep : aptpl_report)
    (Hrun : verifyBackstoreAPTPL root provider cfg b k = (Ok out, k')) (Hrep : rep ∈ out) :
  (∃ e, rep = RepSavedUnreadable (bs_id b) e)
  ∨ ∃ recs, answered (provider b) recs ∧ earned cfg b recs rep.
Proof.
  revert Hrun Hrep. unfold verifyBackstoreAPTPL. intros (r & k1 & Hr & E)%run_bind_try.
  destruct r as [recs|e].
  2: { injection E as <- _. intros ->%list_elem_of_singleton. left. by exists e. }
  intros Hrep. right. exists recs. split; [by exists k, k1|]. revert E.
  destruct (saved_side cfg b (bs_id b) 0 recs) as [[out0 want] lapsed] eqn:Es.
  apply saved_side_spec in Es as (Hw & Hl & _ & Hunp).
  destruct (_ && _); [intros [= <- _]; inversion Hrep|].
  intros E. eapply verify_live_earned; [done..| |exact E|exact Hrep].
  intros rep' Hin. apply Hunp in Hin as (n & e & ->). done.
Qed.
End verify.

(** ** What the holder parser and the stranded-reservation check conclude

    Text that is not understood is never taken for "nobody holds it", and a
    reservation is called stranded only on evidence. *)

Lemma parseHolder_cases (s : string) :
  let '(holder, isid, known) := parseHolder s in
  (known = true ∧ holder = "" ↔ TrimSpace (RemoveAll s nul) = noHolder)
  ∧ (known = false → holder = "" ∧ isid = "")
  ∧ (isid ≠ "" → isISID isid = true ∧ holder ≠ "" ∧ known = true).
Proof.
  unfold parseHolder. set (t := TrimSpace (RemoveAll s nul)).
  assert (Cut noHolder " Initiator: " = None) as Hno by reflexivity.
  destruct (Cut t " Initiator: ") as [[x rest]|] eqn:Ec.
  2: { destruct (String.eqb_spec t noHolder) as [Ht|Ht]; split_and!; done || naive_solver. }
  assert (t ≠ noHolder) as Hne by congruence.
  destruct (Cut (TrimSpace rest) ",") as [[name tail]|].
  2: { destruct (String.eqb_spec (TrimSpace (TrimSpace rest)) ""); split_and!; done || naive_solver. }
  destruct (String.eqb_spec (TrimSpace name) ""); [split_and!; done || naive_solver|].
  destruct (CutPrefix _ _) as [got|]; [|split_and!; done || naive_solver].
  destruct (Fields got) as [|f l]; [split_and!; done || naive_solver|].
  destruct (isISID (ToLower f)) eqn:Ei; split_and!; done || naive_solver.
Qed.

(** A reservation holder that cannot be read is not an absent one. Of any
    text, [parseHolder] says that nobody holds the device exactly when the
    text, cleaned of NULs and outer white space, is the kernel's own "No SPC-3
    Reservation holder"; text it does not understand gives no holder, no
    session id, and is flagged as unknown; and a session id it returns is
    always twelve lower-case hex digits that belong to a named holder. *)
Theorem parseHolder_fail_closed (s : string) :
  let '(holder, isid, known) := parseHolder s in
  (known = true ∧ holder = "" ↔ TrimSpace (RemoveAll s nul) = noHolder)
  ∧ (known = false → holder = "" ∧ isid = "")
  ∧ (isid ≠ "" → isISID isid = true ∧ holder ≠ "" ∧ known = true).
Proof. apply parseHolder_cases. Qed.

Lemma parseHolder_isid s : let '(_, isid, _) := parseHolder s in isid ≠ "" → isISID isid = true.
Proof. pose proof (parseHolder_cases s) as Hc. destruct (parseHolder s) as [[h i] kn]. naive_solver. Qed.

Section strand.
Context {K : Type} `{Kernel K} (root : string).

(** The invariant rule of a loop that threads a value. *)
Lemma mfold_inv {S A B} (P : B → Prop) (f : B → A → ST S B) l : ∀ b s b' s',
  P b → (∀ b x s b' s', x ∈ l → P b → f b x s = (Ok b', s') → P b') →
  mfold f b l s = (Ok b', s') → P b'.
Proof.
  induction l as [|x l IH]; intros b s b' s' Hb Hf; cbn [mfold]; [by intros [= <- _]|].
  unfold bind. destruct (f b x s) as [[b1|e] s1] eqn:E; [|done].
  intros Hl. eapply IH; [| |exact Hl]; [by eapply Hf; [left|..]|].
  intros ? y ????. apply Hf. by right.
Qed.

(** A session of the initiator, on some TPG of the configuration. *)
Definition logged_in (cfg : Config) (initiator isid : string) : Prop :=
  ∃ t g, t ∈ c_Targets cfg ∧ g ∈ t_TPGs t
    ∧ answered (acl_session root (t_IQN t) (g_Tag g) initiator) (Some isid).

Lemma liveISIDs_logged_in cfg initiator k live k' :
  liveISIDs root cfg initiator k = (Ok live, k') → ∀ x, x ∈ live → logged_in cfg initiator x.
Proof.
  unfold liveISIDs, bind. destruct (live_isids_go root initiator cfg k) as [[out|e] k1] eqn:E; [|done].
  intros [= <- _] x. unfold sort_strings. rewrite sort_by_perm. revert x.
  refine (mfold_inv (λ out, ∀ x, x ∈ out → logged_in cfg initiator x) _ _ _ _ _ _ _ _ E).
  { intros x Hin. inversion Hin. }
  clear out E. intros out t s out' s' Ht Hout E.
  refine (mfold_inv (λ out, ∀ x, x ∈ out → logged_in cfg initiator x) _ _ _ _ _ _ Hout _ E).
  clear out' E Hout. intros acc g s1 acc' s1' Hg Hacc. unfold bind.
  destruct (acl_session root (t_IQN t) (g_Tag g) initiator s1) as [[o|e] s2] eqn:Es; [|done].
  intros [= <- _] x. destruct o as [got|]; [|apply Hacc].
  unfold add_isid. case_bool_decide; [apply Hacc|]. rewrite elem_of_app, list_elem_of_singleton.
  intros [?| ->]; [by apply Hacc|]. exists t, g. split_and!; [done..|]. by exists s1, s2.
Qed.

(** C35. A reservation is called stranded only on evidence. When the check says
    that a backstore's reservation is stranded, the kernel named a holder and
    its session id in a rendering that was understood; the reservation is
    neither a SPC-2 one nor an all-registrants type, which no session change
    strands; that very initiator has a live session on the configuration's
    targets; and none of its live sessions has the id the reservation is bound
    to. The report carries that initiator, that id and the reservation's own
    type. *)
Theorem strand_check_evidence (cfg : Config) (blind : gmap string blindness) (b : Backstore)
    (k k' : K) (s : StrandedReservation)
    (Hrun : strand_check root cfg blind b k = (Ok (StrandedAt s), k')) :
  ∃ res live,
    answered (ReservationHolder root b) res
    ∧ sr_Backstore s = bs_id b ∧ sr_Initiator s = rv_Holder res ∧ sr_WantISID s = rv_ISID res
    ∧ sr_ResType s = rv_Type res ∧ sr_LiveISID s = Join live ", "
    ∧ rv_Holder res ≠ "" ∧ isISID (rv_ISID res) = true
    ∧ rv_SPC2 res = false ∧ AllRegistrants res = false
    ∧ live ≠ [] ∧ (∀ x, x ∈ live → logged_in cfg (rv_Holder res) x) ∧ rv_ISID res ∉ live.
Proof.
  revert Hrun. unfold strand_check. intros (r & k1 & Hr & E)%run_bind_try.
  destruct r as [res|e]; [|done].
  destruct (String.eqb (rv_Holder res) "" || _) eqn:E1; [done|].
  apply orb_false_iff in E1 as [Hh%String.eqb_neq Hi%String.eqb_neq].
  destruct (rv_SPC2 res) eqn:E2; [done|]. destruct (AllRegistrants res) eqn:E3; [done|].
  revert E. unfold bind at 1. destruct (liveISIDs root cfg (rv_Holder res) k1) as [[live|e] k2] eqn:El; [|done].
  destruct ((length live =? 0)%nat || _) eqn:E4; [done|].
  apply orb_false_iff in E4 as [Hl%Nat.eqb_neq Hn%bool_decide_eq_false]. cbv zeta. unfold bind.
  destruct (blindTargetFor root cfg (rv_Holder res) blind k2) as [[t|e] k3]; [|done].
  destruct (negb _); [done|]. intros [= <- _]. exists res, live. split_and!; try done.
  - by exists k, k1.
  - revert Hr. unfold ReservationHolder, bind at 1.
    destruct (ReadAttr root _ k) as [[raw|e] k4]; [|done]. cbv zeta.
    pose proof (parseHolder_isid raw) as HI. destruct (parseHolder raw) as [[h i] kn].
    destruct (negb kn); [done|]. destruct (String.eqb h "") eqn:Eh0.
    + intros [= <- _]. by apply HI.
    + unfold bind, try, ret. destruct (ReadAttr root _ k4) as [r5 k5]. intros [= <- _]. by apply HI.
  - by destruct live.
  - by eapply liveISIDs_logged_in.
Qed.
End strand.
