(* ===== verification/LioSteady.v ===== *)
(** * Applying a configuration that is already in place

    lio/sync.go promises that a second pass over an unchanged tree reports no
    change. Here: if the kernel answers every read the way the configuration
    asks, [Apply] succeeds and its report is empty. *)

From S2P Require Import Prelude GoStrings Errors Netip LioModel LioValid Configfs LioAptpl LioApply.
From S2P Require Import LioSync.

Section steady.
Context {K : Type} `{Kernel K} (root : string).
(** A set of kernel states that the reads below do not leave. *)
Context (I : K → Prop).

(** [m] answers [a] in every such state. *)
Definition reads {A} (m : ST K A) (a : A) : Prop := ∀ k, I k → ∃ k', m k = (Ok a, k') ∧ I k'.

(** ** What "in place" means, object by object *)

Record backstore_in_place (b : Backstore) : Prop := {
  bp_there : reads (Exists root (objPath b)) true;
  bp_enabled : reads (ReadAttr root (objPath b ++ ["enable"])) "1";
  bp_dev : reads (ReadAttr root (objPath b ++ ["udev_path"])) (bs_Dev b);
  bp_wwn : bs_WWN b ≠ "" → ∃ raw,
    reads (ReadAttr root (objPath b ++ ["wwn"; "vpd_unit_serial"])) raw ∧ lastField raw (chr 58) = bs_WWN b;
  bp_ident : ∀ f v, (f, v) ∈ wwnDirFields b → v ≠ "" → reads (ReadAttr root (objPath b ++ ["wwn"; f])) v;
  bp_attrs : ∀ k v, bs_Attributes b !! k = Some v → reads (ReadAttr root (objPath b ++ ["attrib"; k])) v;
  (* the info text of a fileio object: a mode that agrees with the write
     cache asked for, and the size asked for up to a partial block *)
  bp_info : bs_Type b = FileIO → ∃ info,
    reads (ReadAttr root (objPath b ++ ["info"])) info
    ∧ (∀ v, bs_Attributes b !! "emulate_write_cache" = Some v → info ≠ "" → parseInfoMode info ≠ "" →
         v = if String.eqb (parseInfoMode info) "Buffered-WCE" then "1" else "0")
    ∧ (0 < bs_Size b → 0 <= parseInfoSize info
         ∧ bs_Size b - Z.rem (bs_Size b) (blockSize b)
           = parseInfoSize info - Z.rem (parseInfoSize info) (blockSize b))
}.
Definition link_in_place (dir : list string) (target : string) : Prop :=
  reads (Exists root dir) true ∧ ∃ name, reads (FindSymlink root dir) (name, target).
Definition mapped_in_place (iqn : string) (tag : Z) (ini : string) (m : MappedLUN) : Prop :=
  link_in_place (mappedLunPath iqn tag ini (ml_Index m)) (Path root (lunPath iqn tag (ml_TPGLUN m)))
  ∧ reads (ReadAttr root (mappedLunPath iqn tag ini (ml_Index m) ++ ["write_protect"]))
      (if ml_WriteProtect m then "1" else "0").
Definition acl_in_place (iqn : string) (tag : Z) (a : ACL) : Prop :=
  reads (Exists root (aclPath iqn tag (acl_InitiatorIQN a))) true
  ∧ Forall (mapped_in_place iqn tag (acl_InitiatorIQN a)) (acl_MappedLUNs a).
Record tpg_in_place (cfg : Config) (iqn : string) (g : TPG) : Prop := {
  gp_there : reads (Exists root (tpgPath iqn (g_Tag g))) true;
  gp_attrs : ∀ k v, g_Attributes g !! k = Some v →
    reads (ReadAttr root (tpgPath iqn (g_Tag g) ++ ["attrib"; k])) v;
  gp_portals : Forall (λ p, reads (Exists root (portalPath iqn (g_Tag g) p)) true) (g_Portals g);
  gp_luns : Forall (λ l, ∀ b, b ∈ c_Backstores cfg → bs_Name b = l_Backstore l →
    link_in_place (lunPath iqn (g_Tag g) (l_Index l)) (Path root (objPath b))) (g_LUNs g);
  gp_acls : Forall (acl_in_place iqn (g_Tag g)) (g_ACLs g);
  gp_enable : reads (ReadAttr root (tpgPath iqn (g_Tag g) ++ ["enable"])) (if g_Enable g then "1" else "0")
}.
Definition target_in_place (cfg : Config) (t : Target) : Prop :=
  reads (Exists root (targetPath (t_IQN t))) true ∧ Forall (tpg_in_place cfg (t_IQN t)) (t_TPGs t).
(** The fabric directory is asked for once per target; it is there. *)
Record in_place (cfg : Config) : Prop := {
  ip_fabric : c_Targets cfg ≠ [] → reads (Mkdir root ["iscsi"]) tt;
  ip_backstores : Forall backstore_in_place (c_Backstores cfg);
  ip_targets : Forall (target_in_place cfg) (c_Targets cfg)
}.

(** ** Computations that leave the report alone *)

Definition steady {A} (m : ST (ctx K) A) (a : A) : Prop :=
  ∀ c, I (cx_k c) → ∃ k', m c = (Ok a, mkCtx k' (cx_changes c) (cx_drift c)) ∧ I k'.

Lemma steady_ret {A} (a : A) : steady (ret a) a.
Proof. intros [k ch dr] Hk. by exists k. Qed.
Lemma steady_of_result {A} (a : A) : steady (of_result (Ok a)) a.
Proof. apply steady_ret. Qed.
Lemma steady_bind {A B} (m : ST (ctx K) A) (f : A → ST (ctx K) B) a b :
  steady m a → steady (f a) b → steady (bind m f) b.
Proof.
  intros Hm Hf c Hc. destruct (Hm c Hc) as (k1 & E1 & H1).
  destruct (Hf (mkCtx k1 (cx_changes c) (cx_drift c)) H1) as (k2 & E2 & H2).
  exists k2. unfold bind. by rewrite E1, E2.
Qed.
Lemma steady_onerr {A} (m : ST (ctx K) A) f a : steady m a → steady (onerr m f) a.
Proof. intros Hm c Hc. destruct (Hm c Hc) as (k & E & ?). exists k. unfold onerr. by rewrite E. Qed.
Lemma steady_try {A} (m : ST (ctx K) A) a : steady m a → steady (try m) (Ok a).
Proof. intros Hm c Hc. destruct (Hm c Hc) as (k & E & ?). exists k. unfold try. by rewrite E. Qed.
Lemma steady_fs {A} (m : ST K A) a : reads m a → steady (fs m) a.
Proof. intros Hm c Hc. destruct (Hm _ Hc) as (k & E & ?). exists k. unfold fs. by rewrite E. Qed.
Lemma steady_mfor {A} (f : A → ST (ctx K) unit) l :
  (∀ x, x ∈ l → steady (f x) tt) → steady (mfor f l) tt.
Proof.
  induction l as [|x l IH]; intros Hf; cbn [mfor]; [apply steady_ret|].
  eapply steady_bind; [apply Hf; left|]. apply IH. intros y ?. apply Hf. by right.
Qed.
Hint Resolve steady_ret steady_of_result steady_onerr steady_try steady_fs : steady.
Ltac step := eapply steady_bind; [solve [eauto with steady] | cbv beta iota zeta].

Lemma sortedKeys_elem (m : gmap string string) k : k ∈ sortedKeys m → ∃ v, m !! k = Some v.
Proof.
  unfold sortedKeys, sort_strings. rewrite sort_by_perm.
  intros ([k' v] & -> & Hin%elem_of_map_to_list)%list_elem_of_fmap. by exists v.
Qed.

Lemma portalApplyOrder_perm l : portalApplyOrder l ≡ₚ l.
Proof. unfold portalApplyOrder. destruct (_ <? _)%nat; [done | apply sort_by_perm]. Qed.

Lemma steady_reconcile b id :
  backstore_in_place b → steady (reconcileBackstoreMutable root b id) tt.
Proof.
  intros [Ht He Hd Hw Hi Ha Hinfo]. unfold reconcileBackstoreMutable.
  eapply steady_bind.
  { unfold reconcile_wwn. destruct (String.eqb_spec (bs_WWN b) ""); [apply steady_ret|].
    destruct Hw as (raw & Hr & Hl); [done|]. step. rewrite Hl, String.eqb_refl. apply steady_ret. }
  eapply steady_bind.
  { apply steady_mfor. intros [f v] Hin. unfold reconcile_ident. cbn [fst snd].
    destruct (String.eqb_spec v ""); [apply steady_ret|]. specialize (Hi f v Hin n). step.
    rewrite String.eqb_refl. apply steady_ret. }
  assert (∃ info, steady (if String.eqb (bs_Type b) FileIO
              then onerr (fs (ReadAttr root (objPath b ++ ["info"]))) (kcfg "apply" (id +:+ " info"))
              else ret "") info
     ∧ steady (constrainWriteCache b info) (bs_Attributes b) ∧ steady (reconcile_size root b id info) tt)
    as (info & H1 & H2 & H3).
  { unfold constrainWriteCache, reconcile_size.
    destruct (String.eqb_spec (bs_Type b) FileIO) as [Hf|Hf].
    - destruct (Hinfo Hf) as (info & Hr & Hc & Hs). exists info. split_and!; [eauto with steady| |].
      + cbn [negb orb]. cbv zeta. destruct (bs_Attributes b !! "emulate_write_cache") as [v|]; [|apply steady_ret].
        specialize (Hc v eq_refl).
        destruct (String.eqb_spec info ""); [apply steady_ret|].
        destruct (String.eqb_spec (parseInfoMode info) ""); [apply steady_ret|].
        rewrite <- Hc by done. rewrite String.eqb_refl. apply steady_ret.
      + destruct (Z.ltb_spec 0 (bs_Size b)) as [Hp|]; [|apply steady_ret]. cbn [andb].
        destruct (Hs Hp) as [Hge Heq]. cbv zeta. destruct (Z.ltb_spec (parseInfoSize info) 0); [lia|].
        rewrite Heq, Z.eqb_refl. apply steady_ret.
    - exists "". split_and!; [apply steady_ret| |].
      + cbn [negb orb]. destruct (_ !! _); apply steady_ret.
      + rewrite andb_false_r. apply steady_ret. }
  eapply steady_bind; [exact H1|]. eapply steady_bind; [exact H2|]. eapply steady_bind; [|exact H3].
  apply steady_mfor. intros k (v & Hv)%sortedKeys_elem. unfold reconcile_attr, attr_of. rewrite Hv.
  specialize (Ha k v Hv). step. cbn [default]. rewrite String.eqb_refl. apply steady_ret.
Qed.

Lemma steady_ensureBackstore aptplRecords b :
  valid_backstore b → backstore_in_place b → steady (ensureBackstore root aptplRecords b) tt.
Proof.
  intros Hv%Backstore_validate_spec Hb. pose proof Hb as [Ht He Hd _ _ _ _]. unfold ensureBackstore.
  rewrite Hv. step. step. cbn [negb]. step. rewrite String.eqb_refl. step. rewrite String.eqb_refl.
  cbn [negb]. by apply steady_reconcile.
Qed.

Lemma steady_ensureLUN cfg iqn tag l b :
  valid_config cfg → b ∈ c_Backstores cfg → bs_Name b = l_Backstore l →
  link_in_place (lunPath iqn tag (l_Index l)) (Path root (objPath b)) →
  steady (ensureLUN root (bs_by_name cfg) iqn tag l) tt.
Proof.
  intros V Hb Hn [He [name Hl]]. unfold ensureLUN.
  assert (bs_by_name cfg !! l_Backstore l = Some b) as -> by (by apply to_map_Some; [apply V|]).
  cbv zeta. step. step. rewrite String.eqb_refl. apply steady_ret.
Qed.
Lemma steady_ensureMappedLUN iqn tag ini m :
  mapped_in_place iqn tag ini m → steady (ensureMappedLUN root iqn tag ini m) tt.
Proof.
  intros [[He [name Hl]] Hw]. unfold ensureMappedLUN, ensureWriteProtect. cbv zeta. step. step.
  rewrite String.eqb_refl. step. rewrite String.eqb_refl. apply steady_ret.
Qed.
Lemma steady_ensureACL iqn tag a : acl_in_place iqn tag a → steady (ensureACL root iqn tag a) tt.
Proof.
  intros [He Hm]. unfold ensureACL. cbv zeta. step. step. apply steady_mfor. intros m Hin.
  apply steady_ensureMappedLUN. by eapply Forall_forall in Hm.
Qed.
Lemma steady_ensureTPG cfg iqn g :
  valid_config cfg → valid_tpg (bs_Name <$> c_Backstores cfg) g → tpg_in_place cfg iqn g →
  steady (ensureTPG root (bs_by_name cfg) iqn g) tt.
Proof.
  intros V Vg [He Ha Hp Hl Hacl Hen]. unfold ensureTPG. cbv zeta. step. step.
  eapply steady_bind; [|eapply steady_bind; [|eapply steady_bind; [|eapply steady_bind]]].
  - apply steady_mfor. intros k (v & Hv)%sortedKeys_elem. unfold ensure_tpg_attr, attr_of. rewrite Hv.
    specialize (Ha k v Hv). step. cbn [default]. rewrite String.eqb_refl. apply steady_ret.
  - apply steady_mfor. intros p Hin. unfold ensurePortal. rewrite Forall_forall in Hp.
    assert (p ∈ g_Portals g) as Hin' by (by rewrite <- (portalApplyOrder_perm (g_Portals g))).
    specialize (Hp p Hin'). step. apply steady_ret.
  - apply steady_mfor. intros l Hin. rewrite Forall_forall in Hl.
    pose proof (vg_luns _ _ Vg) as HL. rewrite Forall_forall in HL.
    destruct (HL l Hin) as [_ (b & Hn & Hb)%list_elem_of_fmap]. by eapply steady_ensureLUN; eauto.
  - apply steady_mfor. intros a Hin. apply steady_ensureACL. by eapply Forall_forall in Hacl.
  - unfold ensure_enable. cbv zeta. step. rewrite String.eqb_refl. apply steady_ret.
Qed.
Lemma steady_ensureTarget cfg t :
  valid_config cfg → reads (Mkdir root ["iscsi"]) tt → valid_target (bs_Name <$> c_Backstores cfg) t →
  target_in_place cfg t → steady (ensureTarget root (bs_by_name cfg) t) tt.
Proof.
  intros V Hm Vt [He Hg]. unfold ensureTarget. cbv zeta. step. step. step. apply steady_mfor.
  intros g Hin. pose proof (vt_tpgs _ _ Vt) as HT. rewrite Forall_forall in HT. rewrite Forall_forall in Hg.
  apply steady_ensureTPG; auto.
Qed.

(** C20. A configuration already in place is left alone. If in every state the
    reads do not leave, the kernel answers that each object of a valid
    configuration exists, is linked to what it should be and carries every
    attribute the configuration sets, then [Apply] succeeds, reports no change
    and no drift, and ends in such a state again. *)
Theorem Apply_in_place (aptplRecords : option (Backstore → ST K (list string))) (cfg : Config) (k : K)
    (Hvalid : valid_config cfg) (Hplace : in_place cfg) (Hk : I k) :
  ∃ k1, I k1 ∧ let '(unbound, k2) := verify_reports root aptplRecords cfg k1 in
        Apply root aptplRecords cfg k = (mkReport [] [] unbound, None, k2).
Proof.
  destruct Hplace as [Hf Hb Ht]. rewrite Forall_forall in Hb. rewrite Forall_forall in Ht.
  assert (steady (apply_pass root aptplRecords (bs_by_name cfg) cfg) tt) as Hs.
  { pose proof (vc_backstores _ Hvalid) as VB. pose proof (vc_targets _ Hvalid) as VT.
    rewrite Forall_forall in VB. rewrite Forall_forall in VT. unfold apply_pass. eapply steady_bind.
    - apply steady_mfor. intros b Hin. apply steady_ensureBackstore; auto.
    - apply steady_mfor. intros t Hin. apply steady_ensureTarget; auto.
      apply Hf. intros Hnil. rewrite Hnil in Hin. inversion Hin. }
  destruct (Hs (mkCtx k [] []) Hk) as (k1 & E & Hk1). exists k1. split; [done|].
  unfold Apply. rewrite (proj2 (Config_Validate_spec cfg tt) Hvalid). unfold run_pass. rewrite E.
  cbn [cx_k cx_changes cx_drift]. by destruct (verify_reports _ _ _ k1).
Qed.
End steady.
