(* ===== verification/MemKernel.v ===== *)
(** * A small configfs in memory

    An instance of [Kernel] to run the definitions on: a tree of directories,
    files and links with the answers the system calls give, and, as configfs
    does, the attribute files and default groups that appear with a new
    object. It stands for no particular kernel: the properties hold of every
    instance, and this one shows that their hypotheses can. *)

From S2P Require Import Prelude GoStrings Errors Netip LioModel LioValid Configfs FsPaths LioAptpl.
From S2P Require Import LioApply Trace LioSync LioDelta LioStranded LioSteady.

(** [NDir true] was made by a caller, [NDir false] is a default group. *)
Inductive node := NDir (made : bool) | NFile (data : string) | NLink (target : string).
Definition tree : Type := gmap string node.

Definition kind_of (n : node) : ftype :=
  match n with NDir _ => FDir | NFile _ => FFile | NLink _ => FLink end.
Definition under (p q : string) : bool := HasPrefix q (p +:+ "/").

Definition mem_lstat (p : string) (t : tree) : result errno ftype :=
  match t !! p with Some n => Ok (kind_of n) | None => Err ENOENT end.
Definition mem_stat (p : string) (t : tree) : result errno (ftype * Z) :=
  match t !! p with
  | Some (NLink q) => match t !! q with Some n => Ok (kind_of n, 0) | None => Err ENOENT end
  | Some (NFile d) => Ok (FFile, slen d)
  | Some n => Ok (kind_of n, 0)
  | None => Err ENOENT
  end.
Definition child (p : string) (e : string * node) : list (string * ftype) :=
  match CutPrefix e.1 (p +:+ "/") with
  | Some name => if ContainsChar name slash then [] else [(name, kind_of e.2)]
  | None => []
  end.
Definition mem_readdir (p : string) (t : tree) : result errno (list (string * ftype)) :=
  match t !! p with
  | Some (NDir _) => Ok (mjoin (child p <$> map_to_list t))
  | Some _ => Err ENOTDIR
  | None => Err ENOENT
  end.
Definition mem_readlink (p : string) (t : tree) : result errno string :=
  match t !! p with Some (NLink q) => Ok q | Some _ => Err EINVAL | None => Err ENOENT end.
Definition mem_readfile (p : string) (t : tree) : result errno string :=
  match t !! p with Some (NFile d) => Ok d | Some _ => Err EISDIR | None => Err ENOENT end.

(** What appears below a new object. *)
Definition template (p : string) : list (string * node) :=
  let f (n d : string) := (p +:+ "/" +:+ n, NFile (d +:+ nl_str)) in
  let d (n : string) := (p +:+ "/" +:+ n, NDir false) in
  match drop 5 (Split p slash) with
  | ["core"; _; _] =>
      [f "control" ""; f "udev_path" ""; f "enable" "0"; f "info" "Size: 1048576 Mode: O_DSYNC";
       d "attrib"; f "attrib/block_size" "512"; f "attrib/emulate_write_cache" "0";
       f "attrib/optimal_sectors" "8192"; f "attrib/emulate_tpu" "0"; f "attrib/emulate_tpws" "0";
       d "wwn"; f "wwn/vpd_unit_serial" ""; f "wwn/vendor_id" "LIO-ORG"; f "wwn/product_id" "disk";
       f "wwn/revision" "4.0"; d "pr"; f "pr/res_aptpl_metadata" "";
       f "pr/res_holder" "No SPC-3 Reservation holder";
       f "pr/res_pr_registered_i_pts" "SPC-3 PR Registrations:"]
  | ["iscsi"; _; tpgt] => [f "enable" "0"; d "attrib"; f "attrib/authentication" "1"; f "attrib/generate_node_acls" "0";
       f "attrib/demo_mode_write_protect" "1"; d "np"; d "lun"; d "acls"]
  | ["iscsi"; _; _; "acls"; _] => [f "info" "No active iSCSI Session for Initiator"]
  | ["iscsi"; _; _; "acls"; _; _] => [f "write_protect" "0"]
  | _ => []
  end.

Definition is_dir (p : string) (t : tree) : bool :=
  match t !! p with Some (NDir _) => true | _ => false end.
Definition holds (p : string) (e : string * node) : bool :=
  under p e.1 && match e.2 with NDir made => made | NLink _ => true | NFile _ => false end.
Definition mem_op (o : sysop) (t : tree) : result errno unit * tree :=
  match o with
  | SysMkdir p =>
      if bool_decide (is_Some (t !! p)) then (Err EEXIST, t)
      else if is_dir (Dir p) t
      then (Ok tt, foldr (λ e t, <[e.1 := e.2]> t) (<[p := NDir true]> t) (template p))
      else (Err ENOENT, t)
  | SysRmdir p =>
      match t !! p with
      | Some (NDir _) =>
          if existsb (holds p) (map_to_list t) then (Err ENOTEMPTY, t)
          else (Ok tt, filter (λ e, under p e.1 = false) (delete p t))
      | Some _ => (Err ENOTDIR, t)
      | None => (Err ENOENT, t)
      end
  | SysUnlink p =>
      match t !! p with
      | Some (NLink _) => (Ok tt, delete p t)
      | Some _ => (Err EPERM, t)
      | None => (Err ENOENT, t)
      end
  | SysSymlink q p =>
      if bool_decide (is_Some (t !! p)) then (Err EEXIST, t)
      else if is_dir (Dir p) t then (Ok tt, <[p := NLink q]> t) else (Err ENOENT, t)
  | SysWrite p d =>
      match t !! p with
      | Some (NFile _) => (Ok tt, <[p := NFile d]> t)
      | Some _ => (Err EISDIR, t)
      | None => (Err ENOENT, t)
      end
  end.

#[global] Instance mem_kernel : Kernel tree := {
  sys_lstat p t := (mem_lstat p t, t);
  sys_stat p t := (mem_stat p t, t);
  sys_readdir p t := (mem_readdir p t, t);
  sys_readlink p t := (mem_readlink p t, t);
  sys_readfile p t := (mem_readfile p t, t);
  sys_random t := ([1; 2; 3; 4; 5], t);
  sys_op := mem_op
}.

(** A tree with the LIO root and its two top directories. *)
Definition bare : tree :=
  {[ DefaultRoot := NDir false; DefaultRoot +:+ "/core" := NDir false;
     DefaultRoot +:+ "/iscsi" := NDir false ]}.

(** ** A configuration to run *)

Definition disk0 : Backstore :=
  mkBackstore FileIO 0 "disk0" "/srv/disk0" false 1048576 "0123456789abcdef" "" "" ""
    {[ "block_size" := "512" ]}.
Definition host_a : string := "iqn.2004-01.com.example:host-a".
Definition tpg1 : TPG :=
  mkTPG 1 true [mkPortal (Addr4 0) 3260] [mkLUN 0 "disk0"]
    [mkACL host_a [mkMappedLUN 0 0 true]] {[ "authentication" := "0" ]}.
Definition target_a : string := "iqn.2004-01.com.example:target-a".
Definition one_disk : Config := mkConfig [disk0] [mkTarget target_a [tpg1]].

Definition sync_tree (c : Config) (t : tree) : Report * option goerr * tree :=
  Sync DefaultRoot None c t.
Definition synced : tree := (sync_tree one_disk bare).2.

(** A host logged in with one session id, and a reservation it took with
    another: the state a rotated session leaves behind. *)
Definition pr_file (name : string) : string := DefaultRoot +:+ "/core/fileio_0/disk0/pr/" +:+ name.
Definition fenced : tree :=
  <[pr_file "res_pr_registered_i_pts" :=
      NFile ("SPC-3 PR Registrations:" +:+ nl_str
             +:+ "iSCSI Node: " +:+ host_a +:+ ",i,0x00023d000004 Key: 0x00000000000000aa PRgen: 0x1" +:+ nl_str)]>
  (<[pr_file "res_holder" :=
      NFile ("SPC-3 Reservation: iSCSI Initiator: " +:+ host_a +:+ ",i,0x00023d000004" +:+ nl_str)]>
  (<[pr_file "res_pr_type" := NFile ("SPC-3 Reservation Type: Write Exclusive" +:+ nl_str)]>
  (<[DefaultRoot +:+ "/iscsi/" +:+ target_a +:+ "/tpgt_1/acls/" +:+ host_a +:+ "/info" :=
      NFile ("LIO Session ID: 1   ISID: 0x00 02 3d 00 00 01  TSIH: 1" +:+ nl_str)]>
  (<[DefaultRoot +:+ "/iscsi/" +:+ target_a +:+ "/fabric_statistics/iscsi_instance/sessions" :=
      NFile ("1" +:+ nl_str)]> synced)))).
Definition saved_record : string :=
  "initiator_node=" +:+ host_a +:+ ",target_node=" +:+ target_a
  +:+ ",tpgt=1,mapped_lun=0,target_lun=0,sa_res_key=170,res_holder=1,res_type=01".
(** A provider of saved records that reads nothing of the kernel. *)
Definition one_record {K} (b : Backstore) : ST K (list string) := ret [saved_record].

(** ** The definitions, run end to end *)

(** Sync builds the configuration, Discover reads it back, a second Sync
    changes nothing, and Clear leaves an empty tree. *)
Example sync_creates : (sync_tree one_disk bare).1.2 = None ∧ Changed (sync_tree one_disk bare).1.1 = true.
Proof. split; vm_compute; reflexivity. Qed.
Example sync_twice : (sync_tree one_disk synced).1 = (emptyReport, None).
Proof. vm_compute. reflexivity. Qed.
Definition but_attributes (t : Target) : string * list (Z * bool * list Portal * list LUN * list ACL) :=
  (t_IQN t, (λ g, (g_Tag g, g_Enable g, g_Portals g, g_LUNs g, g_ACLs g)) <$> t_TPGs t).
Example discover_synced :
  match (Discover DefaultRoot synced).1 with
  | Ok c => (but_attributes <$> c_Targets c = but_attributes <$> c_Targets one_disk)
            ∧ (bs_Name <$> c_Backstores c) = ["disk0"] ∧ (bs_WWN <$> c_Backstores c) = [bs_WWN disk0]
  | Err _ => False
  end.
Proof. vm_compute. split_and!; reflexivity. Qed.
Example clear_empties :
  (Discover DefaultRoot (Clear DefaultRoot None synced).2).1 = Ok emptyConfig.
Proof. vm_compute. reflexivity. Qed.
(** A size below the live one is refused as incompatible, not truncated. *)
Example shrink_refused :
  match (sync_tree (mkConfig [mkBackstore FileIO 0 "disk0" "/srv/disk0" false 524288 "" "" "" "" ∅] []) synced).1.2 with
  | Some e => KindOf e
  | None => KindUnknown
  end = KindIncompatible.
Proof. vm_compute. reflexivity. Qed.
Example stranded_reported :
  match (StrandedReservations DefaultRoot one_disk fenced).1 with
  | Ok r => (λ s, (sr_Initiator s, sr_WantISID s, sr_LiveISID s)) <$> Stranded r
  | Err _ => []
  end = [(host_a, "00023d000004", "00023d000001")].
Proof. vm_compute. reflexivity. Qed.
