(* ===== verification/LioWitnesses.v ===== *)
(** * Concrete runs of the properties of the reconciler

    Each lemma applies one property to the in-memory configfs of [MemKernel],
    where its hypotheses hold. *)

From S2P Require Import Prelude GoStrings Errors Netip LioModel LioValid Configfs FsPaths LioAptpl.
From S2P Require Import LioApply Trace LioSync LioDelta LioStranded LioEffects LioSafety.
From S2P Require Import LioCreate LioAptplProofs LioSteady MemKernel.

(** The in-memory tree with a log of the changes asked for. *)
Definition logged : Type := tree * list sysop.
Definition records : option (Backstore → ST logged (list string)) := Some one_record.
Lemma quiet_one_record b : quiet (one_record (K := logged) b).
Proof. apply emits_ret. Qed.
Lemma quiet_records : quiet_provider records.
Proof. intros p b [= <-]. apply quiet_one_record. Qed.

(** Evaluation by the virtual machine, without reading the tree back. *)
Ltac by_vm := match goal with |- _ = ?rhs => vm_cast_no_check (@eq_refl _ rhs) end.

(** An empty tree and a synced one, with nothing asked for yet. *)
Definition fresh : logged := (bare, []).
Definition built : logged := (synced, []).

Lemma Sync_confined_witness :
  ∃ l, trace (Sync (K := logged) DefaultRoot records one_disk fresh).2 = trace fresh ++ l
       ∧ Forall (confined DefaultRoot) l.
Proof.
  apply (Sync_confined DefaultRoot ["sys"; "kernel"; "config"; "target"]).
  - apply DefaultRoot_clean.
  - apply quiet_records.
Defined.

(** A target that is to answer on the IPv4 wildcard besides the IPv6 address it
    has, and no longer shows its LUN to anyone: the live portal, though desired,
    has to go first; then the mapped LUN and the ACL go. *)
Definition portal_v6 : Portal := mkPortal (Addr6 [0xfd00; 0; 0; 0; 0; 0; 0; 1] "") 3260.
Definition with_portals (ps : list Portal) (acls : list ACL) : Config :=
  mkConfig [disk0] [mkTarget target_a [mkTPG 1 true ps (g_LUNs tpg1) acls (g_Attributes tpg1)]].
Definition on_v6 : logged := ((sync_tree (with_portals [portal_v6] (g_ACLs tpg1)) bare).2, []).
Definition widened : Config := with_portals [portal_v6; mkPortal (Addr4 0) 3260] [].
Lemma Sync_keeps_desired_witness :
  ∃ l, trace (Sync (K := logged) DefaultRoot records widened on_v6).2 = trace on_v6 ++ l
       ∧ Forall (prunes_only DefaultRoot widened (Discover (K := logged) DefaultRoot on_v6).1) l.
Proof.
  apply (Sync_keeps_desired DefaultRoot ["sys"; "kernel"; "config"; "target"]).
  - apply DefaultRoot_clean.
  - apply quiet_records.
Defined.
Definition removed (l : list sysop) : list string :=
  omap (λ o, match o with SysRmdir p => Some (TrimPrefix p (DefaultRoot +:+ "/iscsi/" +:+ target_a)) | _ => None end) l.
Example Sync_removes :
  let r := Sync (K := logged) DefaultRoot records widened on_v6 in
  r.1.2 = None
  ∧ removed (trace r.2)
    = ["/tpgt_1/np/[fd00::1]:3260"; "/tpgt_1/acls/" +:+ host_a +:+ "/lun_0"; "/tpgt_1/acls/" +:+ host_a].
Proof. split_and!; by_vm. Qed.

Lemma Apply_additive_witness :
  ∃ l, trace (Apply (K := logged) DefaultRoot records one_disk fresh).2 = trace fresh ++ l
       ∧ Forall (λ o, not_rmdir o ∧ valid_config one_disk) l.
Proof. apply (Apply_additive DefaultRoot). apply quiet_records. Defined.

Definition drop_lun : Delta :=
  mkDelta emptyConfig (mkRemoveSet [] [] [mkLUNRef target_a 1 0] []).
Lemma Remove_ApplyDelta_confined_witness :
  (∃ l, trace (Remove (K := logged) DefaultRoot one_disk built).2 = trace built ++ l
        ∧ Forall (lands_in DefaultRoot) l)
  ∧ (∃ l, trace (ApplyDelta (K := logged) DefaultRoot records one_disk drop_lun built).2 = trace built ++ l
          ∧ Forall (lands_in DefaultRoot) l).
Proof.
  apply (Remove_ApplyDelta_confined DefaultRoot ["sys"; "kernel"; "config"; "target"]).
  - apply DefaultRoot_clean.
  - apply quiet_records.
Defined.

Lemma ApplyDelta_stale_scope_witness :
  ∃ e k', ApplyDelta (K := logged) DefaultRoot records one_disk drop_lun fresh = (emptyReport, Some e, k')
          ∧ trace k' = trace fresh.
Proof.
  apply (ApplyDelta_stale_scope DefaultRoot (λ k, k = fresh)) with
    (t := mkTarget target_a [tpg1]) (g := tpg1).
  - intros p k ->. reflexivity.
  - left.
  - left.
  - reflexivity.
  - intros k ->. by_vm.
Defined.

Lemma observers_change_nothing_witness :
  trace (Discover (K := logged) DefaultRoot built).2 = trace built
  ∧ trace (VerifyDrift (K := logged) DefaultRoot one_disk built).2 = trace built
  ∧ trace (VerifyAPTPL (K := logged) DefaultRoot records one_disk built).2 = trace built
  ∧ trace (ReservationHolder (K := logged) DefaultRoot disk0 built).2 = trace built
  ∧ trace (PRState_read (K := logged) DefaultRoot 4096 disk0 built).2 = trace built
  ∧ trace (StrandedReservations (K := logged) DefaultRoot one_disk built).2 = trace built.
Proof. apply observers_change_nothing. apply quiet_records. Defined.

Definition fresh_ctx : ctx logged := mkCtx fresh [] [].
Lemma createBackstore_script_witness :
  ∃ l, trace (createBackstore (K := logged) DefaultRoot (Some one_record) disk0 (bs_id disk0) fresh_ctx).2
       = trace fresh_ctx ++ l
    ∧ if is_ok (createBackstore (K := logged) DefaultRoot (Some one_record) disk0 (bs_id disk0) fresh_ctx).1
      then create_done (K := logged) DefaultRoot one_record disk0 l
      else create_failed (K := logged) DefaultRoot one_record disk0 l.
Proof. apply (createBackstore_script DefaultRoot). apply quiet_one_record. Defined.

Lemma verifyBackstoreAPTPL_silent_witness :
  ∃ recs, answered (one_record (K := tree) disk0) recs ∧ restored DefaultRoot one_disk disk0 recs.
Proof.
  apply (verifyBackstoreAPTPL_silent DefaultRoot one_record one_disk disk0 fenced fenced).
  by_vm.
Defined.

Lemma verifyBackstoreAPTPL_alarm_witness :
  (∃ e, RepNotLive (bs_id disk0) host_a 170 0 = RepSavedUnreadable (bs_id disk0) e)
  ∨ ∃ recs, answered (one_record (K := tree) disk0) recs
      ∧ earned DefaultRoot one_disk disk0 recs (RepNotLive (bs_id disk0) host_a 170 0).
Proof.
  apply (verifyBackstoreAPTPL_alarm DefaultRoot one_record one_disk disk0 synced synced
    [RepNotLive (bs_id disk0) host_a 170 0; RepHolderWrong (bs_id disk0) host_a ""]).
  - by_vm.
  - left.
Defined.

Lemma strand_check_evidence_witness :
  ∃ res live,
    answered (ReservationHolder DefaultRoot disk0) res
    ∧ bs_id disk0 = bs_id disk0 ∧ host_a = rv_Holder res ∧ "00023d000004" = rv_ISID res
    ∧ "Write Exclusive" = rv_Type res ∧ "00023d000001" = Join live ", "
    ∧ rv_Holder res ≠ "" ∧ isISID (rv_ISID res) = true
    ∧ rv_SPC2 res = false ∧ AllRegistrants res = false
    ∧ live ≠ [] ∧ (∀ x, x ∈ live → logged_in DefaultRoot one_disk (rv_Holder res) x)
    ∧ rv_ISID res ∉ live.
Proof.
  apply (strand_check_evidence DefaultRoot one_disk ∅ disk0 fenced fenced
    (mkStranded (bs_id disk0) host_a "00023d000004" "00023d000001" "Write Exclusive")).
  by_vm.
Defined.

(** The tree one Sync built is one the configuration is in place in. *)
Definition at_rest (t : tree) : Prop := t = synced.
Lemma reads_at_rest {A} (m : ST tree A) (a : A) : m synced = (Ok a, synced) → reads at_rest m a.
Proof. intros Hm k ->. by exists synced. Defined.
Ltac at_rest :=
  lazymatch goal with
  | |- reads _ ?m ?a => apply (reads_at_rest m a); by_vm
  end.

Lemma one_disk_valid : valid_config one_disk.
Proof. apply (Config_Validate_spec one_disk tt). by_vm. Defined.
Lemma disk0_in_place : backstore_in_place DefaultRoot at_rest disk0.
Proof.
  split.
  - at_rest.
  - at_rest.
  - at_rest.
  - intros _. exists "0123456789abcdef". split; [at_rest | by_vm].
  - intros f v Hin Hv. exfalso. apply Hv. repeat (apply elem_of_cons in Hin as [[= -> ->]|Hin]; [reflexivity|]).
    inversion Hin.
  - intros k v Hv. apply (lookup_singleton_Some (M := gmap string) "block_size" k "512" v) in Hv as [<- <-].
    at_rest.
  - intros _. exists "Size: 1048576 Mode: O_DSYNC". split_and!.
    + at_rest.
    + intros v Hv. vm_compute in Hv. discriminate Hv.
    + intros _. vm_compute. split; [discriminate | reflexivity].
Defined.
Lemma tpg1_in_place : tpg_in_place DefaultRoot at_rest one_disk target_a tpg1.
Proof.
  split.
  - at_rest.
  - intros k v Hv. apply (lookup_singleton_Some (M := gmap string) "authentication" k "0" v) in Hv as [<- <-].
    at_rest.
  - apply Forall_singleton. at_rest.
  - apply Forall_singleton. intros b ->%list_elem_of_singleton _.
    split; [at_rest | exists "0102030405"; at_rest].
  - apply Forall_singleton. split; [at_rest|]. apply Forall_singleton.
    split; [split; [at_rest | exists "0102030405"; at_rest] | at_rest].
  - at_rest.
Defined.

Lemma Apply_in_place_witness :
  ∃ k1, at_rest k1
    ∧ let '(unbound, k2) := verify_reports DefaultRoot (Some one_record) one_disk k1 in
      Apply DefaultRoot (Some one_record) one_disk synced = (mkReport [] [] unbound, None, k2).
Proof.
  apply (Apply_in_place DefaultRoot at_rest).
  - apply one_disk_valid.
  - split.
    + intros _. at_rest.
    + apply Forall_singleton. apply disk0_in_place.
    + apply Forall_singleton. split; [at_rest | apply Forall_singleton, tpg1_in_place].
  - reflexivity.
Defined.
