(* ===== verification/LioDeltaProofs.v ===== *)
(** * Diff is exact: a delta turns the previous tree into the next

    The abstract specification of lio/delta.go. A configuration is read as the
    set of kernel objects it calls for; a delta is read as the documented
    effect of ApplyDelta on such a set — create or overwrite what [d_Add]
    names, then remove what [d_Remove] names, an ACL with its mapped LUNs. *)

From S2P Require Import Prelude GoStrings Errors Netip LioModel LioValid Configfs LioAptpl LioApply.
From S2P Require Import LioSync LioDelta.

(** ** Lists *)

Lemma mapM_elem {A B} (f : A → option B) l k :
  mapM f l = Some k → ∀ y, y ∈ k ↔ ∃ x, x ∈ l ∧ f x = Some y.
Proof.
  intros Hk%mapM_Some_1 y. induction Hk as [|x z l k Hx Hl IH].
  - split; [intros Hy; inversion Hy | intros (x & Hx & _); inversion Hx].
  - rewrite elem_of_cons, IH. setoid_rewrite elem_of_cons. naive_solver.
Qed.
Lemma mapM_all {A B} (f : A → option B) l k :
  mapM f l = Some k → ∀ x, x ∈ l → ∃ y, f x = Some y.
Proof.
  intros Hk%mapM_Some_1 x. induction Hk as [|x' z l k Hx Hl IH]; [intros H; inversion H|].
  intros [->|Hin]%elem_of_cons; eauto.
Qed.

(** Two duplicate-free lists of one length, one inside the other. *)
Lemma NoDup_same_length {A} (l k : list A) :
  NoDup l → length k = length l → (∀ x, x ∈ l → x ∈ k) → ∀ x, x ∈ k → x ∈ l.
Proof.
  intros Hd Hlen Hsub x Hx. pose proof (NoDup_submseteq l k Hd Hsub) as Hs.
  apply submseteq_length_Permutation in Hs; [|lia]. by rewrite Hs.
Qed.

(** The law every part of [Diff] obeys: overwrite what changed, remove the keys
    that are gone, and the previous list becomes the next. *)
Lemma keyed_diff {A B} `{EqDecision B} (key : A → B) (prev next add : list A) (gone : B → Prop) :
  NoDup (key <$> next) →
  (∀ x, x ∈ add → x ∈ next) →
  (∀ x, x ∈ next → x ∈ add ∨ x ∈ prev) →
  (∀ x, x ∈ prev → key x ∈ key <$> next → (∃ x', x' ∈ add ∧ key x' = key x) ∨ x ∈ next) →
  (∀ k, gone k ↔ k ∈ key <$> prev ∧ k ∉ key <$> next) →
  ∀ x, x ∈ next ↔
    ((x ∈ prev ∧ ¬ ∃ x', x' ∈ add ∧ key x' = key x) ∨ x ∈ add) ∧ ¬ gone (key x).
Proof.
  intros Hn Hadd Hnew Hold Hgone x. rewrite Hgone. split.
  - intros Hx. split; [|intros [_ Hk]; by apply Hk, list_elem_of_fmap_2].
    destruct (Hnew x Hx) as [?|Hpx]; [by right|].
    destruct (decide (key x ∈ key <$> add)) as [Hk|Hk]; rewrite key_elem in Hk.
    + right. destruct Hk as (x' & Hx' & Hk). by rewrite <- (NoDup_key_inj key next x' x); auto.
    + by left.
  - intros [[[Hpx Hno]|Hax] Hg]; [|by apply Hadd].
    destruct (decide (key x ∈ key <$> next)) as [Hk|Hk].
    + by destruct (Hold x Hpx Hk).
    + exfalso. apply Hg. split; [by apply list_elem_of_fmap_2 | done].
Qed.

(** ** Configurations as sets of objects *)


Inductive obj :=
  | OBackstore (b : Backstore)
  | OLun (iqn : string) (tag : Z) (l : LUN)
  | OAcl (iqn : string) (tag : Z) (initiator : string)
  | OMapped (iqn : string) (tag : Z) (initiator : string) (m : MappedLUN).

(** The configfs identity of an object: what a second one would overwrite. *)
Inductive obj_id :=
  | IdBackstore (key : string)
  | IdLun (iqn : string) (tag index : Z)
  | IdAcl (iqn : string) (tag : Z) (initiator : string)
  | IdMapped (iqn : string) (tag : Z) (initiator : string) (index : Z).
Definition id_of (o : obj) : obj_id :=
  match o with
  | OBackstore b => IdBackstore (backstoreKey b)
  | OLun iqn tag l => IdLun iqn tag (l_Index l)
  | OAcl iqn tag i => IdAcl iqn tag i
  | OMapped iqn tag i m => IdMapped iqn tag i (ml_Index m)
  end.

Definition present (c : Config) (o : obj) : Prop :=
  match o with
  | OBackstore b => b ∈ c_Backstores c
  | OLun iqn tag l => ∃ g, tpg_at c iqn tag g ∧ l ∈ g_LUNs g
  | OAcl iqn tag i => ∃ g a, tpg_at c iqn tag g ∧ a ∈ g_ACLs g ∧ acl_InitiatorIQN a = i
  | OMapped iqn tag i m =>
      ∃ g a, tpg_at c iqn tag g ∧ a ∈ g_ACLs g ∧ acl_InitiatorIQN a = i ∧ m ∈ acl_MappedLUNs a
  end.

Definition removed (rm : RemoveSet) (o : obj) : Prop :=
  match o with
  | OBackstore b => backstoreKey b ∈ backstoreKey <$> rm_Backstores rm
  | OLun iqn tag l => mkLUNRef iqn tag (l_Index l) ∈ rm_LUNs rm
  | OAcl iqn tag i => mkACLRef iqn tag i ∈ rm_ACLs rm
  | OMapped iqn tag i m =>
      mkMappedLUNRef iqn tag i (ml_Index m) ∈ rm_MappedLUNs rm ∨ mkACLRef iqn tag i ∈ rm_ACLs rm
  end.

(** The set of objects after the delta. *)
Definition after (d : Delta) (prev : Config) (o : obj) : Prop :=
  ((present prev o ∧ ¬ ∃ o', present (d_Add d) o' ∧ id_of o' = id_of o) ∨ present (d_Add d) o)
  ∧ ¬ removed (d_Remove d) o.

(** ** The loops of diffTPG *)

Section range.
Context (range : ∀ A, list A → list A).
Context (range_perm : ∀ A (l : list A), range A l ≡ₚ l).

Lemma gone_spec {A B} `{Countable B} (key : A → B) (prev next : list A) k :
  k ∈ filter (λ k, absent_from key next k = true) (range _ (map_to_list (to_map key prev)).*1) ↔
  k ∈ key <$> prev ∧ k ∉ key <$> next.
Proof.
  rewrite list_elem_of_filter, range_perm, keys_of_map. unfold absent_from.
  rewrite negb_true_iff, bool_decide_eq_false. tauto.
Qed.

Lemma changed_diff {A B} `{EqDecision A, Countable B} (key : A → B) (prev next : list A) x :
  NoDup (key <$> prev) → NoDup (key <$> next) →
  let add := filter (λ a, changed_from key (to_map key prev) a = true) next in
  let gone := filter (λ k, absent_from key next k = true)
                (range _ (map_to_list (to_map key prev)).*1) in
  x ∈ next ↔ ((x ∈ prev ∧ ¬ ∃ x', x' ∈ add ∧ key x' = key x) ∨ x ∈ add) ∧ key x ∉ gone.
Proof.
  intros Hp Hn add gone.
  assert (Hun : ∀ y, y ∈ next → y ∈ add ∨ to_map key prev !! key y = Some y).
  { intros y Hy. unfold add. rewrite list_elem_of_filter. unfold changed_from.
    destruct (_ !! _) as [old|]; [|by left; split].
    destruct (decide (old = y)) as [->|Hne]; [by right|].
    left. split; [|done]. by rewrite bool_decide_eq_false_2. }
  apply (keyed_diff key prev next add (λ k, k ∈ gone)).
  - done.
  - intros y Hy. by apply list_elem_of_filter in Hy as [_ ?].
  - intros y Hy. destruct (Hun y Hy) as [?|Hm]; [by left|].
    right. by apply to_map_Some in Hm as [? _].
  - intros y Hy (z & Hz & Hk)%key_elem. destruct (Hun z Hz) as [?|Hm]; [left; eauto|].
    right. apply to_map_Some in Hm as [Hzp _]; [|done].
    by rewrite <- (NoDup_key_inj key prev z y).
  - intros k. apply gone_spec.
Qed.

(** The mapped LUNs of one ACL of [next], from those of the previous TPG. *)
Lemma diffACL_spec iqn tag (prevACLs : list ACL) na :
  NoDup (acl_InitiatorIQN <$> prevACLs) →
  let '(add, gone) := diffACL range iqn tag (to_map acl_InitiatorIQN prevACLs) na in
  (∀ a, a ∈ add → acl_InitiatorIQN a = acl_InitiatorIQN na) ∧
  (∀ r, r ∈ gone → mf_IQN r = iqn ∧ mf_Tag r = tag ∧ mf_Initiator r = acl_InitiatorIQN na) ∧
  ((∃ a, a ∈ add) ∨ acl_InitiatorIQN na ∈ acl_InitiatorIQN <$> prevACLs) ∧
  ∀ m,
    NoDup (ml_Index <$> acl_MappedLUNs na) →
    Forall (λ a, NoDup (ml_Index <$> acl_MappedLUNs a)) prevACLs →
    m ∈ acl_MappedLUNs na ↔
      (((∃ a, a ∈ prevACLs ∧ acl_InitiatorIQN a = acl_InitiatorIQN na ∧ m ∈ acl_MappedLUNs a)
        ∧ ¬ (∃ a m', a ∈ add ∧ m' ∈ acl_MappedLUNs a ∧ ml_Index m' = ml_Index m))
       ∨ ∃ a, a ∈ add ∧ m ∈ acl_MappedLUNs a)
      ∧ mkMappedLUNRef iqn tag (acl_InitiatorIQN na) (ml_Index m) ∉ gone.
Proof.
  intros Hd. unfold diffACL. destruct (_ !! _) as [pa|] eqn:Ep.
  - apply to_map_Some in Ep as [Hpa Hi]; [|done].
    set (add := filter _ (acl_MappedLUNs na)). set (gone := filter _ _).
    split_and!.
    + intros a Ha. destruct add; [inversion Ha|]. apply list_elem_of_singleton in Ha. by rewrite Ha.
    + intros r (idx & -> & _)%list_elem_of_fmap. done.
    + right. rewrite <- Hi. by apply list_elem_of_fmap_2.
    + intros m Hna HF. rewrite Forall_forall in HF.
      rewrite (changed_diff ml_Index (acl_MappedLUNs pa) (acl_MappedLUNs na) m (HF pa Hpa) Hna).
      fold add. fold gone.
      assert (Hadd : ∀ P : MappedLUN → Prop,
        (∃ a m', a ∈ match add with [] => [] | _ => [mkACL (acl_InitiatorIQN na) add] end
                 ∧ m' ∈ acl_MappedLUNs a ∧ P m') ↔ ∃ m', m' ∈ add ∧ P m').
      { intros P. destruct add as [|m0 add']; [split; [intros (? & ? & Hx & _); inversion Hx
                                                     | intros (? & Hx & _); inversion Hx]|].
        setoid_rewrite list_elem_of_singleton. split.
        - intros (a & m' & -> & ? & ?). eauto.
        - intros (m' & ? & ?). eexists _, m'. split_and!; [reflexivity|done..]. }
      rewrite (Hadd (λ m', ml_Index m' = ml_Index m)).
      assert (Hm : (∃ a, a ∈ match add with [] => [] | _ => [mkACL (acl_InitiatorIQN na) add] end
                         ∧ m ∈ acl_MappedLUNs a) ↔ m ∈ add).
      { specialize (Hadd (λ m', m' = m)). split.
        - intros (a & Ha & Hma). destruct (proj1 Hadd) as (m' & ? & ->); [eauto|done].
        - intros Hma. destruct (proj2 Hadd) as (a & m' & ? & ? & ->); eauto. }
      rewrite Hm.
      assert (Hg : mkMappedLUNRef iqn tag (acl_InitiatorIQN na) (ml_Index m)
                     ∈ (λ idx, mkMappedLUNRef iqn tag (acl_InitiatorIQN na) idx) <$> gone
                   ↔ ml_Index m ∈ gone).
      { rewrite list_elem_of_fmap. split; [by intros (? & [= ->] & ?) | eauto]. }
      rewrite Hg.
      assert (Hpm : (∃ a, a ∈ prevACLs ∧ acl_InitiatorIQN a = acl_InitiatorIQN na
                          ∧ m ∈ acl_MappedLUNs a) ↔ m ∈ acl_MappedLUNs pa).
      { split; [|eauto]. intros (a & Ha & Hai & ?).
        by rewrite (NoDup_key_inj acl_InitiatorIQN prevACLs pa a) by (done || congruence). }
      rewrite Hpm. done.
  - apply to_map_None in Ep. split_and!.
    + intros a Ha. apply list_elem_of_singleton in Ha. by subst.
    + intros r Hr. inversion Hr.
    + left. exists na. by left.
    + intros m _ _. setoid_rewrite list_elem_of_singleton. split.
      * intros Hm. split; [right; eauto | intros Hr; inversion Hr].
      * intros [[[(a & Ha & Hai & _) _]|(a & -> & ?)] _]; [|done].
        exfalso. apply Ep. rewrite <- Hai. by apply list_elem_of_fmap_2.
Qed.

(** Two versions of one TPG. *)
Section tpg.
Context (names : list string) (iqn : string) (pg ng : TPG).
Context (Vp : valid_tpg names pg) (Vn : ∃ names', valid_tpg names' ng).

Let ag := (diffTPG range iqn pg ng).1.1.
Let rm := (diffTPG range iqn pg ng).2.
Let step := diffACL range iqn (g_Tag pg) (to_map acl_InitiatorIQN (g_ACLs pg)).

Lemma diffTPG_shape : g_Tag ag = g_Tag ng ∧ g_Enable ag = g_Enable ng ∧
  g_Portals ag = [] ∧ g_Attributes ag = ∅.
Proof. done. Qed.

Lemma diffTPG_unchanged : (diffTPG range iqn pg ng).1.2 = false → g_LUNs ag = [] ∧ g_ACLs ag = [].
Proof.
  unfold ag, diffTPG. cbn. rewrite negb_false_iff, andb_true_iff, !Nat.eqb_eq.
  intros [->%length_zero_iff_nil ->%length_zero_iff_nil]. done.
Qed.

Lemma diffTPG_luns l :
  l ∈ g_LUNs ng ↔
  ((l ∈ g_LUNs pg ∧ ¬ ∃ l', l' ∈ g_LUNs ag ∧ l_Index l' = l_Index l) ∨ l ∈ g_LUNs ag)
  ∧ mkLUNRef iqn (g_Tag pg) (l_Index l) ∉ rm_LUNs rm.
Proof.
  destruct Vn as [names' Vn'].
  rewrite (changed_diff l_Index (g_LUNs pg) (g_LUNs ng) l (vg_luns_distinct _ _ Vp) (vg_luns_distinct _ _ Vn')).
  unfold ag, rm, diffTPG. cbn [fst snd g_LUNs rm_LUNs].
  set (gone := filter _ (range Z _)).
  assert (Hg : mkLUNRef iqn (g_Tag pg) (l_Index l) ∈ (λ idx, mkLUNRef iqn (g_Tag pg) idx) <$> gone
               ↔ l_Index l ∈ gone).
  { rewrite list_elem_of_fmap. split; [by intros (? & [= ->] & ?) | eauto]. }
  rewrite Hg. done.
Qed.

Lemma add_acl_elem a :
  a ∈ g_ACLs ag ↔ ∃ na, na ∈ g_ACLs ng ∧ a ∈ (step na).1.
Proof.
  unfold ag, diffTPG. cbn [fst g_ACLs]. rewrite list_elem_of_join.
  setoid_rewrite list_elem_of_fmap. setoid_rewrite list_elem_of_fmap. split.
  - intros (l & Ha & (p & -> & (na & -> & Hna))). eauto.
  - intros (na & Hna & Ha). eexists. split; [exact Ha|]. eexists. split; [reflexivity|]. eauto.
Qed.

Lemma gone_ml_elem r :
  r ∈ rm_MappedLUNs rm ↔ ∃ na, na ∈ g_ACLs ng ∧ r ∈ (step na).2.
Proof.
  unfold rm, diffTPG. cbn [snd rm_MappedLUNs]. rewrite list_elem_of_join.
  setoid_rewrite list_elem_of_fmap. setoid_rewrite list_elem_of_fmap. split.
  - intros (l & Ha & (p & -> & (na & -> & Hna))). eauto.
  - intros (na & Hna & Ha). eexists. split; [exact Ha|]. eexists. split; [reflexivity|]. eauto.
Qed.

Lemma gone_acl_elem i :
  mkACLRef iqn (g_Tag pg) i ∈ rm_ACLs rm ↔
  i ∈ acl_InitiatorIQN <$> g_ACLs pg ∧ i ∉ acl_InitiatorIQN <$> g_ACLs ng.
Proof.
  rewrite <- gone_spec. unfold rm, diffTPG. cbn [snd rm_ACLs].
  rewrite list_elem_of_fmap. split; [by intros (? & [= ->] & ?) | eauto].
Qed.

Lemma diffTPG_refs :
  (∀ r, r ∈ rm_LUNs rm → lf_IQN r = iqn ∧ lf_Tag r = g_Tag pg) ∧
  (∀ r, r ∈ rm_ACLs rm → af_IQN r = iqn ∧ af_Tag r = g_Tag pg) ∧
  (∀ r, r ∈ rm_MappedLUNs rm → mf_IQN r = iqn ∧ mf_Tag r = g_Tag pg) ∧
  rm_Backstores rm = [].
Proof.
  split_and!; [| | |done].
  - intros r (? & -> & _)%list_elem_of_fmap. done.
  - intros r (? & -> & _)%list_elem_of_fmap. done.
  - intros r (na & _ & Hr)%gone_ml_elem.
    pose proof (diffACL_spec iqn (g_Tag pg) (g_ACLs pg) na (vg_acls_distinct _ _ Vp)) as Hs.
    unfold step in Hr. destruct (diffACL _ _ _ _ _) as [add gone].
    destruct Hs as (_ & Hrefs & _). by destruct (Hrefs r Hr) as (? & ? & _).
Qed.

Lemma step_spec na : let '(add, gone) := step na in
  (∀ a, a ∈ add → acl_InitiatorIQN a = acl_InitiatorIQN na) ∧
  (∀ r, r ∈ gone → mf_IQN r = iqn ∧ mf_Tag r = g_Tag pg ∧ mf_Initiator r = acl_InitiatorIQN na) ∧
  ((∃ a, a ∈ add) ∨ acl_InitiatorIQN na ∈ acl_InitiatorIQN <$> g_ACLs pg).
Proof.
  pose proof (diffACL_spec iqn (g_Tag pg) (g_ACLs pg) na (vg_acls_distinct _ _ Vp)) as Hs.
  unfold step. destruct (diffACL _ _ _ _ _) as [add gone]. naive_solver.
Qed.

Lemma diffTPG_acls i :
  i ∈ acl_InitiatorIQN <$> g_ACLs ng ↔
  ((i ∈ acl_InitiatorIQN <$> g_ACLs pg ∧ i ∉ acl_InitiatorIQN <$> g_ACLs ag)
   ∨ i ∈ acl_InitiatorIQN <$> g_ACLs ag)
  ∧ mkACLRef iqn (g_Tag pg) i ∉ rm_ACLs rm.
Proof.
  rewrite gone_acl_elem. split.
  - intros Hi. split; [|tauto].
    destruct (decide (i ∈ acl_InitiatorIQN <$> g_ACLs ag)) as [?|Hno]; [by right|].
    left. split; [|done]. apply key_elem in Hi as (na & Hna & <-).
    pose proof (step_spec na) as Hs. destruct (step na) as [add gone] eqn:Est.
    destruct Hs as (Hadd & _ & [(a & Ha)|?]); [|done].
    exfalso. apply Hno. rewrite key_elem. exists a. split; [|by apply Hadd].
    apply add_acl_elem. exists na. by rewrite Est.
  - intros [[[Hp _]|Ha] Hg].
    + destruct (decide (i ∈ acl_InitiatorIQN <$> g_ACLs ng)); [done|]. exfalso. tauto.
    + apply key_elem in Ha as (a & (na & Hna & Hs)%add_acl_elem & <-).
      pose proof (step_spec na) as Hst. destruct (step na) as [add gone].
      destruct Hst as (Hadd & _). rewrite (Hadd a Hs). by apply list_elem_of_fmap_2.
Qed.

Definition mapped_at (g : TPG) (i : string) (m : MappedLUN) : Prop :=
  ∃ a, a ∈ g_ACLs g ∧ acl_InitiatorIQN a = i ∧ m ∈ acl_MappedLUNs a.

Lemma diffTPG_mapped i m :
  mapped_at ng i m ↔
  ((mapped_at pg i m ∧ ¬ ∃ m', mapped_at ag i m' ∧ ml_Index m' = ml_Index m) ∨ mapped_at ag i m)
  ∧ ¬ (mkMappedLUNRef iqn (g_Tag pg) i (ml_Index m) ∈ rm_MappedLUNs rm
       ∨ mkACLRef iqn (g_Tag pg) i ∈ rm_ACLs rm).
Proof.
  destruct Vn as [names' Vn']. rewrite gone_acl_elem.
  destruct (decide (i ∈ acl_InitiatorIQN <$> g_ACLs ng)) as [Hi|Hi].
  - apply key_elem in Hi as (na & Hna & <-).
    assert (Hone : ∀ na', na' ∈ g_ACLs ng → acl_InitiatorIQN na' = acl_InitiatorIQN na → na' = na).
    { intros na' ? ?. by apply (NoDup_key_inj acl_InitiatorIQN (g_ACLs ng)); [apply Vn'|..]. }
    pose proof (diffACL_spec iqn (g_Tag pg) (g_ACLs pg) na (vg_acls_distinct _ _ Vp)) as Hs.
    assert (Hstep : step na = diffACL range iqn (g_Tag pg) (to_map acl_InitiatorIQN (g_ACLs pg)) na) by done.
    destruct (diffACL _ _ _ _ _) as [add gone].
    destruct Hs as (Hadd & Hgone & _ & Hm). specialize (Hm m).
    assert (Hn1 : mapped_at ng (acl_InitiatorIQN na) m ↔ m ∈ acl_MappedLUNs na).
    { split; [|intros ?; by exists na]. intros (na' & ? & ? & ?). by rewrite <- (Hone na'). }
    assert (Ha1 : ∀ m', mapped_at ag (acl_InitiatorIQN na) m' ↔ ∃ a, a ∈ add ∧ m' ∈ acl_MappedLUNs a).
    { intros m'. split.
      - intros (a & (na' & Hna' & Ha)%add_acl_elem & Hai & Hma).
        pose proof (step_spec na') as Hst. destruct (step na') as [add' gone'] eqn:Est'.
        destruct Hst as (Hadd' & _). rewrite (Hadd' a Ha) in Hai.
        assert (na' = na) as -> by auto. rewrite Hstep in Est'. injection Est' as <- <-. eauto.
      - intros (a & Ha & Hma). exists a. split_and!; [|by apply Hadd|done].
        apply add_acl_elem. exists na. by rewrite Hstep. }
    assert (Hg1 : mkMappedLUNRef iqn (g_Tag pg) (acl_InitiatorIQN na) (ml_Index m) ∈ rm_MappedLUNs rm
                  ↔ mkMappedLUNRef iqn (g_Tag pg) (acl_InitiatorIQN na) (ml_Index m) ∈ gone).
    { rewrite gone_ml_elem. split; [|intros Hr; exists na; by rewrite Hstep].
      intros (na' & Hna' & Hr). pose proof (step_spec na') as Hst.
      destruct (step na') as [add' gone'] eqn:Est'. destruct Hst as (_ & Hrefs & _).
      destruct (Hrefs _ Hr) as (_ & _ & Hin). simpl in Hin.
      assert (na' = na) as -> by auto. rewrite Hstep in Est'. by injection Est' as <- <-. }
    rewrite Hn1, Hm, Hg1.
    2: { pose proof (vg_acls _ _ Vn') as HF. rewrite Forall_forall in HF. apply (HF na Hna). }
    2: { apply (Forall_impl _ _ _ (vg_acls _ _ Vp)). intros a []. done. }
    rewrite (Ha1 m). setoid_rewrite Ha1. unfold mapped_at.
    assert (acl_InitiatorIQN na ∈ acl_InitiatorIQN <$> g_ACLs ng) by by apply list_elem_of_fmap_2.
    assert (Hex : (∃ a m', a ∈ add ∧ m' ∈ acl_MappedLUNs a ∧ ml_Index m' = ml_Index m)
                  ↔ ∃ m', (∃ a, a ∈ add ∧ m' ∈ acl_MappedLUNs a) ∧ ml_Index m' = ml_Index m)
      by naive_solver.
    rewrite Hex. tauto.
  - assert (Hn0 : ¬ mapped_at ng i m).
    { intros (a & Ha & <- & _). by apply Hi, list_elem_of_fmap_2. }
    assert (Ha0 : ¬ mapped_at ag i m).
    { intros (a & Ha & Hai & _). apply Hi. apply diffTPG_acls. split.
      - right. rewrite key_elem. eauto.
      - rewrite gone_acl_elem. intros [_ _]. apply add_acl_elem in Ha as (na & Hna & Hs).
        pose proof (step_spec na) as Hst. destruct (step na) as [add gone].
        destruct Hst as (Hadd & _). apply Hi. rewrite <- Hai, (Hadd a Hs). by apply list_elem_of_fmap_2. }
    split; [done|]. intros [[[(a & Ha & Hai & _) _]|?] Hg]; [|done].
    exfalso. apply Hg. right. split; [|done]. rewrite key_elem. eauto.
Qed.
End tpg.

(** ** The loops over TPGs and targets *)

(** A reference of a [RemoveSet], of any of the three iSCSI kinds. *)
Inductive ref := RLun (r : LUNRef) | RAcl (r : ACLRef) | RMapped (r : MappedLUNRef).
Definition rm_has (rm : RemoveSet) (r : ref) : Prop :=
  match r with
  | RLun r => r ∈ rm_LUNs rm
  | RAcl r => r ∈ rm_ACLs rm
  | RMapped r => r ∈ rm_MappedLUNs rm
  end.

Lemma rm_has_app r1 r2 r : rm_has (rm_app r1 r2) r ↔ rm_has r1 r ∨ rm_has r2 r.
Proof. destruct r; apply elem_of_app. Qed.
Lemma rm_has_fold l r : rm_has (foldr rm_app emptyRemove l) r ↔ ∃ x, x ∈ l ∧ rm_has x r.
Proof.
  induction l as [|x l IH]; simpl.
  - split; [destruct r; simpl; intros Hr; inversion Hr | intros (? & Hx & _); inversion Hx].
  - rewrite rm_has_app, IH. setoid_rewrite elem_of_cons. naive_solver.
Qed.
Lemma rm_fold_backstores l :
  Forall (λ x, rm_Backstores x = []) l → rm_Backstores (foldr rm_app emptyRemove l) = [].
Proof. induction 1 as [|x l Hx _ IH]; simpl; [done|]. by rewrite Hx, IH. Qed.

(** The TPG pair behind one element of a delta. *)
Definition tpg_pair (pt nt : Target) (pg ng : TPG) : Prop :=
  pg ∈ t_TPGs pt ∧ ng ∈ t_TPGs nt ∧ g_Tag pg = g_Tag ng.

Definition tpg_agrees (pg ng : TPG) : Prop :=
  g_Enable pg = g_Enable ng ∧ sameStringMap (g_Attributes pg) (g_Attributes ng) = true ∧
  samePortals (g_Portals pg) (g_Portals ng) = true.

Lemma diff_tpg_step_spec iqn (tpgs : list TPG) ng gs rm :
  NoDup (g_Tag <$> tpgs) → diff_tpg_step range iqn (to_map g_Tag tpgs) ng = Some (gs, rm) →
  ∃ pg, pg ∈ tpgs ∧ g_Tag pg = g_Tag ng ∧ tpg_agrees pg ng ∧
    rm = (diffTPG range iqn pg ng).2 ∧
    gs = if (diffTPG range iqn pg ng).1.2 then [(diffTPG range iqn pg ng).1.1] else [].
Proof.
  intros Hd. unfold diff_tpg_step. destruct (_ !! _) as [pg|] eqn:Ep; [|done].
  apply to_map_Some in Ep as [Hpg Ht]; [|done].
  destruct (_ || _) eqn:Eg; [done|]. destruct (diffTPG _ _ _ _) as [[ag ch] r] eqn:Ed.
  intros [= <- <-]. exists pg. rewrite Ed. split_and!; [done..| |done|done].
  apply orb_false_iff in Eg as [[E1 E2]%orb_false_iff E3].
  apply negb_false_iff in E1, E2, E3. split_and!; [by apply eqb_prop | done..].
Qed.

Lemma diff_target_step_spec (prevTs : list Target) names nt ts rm :
  NoDup (t_IQN <$> prevTs) → Forall (valid_target names) prevTs →
  NoDup (g_Tag <$> t_TPGs nt) →
  diff_target_step range (to_map t_IQN prevTs) nt = Some (ts, rm) →
  ∃ pt, pt ∈ prevTs ∧ t_IQN pt = t_IQN nt ∧
    (∀ ng, ng ∈ t_TPGs nt → ∃ pg, tpg_pair pt nt pg ng ∧ tpg_agrees pg ng) ∧
    (∀ pg, pg ∈ t_TPGs pt → ∃ ng, tpg_pair pt nt pg ng) ∧
    (∀ t, t ∈ ts → t_IQN t = t_IQN nt) ∧
    (∀ g, (∃ t, t ∈ ts ∧ g ∈ t_TPGs t) ↔
       ∃ pg ng, tpg_pair pt nt pg ng ∧ (diffTPG range (t_IQN nt) pg ng).1 = (g, true)) ∧
    (∀ r, rm_has rm r ↔
       ∃ pg ng, tpg_pair pt nt pg ng ∧ rm_has (diffTPG range (t_IQN nt) pg ng).2 r) ∧
    rm_Backstores rm = [].
Proof.
  intros Hd HV Hdn. unfold diff_target_step. destruct (_ !! _) as [pt|] eqn:Ep; [|done].
  apply to_map_Some in Ep as [Hpt Hi]; [|done]. rewrite Forall_forall in HV.
  pose proof (vt_distinct _ _ (HV pt Hpt)) as Hdp.
  destruct (negb _) eqn:El; [done|]. apply negb_false_iff, Nat.eqb_eq in El.
  destruct (mapM _ _) as [l|] eqn:Em; [|done]. intros [= <- <-].
  pose proof (mapM_elem _ _ _ Em) as Hl. pose proof (mapM_all _ _ _ Em) as Hall.
  assert (Hpair : ∀ ng, ng ∈ t_TPGs nt → ∃ pg, tpg_pair pt nt pg ng ∧ tpg_agrees pg ng).
  { intros ng Hng. destruct (Hall ng Hng) as [[gs r] Hst].
    apply diff_tpg_step_spec in Hst as (pg & ? & ? & ? & _); [|done]. by exists pg. }
  assert (Hel : ∀ gs r, (gs, r) ∈ l ↔ ∃ pg ng, tpg_pair pt nt pg ng ∧
     r = (diffTPG range (t_IQN nt) pg ng).2 ∧
     gs = if (diffTPG range (t_IQN nt) pg ng).1.2 then [(diffTPG range (t_IQN nt) pg ng).1.1] else []).
  { intros gs r. rewrite Hl. split.
    - intros (ng & Hng & Hst). apply diff_tpg_step_spec in Hst as (pg & ? & ? & _ & -> & ->); [|done].
      exists pg, ng. done.
    - intros (pg & ng & (Hpg & Hng & Ht) & -> & ->). exists ng. split; [done|].
      destruct (Hall ng Hng) as [[gs r] Hst]. rewrite Hst.
      apply diff_tpg_step_spec in Hst as (pg' & Hpg' & Ht' & _ & -> & ->); [|done].
      assert (pg' = pg) as -> by (apply (NoDup_key_inj g_Tag (t_TPGs pt)); [done..|congruence]).
      done. }
  exists pt. split_and!; [exact Hpt|exact Hi|exact Hpair| | | | |].
  - intros pg Hpg.
    assert (Hk : g_Tag pg ∈ g_Tag <$> t_TPGs nt).
    { apply (NoDup_same_length (g_Tag <$> t_TPGs nt) (g_Tag <$> t_TPGs pt)).
      - done.
      - by rewrite !length_fmap.
      - intros k (ng & Hng & <-)%key_elem. destruct (Hpair ng Hng) as (pg' & (? & _ & <-) & _).
        by apply list_elem_of_fmap_2.
      - by apply list_elem_of_fmap_2. }
    apply key_elem in Hk as (ng & ? & ?). by exists ng.
  - intros t Ht. destruct (mjoin l.*1); [inversion Ht|]. apply list_elem_of_singleton in Ht. by subst.
  - intros g. transitivity (g ∈ mjoin l.*1).
    { destruct (mjoin l.*1) as [|g0 gs] eqn:Ej.
      - split; [intros (? & Ht & _); inversion Ht | intros Hg; inversion Hg].
      - setoid_rewrite list_elem_of_singleton. split; [by intros (? & -> & ?)|]. intros Hg.
        eexists. split; [reflexivity|done]. }
    rewrite list_elem_of_join. setoid_rewrite list_elem_of_fmap. split.
    + intros (gs & Hg & ([gs' r] & -> & Hin)). simpl in Hg.
      apply Hel in Hin as (pg & ng & Hp & -> & ->). exists pg, ng. split; [done|].
      destruct (diffTPG _ _ _ _) as [[ag ch] rr]. simpl in *.
      destruct ch; [|inversion Hg]. apply list_elem_of_singleton in Hg. by subst.
    + intros (pg & ng & Hp & Hg). exists [g]. split; [by left|].
      exists ([g], (diffTPG range (t_IQN nt) pg ng).2). split; [done|].
      apply Hel. exists pg, ng. by rewrite Hg.
  - intros r. rewrite rm_has_fold. setoid_rewrite list_elem_of_fmap. split.
    + intros (x & ([gs r'] & -> & Hin) & Hr). apply Hel in Hin as (pg & ng & Hp & -> & _). eauto.
    + intros (pg & ng & Hp & Hr). eexists. split; [|exact Hr].
      eexists (_, _). split; [reflexivity|]. apply Hel. eauto.
  - apply rm_fold_backstores, Forall_forall. intros x ([gs r'] & -> & Hin)%list_elem_of_fmap.
    apply Hel in Hin as (pg & ng & _ & -> & _). done.
Qed.

(** ** Backstores *)

Lemma sameStringMap_eq a b : sameStringMap a b = true ↔ a = b.
Proof.
  unfold sameStringMap. rewrite andb_true_iff, Nat.eqb_eq, forallb_forall. split.
  - intros [Hs Hf]. apply map_eq. 
    assert (Hsub : a ⊆ b).
    { apply map_subseteq_spec. intros k v Hk.
      specialize (Hf (k, v)). rewrite <- list_elem_of_In, elem_of_map_to_list in Hf.
      specialize (Hf Hk). simpl in Hf. destruct (b !! k); [|done].
      apply String.eqb_eq in Hf. by subst. }
    intros k. by rewrite (map_subseteq_size_eq a b Hsub) by lia.
  - intros ->. split; [done|]. intros [k v] Hk. rewrite <- list_elem_of_In, elem_of_map_to_list in Hk.
    simpl. rewrite Hk. apply String.eqb_refl.
Qed.

Lemma backstoreEqual_eq a b : backstoreEqual a b = true ↔ a = b.
Proof.
  unfold backstoreEqual. rewrite !andb_true_iff, !String.eqb_eq, !Z.eqb_eq, sameStringMap_eq.
  rewrite eqb_true_iff. destruct a, b; cbn. split; [naive_solver congruence|].
  intros [= -> -> -> -> -> -> -> -> -> -> ->]. tauto.
Qed.

Lemma backstoreKey_name b1 b2 :
  valid_backstore b1 → valid_backstore b2 → backstoreKey b1 = backstoreKey b2 →
  bs_Name b1 = bs_Name b2.
Proof.
  intros (_ & _ & _ & _ & H1 & _) (_ & _ & _ & _ & H2 & _) Hk.
  assert (Hf : ∀ b, backstoreKey b
    = (bs_Type b +:+ "_" +:+ itoa (bs_HBA b)) +:+ String slash (bs_Name b)).
  { intros b. unfold backstoreKey. by rewrite !app_assoc_str. }
  rewrite !Hf in Hk.
  eapply app_sep_inj in Hk; [by destruct Hk | |].
  - eapply Forall_impl; [exact H1 | intros c [? _]; done].
  - eapply Forall_impl; [exact H2 | intros c [? _]; done].
Qed.

Lemma NoDup_backstoreKey l :
  Forall valid_backstore l → NoDup (bs_Name <$> l) → NoDup (backstoreKey <$> l).
Proof.
  induction l as [|b l IH]; [constructor|].
  rewrite Forall_cons, !fmap_cons, !NoDup_cons. intros [Hb Hl] [Hn Hd]. split; [|auto].
  intros (b' & Hb' & Hk)%key_elem. apply Hn. rewrite Forall_forall in Hl.
  rewrite (backstoreKey_name b b') by auto. by apply list_elem_of_fmap_2.
Qed.

Lemma add_reference_elem byName names : ∀ acc b,
  b ∈ foldl (add_reference byName) acc names →
  b ∈ acc ∨ ∃ n, byName !! n = Some b.
Proof.
  induction names as [|n names IH]; intros acc b; simpl; [auto|].
  intros Hb. apply IH in Hb as [Hb|?]; [|auto]. unfold add_reference in Hb.
  destruct (bool_decide _); [auto|]. destruct (byName !! n) eqn:E; [|auto].
  apply elem_of_app in Hb as [?|Hb]; [auto|]. apply list_elem_of_singleton in Hb. subst. eauto.
Qed.
Lemma add_reference_mono byName names : ∀ acc b,
  b ∈ acc → b ∈ foldl (add_reference byName) acc names.
Proof.
  induction names as [|n names IH]; intros acc b Hb; simpl; [done|]. apply IH. unfold add_reference.
  destruct (bool_decide _); [done|]. destruct (byName !! n); [|done].
  rewrite elem_of_app. by left.
Qed.

Lemma Diff_backstores prev next d b :
  valid_config prev → valid_config next → Diff range prev next = Some d →
  b ∈ c_Backstores next ↔
    ((b ∈ c_Backstores prev ∧ ¬ ∃ b', b' ∈ c_Backstores (d_Add d) ∧ backstoreKey b' = backstoreKey b)
     ∨ b ∈ c_Backstores (d_Add d))
    ∧ backstoreKey b ∉ backstoreKey <$> rm_Backstores (d_Remove d).
Proof.
  intros Vp Vn. unfold Diff. destruct (existsb _ _); [done|].
  destruct (negb _); [done|]. destruct (mapM _ _) as [l|] eqn:Em; [|done]. intros [= <-].
  cbn [d_Add d_Remove c_Backstores addReferencedBackstores rm_app rm_Backstores].
  pose proof (NoDup_backstoreKey _ (vc_backstores _ Vp) (vc_names _ Vp)) as Dp.
  pose proof (NoDup_backstoreKey _ (vc_backstores _ Vn) (vc_names _ Vn)) as Dn.
  assert (Hrm : rm_Backstores (foldr rm_app emptyRemove l.*2) = []).
  { apply rm_fold_backstores, Forall_forall. intros x ([ts r] & -> & Hin)%list_elem_of_fmap.
    pose proof (proj1 (mapM_elem _ _ _ Em (ts, r)) Hin) as (nt & Hnt & Hst).
    pose proof (vc_targets _ Vn) as HFn. rewrite Forall_forall in HFn.
    eapply diff_target_step_spec in Hst as (pt & _ & _ & _ & _ & _ & _ & _ & Hb); [exact Hb|..].
    - apply Vp. - apply Vp. - eapply vt_distinct. by apply HFn. }
  rewrite Hrm. simpl. set (prevBS := to_map backstoreKey (c_Backstores prev)).
  apply (keyed_diff backstoreKey (c_Backstores prev) (c_Backstores next) _
    (λ k, k ∈ backstoreKey <$> (filter (λ kb : string * Backstore,
       absent_from backstoreKey (c_Backstores next) kb.1 = true) (range _ (map_to_list prevBS))).*2)).
  - done.
  - intros x Hx. apply add_reference_elem in Hx as [Hx|(n & Hx)].
    + by apply list_elem_of_filter in Hx as [_ ?].
    + by apply to_map_Some in Hx as [? _]; [|apply Vn].
  - intros x Hx. destruct (changedBackstore prevBS x) eqn:Ec.
    + left. apply add_reference_mono, list_elem_of_filter. done.
    + right. unfold changedBackstore in Ec. destruct (prevBS !! _) as [old|] eqn:Eo; [|done].
      apply negb_false_iff, backstoreEqual_eq in Ec as ->. by apply to_map_Some in Eo as [? _].
  - intros x Hx (y & Hy & Hk)%key_elem. destruct (changedBackstore prevBS y) eqn:Ec.
    + left. exists y. split; [|done]. apply add_reference_mono, list_elem_of_filter. done.
    + right. unfold changedBackstore in Ec. destruct (prevBS !! _) as [old|] eqn:Eo; [|done].
      apply negb_false_iff, backstoreEqual_eq in Ec as ->. apply to_map_Some in Eo as [? _]; [|done].
      by rewrite <- (NoDup_key_inj backstoreKey (c_Backstores prev) y x).
  - intros k. split.
    + intros (x & ([k' x'] & -> & Hin)%list_elem_of_fmap & <-)%key_elem.
      apply list_elem_of_filter in Hin as [Ha Hin].
      rewrite range_perm, elem_of_map_to_list in Hin. apply to_map_Some in Hin as [Hin <-]; [|done].
      simpl in *. unfold absent_from in Ha. apply negb_true_iff, bool_decide_eq_false in Ha.
      split; [by apply list_elem_of_fmap_2 | done].
    + intros [(x & Hx & <-)%key_elem Hn]. apply key_elem. exists x. split; [|done].
      apply list_elem_of_fmap. exists (backstoreKey x, x). split; [done|].
      apply list_elem_of_filter. split.
      * simpl. unfold absent_from. by rewrite bool_decide_eq_false_2.
      * rewrite range_perm, elem_of_map_to_list. by apply to_map_Some.
Qed.

(** ** The whole delta, TPG by TPG *)

Record delta_tpgs (prev next : Config) (d : Delta) : Prop := {
  dt_back : ∀ iqn tag ng, tpg_at next iqn tag ng → ∃ pg, tpg_at prev iqn tag pg ∧ tpg_agrees pg ng;
  dt_forth : ∀ iqn tag pg, tpg_at prev iqn tag pg → ∃ ng, tpg_at next iqn tag ng;
  dt_add : ∀ iqn tag g, tpg_at (d_Add d) iqn tag g ↔
    ∃ pg ng, tpg_at prev iqn tag pg ∧ tpg_at next iqn tag ng ∧ (diffTPG range iqn pg ng).1 = (g, true);
  dt_rm : ∀ r, rm_has (d_Remove d) r ↔
    ∃ iqn tag pg ng, tpg_at prev iqn tag pg ∧ tpg_at next iqn tag ng
                     ∧ rm_has (diffTPG range iqn pg ng).2 r
}.

Lemma Diff_tpgs prev next d :
  valid_config prev → valid_config next → Diff range prev next = Some d → delta_tpgs prev next d.
Proof.
  intros Vp Vn. unfold Diff. destruct (existsb _ _); [done|].
  destruct (negb _) eqn:El; [done|]. apply negb_false_iff, Nat.eqb_eq in El.
  destruct (mapM _ _) as [l|] eqn:Em; [|done]. intros [= <-].
  pose proof (mapM_elem _ _ _ Em) as Hl. pose proof (mapM_all _ _ _ Em) as Hall.
  pose proof (vc_targets _ Vn) as HFn. rewrite Forall_forall in HFn.
  assert (Hst : ∀ nt ts r, nt ∈ c_Targets next →
    diff_target_step range (to_map t_IQN (c_Targets prev)) nt = Some (ts, r) → _)
    by (intros nt ts r Hnt; apply (diff_target_step_spec (c_Targets prev) _ nt ts r (vc_iqns _ Vp) (vc_targets _ Vp)
          (vt_distinct _ _ (HFn nt Hnt)))).
  assert (Hone : ∀ pt t1, pt ∈ c_Targets prev → t1 ∈ c_Targets prev → t_IQN pt = t_IQN t1 → pt = t1).
  { intros. by apply (NoDup_key_inj t_IQN (c_Targets prev)); [apply Vp|..]. }
  constructor; cbn [d_Add d_Remove].
  - intros iqn tag ng (nt & Hnt & <- & Hng & <-). destruct (Hall nt Hnt) as [[ts r] Hs].
    destruct (Hst _ _ _ Hnt Hs) as (pt & Hpt & Hi & Hpair & _).
    destruct (Hpair ng Hng) as (pg & (Hpg & _ & Ht) & Ha). exists pg. split; [|done]. by exists pt.
  - intros iqn tag pg (pt & Hpt & <- & Hpg & <-).
    assert (Hk : t_IQN pt ∈ t_IQN <$> c_Targets next).
    { apply (NoDup_same_length (t_IQN <$> c_Targets next) (t_IQN <$> c_Targets prev)).
      - apply Vn.
      - by rewrite !length_fmap.
      - intros k (nt & Hnt & <-)%key_elem. destruct (Hall nt Hnt) as [[ts r] Hs].
        destruct (Hst _ _ _ Hnt Hs) as (pt' & Hpt' & <- & _). by apply list_elem_of_fmap_2.
      - by apply list_elem_of_fmap_2. }
    apply key_elem in Hk as (nt & Hnt & Hi). destruct (Hall nt Hnt) as [[ts r] Hs].
    destruct (Hst _ _ _ Hnt Hs) as (pt' & Hpt' & Hi' & _ & Hforth & _).
    assert (pt' = pt) as -> by (apply Hone; congruence).
    destruct (Hforth pg Hpg) as (ng & _ & Hng & Ht). exists ng, nt. done.
  - intros iqn tag g. cbn [addReferencedBackstores c_Targets]. split.
    + intros (t & Ht & <- & Hg & <-). apply list_elem_of_join in Ht as (ts & Hts & Hin).
      apply list_elem_of_fmap in Hin as ([ts' r] & -> & Hin). apply Hl in Hin as (nt & Hnt & Hs).
      destruct (Hst _ _ _ Hnt Hs) as (pt & Hpt & Hi & _ & _ & Hiqn & Hadd & _).
      destruct (proj1 (Hadd g) (ex_intro _ t (conj Hts Hg))) as (pg & ng & (Hpg & Hng & Htag) & Hd).
      assert (g_Tag g = g_Tag ng) as -> by (by injection Hd as <- _).
      rewrite (Hiqn t Hts). exists pg, ng. split_and!; [by exists pt | by exists nt | done].
    + intros (pg & ng & (pt & Hpt & Hi1 & Hpg & Ht1) & (nt & Hnt & Hi2 & Hng & Ht2) & Hd).
      destruct (Hall nt Hnt) as [[ts r] Hs].
      destruct (Hst _ _ _ Hnt Hs) as (pt' & Hpt' & Hi & _ & _ & Hiqn & Hadd & _).
      assert (pt' = pt) as -> by (apply Hone; congruence). subst iqn. rewrite <- Hi2 in Hd.
      destruct (proj2 (Hadd g)) as (t & Ht & Hg).
      { exists pg, ng. split; [|done]. split_and!; congruence. }
      exists t. split_and!; [|by rewrite (Hiqn t Ht)|done|].
      * apply list_elem_of_join. exists ts. split; [done|].
        apply list_elem_of_fmap. exists (ts, r). split; [done|]. apply Hl. eauto.
      * assert (g_Tag g = g_Tag ng) as -> by (by injection Hd as <- _). done.
  - intros r. rewrite rm_has_app, rm_has_fold.
    assert (rm_has (mkRemoveSet [] [] [] (diff_backstores range prev next).2) r ↔ False) as ->.
    { destruct r; simpl; (split; [intros Hr; inversion Hr | done]). }
    split.
    + intros [(x & Hx & Hr)|[]]. apply list_elem_of_fmap in Hx as ([ts x'] & -> & Hin).
      apply Hl in Hin as (nt & Hnt & Hs).
      destruct (Hst _ _ _ Hnt Hs) as (pt & Hpt & Hi & _ & _ & _ & _ & Hrm & _).
      destruct (proj1 (Hrm r) Hr) as (pg & ng & (Hpg & Hng & Htag) & Hd).
      exists (t_IQN nt), (g_Tag ng), pg, ng. split_and!; [by exists pt | by exists nt | done].
    + intros (iqn & tag & pg & ng & (pt & Hpt & Hi1 & Hpg & Ht1) & (nt & Hnt & Hi2 & Hng & Ht2) & Hr).
      destruct (Hall nt Hnt) as [[ts x] Hs].
      destruct (Hst _ _ _ Hnt Hs) as (pt' & Hpt' & Hi & _ & _ & _ & _ & Hrm & _).
      assert (pt' = pt) as -> by (apply Hone; congruence). subst iqn. rewrite <- Hi2 in Hr.
      left. exists x. split; [apply list_elem_of_fmap; exists (ts, x); split; [done|]; apply Hl; eauto|].
      apply Hrm. exists pg, ng. split; [|done]. split_and!; congruence.
Qed.

(** One TPG that both configurations have. *)
Section pair.
Context (prev next : Config) (d : Delta) (iqn : string) (tag : Z) (pg ng : TPG).
Context (Vp : valid_config prev) (Vn : valid_config next) (Hd : delta_tpgs prev next d).
Context (Hpg : tpg_at prev iqn tag pg) (Hng : tpg_at next iqn tag ng).

Let ag := (diffTPG range iqn pg ng).1.1.

Lemma pair_add (P : TPG → Prop) :
  (∀ g, P g → g_LUNs g ≠ [] ∨ g_ACLs g ≠ []) →
  (∃ g, tpg_at (d_Add d) iqn tag g ∧ P g) ↔ P ag.
Proof.
  intros HP. setoid_rewrite (dt_add _ _ _ Hd). split.
  - intros (g & (pg' & ng' & Hp & Hn & Hg) & Hpg').
    rewrite (tpg_at_unique prev iqn tag pg' pg), (tpg_at_unique next iqn tag ng' ng) in Hg by done.
    unfold ag. by rewrite Hg.
  - intros Ha. exists ag. split; [|done]. exists pg, ng. split_and!; [done..|].
    destruct ((diffTPG range iqn pg ng).1.2) eqn:Ec.
    + unfold ag. rewrite <- Ec. by destruct (diffTPG range iqn pg ng).1.
    + destruct (diffTPG_unchanged iqn pg ng Ec) as [E1 E2].
      fold ag in E1, E2. destruct (HP _ Ha); contradiction.
Qed.

Lemma pair_rm (r : ref) :
  match r with
  | RLun r => lf_IQN r = iqn ∧ lf_Tag r = tag
  | RAcl r => af_IQN r = iqn ∧ af_Tag r = tag
  | RMapped r => mf_IQN r = iqn ∧ mf_Tag r = tag
  end → rm_has (d_Remove d) r ↔ rm_has (diffTPG range iqn pg ng).2 r.
Proof.
  intros Hr. rewrite (dt_rm _ _ _ Hd). split; [|intros H; by exists iqn, tag, pg, ng].
  intros (iqn' & tag' & pg' & ng' & Hp & Hn & Hin).
  assert (Heq : iqn' = iqn ∧ tag' = tag).
  { destruct (diffTPG_refs (bs_Name <$> c_Backstores prev) iqn' pg' ng'
                (tpg_at_valid _ _ _ _ Vp Hp)) as (R1 & R2 & R3 & _).
    assert (g_Tag pg' = tag') by (by destruct Hp as (? & _ & _ & _ & ?)).
    destruct r; simpl in Hin;
      [destruct (R1 _ Hin) | destruct (R2 _ Hin) | destruct (R3 _ Hin)]; destruct Hr; split; congruence. }
  destruct Heq as [-> ->].
  by rewrite (tpg_at_unique prev iqn tag pg' pg), (tpg_at_unique next iqn tag ng' ng) in Hin.
Qed.

Lemma pair_tag : g_Tag pg = tag.
Proof. by destruct Hpg as (? & _ & _ & _ & ?). Qed.

Lemma pair_present c g (Vc : valid_config c) (Hg : tpg_at c iqn tag g) :
  (∀ l, present c (OLun iqn tag l) ↔ l ∈ g_LUNs g) ∧
  (∀ i, present c (OAcl iqn tag i) ↔ i ∈ acl_InitiatorIQN <$> g_ACLs g) ∧
  (∀ i m, present c (OMapped iqn tag i m) ↔ mapped_at g i m).
Proof.
  split_and!; simpl.
  - intros l. split; [|by exists g]. intros (g' & Hg' & ?). by rewrite (tpg_at_unique c iqn tag g g').
  - intros i. rewrite key_elem. split.
    + intros (g' & a & Hg' & ? & ?). exists a. by rewrite (tpg_at_unique c iqn tag g g').
    + intros (a & ? & ?). by exists g, a.
  - intros i m. split.
    + intros (g' & a & Hg' & ?). exists a. by rewrite (tpg_at_unique c iqn tag g g').
    + intros (a & ?). by exists g, a.
Qed.

Lemma pair_added :
  (∀ l, present (d_Add d) (OLun iqn tag l) ↔ l ∈ g_LUNs ag) ∧
  (∀ i, present (d_Add d) (OAcl iqn tag i) ↔ i ∈ acl_InitiatorIQN <$> g_ACLs ag) ∧
  (∀ i m, present (d_Add d) (OMapped iqn tag i m) ↔ mapped_at ag i m).
Proof.
  split_and!; simpl.
  - intros l. apply (pair_add (λ g, l ∈ g_LUNs g)). intros g Hl. left. by intros E; rewrite E in Hl; inversion Hl.
  - intros i. rewrite key_elem.
    etransitivity; [|apply (pair_add (λ g, ∃ a, a ∈ g_ACLs g ∧ acl_InitiatorIQN a = i))]; [naive_solver|].
    intros g (a & Ha & _). right. by intros E; rewrite E in Ha; inversion Ha.
  - intros i m. etransitivity; [|apply (pair_add (λ g, mapped_at g i m))]; [unfold mapped_at; naive_solver|].
    intros g (a & Ha & _). right. by intros E; rewrite E in Ha; inversion Ha.
Qed.

Lemma pair_removed :
  (∀ l, removed (d_Remove d) (OLun iqn tag l) ↔
        mkLUNRef iqn (g_Tag pg) (l_Index l) ∈ rm_LUNs (diffTPG range iqn pg ng).2) ∧
  (∀ i, removed (d_Remove d) (OAcl iqn tag i) ↔
        mkACLRef iqn (g_Tag pg) i ∈ rm_ACLs (diffTPG range iqn pg ng).2) ∧
  (∀ i m, removed (d_Remove d) (OMapped iqn tag i m) ↔
        (mkMappedLUNRef iqn (g_Tag pg) i (ml_Index m) ∈ rm_MappedLUNs (diffTPG range iqn pg ng).2
         ∨ mkACLRef iqn (g_Tag pg) i ∈ rm_ACLs (diffTPG range iqn pg ng).2)).
Proof.
  rewrite pair_tag. split_and!.
  - intros l. by apply (pair_rm (RLun (mkLUNRef iqn tag (l_Index l)))).
  - intros i. by apply (pair_rm (RAcl (mkACLRef iqn tag i))).
  - intros i m. pose proof (pair_rm (RAcl (mkACLRef iqn tag i)) (conj eq_refl eq_refl)) as H1.
    pose proof (pair_rm (RMapped (mkMappedLUNRef iqn tag i (ml_Index m))) (conj eq_refl eq_refl)) as H2.
    simpl in *. by rewrite H1, H2.
Qed.
End pair.

(** The overwriting condition, object by object. *)
Lemma overwritten_lun c iqn tag l :
  (∃ o', present c o' ∧ id_of o' = id_of (OLun iqn tag l)) ↔
  ∃ l', present c (OLun iqn tag l') ∧ l_Index l' = l_Index l.
Proof.
  split; [|intros (l' & ? & Hi); exists (OLun iqn tag l'); split; [done|]; simpl; congruence].
  intros (o' & Hp & Hid). destruct o'; try discriminate Hid. injection Hid as -> -> Hi. eauto.
Qed.
Lemma overwritten_acl c iqn tag i :
  (∃ o', present c o' ∧ id_of o' = id_of (OAcl iqn tag i)) ↔ present c (OAcl iqn tag i).
Proof.
  split; [|intros ?; by exists (OAcl iqn tag i)].
  intros (o' & Hp & Hid). destruct o'; try discriminate Hid. by injection Hid as -> -> ->.
Qed.
Lemma overwritten_mapped c iqn tag i m :
  (∃ o', present c o' ∧ id_of o' = id_of (OMapped iqn tag i m)) ↔
  ∃ m', present c (OMapped iqn tag i m') ∧ ml_Index m' = ml_Index m.
Proof.
  split; [|intros (m' & ? & Hi); exists (OMapped iqn tag i m'); split; [done|]; simpl; congruence].
  intros (o' & Hp & Hid). destruct o'; try discriminate Hid. injection Hid as -> -> -> Hi. eauto.
Qed.
Lemma overwritten_backstore c b :
  (∃ o', present c o' ∧ id_of o' = id_of (OBackstore b)) ↔
  ∃ b', b' ∈ c_Backstores c ∧ backstoreKey b' = backstoreKey b.
Proof.
  split; [|intros (b' & ? & Hi); exists (OBackstore b'); split; [done|]; simpl; congruence].
  intros (o' & Hp & Hid). destruct o'; try discriminate Hid. injection Hid as Hi. eauto.
Qed.

(** Where neither configuration has a TPG, the delta is silent. *)
Lemma absent_tpg prev next d iqn tag :
  delta_tpgs prev next d → (¬ ∃ g, tpg_at next iqn tag g) →
  (¬ ∃ g, tpg_at prev iqn tag g) ∧ ¬ ∃ g, tpg_at (d_Add d) iqn tag g.
Proof.
  intros Hd Hno. split.
  - intros (g & Hg). destruct (dt_forth _ _ _ Hd _ _ _ Hg) as (ng & Hn). eauto.
  - intros (g & Hg). apply (dt_add _ _ _ Hd) in Hg as (pg & ng & _ & Hn & _). eauto.
Qed.

Lemma tpg_at_dec c iqn tag : (∃ g, tpg_at c iqn tag g) ∨ ¬ ∃ g, tpg_at c iqn tag g.
Proof.
  destruct (decide (List.Exists (λ t, t_IQN t = iqn ∧ List.Exists (λ g, g_Tag g = tag) (t_TPGs t)) (c_Targets c)))
    as [Hy|Hn].
  - left. apply Exists_exists in Hy as (t & Ht & Hi & Hg). apply Exists_exists in Hg as (g & ? & ?).
    by exists g, t.
  - right. intros (g & t & Ht & Hi & Hg & Htag). apply Hn, Exists_exists. exists t.
    split_and!; [done..|]. apply Exists_exists. eauto.
Qed.

Lemma after_next prev next d o :
  valid_config prev → valid_config next → Diff range prev next = Some d →
  after d prev o ↔ present next o.
Proof.
  intros Vp Vn HD. pose proof (Diff_tpgs prev next d Vp Vn HD) as Hd. unfold after.
  destruct o as [b|iqn tag l|iqn tag i|iqn tag i m].
  { rewrite overwritten_backstore. simpl. by rewrite (Diff_backstores prev next d b Vp Vn HD). }
  all: destruct (tpg_at_dec next iqn tag) as [(ng & Hng)|Hno];
    [|destruct (absent_tpg prev next d iqn tag Hd Hno); simpl; split; naive_solver].
  all: destruct (dt_back _ _ _ Hd _ _ _ Hng) as (pg & Hpg & _);
    destruct (pair_present iqn tag prev pg Vp Hpg) as (P1 & P2 & P3);
    destruct (pair_present iqn tag next ng Vn Hng) as (N1 & N2 & N3);
    destruct (pair_added prev next d iqn tag pg ng Vp Vn Hd Hpg Hng) as (A1 & A2 & A3);
    destruct (pair_removed prev next d iqn tag pg ng Vp Vn Hd Hpg Hng) as (R1 & R2 & R3);
    pose proof (tpg_at_valid _ _ _ _ Vp Hpg) as Tp;
    pose proof (ex_intro (λ n, valid_tpg n ng) _ (tpg_at_valid _ _ _ _ Vn Hng)) as Tn.
  - rewrite overwritten_lun, P1, N1, R1. setoid_rewrite A1.
    symmetry. exact (diffTPG_luns _ iqn pg ng Tp Tn l).
  - rewrite overwritten_acl, P2, N2, R2. setoid_rewrite A2.
    symmetry. exact (diffTPG_acls _ iqn pg ng Tp Tn i).
  - rewrite overwritten_mapped, P3, N3, R3. setoid_rewrite A3.
    symmetry. exact (diffTPG_mapped _ iqn pg ng Tp Tn i m).
Qed.

(** ** The delta is self-contained *)

Lemma add_reference_covers byName names : (∀ n b, byName !! n = Some b → bs_Name b = n) →
  ∀ acc n, n ∈ names → is_Some (byName !! n) →
  n ∈ bs_Name <$> foldl (add_reference byName) acc names.
Proof.
  intros Hname. induction names as [|m names IH]; intros acc n Hn Hb; [inversion Hn|]. simpl.
  apply elem_of_cons in Hn as [->|Hn]; [|by apply IH].
  assert (Hin : m ∈ bs_Name <$> add_reference byName acc m).
  { unfold add_reference. case_bool_decide as Hd; [done|].
    destruct Hb as [b Hb]. rewrite Hb, fmap_app, elem_of_app. right. simpl.
    rewrite (Hname _ _ Hb). by left. }
  apply key_elem in Hin as (b & Hin & <-). apply list_elem_of_fmap_2. by apply add_reference_mono.
Qed.

Lemma lun_refs_elem c n :
  n ∈ lun_refs c ↔ ∃ t g l, t ∈ c_Targets c ∧ g ∈ t_TPGs t ∧ l ∈ g_LUNs g ∧ n = l_Backstore l.
Proof.
  unfold lun_refs. rewrite list_elem_of_bind. setoid_rewrite list_elem_of_bind.
  setoid_rewrite list_elem_of_fmap. naive_solver.
Qed.

Lemma Diff_add_shape prev next d :
  valid_config prev → valid_config next → Diff range prev next = Some d →
  ∀ iqn tag g, tpg_at (d_Add d) iqn tag g →
    g_Portals g = [] ∧ g_Attributes g = ∅ ∧
    (∃ ng, tpg_at next iqn tag ng ∧ g_Enable g = g_Enable ng ∧
       ∀ l, l ∈ g_LUNs g → l ∈ g_LUNs ng) ∧
    ∀ l, l ∈ g_LUNs g → l_Backstore l ∈ bs_Name <$> c_Backstores (d_Add d).
Proof.
  intros Vp Vn HD iqn tag g Hg. pose proof (Diff_tpgs prev next d Vp Vn HD) as Hd.
  pose proof (proj1 (dt_add _ _ _ Hd _ _ _) Hg) as (pg & ng & Hpg & Hng & Hdg).
  assert (Hsub : ∀ l, l ∈ g_LUNs g → l ∈ g_LUNs ng).
  { injection Hdg as <- _. intros l Hl. by apply list_elem_of_filter in Hl as [_ ?]. }
  split_and!.
  - by injection Hdg as <- _.
  - by injection Hdg as <- _.
  - exists ng. split_and!; [done| |done]. by injection Hdg as <- _.
  - intros l Hl.
    pose proof (vg_luns _ _ (tpg_at_valid _ _ _ _ Vn Hng)) as HF. rewrite Forall_forall in HF.
    destruct (HF l (Hsub l Hl)) as [_ (b & Hb & Hname)%key_elem].
    destruct Hg as (t & Ht & _ & Hgt & _).
    revert HD Ht. unfold Diff. destruct (existsb _ _); [done|].
    destruct (negb _); [done|]. destruct (mapM _ _) as [tl|] eqn:Em; [|done]. intros [= <-].
    cbn [d_Add addReferencedBackstores c_Backstores c_Targets]. intros Ht.
    apply add_reference_covers.
    + intros n b' Hb'. by apply to_map_Some in Hb' as [_ ?]; [|apply Vn].
    + apply lun_refs_elem. by exists t, g, l.
    + exists b. apply to_map_Some; [apply Vn | done].
Qed.

(** ** Nothing changed, nothing to do *)

Lemma changed_self {A B} `{EqDecision A, Countable B} (key : A → B) (l : list A) :
  NoDup (key <$> l) → filter (λ a, changed_from key (to_map key l) a = true) l = [].
Proof.
  intros Hd. assert (Hno : ∀ x, x ∉ filter (λ a, changed_from key (to_map key l) a = true) l).
  { intros x [Hc Hx]%list_elem_of_filter. unfold changed_from in Hc.
    rewrite (proj2 (to_map_Some key l (key x) x Hd)) in Hc by done.
    rewrite bool_decide_eq_true_2 in Hc; done. }
  destruct (filter _ l) as [|y ys]; [done|]. exfalso. apply (Hno y). by left.
Qed.
Lemma gone_self {A B} `{Countable B} (key : A → B) (l : list A) :
  filter (λ k, absent_from key l k = true) (range _ (map_to_list (to_map key l)).*1) = [].
Proof.
  assert (Hno : ∀ x, x ∉ filter (λ k, absent_from key l k = true) (range _ (map_to_list (to_map key l)).*1)).
  { intros x [? ?]%gone_spec. done. }
  destruct (filter _ _) as [|y ys]; [done|]. exfalso. apply (Hno y). by left.
Qed.

Lemma mjoin_nil {A B} (f : A → list B) l : (∀ x, x ∈ l → f x = []) → mjoin (f <$> l) = [].
Proof.
  induction l as [|x l IH]; [done|]. intros Hf. simpl. rewrite (Hf x) by (by left).
  apply IH. intros y Hy. apply Hf. by right.
Qed.
Lemma mapM_const {A B} (f : A → option B) (y : B) l :
  (∀ x, x ∈ l → f x = Some y) → mapM f l = Some ((λ _, y) <$> l).
Proof.
  intros Hf. apply mapM_Some_2. induction l as [|x l IH]; constructor.
  - apply Hf. by left.
  - apply IH. intros z Hz. apply Hf. by right.
Qed.
Lemma empty_results {A} (B : Type) (l : list A) :
  mjoin ((λ _, (@nil B, emptyRemove)) <$> l).*1 = [] ∧
  foldr rm_app emptyRemove ((λ _, (@nil B, emptyRemove)) <$> l).*2 = emptyRemove.
Proof.
  induction l as [|x l [IH1 IH2]]; [done|]. split; [exact IH1|].
  change (rm_app emptyRemove (foldr rm_app emptyRemove ((λ _, (@nil B, emptyRemove)) <$> l).*2)
          = emptyRemove). by rewrite IH2.
Qed.

Lemma diffACL_self iqn tag acls a :
  NoDup (acl_InitiatorIQN <$> acls) → NoDup (ml_Index <$> acl_MappedLUNs a) → a ∈ acls →
  diffACL range iqn tag (to_map acl_InitiatorIQN acls) a = ([], []).
Proof.
  intros Hd Hm Ha. unfold diffACL. rewrite (proj2 (to_map_Some acl_InitiatorIQN acls _ a Hd)) by done.
  by rewrite changed_self, gone_self.
Qed.

Lemma diffTPG_self names iqn g :
  valid_tpg names g → (diffTPG range iqn g g).1.2 = false ∧ (diffTPG range iqn g g).2 = emptyRemove.
Proof.
  intros V. unfold diffTPG. cbn [fst snd].
  pose proof (vg_acls _ _ V) as HF. rewrite Forall_forall in HF.
  assert (Hacl : ∀ a, a ∈ g_ACLs g →
    diffACL range iqn (g_Tag g) (to_map acl_InitiatorIQN (g_ACLs g)) a = ([], [])).
  { intros a Ha. apply diffACL_self; [apply V | apply (HF a Ha) | done]. }
  assert (Hper : ∀ B (pr : list ACL * list MappedLUNRef → list B), pr ([], []) = [] →
    mjoin (pr <$> (diffACL range iqn (g_Tag g) (to_map acl_InitiatorIQN (g_ACLs g)) <$> g_ACLs g)) = []).
  { intros B pr Hpr. rewrite <- list_fmap_compose. apply mjoin_nil. intros a Ha. simpl. by rewrite Hacl. }
  rewrite (changed_self l_Index), !(Hper _ fst), !(Hper _ snd), !gone_self by (done || apply V).
  done.
Qed.

Lemma samePortals_refl l : samePortals l l = true.
Proof.
  unfold samePortals. rewrite Nat.eqb_refl. apply forallb_forall. intros p _. apply Nat.eqb_refl.
Qed.

Lemma diff_tpg_step_self names iqn tpgs g :
  NoDup (g_Tag <$> tpgs) → valid_tpg names g → g ∈ tpgs →
  diff_tpg_step range iqn (to_map g_Tag tpgs) g = Some ([], emptyRemove).
Proof.
  intros Hd V Hg. unfold diff_tpg_step. rewrite (proj2 (to_map_Some g_Tag tpgs _ g Hd)) by done.
  rewrite eqb_reflx, (proj2 (sameStringMap_eq _ _)), samePortals_refl by done.
  cbn [orb negb]. destruct (diffTPG_self names iqn g V) as [H1 H2].
  destruct (diffTPG range iqn g g) as [[ag ch] rm]. simpl in H1, H2. by rewrite H1, H2.
Qed.

Lemma diff_target_step_self names ts t :
  NoDup (t_IQN <$> ts) → valid_target names t → t ∈ ts →
  diff_target_step range (to_map t_IQN ts) t = Some ([], emptyRemove).
Proof.
  intros Hd V Ht. unfold diff_target_step. rewrite (proj2 (to_map_Some t_IQN ts _ t Hd)) by done.
  rewrite Nat.eqb_refl. simpl.
  pose proof (vt_tpgs _ _ V) as HF. rewrite Forall_forall in HF.
  rewrite (mapM_const _ ([], emptyRemove)).
  - by destruct (empty_results TPG (t_TPGs t)) as [-> ->].
  - intros g Hg. eapply diff_tpg_step_self; [apply V | by apply HF | done].
Qed.

Lemma movedIdentity_self c b :
  valid_config c → b ∈ c_Backstores c → movedIdentity (to_map backstoreKey (c_Backstores c)) b = false.
Proof.
  intros V Hb. unfold movedIdentity. apply not_true_iff_false. intros Hx.
  apply existsb_exists in Hx as ([k p] & Hin & Hx). simpl in Hx.
  rewrite <- list_elem_of_In, elem_of_map_to_list in Hin.
  apply to_map_Some in Hin as [Hp <-]; [|apply NoDup_backstoreKey; apply V].
  apply andb_true_iff in Hx as [Hname%String.eqb_eq Hk%negb_true_iff%String.eqb_neq].
  apply Hk. f_equal. apply (NoDup_key_inj bs_Name (c_Backstores c)); [apply V | done..].
Qed.

Lemma Diff_same c : valid_config c → Diff range c c = Some (mkDelta emptyConfig emptyRemove).
Proof.
  intros V. unfold Diff, diff_backstores.
  pose proof (NoDup_backstoreKey _ (vc_backstores _ V) (vc_names _ V)) as Dk.
  assert (existsb (movedIdentity (to_map backstoreKey (c_Backstores c))) (c_Backstores c) = false) as ->.
  { apply not_true_iff_false. intros (b & Hb & Hm)%existsb_exists.
    rewrite <- list_elem_of_In in Hb. rewrite movedIdentity_self in Hm; done. }
  rewrite Nat.eqb_refl. cbn [negb].
  pose proof (vc_targets _ V) as HF. rewrite Forall_forall in HF.
  rewrite (mapM_const _ ([], emptyRemove)).
  2: { intros t Ht. eapply diff_target_step_self; [apply V | by apply HF | done]. }
  destruct (empty_results Target (c_Targets c)) as [-> ->].
  assert (filter (λ b, changedBackstore (to_map backstoreKey (c_Backstores c)) b = true) (c_Backstores c) = [])
    as ->.
  { assert (Hno : ∀ b, b ∈ c_Backstores c → changedBackstore (to_map backstoreKey (c_Backstores c)) b = false).
    { intros b Hb. unfold changedBackstore.
      rewrite (proj2 (to_map_Some backstoreKey _ _ b Dk)) by done.
      by rewrite (proj2 (backstoreEqual_eq b b)). }
    destruct (filter _ _) as [|y ys] eqn:Ef; [done|].
    assert (Hy : y ∈ y :: ys) by (by left). rewrite <- Ef in Hy.
    apply list_elem_of_filter in Hy as [Hc Hy]. rewrite Hno in Hc; done. }
  assert (filter (λ kb : string * Backstore, absent_from backstoreKey (c_Backstores c) kb.1 = true)
            (range (string * Backstore) (map_to_list (to_map backstoreKey (c_Backstores c)))) = []) as ->.
  { destruct (filter _ _) as [|[k y] ys] eqn:Ef; [done|].
    assert (Hy : (k, y) ∈ (k, y) :: ys) by (by left). rewrite <- Ef in Hy.
    apply list_elem_of_filter in Hy as [Hc Hy]. rewrite range_perm, elem_of_map_to_list in Hy.
    apply to_map_Some in Hy as [Hy <-]; [|done]. unfold absent_from in Hc.
    rewrite bool_decide_eq_true_2 in Hc; [done|].
    exact (list_elem_of_fmap_2 backstoreKey _ _ Hy). }
  done.
Qed.
End range.

(** ** The properties *)

(** C13. A delta is exact. Applying to the objects of the previous configuration
    what ApplyDelta does with a delta computed by [Diff] — create or overwrite
    what [Add] names, then remove what [Remove] names — yields exactly the
    objects of the next one: every backstore with all its settings, every LUN
    with its backstore, every ACL and every mapped LUN with its TPG LUN and
    write protection. Nothing is forgotten, left behind or removed by mistake,
    whatever order the runtime ranges over its maps in. *)
Theorem Diff_exact (range : ∀ A, list A → list A) (prev next : Config) (d : Delta) (o : obj)
    (Hrange : ∀ A (l : list A), range A l ≡ₚ l)
    (Hprev : Config_Validate prev = Ok tt) (Hnext : Config_Validate next = Ok tt)
    (HD : Diff range prev next = Some d) :
  after d prev o ↔ present next o.
Proof.
  apply Config_Validate_spec in Hprev, Hnext. by apply (after_next range Hrange).
Qed.

(** A delta refuses what it cannot express. When [Diff] answers, the two
    configurations have the same targets and TPGs, and each pair of TPGs has
    the same enable flag, the same attributes and the same portals — so a
    caller that falls back to Sync on refusal never misses such a change. *)
Theorem Diff_structure (range : ∀ A, list A → list A) (prev next : Config) (d : Delta)
    (Hprev : Config_Validate prev = Ok tt) (Hnext : Config_Validate next = Ok tt)
    (HD : Diff range prev next = Some d) :
  (∀ iqn tag pg, tpg_at prev iqn tag pg → ∃ ng, tpg_at next iqn tag ng) ∧
  ∀ iqn tag ng, tpg_at next iqn tag ng → ∃ pg, tpg_at prev iqn tag pg ∧
    g_Enable pg = g_Enable ng ∧ g_Attributes pg = g_Attributes ng ∧
    length (g_Portals pg) = length (g_Portals ng) ∧
    ∀ p, p ∈ g_Portals pg ++ g_Portals ng →
      count_key (Portal_key p) (g_Portals pg) = count_key (Portal_key p) (g_Portals ng).
Proof.
  apply Config_Validate_spec in Hprev, Hnext.
  pose proof (Diff_tpgs range prev next d Hprev Hnext HD) as Hd.
  split; [apply (dt_forth _ _ _ _ Hd)|]. intros iqn tag ng Hng.
  destruct (dt_back _ _ _ _ Hd _ _ _ Hng) as (pg & Hpg & He & Ha%sameStringMap_eq & Hp).
  exists pg. unfold samePortals in Hp. apply andb_true_iff in Hp as [Hl%Nat.eqb_eq Hp].
  split_and!; [done..|]. intros p Hin. rewrite forallb_forall in Hp.
  apply Nat.eqb_eq, Hp. by apply list_elem_of_In.
Qed.

(** The additions of a delta can be applied on their own. Every LUN in
    [Add] comes with the backstore it names, and a TPG in [Add] carries the
    enable flag of the desired one while naming no portal and no attribute —
    so applying it neither fails on an unknown backstore nor disables the
    target nor touches what did not change. *)
Theorem Diff_add_self_contained (range : ∀ A, list A → list A) (prev next : Config) (d : Delta)
    (iqn : string) (tag : Z) (g : TPG)
    (Hprev : Config_Validate prev = Ok tt) (Hnext : Config_Validate next = Ok tt)
    (HD : Diff range prev next = Some d) (Hg : tpg_at (d_Add d) iqn tag g) :
  g_Portals g = [] ∧ g_Attributes g = ∅ ∧
  (∃ ng, tpg_at next iqn tag ng ∧ g_Enable g = g_Enable ng ∧ ∀ l, l ∈ g_LUNs g → l ∈ g_LUNs ng) ∧
  ∀ l, l ∈ g_LUNs g → l_Backstore l ∈ bs_Name <$> c_Backstores (d_Add d).
Proof.
  apply Config_Validate_spec in Hprev, Hnext.
  exact (Diff_add_shape range prev next d Hprev Hnext HD iqn tag g Hg).
Qed.

(** Reconciling a valid configuration with itself is a no-op: [Diff]
    accepts it and answers the empty delta. *)
Theorem Diff_self (range : ∀ A, list A → list A) (c : Config)
    (Hrange : ∀ A (l : list A), range A l ≡ₚ l) (Hc : Config_Validate c = Ok tt) :
  ∃ d, Diff range c c = Some d ∧ Delta_Empty d = true.
Proof.
  apply Config_Validate_spec in Hc. eexists. split; [by apply Diff_same | done].
Qed.

(** ** Witnesses: a volume resized, one detached, one attached *)

Definition vol (name : string) (size : Z) : Backstore :=
  mkBackstore FileIO 0 name ("/v/" +:+ name) false size "" "" "" "" ∅.
Definition host (n : string) (mls : list MappedLUN) : ACL := mkACL ("iqn.2024-01.h:" +:+ n) mls.
Definition demo_cfg (bs : list Backstore) (luns : list LUN) (acls : list ACL) : Config :=
  mkConfig bs [mkTarget "iqn.2024-01.x:t" [mkTPG 1 true [] luns acls ∅]].
Definition demo_prev : Config :=
  demo_cfg [vol "a" 1024; vol "b" 1024] [mkLUN 0 "a"; mkLUN 1 "b"]
    [host "one" [mkMappedLUN 0 0 false; mkMappedLUN 1 1 false]; host "two" [mkMappedLUN 0 0 true]].
Definition demo_next : Config :=
  demo_cfg [vol "a" 2048; vol "c" 1024] [mkLUN 0 "a"; mkLUN 2 "c"]
    [host "one" [mkMappedLUN 0 0 false; mkMappedLUN 5 2 true]].
Definition id_range : ∀ A, list A → list A := λ _ l, l.
Definition demo_delta : Delta :=
  mkDelta (demo_cfg [vol "a" 2048; vol "c" 1024] [mkLUN 2 "c"] [host "one" [mkMappedLUN 5 2 true]])
    (mkRemoveSet [mkMappedLUNRef "iqn.2024-01.x:t" 1 "iqn.2024-01.h:one" 1]
       [mkACLRef "iqn.2024-01.x:t" 1 "iqn.2024-01.h:two"] [mkLUNRef "iqn.2024-01.x:t" 1 1]
       [vol "b" 1024]).

Lemma Diff_exact_witness :
  after demo_delta demo_prev (OBackstore (vol "a" 2048)) ↔ present demo_next (OBackstore (vol "a" 2048)).
Proof.
  apply (Diff_exact id_range); [done | vm_compute; reflexivity..].
Defined.

Lemma Diff_structure_witness :
  (∀ iqn tag pg, tpg_at demo_prev iqn tag pg → ∃ ng, tpg_at demo_next iqn tag ng) ∧
  ∀ iqn tag ng, tpg_at demo_next iqn tag ng → ∃ pg, tpg_at demo_prev iqn tag pg ∧
    g_Enable pg = g_Enable ng ∧ g_Attributes pg = g_Attributes ng ∧
    length (g_Portals pg) = length (g_Portals ng) ∧
    ∀ p, p ∈ g_Portals pg ++ g_Portals ng →
      count_key (Portal_key p) (g_Portals pg) = count_key (Portal_key p) (g_Portals ng).
Proof.
  apply (Diff_structure id_range demo_prev demo_next demo_delta); vm_compute; reflexivity.
Defined.

Lemma Diff_add_self_contained_witness :
  let g := mkTPG 1 true [] [mkLUN 2 "c"] [host "one" [mkMappedLUN 5 2 true]] ∅ in
  g_Portals g = [] ∧ g_Attributes g = ∅ ∧
  (∃ ng, tpg_at demo_next "iqn.2024-01.x:t" 1 ng ∧ g_Enable g = g_Enable ng
         ∧ ∀ l, l ∈ g_LUNs g → l ∈ g_LUNs ng) ∧
  ∀ l, l ∈ g_LUNs g → l_Backstore l ∈ bs_Name <$> c_Backstores (d_Add demo_delta).
Proof.
  intros g. apply (Diff_add_self_contained id_range demo_prev demo_next demo_delta);
    [vm_compute; reflexivity.. |].
  eexists. split; [by left|]. split; [reflexivity|]. split; [by left | reflexivity].
Defined.

Lemma Diff_self_witness : ∃ d, Diff id_range demo_prev demo_prev = Some d ∧ Delta_Empty d = true.
Proof. apply Diff_self; [done | vm_compute; reflexivity]. Defined.
