(* ===== verification/AppModel.v ===== *)
(** * appliance: the database, its lookups, names and errors

    appliance/model.go, name.go, errcode.go and the error type of ops.go. The
    records of [db] are pointers in the source, each held by one slice only;
    they are values here, and a write through a pointer found by a lookup is
    an update of the first record the lookup finds. The text of an error is
    kept as its format (abbreviated after the first clause when it is a
    paragraph for the operator) and arguments; status, code and wrapped cause,
    on which callers branch, are kept in full. *)

From S2P Require Import Prelude GoStrings Errors Netip LioModel.

(** ** Errors *)

Inductive aerr : Type :=
  (* *StatusError: Code, Reason, the message and Err; [shown] are the errors
     the message prints *)
  | AStatus (status : Z) (reason : string) (fmt : string) (args : list string)
      (shown : list aerr) (cause : option aerr)
  (* fmt.Errorf or errors.New *)
  | AMsg (fmt : string) (args : list string)
  | AWrap (fmt : string) (args : list string) (cause : aerr)
  (* an error of lio or of the os package *)
  | ALio (e : goerr)
  (* the package's sentinels and *identityConflictError *)
  | APersistedNotDurable
  | AClearVerify
  | AIdentityConflict (recorded actual dbPath : string).

Definition StatusBadRequest : Z := 400.
Definition StatusNotFound : Z := 404.
Definition StatusConflict : Z := 409.
Definition StatusInternalServerError : Z := 500.
Definition StatusServiceUnavailable : Z := 503.

Definition CodeNotFound : string := "not_found".
Definition CodeAlreadyExists : string := "already_exists".
Definition CodeConfigurationMismatch : string := "configuration_mismatch".
Definition CodeResourceConnected : string := "resource_connected".
Definition CodeLUNConflict : string := "lun_conflict".
Definition CodeInvalidInput : string := "invalid_input".
Definition CodeUnsupportedState : string := "unsupported_state".
Definition CodeReconcileFailed : string := "reconcile_failed".
Definition CodeInternal : string := "internal".
Definition CodeNameTaken : string := "name_taken".
Definition CodeLUNRequired : string := "lun_required".
Definition CodeClearUnverified : string := "clear_unverified".
Definition CodeFenceDropped : string := "fence_dropped".
Definition CodeFenceUnknown : string := "fence_unknown".

Definition codeForStatus (status : Z) : string :=
  if status =? StatusNotFound then CodeNotFound
  else if status =? StatusBadRequest then CodeInvalidInput
  else if status =? StatusConflict then CodeUnsupportedState
  else if status =? StatusServiceUnavailable then CodeReconcileFailed
  else CodeInternal.

Definition statusErr (code : Z) (fmt : string) (args : list string) (shown : list aerr) : aerr :=
  AStatus code "" fmt args shown None.
Definition statusErrCode (status : Z) (code fmt : string) (args : list string) : aerr :=
  AStatus status code fmt args [] None.
Definition statusErrWrap (status : Z) (reason : string) (cause : aerr) (fmt : string)
    (args : list string) (shown : list aerr) : aerr :=
  AStatus status reason fmt args shown (Some cause).
(** [StatusError.ErrorCode]. *)
Definition ErrorCode (status : Z) (reason : string) : string :=
  if negb (String.eqb reason "") then reason else codeForStatus status.

(** [errors.Is(err, errPersistedNotDurable)]: down the chain of [Unwrap]. *)
Fixpoint is_not_durable (e : aerr) : bool :=
  match e with
  | APersistedNotDurable => true
  | AWrap _ _ c => is_not_durable c
  | AStatus _ _ _ _ _ (Some c) => is_not_durable c
  | _ => false
  end.
(** The code of an error that is a [*StatusError]. *)
Definition code_of (e : aerr) : option string :=
  match e with AStatus st r _ _ _ _ => Some (ErrorCode st r) | _ => None end.

(** ** Names (name.go) *)

Definition maxNameLen : Z := 128.
Definition name_rune_ok (r : Z) : bool :=
  negb (r =? 47) && negb ((r <? 0x20) || (r =? 0x7f)) && negb (IsSpace r && negb (r =? 32)).
Definition validName (name : string) : result aerr unit :=
  if String.eqb name "" then Err (AMsg "name is required" [])
  else if maxNameLen <? slen name
  then Err (AMsg "name is %d bytes, over the %d-byte limit" [itoa (slen name); itoa maxNameLen])
  else if negb (String.eqb (TrimSpace name) name)
  then Err (AMsg "name %q has leading or trailing whitespace" [name])
  else if String.eqb name "." || String.eqb name ".."
  then Err (AMsg "name %q is reserved" [name])
  else
    rfor (λ r : Z * string,
      if r.1 =? 47 then Err (AMsg "name %q contains a path separator" [name])
      else if (r.1 <? 0x20) || (r.1 =? 0x7f)
      then Err (AMsg "name %q contains a control character (%#U)" [name; itoa r.1])
      else if IsSpace r.1 && negb (r.1 =? 32)
      then Err (AMsg "name %q contains whitespace other than a space (%#U)" [name; itoa r.1])
      else Ok tt) (runes name).
Definition checkName (name : string) : result aerr unit :=
  match validName name with
  | Err e => Err (AStatus StatusBadRequest CodeInvalidInput "%s" [] [e] None)
  | Ok _ => Ok tt
  end.
Definition nameTaken (what name : string) : aerr :=
  statusErrCode StatusConflict CodeNameTaken "a %s named %q already exists" [what; name].
Definition notFound (what ref : string) : aerr :=
  statusErrCode StatusNotFound CodeNotFound "%s %q not found" [what; ref].

(** ** The object model (model.go) *)

(** [Kind] is a string in the source: a decoded document may hold any. *)
Definition KindVolume : string := "volume".
Definition KindSnapshot : string := "snapshot".
Definition stateReady : string := "ready".
Definition stateMissing : string := "missing".

Record Object := mkObject {
  o_UUID : string; o_Name : string; o_Kind : string; o_WWN : string;
  o_Capacity : Z;             (* int64 *)
  o_BlockSize : Z;
  o_Created : string;         (* time.Time, as it is rendered in the document *)
  o_State : string; o_Source : string
}.
Record Host := mkHost { h_UUID : string; h_Name : string; h_IQNs : list string }.
Record Connection := mkConnection { cn_ObjectUUID : string; cn_HostUUID : string; cn_LUN : Z }.
#[global] Instance Object_eq_dec : EqDecision Object.
Proof. solve_decision. Defined.
#[global] Instance Host_eq_dec : EqDecision Host.
Proof. solve_decision. Defined.
#[global] Instance Connection_eq_dec : EqDecision Connection.
Proof. solve_decision. Defined.

(** The durable document. A null entry of a list can be decoded from a file,
    so [Loaded] below has options; once validated the records are there. *)
Record db := mkDb {
  db_Version : Z;
  db_Objects : list Object;
  db_Hosts : list Host;
  db_Connections : list Connection;
  db_Exports : gmap string Z;
  db_Portals : list Portal;
  db_TargetIQN : string;
  db_MachineID : string
}.
Definition dbVersion : Z := 1.
Definition maxLUN : Z := 16383.

(** What the JSON decoder may leave: null records, and no [Exports] map. *)
Record Loaded := mkLoaded {
  ld_Version : Z;
  ld_Objects : list (option Object);
  ld_Hosts : list (option Host);
  ld_Connections : list (option Connection);
  ld_Exports : option (gmap string Z);
  ld_Portals : list Portal;
  ld_TargetIQN : string;
  ld_MachineID : string
}.

Definition with_Objects v d := mkDb (db_Version d) v (db_Hosts d) (db_Connections d) (db_Exports d)
  (db_Portals d) (db_TargetIQN d) (db_MachineID d).
Definition with_Hosts v d := mkDb (db_Version d) (db_Objects d) v (db_Connections d) (db_Exports d)
  (db_Portals d) (db_TargetIQN d) (db_MachineID d).
Definition with_Connections v d := mkDb (db_Version d) (db_Objects d) (db_Hosts d) v (db_Exports d)
  (db_Portals d) (db_TargetIQN d) (db_MachineID d).
Definition with_Exports v d := mkDb (db_Version d) (db_Objects d) (db_Hosts d) (db_Connections d) v
  (db_Portals d) (db_TargetIQN d) (db_MachineID d).
Definition with_Portals v d := mkDb (db_Version d) (db_Objects d) (db_Hosts d) (db_Connections d)
  (db_Exports d) v (db_TargetIQN d) (db_MachineID d).
Definition with_Identity iqn mid d := mkDb (db_Version d) (db_Objects d) (db_Hosts d)
  (db_Connections d) (db_Exports d) (db_Portals d) iqn mid.

(** [for _, x := range l { if p(x) { return x } }; return nil]. *)
Definition first {A} (p : A → bool) (l : list A) : option A := head (filter (λ x, p x = true) l).

Definition object (d : db) (uuid : string) : option Object :=
  first (λ o, String.eqb (o_UUID o) uuid) (db_Objects d).
Definition objectByName (d : db) (kind name : string) : option Object :=
  first (λ o, String.eqb (o_Kind o) kind && String.eqb (o_Name o) name) (db_Objects d).
Definition resolveObject (d : db) (kind ref : string) : option Object :=
  match objectByName d kind ref with
  | Some o => Some o
  | None =>
      match object d ref with
      | Some o => if String.eqb (o_Kind o) kind then Some o else None
      | None => None
      end
  end.
Definition host (d : db) (uuid : string) : option Host :=
  first (λ h, String.eqb (h_UUID h) uuid) (db_Hosts d).
Definition hostByName (d : db) (name : string) : option Host :=
  first (λ h, String.eqb (h_Name h) name) (db_Hosts d).
Definition resolveHost (d : db) (ref : string) : option Host :=
  match hostByName d ref with
  | Some h => Some h
  | None => host d ref
  end.
Definition connectionsOf (d : db) (objectUUID : string) : list Connection :=
  filter (λ cn, cn_ObjectUUID cn = objectUUID) (db_Connections d).
Definition connectionsOfHost (d : db) (hostUUID : string) : list Connection :=
  filter (λ cn, cn_HostUUID cn = hostUUID) (db_Connections d).
(** [iqnOwner]: the host, other than [exceptHost], that has the binding. *)
Definition iqnOwner (d : db) (iqn exceptHost : string) : string :=
  match first (λ h, negb (String.eqb (h_UUID h) exceptHost) && any (String.eqb iqn) (h_IQNs h))
          (db_Hosts d) with
  | Some h => h_UUID h
  | None => ""
  end.

(** The write [t.f = v] through the pointer a lookup by [p] returns. *)
Fixpoint update_first {A} (p : A → bool) (f : A → A) (l : list A) : list A :=
  match l with
  | [] => []
  | x :: l => if p x then f x :: l else x :: update_first p f l
  end.

(** ** Identifiers (appliance.go) *)

(** [for i, c := range s]: a byte above 0x7f starts a rune that is neither a
    dash nor a hex digit, so testing bytes decides the same. *)
Definition uuid_char_ok (i : nat) (c : ascii) : bool :=
  if any (Nat.eqb i) [8; 13; 18; 23]%nat then Ascii.eqb c (chr 45) else is_lower_hex c.
Fixpoint uuid_chars_ok (i : nat) (l : list ascii) : bool :=
  match l with
  | [] => true
  | c :: l => uuid_char_ok i c && uuid_chars_ok (S i) l
  end.
Definition validUUID (s : string) : bool :=
  (String.length s =? 36)%nat && uuid_chars_ok 0 (chars s).

(** [b[6] = (b[6] & 0x0f) | 0x40] and [b[8] = (b[8] & 0x3f) | 0x80]. *)
Definition stamp_v4 (b : list Z) : list Z :=
  let b := <[6%nat := Z.lor (Z.land (nth 6 b 0) 0x0f) 0x40]> b in
  <[8%nat := Z.lor (Z.land (nth 8 b 0) 0x3f) 0x80]> b.
Definition slice {A} (from to : nat) (l : list A) : list A := take (to - from) (drop from l).
Definition dash : string := "-".
(** [newIdentity] from sixteen random bytes. *)
Definition newIdentity_of (rand16 : list Z) : string * string :=
  let b := stamp_v4 rand16 in
  (hex_encode (slice 0 4 b) +:+ dash +:+ hex_encode (slice 4 6 b) +:+ dash +:+
   hex_encode (slice 6 8 b) +:+ dash +:+ hex_encode (slice 8 10 b) +:+ dash +:+
   hex_encode (slice 10 16 b),
   hex_encode (slice 0 8 b)).
Definition sub_str (from to : nat) (s : string) : string := take_str (to - from) (drop_str from s).
(** [newHostUUID], which slices the hex text instead of the bytes. *)
Definition newHostUUID_of (rand16 : list Z) : string :=
  let h := hex_encode (stamp_v4 rand16) in
  sub_str 0 8 h +:+ dash +:+ sub_str 8 12 h +:+ dash +:+ sub_str 12 16 h +:+ dash +:+
  sub_str 16 20 h +:+ dash +:+ sub_str 20 32 h.

(** ** The appliance's settings and their check *)

Record AppConfig := mkAppConfig {
  ac_TargetIQN : string;
  ac_MachineIDPath : string;
  ac_Portals : list Portal;
  ac_DBRoot : string;
  ac_WriteBack : bool;
  ac_NoUnmap : bool
}.
Definition with_TargetIQN v c := mkAppConfig v (ac_MachineIDPath c) (ac_Portals c) (ac_DBRoot c)
  (ac_WriteBack c) (ac_NoUnmap c).
