(* ===== verification/AppDb.v ===== *)
(** * appliance: loading the database

    [load], [checkVersion] and [validateLoaded] of appliance/appliance.go. The
    document arrives as a [Loaded]; what passes is a [db]. [range] is the order
    in which the runtime ranges over the export map. *)

From S2P Require Import Prelude GoStrings Errors Netip LioModel AppModel.

Section load.
Context (range : ∀ A, list A → list A).
Arguments range {A}.
Context (dbPath : string).

Definition checkVersion (version : Z) : result aerr unit :=
  if version =? dbVersion then Ok tt
  else if version <? dbVersion
  then Err (AMsg "appliance: %s is a version %d database and this build reads version %d. Conversion from the pre-name layout was removed..."
              [dbPath; itoa version; itoa dbVersion])
  else Err (AMsg "appliance: %s is a version %d database and this build reads version %d. It was written by a NEWER build..."
              [dbPath; itoa version; itoa dbVersion; itoa dbVersion]).

(** The sets of the object loop: [seenObj] and [seenName]. *)
Definition validate_object (seen : gset string * gset string) (o : option Object)
    : result aerr (gset string * gset string) :=
  match o with
  | None => Err (AMsg "appliance: %s contains a null object record" [dbPath])
  | Some o =>
      let '(seenObj, seenName) := seen in
      if negb (validUUID (o_UUID o))
      then Err (AMsg "appliance: %s contains ill-formed object uuid %q" [dbPath; o_UUID o])
      else if decide (o_UUID o ∈ seenObj)
      then Err (AMsg "appliance: %s contains duplicate object uuid %q" [dbPath; o_UUID o])
      else if negb (String.eqb (o_Kind o) KindVolume) && negb (String.eqb (o_Kind o) KindSnapshot)
      then Err (AMsg "appliance: %s object %s has unknown kind %q" [dbPath; o_UUID o; o_Kind o])
      else
        match validName (o_Name o) with
        | Err e => Err (AWrap "appliance: %s object %s: %w" [dbPath; o_UUID o] e)
        | Ok _ =>
            let key := o_Kind o +:+ "/" +:+ o_Name o in
            if decide (key ∈ seenName)
            then Err (AMsg "appliance: %s has two %ss named %q" [dbPath; o_Kind o; o_Name o])
            else Ok ({[o_UUID o]} ∪ seenObj, {[key]} ∪ seenName)
        end
  end.

Definition validate_binding (uuid : string) (iqnOwner : gmap string string) (q : string)
    : result aerr (gmap string string) :=
  if negb (ValidInitiatorIQN q)
  then Err (AMsg "appliance: %s host %s has invalid initiator IQN %q" [dbPath; uuid; q])
  else
    match iqnOwner !! q with
    | Some prev => Err (AMsg "appliance: %s initiator IQN %q is claimed by both host %s and %s"
                          [dbPath; q; prev; uuid])
    | None => Ok (<[q := uuid]> iqnOwner)
    end.

(** The sets of the host loop: [hosts], [hostNames] and [iqnOwner]. *)
Definition validate_host (seen : gset string * gset string * gmap string string) (h : option Host)
    : result aerr (gset string * gset string * gmap string string) :=
  match h with
  | None => Err (AMsg "appliance: %s contains a null host record" [dbPath])
  | Some h =>
      let '(hosts, hostNames, iqnOwner) := seen in
      if negb (validUUID (h_UUID h))
      then Err (AMsg "appliance: %s contains ill-formed host uuid %q" [dbPath; h_UUID h])
      else if decide (h_UUID h ∈ hosts)
      then Err (AMsg "appliance: %s contains duplicate host uuid %q" [dbPath; h_UUID h])
      else
        match validName (h_Name h) with
        | Err e => Err (AWrap "appliance: %s host %s: %w" [dbPath; h_UUID h] e)
        | Ok _ =>
            if decide (h_Name h ∈ hostNames)
            then Err (AMsg "appliance: %s has two hosts named %q" [dbPath; h_Name h])
            else
              let? owner := rfold (validate_binding (h_UUID h)) iqnOwner (h_IQNs h) in
              Ok ({[h_UUID h]} ∪ hosts, {[h_Name h]} ∪ hostNames, owner)
        end
  end.

Definition pair_key (cn : Connection) : string := cn_HostUUID cn +:+ "/" +:+ cn_ObjectUUID cn.
Definition host_lun_key (cn : Connection) : string := cn_HostUUID cn +:+ "/" +:+ itoa (cn_LUN cn).

(** The sets of the connection loop: [seenPair] and [seenHostLUN]. *)
Definition validate_connection (seenObj hosts : gset string) (seen : gset string * gset string)
    (cn : option Connection) : result aerr (gset string * gset string) :=
  match cn with
  | None => Err (AMsg "appliance: %s contains a null connection record" [dbPath])
  | Some cn =>
      let '(seenPair, seenHostLUN) := seen in
      if (cn_LUN cn <? 0) || (maxLUN <? cn_LUN cn)
      then Err (AMsg "appliance: %s connection (object %s) has out-of-range lun %d"
                  [dbPath; cn_ObjectUUID cn; itoa (cn_LUN cn)])
      else if negb (bool_decide (cn_ObjectUUID cn ∈ seenObj))
      then Err (AMsg "appliance: %s connection references unknown object %q"
                  [dbPath; cn_ObjectUUID cn])
      else if negb (bool_decide (cn_HostUUID cn ∈ hosts))
      then Err (AMsg "appliance: %s connection (object %s) references unknown host %q"
                  [dbPath; cn_ObjectUUID cn; cn_HostUUID cn])
      else if decide (pair_key cn ∈ seenPair)
      then Err (AMsg "appliance: %s has duplicate connection (host %s, object %s)"
                  [dbPath; cn_HostUUID cn; cn_ObjectUUID cn])
      else if decide (host_lun_key cn ∈ seenHostLUN)
      then Err (AMsg "appliance: %s has two connections at lun %d on host %s"
                  [dbPath; itoa (cn_LUN cn); cn_HostUUID cn])
      else Ok ({[pair_key cn]} ∪ seenPair, {[host_lun_key cn]} ∪ seenHostLUN)
  end.

Definition validate_export (usedIdx : gmap Z string) (e : string * Z)
    : result aerr (gmap Z string) :=
  let '(objUUID, idx) := e in
  if negb (validUUID objUUID)
  then Err (AMsg "appliance: %s export map has ill-formed object uuid %q" [dbPath; objUUID])
  else if (idx <? 0) || (maxLUN <? idx)
  then Err (AMsg "appliance: %s export map has out-of-range index %d for object %s"
              [dbPath; itoa idx; objUUID])
  else
    match usedIdx !! idx with
    | Some prev => Err (AMsg "appliance: %s export index %d is claimed by both object %s and %s"
                          [dbPath; itoa idx; prev; objUUID])
    | None => Ok (<[idx := objUUID]> usedIdx)
    end.

Definition validateLoaded (d : Loaded) : result aerr unit :=
  let? seen := rfold validate_object (∅, ∅) (ld_Objects d) in
  let? hs := rfold validate_host (∅, ∅, ∅) (ld_Hosts d) in
  let? _ := rfold (validate_connection seen.1 hs.1.1) (∅, ∅) (ld_Connections d) in
  let? _ := rfold validate_export ∅ (range (map_to_list (default ∅ (ld_Exports d)))) in
  Ok tt.

(** The records of a document without null entries. *)
Definition db_of (d : Loaded) : db :=
  mkDb (ld_Version d) (omap id (ld_Objects d)) (omap id (ld_Hosts d)) (omap id (ld_Connections d))
    (default ∅ (ld_Exports d)) (ld_Portals d) (ld_TargetIQN d) (ld_MachineID d).
(** A database as a document: what marshalling and decoding it gives. *)
Definition loaded_of (d : db) : Loaded :=
  mkLoaded (db_Version d) (Some <$> db_Objects d) (Some <$> db_Hosts d) (Some <$> db_Connections d)
    (Some (db_Exports d)) (db_Portals d) (db_TargetIQN d) (db_MachineID d).

(** [load], from the decoded document on: a document that passes replaces the
    state, with a missing export map made empty. *)
Definition load_document (d : Loaded) : result aerr db :=
  let? _ := checkVersion (ld_Version d) in
  let? _ := validateLoaded d in
  Ok (db_of d).
End load.

(** ** What a well-formed database is *)

Definition valid_name (name : string) : Prop :=
  name ≠ "" ∧ slen name <= maxNameLen ∧ TrimSpace name = name ∧ name ≠ "." ∧ name ≠ ".." ∧
  Forall (λ r : Z * string, name_rune_ok r.1 = true) (runes name).

Record wf_object (o : Object) : Prop := {
  wo_uuid : validUUID (o_UUID o) = true;
  wo_kind : o_Kind o = KindVolume ∨ o_Kind o = KindSnapshot;
  wo_name : valid_name (o_Name o)
}.
Record wf_host (h : Host) : Prop := {
  wh_uuid : validUUID (h_UUID h) = true;
  wh_name : valid_name (h_Name h);
  wh_iqns : Forall (λ q, ValidInitiatorIQN q = true) (h_IQNs h)
}.
Record wf_connection (objects hosts : list string) (cn : Connection) : Prop := {
  wc_lun : 0 <= cn_LUN cn <= maxLUN;
  wc_object : cn_ObjectUUID cn ∈ objects;
  wc_host : cn_HostUUID cn ∈ hosts
}.
(** Uuids are unique, a name is unique within its kind, a binding belongs to
    one host, a pair is connected once and a host uses a LUN once, references
    resolve, and no two objects share an export index. *)
Record wf_db (d : db) : Prop := {
  wf_objects : Forall wf_object (db_Objects d);
  wf_object_uuids : NoDup (o_UUID <$> db_Objects d);
  wf_object_names : NoDup ((λ o, (o_Kind o, o_Name o)) <$> db_Objects d);
  wf_hosts : Forall wf_host (db_Hosts d);
  wf_host_uuids : NoDup (h_UUID <$> db_Hosts d);
  wf_host_names : NoDup (h_Name <$> db_Hosts d);
  wf_iqns : NoDup (mjoin (h_IQNs <$> db_Hosts d));
  wf_connections : Forall (wf_connection (o_UUID <$> db_Objects d) (h_UUID <$> db_Hosts d))
                     (db_Connections d);
  wf_pairs : NoDup ((λ cn, (cn_HostUUID cn, cn_ObjectUUID cn)) <$> db_Connections d);
  wf_luns : NoDup ((λ cn, (cn_HostUUID cn, cn_LUN cn)) <$> db_Connections d);
  wf_exports : ∀ u i, db_Exports d !! u = Some i → validUUID u = true ∧ 0 <= i;
  wf_exports_inj : ∀ u v i, db_Exports d !! u = Some i → db_Exports d !! v = Some i → u = v
}.
(** What the loader asks besides: an export index a LUN number can be. *)
Definition exports_bounded (d : db) : Prop := ∀ u i, db_Exports d !! u = Some i → i <= maxLUN.
