(* ===== verification/AppWf.v ===== *)
(** * appliance: what a loaded database is

    [validateLoaded] decides [wf_db], and the facts the rest of the appliance
    takes from it: lookups find the one record there is, and a name, a binding
    or a LUN that is free can be added. *)

From S2P Require Import Prelude GoStrings Errors Netip LioModel LioValid LioSync AppModel AppDb.

(** ** Strings *)

Lemma app_inj_len (a b s t : string) :
  String.length a = String.length b → a +:+ s = b +:+ t → a = b ∧ s = t.
Proof.
  revert b. induction a as [|x a IH]; intros [|y b]; cbn [String.length]; try done.
  intros Hl Heq.
  change (String x (a +:+ s) = String y (b +:+ t)) in Heq.
  injection Heq as -> Heq. apply IH in Heq as [-> ->]; [done | lia].
Qed.

Lemma validUUID_length u : validUUID u = true → String.length u = 36%nat.
Proof. unfold validUUID. intros [H _]%andb_true_iff. by apply Nat.eqb_eq in H. Qed.

Lemma itoa_inj a b : itoa a = itoa b → a = b.
Proof. apply pretty_Z_inj. Qed.

(** ** Names *)

Lemma validName_spec name : validName name = Ok tt ↔ valid_name name.
Proof.
  unfold validName, valid_name. rewrite <- !(String.eqb_eq name), <- String.eqb_eq.
  destruct (String.eqb_spec name "") as [->|Hne]; [naive_solver|].
  destruct (maxNameLen <? slen name) eqn:Hlen; bool_facts; [split; [done|]; intros (_ & ? & _); lia|].
  destruct (String.eqb_spec (TrimSpace name) name); simpl; [|naive_solver].
  destruct (String.eqb_spec name "."); simpl; [naive_solver|].
  destruct (String.eqb_spec name ".."); simpl; [naive_solver|].
  rewrite rfor_Ok.
  assert (Forall (λ x : Z * string, (if x.1 =? 47 then Err (AMsg "name %q contains a path separator" [name])
      else if (x.1 <? 0x20) || (x.1 =? 0x7f)
      then Err (AMsg "name %q contains a control character (%#U)" [name; itoa x.1])
      else if IsSpace x.1 && negb (x.1 =? 32)
      then Err (AMsg "name %q contains whitespace other than a space (%#U)" [name; itoa x.1])
      else Ok tt) = Ok tt) (runes name)
    ↔ Forall (λ r : Z * string, name_rune_ok r.1 = true) (runes name)) as ->.
  { apply Forall_iff. intros r. unfold name_rune_ok.
    destruct (r.1 =? 47), ((r.1 <? 0x20) || (r.1 =? 0x7f)), (IsSpace r.1 && negb (r.1 =? 32)); done. }
  naive_solver.
Qed.

Lemma validName_total name : valid_name name → validName name = Ok tt.
Proof. apply validName_spec. Qed.

(** The key of the name set is the pair of kind and name. *)
Lemma kind_name_key (k k' n n' : string) :
  (k = KindVolume ∨ k = KindSnapshot) → (k' = KindVolume ∨ k' = KindSnapshot) →
  k +:+ "/" +:+ n = k' +:+ "/" +:+ n' ↔ (k, n) = (k', n').
Proof.
  intros Hk Hk'. split; [|by intros [= -> ->]].
  intros Heq. destruct Hk as [-> | ->], Hk' as [-> | ->]; cbv in Heq; simplify_eq; done.
Qed.

Lemma pair_key_inj a b :
  String.length (cn_HostUUID a) = String.length (cn_HostUUID b) →
  pair_key a = pair_key b ↔ (cn_HostUUID a, cn_ObjectUUID a) = (cn_HostUUID b, cn_ObjectUUID b).
Proof.
  intros Hl. unfold pair_key. split; [|by intros [= -> ->]].
  intros [-> Heq]%app_inj_len; [|done]. by apply (app_inj_len "/" "/") in Heq as [_ ->].
Qed.

Lemma host_lun_key_inj a b :
  String.length (cn_HostUUID a) = String.length (cn_HostUUID b) →
  host_lun_key a = host_lun_key b ↔ (cn_HostUUID a, cn_LUN a) = (cn_HostUUID b, cn_LUN b).
Proof.
  intros Hl. unfold host_lun_key. split; [|by intros [= -> ->]].
  intros [-> Heq]%app_inj_len; [|done]. apply (app_inj_len "/" "/") in Heq as [_ Heq]; [|done].
  by apply itoa_inj in Heq as ->.
Qed.

(** ** The loops of validateLoaded *)

Section validate.
Context (range : ∀ A, list A → list A) (range_perm : ∀ A (l : list A), range A l ≡ₚ l).
Context (dbPath : string).

Definition object_keys (o : option Object) : list (string + string) :=
  match o with
  | Some o => [inl (o_UUID o); inr (o_Kind o +:+ "/" +:+ o_Name o)]
  | None => []
  end.
Definition object_mem (s : gset string * gset string) (k : string + string) : Prop :=
  match k with inl u => u ∈ s.1 | inr n => n ∈ s.2 end.
Definition good {A} (P : A → Prop) (o : option A) : Prop := ∃ a, o = Some a ∧ P a.

Lemma object_ok s x s' : validate_object dbPath s x = Ok s' →
  good wf_object x ∧ NoDup (object_keys x) ∧ (∀ k, k ∈ object_keys x → ¬ object_mem s k) ∧
  ∀ k, object_mem s' k ↔ k ∈ object_keys x ∨ object_mem s k.
Proof.
  destruct x as [o|]; [|done]. destruct s as [so sn]. simpl.
  destruct (validUUID (o_UUID o)) eqn:Hu; [|done]. simpl.
  case_decide as Hd; [done|].
  destruct (String.eqb_spec (o_Kind o) KindVolume), (String.eqb_spec (o_Kind o) KindSnapshot);
    simpl; try done.
  all: destruct (validName (o_Name o)) as [[]|] eqn:Hn; [|done]; case_decide as Hk; [done|];
    intros [= <-]; apply validName_spec in Hn; split_and!;
    [ exists o; split; [done|]; constructor; auto
    | apply NoDup_cons; split; [set_solver | apply NoDup_singleton]
    | intros k; rewrite !elem_of_cons, elem_of_nil; intros [->|[->|[]]]; done
    | intros [?|?]; cbn [object_mem object_keys fst snd]; rewrite elem_of_union, elem_of_singleton, !elem_of_cons,
        elem_of_nil; naive_solver ].
Qed.

Lemma object_total s x : good wf_object x → NoDup (object_keys x) →
  (∀ k, k ∈ object_keys x → ¬ object_mem s k) → ∃ s', validate_object dbPath s x = Ok s'.
Proof.
  intros (o & -> & [Hu Hk Hn]) _ Hs. destruct s as [so sn]. simpl. rewrite Hu. simpl.
  rewrite decide_False by (apply (Hs (inl _)); left).
  rewrite (validName_total _ Hn).
  assert (negb (o_Kind o =? KindVolume)%string && negb (o_Kind o =? KindSnapshot)%string = false) as ->.
  { destruct Hk as [-> | ->]; done. }
  rewrite decide_False by (apply (Hs (inr _)); right; left). by eexists.
Qed.

Definition binding_mem (s : gmap string string) (q : string) : Prop := is_Some (s !! q).

Lemma binding_ok u s x s' : validate_binding dbPath u s x = Ok s' →
  ValidInitiatorIQN x = true ∧ ¬ binding_mem s x ∧ ∀ k, binding_mem s' k ↔ k = x ∨ binding_mem s k.
Proof.
  unfold validate_binding, binding_mem. destruct (ValidInitiatorIQN x); [|done]. simpl.
  destruct (s !! x) eqn:Hx; [done|]. intros [= <-]. split_and!; [done | by intros [? ?] |].
  intros k. rewrite lookup_insert_is_Some. destruct (decide (k = x)); naive_solver.
Qed.

Lemma binding_total u s x : ValidInitiatorIQN x = true → ¬ binding_mem s x →
  ∃ s', validate_binding dbPath u s x = Ok s'.
Proof.
  unfold validate_binding, binding_mem. intros -> Hx. simpl.
  apply eq_None_not_Some in Hx as ->. by eexists.
Qed.

Definition host_keys (h : option Host) : list (string + (string + string)) :=
  match h with
  | Some h => inl (h_UUID h) :: (inr <$> (inl (h_Name h) :: (inr <$> h_IQNs h)))
  | None => []
  end.
Definition host_mem (s : gset string * gset string * gmap string string)
    (k : string + (string + string)) : Prop :=
  match k with
  | inl u => u ∈ s.1.1
  | inr (inl n) => n ∈ s.1.2
  | inr (inr q) => binding_mem s.2 q
  end.

Lemma elem_host_keys h k : k ∈ host_keys (Some h) ↔
  match k with
  | inl u => u = h_UUID h
  | inr (inl n) => n = h_Name h
  | inr (inr q) => q ∈ h_IQNs h
  end.
Proof.
  unfold host_keys. rewrite elem_of_cons, list_elem_of_fmap.
  destruct k as [u|[n|q]]; setoid_rewrite elem_of_cons; setoid_rewrite list_elem_of_fmap; naive_solver.
Qed.

Lemma NoDup_host_keys h : NoDup (h_IQNs h) → NoDup (host_keys (Some h)).
Proof.
  intros Hq. cbn [host_keys]. constructor.
  - intros (y & ? & _)%list_elem_of_fmap. discriminate.
  - apply NoDup_fmap; [by intros ?? [=]|]. constructor.
    + intros (y & ? & _)%list_elem_of_fmap. discriminate.
    + apply NoDup_fmap; [by intros ?? [=] | done].
Qed.

Lemma host_ok s x s' : validate_host dbPath s x = Ok s' →
  good wf_host x ∧ NoDup (host_keys x) ∧ (∀ k, k ∈ host_keys x → ¬ host_mem s k) ∧
  ∀ k, host_mem s' k ↔ k ∈ host_keys x ∨ host_mem s k.
Proof.
  destruct x as [h|]; [|done]. destruct s as [[hs hn] ow]. cbn [validate_host].
  destruct (validUUID (h_UUID h)) eqn:Hu; [|done]. cbn [negb].
  case_decide as Hd; [done|].
  destruct (validName (h_Name h)) as [[]|] eqn:Hn; [|done]. case_decide as Hk; [done|].
  rewrite rbind_Ok. intros (ow' & Hb & [= <-]).
  eapply (rfold_distinct_sound binding_mem id (λ q, ValidInitiatorIQN q = true)) in Hb
    as (HF & Hnd & Hs & Hm); [|apply binding_ok].
  rewrite list_fmap_id in Hnd, Hm. apply validName_spec in Hn. split_and!.
  - exists h. split; [done|]. by constructor.
  - by apply NoDup_host_keys.
  - intros k. rewrite elem_host_keys. destruct k as [u|[n|q]]; simpl; [by intros -> ..| apply Hs].
  - intros k. rewrite elem_host_keys. destruct k as [u|[n|q]]; simpl; [set_solver.. | apply Hm].
Qed.

Lemma host_total s x : good wf_host x → NoDup (host_keys x) →
  (∀ k, k ∈ host_keys x → ¬ host_mem s k) → ∃ s', validate_host dbPath s x = Ok s'.
Proof.
  intros (h & -> & [Hu Hn Hq]) Hnd Hs. destruct s as [[hs hn] ow]. cbn [validate_host].
  rewrite Hu. cbn [negb].
  rewrite decide_False by (apply (Hs (inl _)), elem_host_keys; done).
  rewrite (validName_total _ Hn).
  rewrite decide_False by (apply (Hs (inr (inl _))), elem_host_keys; done).
  destruct (rfold_distinct_complete binding_mem id (λ q, ValidInitiatorIQN q = true)
    (validate_binding dbPath (h_UUID h)) (binding_ok _) (binding_total _) (h_IQNs h) ow)
    as [ow' ->]; [done | | | by eexists].
  - rewrite list_fmap_id. cbn [host_keys] in Hnd. apply NoDup_cons in Hnd as [_ Hnd].
    apply NoDup_fmap in Hnd; [|by intros ?? [=]].
    apply NoDup_cons in Hnd as [_ Hnd]. by apply NoDup_fmap in Hnd; [|by intros ?? [=]].
  - intros q Hin. apply (Hs (inr (inr q))), elem_host_keys. done.
Qed.

Definition connection_keys (cn : option Connection) : list (string + string) :=
  match cn with
  | Some cn => [inl (pair_key cn); inr (host_lun_key cn)]
  | None => []
  end.

Lemma connection_ok objs hs s x s' : validate_connection dbPath objs hs s x = Ok s' →
  good (wf_connection (elements objs) (elements hs)) x ∧ NoDup (connection_keys x) ∧
  (∀ k, k ∈ connection_keys x → ¬ object_mem s k) ∧
  ∀ k, object_mem s' k ↔ k ∈ connection_keys x ∨ object_mem s k.
Proof.
  destruct x as [cn|]; [|done]. destruct s as [sp sl]. cbn [validate_connection].
  destruct ((cn_LUN cn <? 0) || (maxLUN <? cn_LUN cn)) eqn:Hl; [done|].
  destruct (bool_decide (cn_ObjectUUID cn ∈ objs)) eqn:Ho; [|done].
  destruct (bool_decide (cn_HostUUID cn ∈ hs)) eqn:Hh; [|done]. simpl.
  destruct (decide (pair_key cn ∈ sp)); [done|]. destruct (decide (host_lun_key cn ∈ sl)); [done|].
  intros [= <-]. bool_facts. split_and!.
  - exists cn. split; [done|]. constructor; [lia | by apply elem_of_elements ..].
  - apply NoDup_cons. split; [set_solver | apply NoDup_singleton].
  - intros k. cbn. rewrite !elem_of_cons, elem_of_nil. intros [->|[->|[]]]; done.
  - intros [k|k]; cbn [object_mem connection_keys fst snd];
      rewrite elem_of_union, elem_of_singleton, !elem_of_cons, elem_of_nil; naive_solver.
Qed.

Lemma connection_total objs hs s x : good (wf_connection (elements objs) (elements hs)) x →
  NoDup (connection_keys x) → (∀ k, k ∈ connection_keys x → ¬ object_mem s k) →
  ∃ s', validate_connection dbPath objs hs s x = Ok s'.
Proof.
  intros (cn & -> & [Hl Ho Hh]) _ Hs. destruct s as [sp sl]. cbn [validate_connection].
  assert ((cn_LUN cn <? 0) || (maxLUN <? cn_LUN cn) = false) as ->.
  { apply orb_false_iff. split; apply Z.ltb_ge; lia. }
  apply elem_of_elements in Ho, Hh. rewrite !bool_decide_true by done. cbn [negb].
  rewrite decide_False by (apply (Hs (inl _)); left).
  rewrite decide_False by (apply (Hs (inr _)); right; left). by eexists.
Qed.

Definition index_mem (s : gmap Z string) (i : Z) : Prop := is_Some (s !! i).
Definition wf_export (e : string * Z) : Prop := validUUID e.1 = true ∧ 0 <= e.2 <= maxLUN.

Lemma export_ok s x s' : validate_export dbPath s x = Ok s' →
  wf_export x ∧ ¬ index_mem s x.2 ∧ ∀ k, index_mem s' k ↔ k = x.2 ∨ index_mem s k.
Proof.
  destruct x as [u i]. unfold validate_export, index_mem, wf_export. simpl.
  destruct (validUUID u); [|done]. simpl.
  destruct ((i <? 0) || (maxLUN <? i)) eqn:Hi; [done|].
  destruct (s !! i) eqn:Hs; [done|]. intros [= <-]. bool_facts.
  split_and!; [done | lia | lia | by intros [? ?] |].
  intros k. rewrite lookup_insert_is_Some. destruct (decide (k = i)); naive_solver.
Qed.

Lemma export_total s x : wf_export x → ¬ index_mem s x.2 → ∃ s', validate_export dbPath s x = Ok s'.
Proof.
  destruct x as [u i]. unfold validate_export, index_mem, wf_export. simpl. intros [-> Hi] Hs. simpl.
  assert ((i <? 0) || (maxLUN <? i) = false) as ->.
  { apply orb_false_iff. split; apply Z.ltb_ge; lia. }
  apply eq_None_not_Some in Hs as ->. by eexists.
Qed.

(** ** The whole check *)

Lemma good_list {A} (P : A → Prop) l : Forall (good P) l → ∃ l', l = Some <$> l' ∧ Forall P l'.
Proof.
  induction 1 as [|x l (a & -> & Ha) _ (l' & -> & Hl)]; [by exists []|].
  exists (a :: l'). by split; [|constructor].
Qed.
Lemma list_good {A} (P : A → Prop) l : Forall P l → Forall (good P) (Some <$> l).
Proof. intros Hl. apply Forall_fmap. eapply Forall_impl; [exact Hl|]. intros a Ha. by exists a. Qed.
Lemma omap_Some {A} (l : list A) : omap id (Some <$> l) = l.
Proof. induction l as [|x l IH]; [done|]. simpl. by f_equal. Qed.

Lemma object_keys_NoDup l : Forall wf_object l →
  NoDup (mjoin (object_keys <$> (Some <$> l)))
  ↔ NoDup (o_UUID <$> l) ∧ NoDup ((λ o, (o_Kind o, o_Name o)) <$> l).
Proof.
  intros Hl. rewrite <- list_fmap_compose.
  rewrite (NoDup_tagged o_UUID (λ o, [o_Kind o +:+ "/" +:+ o_Name o]) l).
  assert (mjoin ((λ o, [o_Kind o +:+ "/" +:+ o_Name o]) <$> l)
          = (λ o, o_Kind o +:+ "/" +:+ o_Name o) <$> l) as ->.
  { clear Hl. induction l as [|o l IH]; [done|]. simpl. by f_equal. }
  rewrite (NoDup_fmap_iff (λ o, o_Kind o +:+ "/" +:+ o_Name o) (λ o, (o_Kind o, o_Name o))); [done|].
  rewrite Forall_forall in Hl. intros x y Hx Hy.
  apply kind_name_key; [apply (Hl x Hx) | apply (Hl y Hy)].
Qed.

Lemma host_keys_NoDup l :
  NoDup (mjoin (host_keys <$> (Some <$> l)))
  ↔ NoDup (h_UUID <$> l) ∧ NoDup (h_Name <$> l) ∧ NoDup (mjoin (h_IQNs <$> l)).
Proof.
  rewrite <- list_fmap_compose.
  etransitivity; [exact (NoDup_tagged h_UUID (λ h, inl (h_Name h) :: (inr <$> h_IQNs h)) l)|].
  by rewrite (NoDup_tagged h_Name h_IQNs l).
Qed.

Lemma connection_keys_NoDup l : Forall (λ cn, validUUID (cn_HostUUID cn) = true) l →
  NoDup (mjoin (connection_keys <$> (Some <$> l)))
  ↔ NoDup ((λ cn, (cn_HostUUID cn, cn_ObjectUUID cn)) <$> l)
    ∧ NoDup ((λ cn, (cn_HostUUID cn, cn_LUN cn)) <$> l).
Proof.
  intros Hl. rewrite <- list_fmap_compose.
  rewrite (NoDup_tagged pair_key (λ cn, [host_lun_key cn]) l).
  assert (mjoin ((λ cn, [host_lun_key cn]) <$> l) = host_lun_key <$> l) as ->.
  { clear Hl. induction l as [|o l IH]; [done|]. simpl. by f_equal. }
  rewrite Forall_forall in Hl.
  assert (Hlen : ∀ x y, x ∈ l → y ∈ l →
    String.length (cn_HostUUID x) = String.length (cn_HostUUID y)).
  { intros x y Hx Hy. by rewrite !validUUID_length by auto. }
  rewrite (NoDup_fmap_iff pair_key (λ cn, (cn_HostUUID cn, cn_ObjectUUID cn)))
    by (intros; apply pair_key_inj; auto).
  by rewrite (NoDup_fmap_iff host_lun_key (λ cn, (cn_HostUUID cn, cn_LUN cn)))
    by (intros; apply host_lun_key_inj; auto).
Qed.

(** A document without null records. *)
Definition no_nulls (d : Loaded) : Prop :=
  ld_Objects d = Some <$> db_Objects (db_of d) ∧ ld_Hosts d = Some <$> db_Hosts (db_of d) ∧
  ld_Connections d = Some <$> db_Connections (db_of d).

Lemma validate_objects_spec l so sn :
  rfold (validate_object dbPath) (∅, ∅) l = Ok (so, sn) →
  ∃ l', l = Some <$> l' ∧ Forall wf_object l' ∧ NoDup (o_UUID <$> l') ∧
    NoDup ((λ o, (o_Kind o, o_Name o)) <$> l') ∧ ∀ u, u ∈ so ↔ u ∈ o_UUID <$> l'.
Proof.
  intros Hl. eapply (rfold_keys_sound object_mem object_keys) in Hl as (HF & Hnd & _ & Hm);
    [|apply object_ok].
  apply good_list in HF as (l' & -> & HF). apply object_keys_NoDup in Hnd as [Hu Hn]; [|done].
  exists l'. split_and!; [done..|]. intros u. rewrite (Hm (inl u)), list_elem_of_fmap.
  split.
  - intros [(ks & Hk & (o' & -> & (o & -> & Ho)%list_elem_of_fmap)%list_elem_of_fmap)%list_elem_of_join
           |Hk]; [|set_solver].
    cbn in Hk. rewrite !elem_of_cons, elem_of_nil in Hk. exists o. naive_solver.
  - intros (o & -> & Ho). left. apply list_elem_of_join. exists (object_keys (Some o)).
    split; [left|]. by do 2 apply list_elem_of_fmap_2.
Qed.

Lemma validate_hosts_spec l hs hn ow :
  rfold (validate_host dbPath) (∅, ∅, ∅) l = Ok (hs, hn, ow) →
  ∃ l', l = Some <$> l' ∧ Forall wf_host l' ∧ NoDup (h_UUID <$> l') ∧ NoDup (h_Name <$> l') ∧
    NoDup (mjoin (h_IQNs <$> l')) ∧ ∀ u, u ∈ hs ↔ u ∈ h_UUID <$> l'.
Proof.
  intros Hl. eapply (rfold_keys_sound host_mem host_keys) in Hl as (HF & Hnd & _ & Hm);
    [|apply host_ok].
  apply good_list in HF as (l' & -> & HF). apply host_keys_NoDup in Hnd as (Hu & Hn & Hq).
  exists l'. split_and!; [done..|]. intros u. rewrite (Hm (inl u)), list_elem_of_fmap.
  split.
  - intros [(ks & Hk & (o' & -> & (h & -> & Ho)%list_elem_of_fmap)%list_elem_of_fmap)%list_elem_of_join
           |Hk]; [|set_solver].
    apply elem_host_keys in Hk. by exists h.
  - intros (h & -> & Ho). left. apply list_elem_of_join. exists (host_keys (Some h)).
    split; [by apply elem_host_keys|]. by do 2 apply list_elem_of_fmap_2.
Qed.

Lemma wf_connection_mono (o1 o2 h1 h2 : list string) cn :
  (∀ u, u ∈ o1 → u ∈ o2) → (∀ u, u ∈ h1 → u ∈ h2) → wf_connection o1 h1 cn → wf_connection o2 h2 cn.
Proof. intros Ho Hh [Hl Hco Hch]. constructor; auto. Qed.

Lemma validate_connections_spec objs hs l s os us :
  (∀ u, u ∈ objs ↔ u ∈ os) → (∀ u, u ∈ hs ↔ u ∈ us) → Forall (λ u, validUUID u = true) us →
  rfold (validate_connection dbPath objs hs) (∅, ∅) l = Ok s →
  ∃ l', l = Some <$> l' ∧ Forall (wf_connection os us) l' ∧
    NoDup ((λ cn, (cn_HostUUID cn, cn_ObjectUUID cn)) <$> l') ∧
    NoDup ((λ cn, (cn_HostUUID cn, cn_LUN cn)) <$> l').
Proof.
  intros Ho Hh Hu Hl.
  eapply (rfold_keys_sound object_mem connection_keys) in Hl as (HF & Hnd & _ & _);
    [|apply connection_ok].
  apply good_list in HF as (l' & -> & HF).
  assert (HF' : Forall (wf_connection os us) l').
  { eapply Forall_impl; [exact HF|]. intros cn. apply wf_connection_mono; intros u;
      rewrite elem_of_elements; [apply Ho | apply Hh]. }
  apply connection_keys_NoDup in Hnd as [Hp Hlun].
  - by exists l'.
  - eapply Forall_impl; [exact HF'|]. intros cn [_ _ Hc].
    rewrite Forall_forall in Hu. by apply Hu.
Qed.

Lemma validate_exports_spec (m : gmap string Z) :
  (∃ s, rfold (validate_export dbPath) ∅ (range _ (map_to_list m)) = Ok s)
  ↔ (∀ u i, m !! u = Some i → validUUID u = true ∧ 0 <= i <= maxLUN)
    ∧ ∀ u v i, m !! u = Some i → m !! v = Some i → u = v.
Proof.
  assert (Hin : ∀ u i, (u, i) ∈ range _ (map_to_list m) ↔ m !! u = Some i).
  { intros u i. by rewrite range_perm, elem_of_map_to_list. }
  assert (Hnd : NoDup (range _ (map_to_list m)).*2 ↔ ∀ u v i, m !! u = Some i → m !! v = Some i → u = v).
  { rewrite range_perm. pose proof (NoDup_fst_map_to_list m) as Hf.
    assert (Hl : NoDup (map_to_list m)) by apply NoDup_map_to_list. split.
    - intros H2 u v i Hu Hv. apply elem_of_map_to_list in Hu, Hv.
      assert ((u, i) = (v, i)) as [= ->]; [|done].
      eapply (NoDup_key_inj snd); eauto.
    - intros Hinj. apply NoDup_fmap_2_strong; [|done].
      intros [u i] [v j] Hu Hv [= ->]. apply elem_of_map_to_list in Hu, Hv.
      by rewrite (Hinj u v j). }
  split.
  - intros [s Hs]. eapply (rfold_distinct_sound index_mem snd wf_export) in Hs as (HF & Hd & _ & _);
      [|apply export_ok].
    rewrite Forall_forall in HF. split; [|by apply Hnd].
    intros u i Hu. apply Hin in Hu. by apply HF in Hu.
  - intros [HF Hinj].
    apply (rfold_distinct_complete index_mem snd wf_export _ export_ok export_total).
    + apply Forall_forall. intros [u i] Hu%Hin. by apply HF.
    + by apply Hnd.
    + intros [u i] _ [? Hs]. by rewrite lookup_empty in Hs.
Qed.

Lemma validate_objects_complete l :
  Forall wf_object l → NoDup (o_UUID <$> l) → NoDup ((λ o, (o_Kind o, o_Name o)) <$> l) →
  ∃ s, rfold (validate_object dbPath) (∅, ∅) (Some <$> l) = Ok s.
Proof.
  intros HF Hu Hn.
  apply (rfold_keys_complete object_mem object_keys (good wf_object) _ object_ok object_total).
  - by apply list_good.
  - by apply object_keys_NoDup.
  - intros [k|k] _; set_solver.
Qed.

Lemma validate_hosts_complete l :
  Forall wf_host l → NoDup (h_UUID <$> l) → NoDup (h_Name <$> l) → NoDup (mjoin (h_IQNs <$> l)) →
  ∃ s, rfold (validate_host dbPath) (∅, ∅, ∅) (Some <$> l) = Ok s.
Proof.
  intros HF Hu Hn Hq.
  apply (rfold_keys_complete host_mem host_keys (good wf_host) _ host_ok host_total).
  - by apply list_good.
  - by apply host_keys_NoDup.
  - intros [k|[k|k]] _; cbn; [set_solver.. |]. intros [? Hs]. by rewrite lookup_empty in Hs.
Qed.

Lemma validate_connections_complete objs hs l os us :
  (∀ u, u ∈ objs ↔ u ∈ os) → (∀ u, u ∈ hs ↔ u ∈ us) → Forall (λ u, validUUID u = true) us →
  Forall (wf_connection os us) l →
  NoDup ((λ cn, (cn_HostUUID cn, cn_ObjectUUID cn)) <$> l) →
  NoDup ((λ cn, (cn_HostUUID cn, cn_LUN cn)) <$> l) →
  ∃ s, rfold (validate_connection dbPath objs hs) (∅, ∅) (Some <$> l) = Ok s.
Proof.
  intros Ho Hh Hu HF Hp Hl.
  apply (rfold_keys_complete object_mem connection_keys
    (good (wf_connection (elements objs) (elements hs))) _ (connection_ok _ _) (connection_total _ _)).
  - apply list_good. eapply Forall_impl; [exact HF|].
    intros cn. apply wf_connection_mono; intros u; rewrite elem_of_elements; [apply Ho | apply Hh].
  - apply connection_keys_NoDup; [|done]. eapply Forall_impl; [exact HF|]. intros cn [_ _ Hc].
    rewrite Forall_forall in Hu. by apply Hu.
  - intros [k|k] _; set_solver.
Qed.

Lemma validateLoaded_wf d :
  validateLoaded range dbPath d = Ok tt ↔ no_nulls d ∧ wf_db (db_of d) ∧ exports_bounded (db_of d).
Proof.
  unfold validateLoaded, no_nulls, exports_bounded. split.
  - rewrite rbind_Ok. intros ([so sn] & Hos & Hr).
    apply rbind_Ok in Hr as ([[hs hn] ow] & Hhs & Hr).
    apply rbind_Ok in Hr as (sc & Hcs & Hr). apply rbind_Ok in Hr as (se & Hes & _).
    apply validate_objects_spec in Hos as (os & Ho & Hof & Hou & Hon & Hom).
    apply validate_hosts_spec in Hhs as (hl & Hh & Hhf & Hhu & Hhn & Hhq & Hhm).
    assert (Huu : Forall (λ u, validUUID u = true) (h_UUID <$> hl)).
    { apply Forall_fmap. eapply Forall_impl; [exact Hhf|]. by intros h [? _ _]. }
    destruct (validate_connections_spec _ _ _ _ _ _ Hom Hhm Huu Hcs) as (cs & Hc & Hcf & Hcp & Hcl).
    assert (Hex := proj1 (validate_exports_spec (default ∅ (ld_Exports d))) (ex_intro _ se Hes)).
    destruct Hex as [Hb Hi]. destruct d as [dv dos dhs dcs des dps di dm]. simpl in *.
    subst dos dhs dcs. rewrite !omap_Some. split_and!; [done..| |].
    + constructor; cbn [db_of db_Objects db_Hosts db_Connections db_Exports ld_Objects ld_Hosts
        ld_Connections ld_Exports]; rewrite ?omap_Some; try done.
      intros u i Hu. destruct (Hb u i Hu) as [? [? _]]. done.
    + intros u i Hu. cbn in Hu. by destruct (Hb u i Hu) as [_ [_ ?]].
  - intros ((Ho & Hh & Hc) & [Wo Wou Won Wh Whu Whn Wq Wc Wp Wl We Wi] & Hb). destruct d as [dv dos dhs dcs des dps di dm].
    cbn [db_of db_Objects db_Hosts db_Connections db_Exports ld_Objects ld_Hosts ld_Connections
      ld_Exports] in *.
    rewrite Ho.
    destruct (validate_objects_complete (omap id dos)) as [[so sn] Hos]; [done..|].
    rewrite Hos. simpl. rewrite Hh.
    destruct (validate_hosts_complete (omap id dhs)) as [[[hs hn] ow] Hhs]; [done..|].
    rewrite Hhs. simpl. rewrite Hc.
    apply validate_objects_spec in Hos as (os & Heq & _ & _ & _ & Hom).
    apply validate_hosts_spec in Hhs as (hl & Heqh & _ & _ & _ & _ & Hhm).
    apply (inj (fmap Some)) in Heq, Heqh. subst os hl.
    destruct (validate_connections_complete so hs (omap id dcs) _ _ Hom Hhm) as [sc ->]; [|done..|].
    { apply Forall_fmap. eapply Forall_impl; [exact Wh|]. by intros h [? _ _]. }
    simpl. destruct (proj2 (validate_exports_spec (default ∅ des))) as [se ->]; [|done].
    split; [|done]. intros u i Hu. destruct (We u i Hu). split_and!; eauto.
Qed.

Lemma loaded_of_no_nulls d : no_nulls (loaded_of d) ∧ db_of (loaded_of d) = d.
Proof.
  unfold no_nulls, db_of, loaded_of. destruct d. simpl. by rewrite !omap_Some.
Qed.

Lemma load_document_wf d d' : load_document range dbPath d = Ok d' → wf_db d' ∧ exports_bounded d'.
Proof.
  unfold load_document. rewrite rbind_Ok. intros ([] & _ & Hr).
  apply rbind_Ok in Hr as ([] & Hv & [= <-]). by apply validateLoaded_wf in Hv as (_ & ? & ?).
Qed.

(** C23. The loader decides the database invariant exactly: a document passes
    [validateLoaded] precisely when it has no null record, object and host
    uuids are canonical and unique, names are valid and unique within their
    kind, every initiator IQN is usable and bound to one host, every connection
    has a LUN in range and refers to an object and a host that exist, no pair
    is connected twice and no host uses a LUN twice, and the export indexes are
    in range and distinct; the order of the runtime's map iteration does not
    matter. *)
Theorem validateLoaded_exact (d : Loaded) :
  validateLoaded range dbPath d = Ok tt ↔
  no_nulls d ∧ wf_db (db_of d) ∧ exports_bounded (db_of d).
Proof. apply validateLoaded_wf. Qed.

(** Loading decides the invariant of a database it wrote. *)
Lemma load_document_iff (d : db) :
  load_document range dbPath (loaded_of d) = Ok d ↔
  db_Version d = dbVersion ∧ wf_db d ∧ exports_bounded d.
Proof.
  unfold load_document. destruct (loaded_of_no_nulls d) as [Hn Hd].
  pose proof (validateLoaded_wf (loaded_of d)) as Hv. rewrite Hd in Hv.
  unfold checkVersion. cbn [loaded_of ld_Version]. destruct (Z.eqb_spec (db_Version d) dbVersion).
  - destruct (validateLoaded range dbPath (loaded_of d)) as [[]|]; simpl; [rewrite Hd|]; naive_solver.
  - destruct (db_Version d <? dbVersion); simpl; naive_solver.
Qed.

(** What the appliance writes it can read back: a database of the current
    version, written as a document and loaded, gives the same database exactly
    when it is well formed and its export indexes are in range; otherwise the
    daemon refuses to start on it. *)
Theorem load_document_roundtrip (d : db) :
  load_document range dbPath (loaded_of d) = Ok d ↔
  db_Version d = dbVersion ∧ wf_db d ∧ exports_bounded d.
Proof. apply load_document_iff. Qed.
End validate.
