(* ===== verification/AppPortals.v ===== *)
(** * appliance: settings and portals

    [Config.Validate], [ParsePortals], [checkPortalOverlap], [samePortalSet]
    and [portals] of appliance/appliance.go. [range] is the order in which the
    runtime ranges over the map of portals by port. *)

From S2P Require Import Prelude GoStrings Errors Netip LioModel Configfs AppModel.

#[global] Instance Addr_countable : Countable Addr.
Proof.
  refine (inj_countable'
    (λ a, match a with AddrZero => inl () | Addr4 v => inr (inl v) | Addr6 g z => inr (inr (g, z)) end)
    (λ c, match c with inl _ => AddrZero | inr (inl v) => Addr4 v | inr (inr (g, z)) => Addr6 g z end)
    _).
  by intros [].
Defined.
#[global] Instance AddrPort_countable : Countable AddrPort.
Proof.
  refine (inj_countable' (λ a, (ap_Addr a, ap_Port a)) (λ c, AddrPortFrom c.1 c.2) _).
  by intros [].
Defined.

(** [netip.AddrPortFrom(p.IP, uint16(p.Port))]: the port as written. *)
Definition raw_key (p : Portal) : AddrPort := AddrPortFrom (p_IP p) (p_Port p).

Definition wildcardCovers (w other : Addr) : bool :=
  if negb (IsValid w) || negb (IsValid other) || negb (IsUnspecified w) then false
  else if Is4 w then Is4 other else true.

Section overlap.
Context (range : ∀ A, list A → list A).
Arguments range {A}.

(** [byPort]: the ports in use, in the runtime's order, each with its group. *)
Definition byPort (portals : list Portal) : list (Z * list Portal) :=
  (λ port, (port, filter (λ p, p_Port p = port) portals))
    <$> range (elements (list_to_set (p_Port <$> portals) : gset Z)).

Definition check_pair (port : Z) (w o : Portal) : result aerr unit :=
  if bool_decide (p_IP o = p_IP w) || negb (wildcardCovers (p_IP w) (p_IP o)) then Ok tt
  else Err (AMsg "appliance: portals %s and %s cannot both be bound on port %d..."
              [Addr_String (p_IP w); Addr_String (p_IP o); itoa port]).
Definition check_group (g : Z * list Portal) : result aerr unit :=
  rfor (λ w, if negb (IsUnspecified (p_IP w)) then Ok tt else rfor (check_pair g.1 w) g.2) g.2.
Definition checkPortalOverlap (portals : list Portal) : result aerr unit :=
  rfor check_group (byPort portals).

Definition check_portal (seen : gset AddrPort) (p : Portal) : result aerr (gset AddrPort) :=
  if negb (IsValid (p_IP p))
  then Err (AMsg "appliance: a portal has no address -- check for a stray comma in -portals" [])
  else if p_Port p =? 0
  then Err (AMsg "appliance: portal %s has no port (-portals)" [Addr_String (p_IP p)])
  else if decide (raw_key p ∈ seen)
  then Err (AMsg "appliance: portal %s is listed twice, possibly written two different ways..."
              [AddrPort_String (raw_key p)])
  else Ok ({[raw_key p]} ∪ seen).

(** [Config.Validate]. *)
Definition AppConfig_Validate (c : AppConfig) : result aerr unit :=
  if negb (String.eqb (ac_TargetIQN c) "") && negb (ValidTargetIQN (ac_TargetIQN c))
  then Err (AMsg "appliance: target IQN %q is not usable..." [ac_TargetIQN c])
  else if (length (ac_Portals c) =? 0)%nat
  then Err (AMsg "appliance: at least one portal address is required (-portals)" [])
  else
    let? _ := rfold check_portal ∅ (ac_Portals c) in
    let? _ := checkPortalOverlap (ac_Portals c) in
    if negb (String.eqb (ac_DBRoot c) "") && negb (IsAbs (ac_DBRoot c))
    then Err (AMsg "appliance: db root %q must be an absolute path" [ac_DBRoot c])
    else Ok tt.
End overlap.

(** [ParsePortals]: one portal per comma-separated entry. *)
Definition parse_entry (defaultPort : Z) (entry : string) : result aerr Portal :=
  match ParsePortal entry with
  | None => Err (AMsg "appliance: portal %q is not an address or address:port..." [entry])
  | Some p => Ok (if p_Port p =? 0 then mkPortal (p_IP p) defaultPort else p)
  end.
Definition ParsePortals (spec : string) (defaultPort : Z) : result aerr (list Portal) :=
  rfold (λ out entry, let? p := parse_entry defaultPort entry in Ok (out ++ [p])) []
    (Split spec (chr 44)).

(** [samePortalSet]: the counts of [a] are decremented along [b]. *)
Definition count_in (m : gmap AddrPort Z) (k : AddrPort) : Z := default 0 (m !! k).
Definition bump (d : Z) (m : gmap AddrPort Z) (k : AddrPort) : gmap AddrPort Z :=
  <[k := count_in m k + d]> m.
Fixpoint take_all (seen : gmap AddrPort Z) (b : list AddrPort) : bool :=
  match b with
  | [] => true
  | k :: b =>
      let seen := bump (-1) seen k in
      if count_in seen k <? 0 then false else take_all seen b
  end.
Definition samePortalSet (a b : list Portal) : bool :=
  if negb (length a =? length b)%nat then false
  else take_all (foldl (bump 1) ∅ (raw_key <$> a)) (raw_key <$> b).

Definition portalsText (ps : list Portal) : string :=
  match ps with [] => "(none)" | _ => Join (Portal_String <$> ps) "," end.

(** [Coordinator.portals]: the record, or the flag while nothing is recorded. *)
Definition portals (d : db) (c : AppConfig) : list Portal :=
  match db_Portals d with [] => ac_Portals c | ps => ps end.

(** ** What the checks decide *)

(** No portal of the list is precluded by a wildcard of the same port. *)
Definition portals_compatible (ps : list Portal) : Prop :=
  ∀ w o, w ∈ ps → o ∈ ps → p_Port w = p_Port o → p_IP o ≠ p_IP w →
    wildcardCovers (p_IP w) (p_IP o) = false.
Record valid_portals (ps : list Portal) : Prop := {
  vp_some : ps ≠ [];
  vp_addr : Forall (λ p, IsValid (p_IP p) = true ∧ p_Port p ≠ 0) ps;
  vp_distinct : NoDup (raw_key <$> ps);
  vp_compatible : portals_compatible ps
}.

Section overlap_proofs.
Context (range : ∀ A, list A → list A) (range_perm : ∀ A (l : list A), range A l ≡ₚ l).

Lemma checkPortalOverlap_spec ps : checkPortalOverlap range ps = Ok tt ↔ portals_compatible ps.
Proof.
  unfold checkPortalOverlap, portals_compatible. rewrite rfor_Ok, Forall_forall. unfold byPort.
  assert (Hport : ∀ z, z ∈ range _ (elements (list_to_set (p_Port <$> ps) : gset Z)) ↔ z ∈ p_Port <$> ps).
  { intros z. by rewrite range_perm, elem_of_elements, elem_of_list_to_set. }
  assert (Hpair : ∀ z w o, check_pair z w o = Ok tt ↔
    (p_IP o ≠ p_IP w → wildcardCovers (p_IP w) (p_IP o) = false)).
  { intros z w o. unfold check_pair. case_bool_decide as Heq; simpl; [naive_solver|].
    destruct (wildcardCovers (p_IP w) (p_IP o)); simpl; naive_solver. }
  split.
  - intros H w o Hw Ho Hp Hne. destruct (IsUnspecified (p_IP w)) eqn:Hu.
    2:{ unfold wildcardCovers. rewrite Hu. by destruct (IsValid (p_IP w)), (IsValid (p_IP o)). }
    assert (Hg : check_group (p_Port w, filter (λ p, p_Port p = p_Port w) ps) = Ok tt).
    { apply H, list_elem_of_fmap. exists (p_Port w). split; [done|]. apply Hport.
      by apply list_elem_of_fmap_2. }
    apply rfor_Ok in Hg. rewrite Forall_forall in Hg. cbn in Hg.
    specialize (Hg w). rewrite Hu in Hg. cbn in Hg.
    assert (Hr := Hg ltac:(by apply list_elem_of_filter)).
    apply rfor_Ok in Hr. rewrite Forall_forall in Hr.
    apply (Hpair (p_Port w)); [|done]. apply Hr. by apply list_elem_of_filter.
  - intros H g (z & -> & Hz)%list_elem_of_fmap. apply rfor_Ok, Forall_forall. cbn.
    intros w [Hwz Hw]%list_elem_of_filter. destruct (IsUnspecified (p_IP w)); [|done]. cbn.
    apply rfor_Ok, Forall_forall. intros o [Hoz Ho]%list_elem_of_filter. apply Hpair.
    intros Hne. apply H; congruence.
Qed.

Lemma check_portal_ok s x s' : check_portal s x = Ok s' →
  (IsValid (p_IP x) = true ∧ p_Port x ≠ 0) ∧ ¬ raw_key x ∈ s ∧ ∀ k, k ∈ s' ↔ k = raw_key x ∨ k ∈ s.
Proof.
  unfold check_portal. destruct (IsValid (p_IP x)); [|done]. simpl.
  destruct (p_Port x =? 0) eqn:Hp; [done|]. case_decide; [done|]. intros [= <-]. bool_facts.
  split_and!; [done..|]. set_solver.
Qed.
Lemma check_portal_total s x : (IsValid (p_IP x) = true ∧ p_Port x ≠ 0) → ¬ raw_key x ∈ s →
  ∃ s', check_portal s x = Ok s'.
Proof.
  unfold check_portal. intros [-> Hp] Hs. simpl. apply Z.eqb_neq in Hp as ->.
  rewrite decide_False by done. by eexists.
Qed.

Lemma AppConfig_Validate_spec c :
  AppConfig_Validate range c = Ok tt ↔
  (ac_TargetIQN c = "" ∨ ValidTargetIQN (ac_TargetIQN c) = true) ∧ valid_portals (ac_Portals c) ∧
  (ac_DBRoot c = "" ∨ IsAbs (ac_DBRoot c) = true).
Proof.
  unfold AppConfig_Validate.
  assert (Hloop : (∃ s, rfold check_portal ∅ (ac_Portals c) = Ok s) ↔
    Forall (λ p, IsValid (p_IP p) = true ∧ p_Port p ≠ 0) (ac_Portals c)
    ∧ NoDup (raw_key <$> ac_Portals c)).
  { split.
    - intros [s Hs]. eapply (rfold_distinct_sound (λ (s : gset AddrPort) k, k ∈ s) raw_key) in Hs;
        [|apply check_portal_ok]. tauto.
    - intros [HF Hnd]. apply (rfold_distinct_complete (λ (s : gset AddrPort) k, k ∈ s) raw_key _ _
        check_portal_ok check_portal_total); [done..|]. set_solver. }
  destruct (String.eqb_spec (ac_TargetIQN c) "") as [->|Hiqn]; simpl;
    [|destruct (ValidTargetIQN (ac_TargetIQN c)) eqn:Hv; simpl; [|naive_solver]].
  all: destruct (ac_Portals c) as [|p ps] eqn:Hps; cbn [length Nat.eqb];
    [split; [done|]; intros (_ & [] & _); done|]; rewrite <- Hps in *.
  all: rewrite rbind_Ok; setoid_rewrite rbind_Ok.
  all: destruct (String.eqb_spec (ac_DBRoot c) "") as [->|Hdb], (IsAbs (ac_DBRoot c)) eqn:Habs; simpl.
  all: split; [intros (s & Hs & [] & Ho & Hr); try done;
      apply checkPortalOverlap_spec in Ho; destruct (proj1 Hloop (ex_intro _ s Hs));
      split_and!; auto; constructor; auto; by rewrite Hps
    | intros (_ & [Hne HF Hnd Hc] & Hr); destruct (proj2 Hloop (conj HF Hnd)) as [s Hs];
      exists s; split; [done|]; exists tt; apply checkPortalOverlap_spec in Hc; try done;
      destruct Hr; done ].
Qed.
End overlap_proofs.

(** ** samePortalSet compares multisets *)

Lemma count_bump d m k k' :
  count_in (bump d m k) k' = count_in m k' + (if decide (k = k') then d else 0).
Proof.
  unfold count_in, bump. destruct (decide (k = k')) as [->|Hne].
  - by rewrite lookup_insert_eq.
  - rewrite lookup_insert_ne by done. lia.
Qed.

Fixpoint occ (k : AddrPort) (l : list AddrPort) : Z :=
  match l with [] => 0 | x :: l => (if decide (x = k) then 1 else 0) + occ k l end.

Lemma occ_pos k l : 0 <= occ k l.
Proof. induction l as [|x l IH]; simpl; [lia|]. case_decide; lia. Qed.

Lemma occ_elem k l : 0 < occ k l ↔ k ∈ l.
Proof.
  induction l as [|x l IH]; simpl; [rewrite elem_of_nil; lia|]. rewrite elem_of_cons.
  pose proof (occ_pos k l). case_decide; [split; [auto | lia]|]. rewrite Z.add_0_l, IH. naive_solver.
Qed.

Lemma count_foldl m l k : count_in (foldl (bump 1) m l) k = count_in m k + occ k l.
Proof.
  revert m. induction l as [|x l IH]; intros m; simpl; [lia|]. rewrite IH, count_bump.
  repeat case_decide; congruence || lia.
Qed.

Lemma take_all_spec m b : (∀ k, 0 <= count_in m k) →
  take_all m b = true ↔ ∀ k, occ k b <= count_in m k.
Proof.
  revert m. induction b as [|x b IH]; intros m Hm; simpl; [naive_solver|].
  assert (Hx : count_in (bump (-1) m x) x = count_in m x - 1).
  { rewrite count_bump, decide_True by done. lia. }
  rewrite Hx. destruct (count_in m x - 1 <? 0) eqn:Hlt; bool_facts.
  - split; [done|]. intros H. specialize (H x). rewrite decide_True in H by done.
    pose proof (occ_pos x b). lia.
  - rewrite IH.
    + split; intros H k; specialize (H k); rewrite count_bump in *; repeat case_decide; congruence || lia.
    + intros k. rewrite count_bump. specialize (Hm k). case_decide; [subst|]; lia.
Qed.

Lemma occ_perm l1 l2 : length l1 = length l2 → (∀ k, occ k l2 <= occ k l1) → l1 ≡ₚ l2.
Proof.
  revert l1. induction l2 as [|x l2 IH]; intros l1 Hlen Hocc.
  - by apply nil_length_inv in Hlen as ->.
  - assert (Hx : x ∈ l1).
    { apply occ_elem. specialize (Hocc x). simpl in Hocc. rewrite decide_True in Hocc by done.
      pose proof (occ_pos x l2). lia. }
    apply list_elem_of_split in Hx as (a & c & ->). rewrite <- Permutation_middle.
    constructor. apply IH.
    + rewrite length_app in *. cbn in Hlen. lia.
    + assert (Happ : ∀ k l l', occ k (l ++ l') = occ k l + occ k l').
      { intros k l l'. induction l as [|y l IHl]; simpl; [done|]. rewrite IHl. lia. }
      intros k. specialize (Hocc k). rewrite Happ in *. simpl in Hocc. lia.
Qed.

Lemma occ_proper k l1 l2 : l1 ≡ₚ l2 → occ k l1 = occ k l2.
Proof. induction 1; simpl; lia. Qed.

(** Comparing portal lists ignores order and nothing else: [samePortalSet]
    answers true exactly when one list of endpoints is a permutation of the
    other, multiplicity included. *)
Theorem samePortalSet_multiset (a b : list Portal) :
  samePortalSet a b = true ↔ raw_key <$> a ≡ₚ raw_key <$> b.
Proof.
  unfold samePortalSet.
  assert (H0 : ∀ k, count_in (foldl (bump 1) ∅ (raw_key <$> a)) k = occ k (raw_key <$> a)).
  { intros k. rewrite count_foldl. unfold count_in. rewrite lookup_empty. simpl. lia. }
  destruct (length a =? length b)%nat eqn:Hlen; simpl.
  - apply Nat.eqb_eq in Hlen. rewrite take_all_spec by (intros k; rewrite H0; apply occ_pos).
    split.
    + intros H. apply occ_perm; [by rewrite !length_fmap|]. intros k. by rewrite <- H0.
    + intros H k. rewrite H0. by rewrite (occ_proper k _ _ H).
  - apply Nat.eqb_neq in Hlen. split; [done|]. intros H%Permutation_length.
    by rewrite !length_fmap in H.
Qed.
