(* ===== verification/AppAptpl.v ===== *)
(** * appliance: the kernel's saved reservation files

    appliance/aptpl.go. [ParseAPTPL] turns the file the kernel saves into the
    records lio writes back ([LioAptpl.parseAPTPLRecord] reads them);
    [APTPLProvider] is the provider lio's Manager is given. The files live in
    the kernel's db_root, reached by the same system calls as configfs. *)

From S2P Require Import Prelude GoStrings Errors Netip LioModel Configfs LioAptpl AppModel.

Definition startMark : string := "PR_REG_START:".
Definition endMark : string := "PR_REG_END:".

(** The loop's variables. *)
Record scan := mkScan {
  sc_out : list string; sc_cur : list string; sc_inBlock : bool; sc_startLine : Z; sc_stray : bool }.
Definition scan0 : scan := mkScan [] [] false 0 false.

Definition aptplRequired : list string := ["initiator_node"; "sa_res_key"; "mapped_lun"; "target_node"].
(** [l[:strings.Index(l, "=")]], of a line that has one. *)
Definition field_key (l : string) : string := match Cut l "=" with Some (k, _) => k | None => "" end.

Definition joinRecord (lines : list string) (startLine : Z) : result goerr string :=
  match lines with
  | [] => Err (wrapf "empty registration block at line %d" [itoa startLine])
  | _ =>
      let have := field_key <$> lines in
      let? _ := rfor (λ k, if any (String.eqb k) have then Ok tt
                           else Err (wrapf "registration block at line %d is missing %q"
                                       [itoa startLine; k])) aptplRequired in
      Ok (Join lines ",")
  end.

(** One iteration; [n] counts lines from zero. *)
Definition scan_line (n : Z) (st : scan) (line : string) : result goerr scan :=
  let line := TrimSpace line in
  if HasPrefix line startMark then
    if sc_inBlock st
    then Err (wrapf "line %d: PR_REG_START inside an unterminated block opened at line %d"
                [itoa (n + 1); itoa (sc_startLine st)])
    else Ok (mkScan (sc_out st) [] true (n + 1) (sc_stray st))
  else if HasPrefix line endMark then
    if negb (sc_inBlock st)
    then Err (wrapf "line %d: PR_REG_END without a matching PR_REG_START" [itoa (n + 1)])
    else
      let? rec := joinRecord (sc_cur st) (sc_startLine st) in
      Ok (mkScan (sc_out st ++ [rec]) [] false (sc_startLine st) (sc_stray st))
  else if String.eqb line "" then Ok st
  else if negb (sc_inBlock st)
  then Ok (mkScan (sc_out st) (sc_cur st) (sc_inBlock st) (sc_startLine st) true)
  else if negb (Contains line "=")
  then Err (wrapf "line %d: unparsable line inside a registration block: %q" [itoa (n + 1); line])
  else if Contains line ","
  then Err (wrapf "line %d: illegal comma in saved PR field: %q" [itoa (n + 1); line])
  else Ok (mkScan (sc_out st) (sc_cur st ++ [line]) (sc_inBlock st) (sc_startLine st) (sc_stray st)).
Fixpoint scan_lines (n : Z) (st : scan) (lines : list string) : result goerr scan :=
  match lines with
  | [] => Ok st
  | l :: lines => let? st := scan_line n st l in scan_lines (n + 1) st lines
  end.

Definition withoutNul (s : string) : string := TrimSpace (RemoveAll s nul).
Definition isNoRegistrations (s : string) : bool :=
  String.eqb (withoutNul s) "No Registrations or Reservations".

Definition ParseAPTPL (s : string) : result goerr (list string) :=
  let? st := scan_lines 0 scan0 (Split s nl) in
  if sc_inBlock st
  then Err (wrapf "truncated saved PR state: block opened at line %d is never terminated"
              [itoa (sc_startLine st)])
  else
    match sc_out st with
    | [] =>
        if isNoRegistrations s then Ok []
        else if String.eqb (withoutNul s) ""
        then Err (wrapf "saved PR state is empty..." [])
        else if sc_stray st
        then Err (wrapf "saved PR state contains no registration blocks..." [])
        else Ok []
    | out => Ok out
    end.

Definition APTPLPath (dbRoot wwn : string) : string := path_Join [dbRoot; "pr"; "aptpl_" +:+ wwn].

Section provider.
Context {K : Type} `{Kernel K} (dbRoot : string).

Definition APTPLProvider (b : Backstore) : ST K (list string) :=
  if String.eqb (bs_WWN b) "" then ret []
  else if negb (isHex16 (bs_WWN b))
  then throw (wrapf "refusing to read saved PR state: malformed WWN %q" [bs_WWN b])
  else
    let path := APTPLPath dbRoot (bs_WWN b) in
    do r <- try (os_ReadFile path);
    match r with
    | Err err =>
        if errors_Is err ENOENT then ret []
        else throw (ErrWrap "read saved PR state %s: %w" [path] err)
    | Ok data =>
        match ParseAPTPL data with
        | Err err => throw (ErrWrap "saved PR state %s: %w" [path] err)
        | Ok recs => ret recs
        end
    end.

(** [OrphanPRState]: saved files of no live WWN, in directory order. *)
Definition orphan_of (dir : string) (liveWWNs : list string) (e : string) : option string :=
  match CutPrefix e "aptpl_" with
  | Some wwn => if any (String.eqb wwn) liveWWNs then None else Some (path_Join [dir; e])
  | None => None
  end.
Definition OrphanPRState (liveWWNs : list string) : ST K (list string) :=
  if String.eqb dbRoot "" then ret []
  else
    let dir := path_Join [dbRoot; "pr"] in
    do r <- try (os_ReadDir dir);
    match r with
    | Err err =>
        if errors_Is err ENOENT then ret []
        else throw (ErrWrap "read %s: %w" [dir] err)
    | Ok entries => ret (omap (λ e : string * ftype, orphan_of dir liveWWNs e.1) entries)
    end.

(** [os.Remove]: unlink, then rmdir; the error of the unlink is reported when
    the rmdir says the file is not a directory. *)
Definition os_Remove (p : string) : ST K unit :=
  do r <- try (sys "remove" p (sys_op (SysUnlink p)));
  match r with
  | Ok _ => ret tt
  | Err e =>
      do r1 <- try (sys "remove" p (sys_op (SysRmdir p)));
      match r1 with
      | Ok _ => ret tt
      | Err e1 => throw (if errors_Is e1 ENOTDIR then e else e1)
      end
  end.
End provider.

(** ** Lines *)

Fixpoint unlines (ls : list string) : string :=
  match ls with [] => "" | l :: ls => l +:+ nl_str +:+ unlines ls end.
Definition one_line (s : string) : Prop := Forall (λ c, c ≠ nl) (chars s).

Lemma Split_line l s : one_line l → Split (l +:+ nl_str +:+ s) nl = l :: Split s nl.
Proof.
  unfold one_line. induction l as [|c l IH]; cbn [chars].
  - intros _. change (Split (String nl s) nl = "" :: Split s nl). cbn [Split].
    by rewrite Ascii.eqb_refl.
  - intros [Hc Hl]%Forall_cons. change (String c l +:+ nl_str +:+ s) with (String c (l +:+ nl_str +:+ s)).
    cbn [Split]. rewrite IH by done. destruct (Ascii.eqb_spec c nl); [done|]. done.
Qed.

Lemma Split_unlines ls s : Forall one_line ls → Split (unlines ls +:+ s) nl = ls ++ Split s nl.
Proof.
  induction 1 as [|l ls Hl _ IH]; [done|]. cbn [unlines app].
  rewrite !app_assoc_str, Split_line by done. by f_equal.
Qed.

Lemma scan_lines_app n st l1 l2 :
  scan_lines n st (l1 ++ l2)
  = let? st' := scan_lines n st l1 in scan_lines (n + Z.of_nat (length l1)) st' l2.
Proof.
  revert n st. induction l1 as [|l l1 IH]; intros n st; simpl.
  - f_equal. lia.
  - destruct (scan_line n st l); simpl; [|done]. rewrite IH.
    destruct (scan_lines (n + 1) a l1); simpl; [|done]. f_equal. lia.
Qed.

(** ** The file the kernel writes *)

(** A field line: one [key=value], with nothing to trim, no comma, and not a
    marker. *)
Record field_line (l : string) : Prop := {
  fl_line : one_line l;
  fl_trim : TrimSpace l = l;
  fl_eq : Contains l "=" = true;
  fl_comma : Contains l "," = false;
  fl_start : HasPrefix l startMark = false;
  fl_end : HasPrefix l endMark = false
}.
(** A registration: field lines among which are the required keys. *)
Record registration (ls : list string) : Prop := {
  rg_fields : Forall field_line ls;
  rg_required : ∀ k, k ∈ aptplRequired → k ∈ field_key <$> ls
}.
(** The rendering of drivers/target/target_core_pr.c: numbered blocks. *)
Definition block_lines (i : Z) (ls : list string) : list string :=
  [startMark +:+ " " +:+ itoa i] ++ ls ++ [endMark +:+ " " +:+ itoa i].
Fixpoint file_lines (i : Z) (blocks : list (list string)) : list string :=
  match blocks with
  | [] => []
  | ls :: blocks => block_lines i ls ++ file_lines (i + 1) blocks
  end.
Definition render_aptpl (blocks : list (list string)) : string := unlines (file_lines 0 blocks).

(** ** ASCII text *)

Definition is_ascii (c : ascii) : bool := byte_of c <? 0x80.
Definition rune_of (c : ascii) : Z * string := (byte_of c, str1 c).

Lemma runes_ascii s : str_all is_ascii s = true → runes s = rune_of <$> chars s.
Proof.
  induction s as [|c s IH]; [done|]. cbn [str_all runes chars fmap list_fmap]. intros [Hc Hs]%andb_true_iff.
  unfold is_ascii in Hc. rewrite Hc. by rewrite IH.
Qed.
Lemma unrunes_app a b : unrunes (a ++ b) = unrunes a +:+ unrunes b.
Proof. induction a as [|x a IH]; [done|]. simpl. by rewrite IH, app_assoc_str. Qed.
Lemma unrunes_chars s : unrunes (rune_of <$> chars s) = s.
Proof.
  induction s as [|c s IH]; [done|].
  change (String c (unrunes (rune_of <$> chars s)) = String c s). by rewrite IH.
Qed.

Lemma drop_spaces_head l r rs : l = r :: rs → IsSpace r.1 = false → drop_spaces l = l.
Proof. intros -> Hr. simpl. by rewrite Hr. Qed.

(** ASCII text that starts and ends with no space is its own trim. *)
Lemma TrimSpace_ascii c s d :
  str_all is_ascii (String c (s +:+ str1 d)) = true →
  IsSpace (byte_of c) = false → IsSpace (byte_of d) = false →
  TrimSpace (String c (s +:+ str1 d)) = String c (s +:+ str1 d).
Proof.
  intros Ha Hc Hd. unfold TrimSpace. rewrite runes_ascii by done.
  set (t := String c (s +:+ str1 d)).
  assert (Ht : rune_of <$> chars t = (rune_of c :: (rune_of <$> chars s)) ++ [rune_of d]).
  { unfold t. cbn [chars fmap list_fmap app]. f_equal. by rewrite chars_app, fmap_app. }
  rewrite (drop_spaces_head (rune_of <$> chars t) _ _ Ht) by done.
  assert (Hr : reverse (rune_of <$> chars t) = rune_of d :: reverse (rune_of c :: (rune_of <$> chars s))).
  { by rewrite Ht, reverse_snoc. }
  rewrite (drop_spaces_head _ _ _ Hr) by done. rewrite reverse_involutive. apply unrunes_chars.
Qed.
