(* ===== verification/AppAptplProofs.v ===== *)
(** * appliance: what ParseAPTPL guarantees

    The parser inverts the kernel's rendering, and it fails closed: "no
    registrations" is answered only for the kernel's own placeholder, and text
    that ends inside a block is an error wherever it was cut. *)

From S2P Require Import Prelude GoStrings Errors Netip LioModel Configfs LioAptpl AppModel AppAptpl.

(** ** Decimal text *)

Definition digit_char (c : ascii) : bool := (48 <=? byte_of c) && (byte_of c <=? 57).

Lemma digit_ok c : digit_char c = true → is_ascii c = true ∧ IsSpace (byte_of c) = false ∧ c ≠ nl.
Proof. by destruct c as [[] [] [] [] [] [] [] []]; vm_compute. Qed.

Lemma pretty_N_digits x s : str_all digit_char s = true → str_all digit_char (pretty_N_go x s) = true.
Proof.
  revert s. induction (N.lt_wf_0 x) as [x _ IH]. intros s Hs.
  destruct (decide (0 < x)%N) as [Hx|Hx].
  - rewrite pretty_N_go_step by done. apply IH; [apply N.div_lt; lia|]. simpl. rewrite Hs.
    unfold pretty_N_char. by repeat case_match.
  - assert (x = 0%N) as -> by lia. by rewrite pretty_N_go_0.
Qed.

Lemma itoa_digits n : 0 <= n → str_all digit_char (itoa n) = true ∧ itoa n ≠ "".
Proof.
  intros Hn. destruct n as [|p|p]; [done | | lia].
  change (itoa (Zpos p)) with (pretty_N_go (Npos p) ""). split.
  - by apply pretty_N_digits.
  - rewrite pretty_N_go_step by lia. intros He.
    assert (Hl : ∀ x s, (String.length s <= String.length (pretty_N_go x s))%nat).
    { intros x. induction (N.lt_wf_0 x) as [x _ IH]. intros s. destruct (decide (0 < x)%N).
      - rewrite pretty_N_go_step by done. etransitivity; [|apply IH; apply N.div_lt; lia]. simpl. lia.
      - assert (x = 0%N) as -> by lia. by rewrite pretty_N_go_0. }
    specialize (Hl (Npos p `div` 10)%N (String (pretty_N_char (Npos p `mod` 10)) "")).
    rewrite He in Hl. simpl in Hl. lia.
Qed.

Lemma str_all_app f s t : str_all f (s +:+ t) = str_all f s && str_all f t.
Proof.
  induction s as [|c s IH]; [done|]. change (String c s +:+ t) with (String c (s +:+ t)).
  cbn [str_all]. by rewrite IH, andb_assoc.
Qed.
Lemma str_all_impl (f g : ascii → bool) s :
  (∀ c, f c = true → g c = true) → str_all f s = true → str_all g s = true.
Proof.
  intros Hfg. induction s as [|c s IH]; [done|]. cbn [str_all]. intros [Hc Hs]%andb_true_iff.
  by rewrite Hfg, IH.
Qed.

Lemma last_char s : s ≠ "" → ∃ t c, s = t +:+ str1 c.
Proof.
  induction s as [|x s IH]; [done|]. intros _. destruct s as [|y s]; [by exists "", x|].
  destruct IH as (t & c & ->); [done|]. by exists (String x t), c.
Qed.

(** A marker line is its own trim, is one line, and starts with its mark. *)
Lemma marker_line m i : 0 <= i → (m = startMark ∨ m = endMark) →
  let l := m +:+ " " +:+ itoa i in
  TrimSpace l = l ∧ one_line l ∧ HasPrefix l m = true.
Proof.
  intros Hi Hm l. destruct (itoa_digits i Hi) as [Hd Hne].
  destruct (last_char _ Hne) as (t & d & Ht).
  assert (Hdd : digit_char d = true).
  { rewrite Ht, str_all_app in Hd. apply andb_true_iff in Hd as [_ Hd]. cbn in Hd.
    by rewrite andb_true_r in Hd. }
  assert (Hpre : ∀ a b, HasPrefix (a +:+ b) a = true).
  { unfold HasPrefix. intros a b. induction a as [|c a IH]; [by destruct b|].
    change (String c a +:+ b) with (String c (a +:+ b)). cbn [String.prefix].
    destruct (ascii_dec c c); [exact IH | congruence]. }
  split_and!; [ | |apply Hpre].
  - assert (∃ c r, l = String c (r +:+ str1 d) ∧ IsSpace (byte_of c) = false) as (c & r & Hl & Hc).
    { unfold l. rewrite Ht. rewrite <- !app_assoc_str. destruct Hm as [-> | ->].
      - exists "P"%char, (("R_REG_START:" +:+ " ") +:+ t). by split.
      - exists "P"%char, (("R_REG_END:" +:+ " ") +:+ t). by split. }
    rewrite Hl. apply TrimSpace_ascii; [|done | by apply digit_ok]. rewrite <- Hl. unfold l.
    rewrite !str_all_app, (str_all_impl digit_char is_ascii (itoa i)) by (done || (intros; by apply digit_ok)).
    by destruct Hm as [-> | ->].
  - unfold one_line, l. rewrite !chars_app, !Forall_app. split_and!.
    + destruct Hm as [-> | ->]; repeat constructor; done.
    + repeat constructor; done.
    + clear -Hd. induction (itoa i) as [|c s IH]; [constructor|]. cbn in Hd.
      apply andb_true_iff in Hd as [Hc Hs]. constructor; [by apply digit_ok | by apply IH].
Qed.

(** ** Blocks *)

Section blocks.
Context (n i : Z) (st : scan).

Lemma scan_start : 0 <= i → sc_inBlock st = false →
  scan_line n st (startMark +:+ " " +:+ itoa i) = Ok (mkScan (sc_out st) [] true (n + 1) (sc_stray st)).
Proof.
  intros Hi Hb. destruct (marker_line startMark i Hi (or_introl eq_refl)) as (Ht & _ & Hp).
  unfold scan_line. by rewrite Ht, Hp, Hb.
Qed.

Lemma scan_end rec : 0 <= i → sc_inBlock st = true → joinRecord (sc_cur st) (sc_startLine st) = Ok rec →
  scan_line n st (endMark +:+ " " +:+ itoa i)
  = Ok (mkScan (sc_out st ++ [rec]) [] false (sc_startLine st) (sc_stray st)).
Proof.
  intros Hi Hb Hj. destruct (marker_line endMark i Hi (or_intror eq_refl)) as (Ht & _ & Hp).
  unfold scan_line. rewrite Ht, Hp. change (HasPrefix (endMark +:+ " " +:+ itoa i) startMark) with false.
  cbn [negb]. by rewrite Hb, Hj.
Qed.
End blocks.

Lemma scan_field n st l : field_line l → sc_inBlock st = true →
  scan_line n st l
  = Ok (mkScan (sc_out st) (sc_cur st ++ [l]) true (sc_startLine st) (sc_stray st)).
Proof.
  intros [_ Ht He Hc Hs Hd] Hb. unfold scan_line. rewrite Ht, Hs, Hd, He, Hc, Hb.
  destruct (String.eqb_spec l "") as [->|]; [by cbv in He | done].
Qed.

Lemma scan_fields n st ls : Forall field_line ls → sc_inBlock st = true →
  scan_lines n st ls
  = Ok (mkScan (sc_out st) (sc_cur st ++ ls) true (sc_startLine st) (sc_stray st)).
Proof.
  intros HF. revert n st. induction HF as [|l ls Hl _ IH]; intros n st Hb; simpl.
  - destruct st. simpl in *. by rewrite app_nil_r, Hb.
  - rewrite scan_field by done. simpl. rewrite IH by done. simpl. by rewrite <- app_assoc.
Qed.

Lemma joinRecord_ok ls n : registration ls → joinRecord ls n = Ok (Join ls ",").
Proof.
  intros [HF Hr]. unfold joinRecord. destruct ls as [|l ls].
  - specialize (Hr "initiator_node" ltac:(left)). set_solver.
  - assert (rfor (λ k, if any (String.eqb k) (field_key <$> l :: ls) then Ok tt
        else Err (wrapf "registration block at line %d is missing %q" [itoa n; k])) aptplRequired = Ok tt)
      as ->; [|done].
    apply rfor_Ok, Forall_forall. intros k Hk. apply Hr in Hk.
    assert (any (String.eqb k) (field_key <$> l :: ls) = true) as ->; [|done].
    apply any_true. exists k. split; [done | apply String.eqb_refl].
Qed.

Lemma scan_block n i st ls : 0 <= i → registration ls → sc_inBlock st = false →
  scan_lines n st (block_lines i ls)
  = Ok (mkScan (sc_out st ++ [Join ls ","]) [] false (n + 1) (sc_stray st)).
Proof.
  intros Hi Hr Hb. unfold block_lines.
  rewrite scan_lines_app. cbn [scan_lines]. rewrite scan_start by done. cbn [rbind].
  rewrite scan_lines_app, scan_fields by (done || apply Hr). cbn [rbind app scan_lines].
  by rewrite (scan_end _ _ _ (Join ls ",")) by (done || by apply joinRecord_ok).
Qed.

Lemma scan_file n i st blocks : 0 <= i → Forall registration blocks → sc_inBlock st = false →
  ∃ start, scan_lines n st (file_lines i blocks)
  = Ok (mkScan (sc_out st ++ ((λ ls, Join ls ",") <$> blocks))
       (match blocks with [] => sc_cur st | _ => [] end) false start (sc_stray st)).
Proof.
  intros Hi HF. revert n i Hi st. induction HF as [|ls blocks Hr _ IH]; intros n i Hi st Hb.
  - exists (sc_startLine st). cbn. destruct st; simpl in *. by rewrite app_nil_r, Hb.
  - cbn [file_lines]. rewrite scan_lines_app, scan_block by done. cbn [rbind].
    edestruct (IH (n + Z.of_nat (length (block_lines i ls))) (i + 1) ltac:(lia)) as [start ->].
    { done. }
    exists start. cbn [sc_out sc_stray]. rewrite <- app_assoc. by destruct blocks.
Qed.

Lemma file_one_line i blocks : 0 <= i → Forall registration blocks → Forall one_line (file_lines i blocks).
Proof.
  intros Hi HF. revert i Hi. induction HF as [|ls blocks [Hls _] _ IH]; intros i Hi; [constructor|].
  cbn [file_lines]. unfold block_lines. rewrite !Forall_app. split_and!.
  - apply Forall_singleton. by apply (marker_line startMark i); auto.
  - eapply Forall_impl; [exact Hls|]. by intros l [? _ _ _ _ _].
  - apply Forall_singleton. by apply (marker_line endMark i); auto.
  - apply IH. lia.
Qed.

Lemma app_nil_str s : s +:+ "" = s.
Proof. induction s as [|c s IH]; [done|]. change (String c (s +:+ "") = String c s). by rewrite IH. Qed.

(** C32. The parser inverts the kernel's rendering: a saved file of one or more
    registration blocks, each made of [key=value] lines among which are the
    initiator, key, LUN and target, parses to exactly one record per block, in
    order, each the comma-joined list of its lines. *)
Theorem ParseAPTPL_roundtrip (blocks : list (list string)) (Hsome : blocks ≠ [])
    (HF : Forall registration blocks) :
  ParseAPTPL (render_aptpl blocks) = Ok ((λ ls, Join ls ",") <$> blocks).
Proof.
  unfold ParseAPTPL, render_aptpl.
  rewrite <- (app_nil_str (unlines (file_lines 0 blocks))).
  rewrite Split_unlines by (apply file_one_line; [lia | done]).
  rewrite scan_lines_app. destruct (scan_file 0 0 scan0 blocks) as [start ->]; [lia | done | done |].
  simpl. by destruct blocks.
Qed.

(** ** Decoding around an ASCII byte *)

(** The first rune of [String a s]: value, text, and what follows it. *)
Definition decode (a : ascii) (s : string) : Z * string * string :=
  let b0 := byte_of a in
  if b0 <? 0x80 then (b0, str1 a, s)
  else
    match s with
    | String b s2 =>
        if (0xC2 <=? b0) && (b0 <=? 0xDF) && is_cont b then
          (Z.lor (Z.shiftl (Z.land b0 0x1F) 6) (low6 b), String a (str1 b), s2)
        else
          match s2 with
          | String c s3 =>
              if (0xE0 <=? b0) && (b0 <=? 0xEF) && second3 b0 b && is_cont c then
                (Z.lor (Z.shiftl (Z.land b0 0x0F) 12)
                   (Z.lor (Z.shiftl (low6 b) 6) (low6 c)), String a (String b (str1 c)), s3)
              else
                match s3 with
                | String d s4 =>
                    if (0xF0 <=? b0) && (b0 <=? 0xF4) && second4 b0 b && is_cont c && is_cont d then
                      (Z.lor (Z.shiftl (Z.land b0 0x07) 18)
                         (Z.lor (Z.shiftl (low6 b) 12) (Z.lor (Z.shiftl (low6 c) 6) (low6 d))),
                       String a (String b (String c (str1 d))), s4)
                    else (rune_error, str1 a, s)
                | EmptyString => (rune_error, str1 a, s)
                end
          | EmptyString => (rune_error, str1 a, s)
          end
    | EmptyString => (rune_error, str1 a, s)
    end.

Lemma runes_decode a s : runes (String a s) = (decode a s).1 :: runes (decode a s).2.
Proof. unfold decode. cbn [runes]. repeat case_match; simplify_eq/=; done. Qed.

Lemma cont_ascii c : is_ascii c = true →
  is_cont c = false ∧ (∀ b, second3 b c = false) ∧ ∀ b, second4 b c = false.
Proof.
  unfold is_ascii, is_cont, second3, second4, cont_in. intros Hc%Z.ltb_lt.
  assert (Hf : ∀ lo hi, 0x80 <= lo → (lo <=? byte_of c) && (byte_of c <=? hi) = false).
  { intros lo hi Hlo. apply andb_false_iff. left. apply Z.leb_gt. lia. }
  split_and!; [by apply Hf | |]; intros b.
  - destruct (b =? 0xE0); [by apply Hf|]. destruct (b =? 0xED); by apply Hf.
  - destruct (b =? 0xF0); [by apply Hf|]. destruct (b =? 0xF4); by apply Hf.
Qed.

Lemma app_cons_str c s t : String c s +:+ t = String c (s +:+ t).
Proof. done. Qed.
Lemma app_empty_str t : "" +:+ t = t.
Proof. done. Qed.

Lemma decode_app x s c b : is_ascii c = true →
  decode x (s +:+ String c b) = ((decode x s).1, (decode x s).2 +:+ String c b).
Proof.
  intros Hc. destruct (cont_ascii c Hc) as (H1 & H3 & H4). unfold decode.
  destruct (byte_of x <? 0x80); [done|].
  destruct s as [|y [|z [|w s]]]; rewrite ?app_cons_str, ?app_empty_str;
    cbn -[is_cont second3 second4].
  - rewrite H1, andb_false_r. destruct b as [|c2 [|c3 b]]; cbn -[is_cont second3 second4]; try done;
      rewrite H3, ?H4, ?andb_false_r; done.
  - destruct (_ && is_cont y); [done|]. rewrite H1, andb_false_r.
    destruct b; cbn -[is_cont second3 second4]; rewrite ?H1, ?andb_false_r; done.
  - destruct (_ && is_cont y); [done|]. destruct (_ && is_cont z); [done|]. by rewrite H1, !andb_false_r.
  - destruct (_ && is_cont y); [done|]. destruct (_ && is_cont z); [done|].
    by destruct (_ && is_cont w).
Qed.

Lemma decode_shorter x s : (String.length (decode x s).2 <= String.length s)%nat.
Proof. unfold decode. repeat case_match; simpl; lia. Qed.

Lemma decode_text x s : (decode x s).1.2 ≠ "".
Proof. unfold decode. by repeat case_match. Qed.

(** An ASCII byte is a rune of its own wherever it stands. *)
Lemma runes_sep c a b : is_ascii c = true → runes (a +:+ String c b) = runes a ++ rune_of c :: runes b.
Proof.
  intros Hc. remember (String.length a) as n eqn:Hn. revert a Hn.
  induction (lt_wf n) as [n _ IH]. intros [|x a] ->.
  - change ("" +:+ String c b) with (String c b). rewrite runes_decode. unfold decode, is_ascii in *.
    by rewrite Hc.
  - change (String x a +:+ String c b) with (String x (a +:+ String c b)).
    rewrite !runes_decode, decode_app by done. cbn [fst snd app]. f_equal.
    eapply IH; [|done]. pose proof (decode_shorter x a). simpl. lia.
Qed.

Lemma runes_text s : Forall (λ r : Z * string, r.2 ≠ "") (runes s).
Proof.
  remember (String.length s) as n eqn:Hn. revert s Hn.
  induction (lt_wf n) as [n _ IH]. intros [|x s] ->; [constructor|].
  rewrite runes_decode. constructor; [apply decode_text|]. eapply IH; [|done].
  pose proof (decode_shorter x s). simpl. lia.
Qed.

Definition blank (s : string) : Prop := Forall (λ r : Z * string, IsSpace r.1 = true) (runes s).

Lemma drop_spaces_nil l : Forall (λ r : Z * string, IsSpace r.1 = true) l ↔ drop_spaces l = [].
Proof.
  induction l as [|r l IH]; simpl; [by split; constructor|]. rewrite Forall_cons, IH.
  destruct (IsSpace r.1); naive_solver.
Qed.
Lemma drop_spaces_suffix l : ∃ k, l = k ++ drop_spaces l ∧
  Forall (λ r : Z * string, IsSpace r.1 = true) k.
Proof.
  induction l as [|r l (k & Hk & HF)]; simpl; [by exists []|].
  destruct (IsSpace r.1) eqn:Hr; [|by exists []]. exists (r :: k). simpl. split; [by f_equal | by constructor].
Qed.

Lemma TrimSpace_blank s : TrimSpace s = "" ↔ blank s.
Proof.
  unfold blank, TrimSpace. rewrite drop_spaces_nil. split.
  - intros H.
    assert (Hd : drop_spaces (reverse (drop_spaces (runes s))) = []).
    { destruct (drop_spaces (reverse (drop_spaces (runes s)))) as [|r l] eqn:Hr; [done|]. exfalso.
      rewrite reverse_cons, unrunes_app in H.
      assert (Hin : r.2 ≠ "").
      { pose proof (runes_text s) as HF. rewrite Forall_forall in HF. apply HF.
        destruct (drop_spaces_suffix (runes s)) as (k & Hk & _).
        destruct (drop_spaces_suffix (reverse (drop_spaces (runes s)))) as (k' & Hk' & _).
        rewrite Hr in Hk'. rewrite Hk. apply elem_of_app. right.
        apply elem_of_reverse. rewrite Hk'. apply elem_of_app. right. left. }
      destruct r as [v t]. simpl in *. destruct t as [|x t]; [done|].
      destruct (unrunes (reverse l)); discriminate H. }
    apply drop_spaces_nil in Hd. rewrite Forall_reverse in Hd.
    destruct (drop_spaces_suffix (runes s)) as (k & Hk & Hkk).
    destruct (drop_spaces (runes s)) as [|r l] eqn:Hr; [done|]. exfalso.
    apply Forall_cons in Hd as [Hd _].
    clear -Hr Hd. induction (runes s) as [|x rs IH]; simpl in Hr; [done|].
    destruct (IsSpace x.1) eqn:Hx; [auto|]. simplify_eq. congruence.
  - intros ->. done.
Qed.

Lemma blank_lines ls : Forall blank ls → ls ≠ [] → blank (Join ls nl_str).
Proof.
  unfold blank. induction 1 as [|l ls Hl HF IH]; [done|]. intros _. destruct ls as [|l2 ls]; [done|].
  change (Join (l :: l2 :: ls) nl_str) with (l +:+ String nl (Join (l2 :: ls) nl_str)).
  rewrite runes_sep by done. apply Forall_app. split; [done|]. constructor; [done | by apply IH].
Qed.

Lemma Join_Split s c : Join (Split s c) (str1 c) = s.
Proof.
  induction s as [|x s IH]; [done|]. cbn [Split]. destruct (Ascii.eqb_spec x c) as [->|Hx].
  - destruct (Split s c) as [|w ws] eqn:Hs; [by destruct s; cbn in Hs; repeat case_match|].
    change (String c (Join (w :: ws) (str1 c)) = String c s). by rewrite IH.
  - destruct (Split s c) as [|w ws] eqn:Hs; [by destruct s; cbn in Hs; repeat case_match|].
    destruct ws; simpl in *; by rewrite <- IH.
Qed.
Lemma Split_nonempty s c : Split s c ≠ [].
Proof. destruct s as [|x s]; [done|]. cbn. by repeat case_match. Qed.

Lemma blank_no_nul s : blank s → RemoveAll s nul = s.
Proof.
  intros Hb. assert (Hn : ∀ a b, s = a +:+ String nul b → False).
  { intros a b ->. unfold blank in Hb. rewrite runes_sep in Hb by done.
    apply Forall_app in Hb as [_ Hb]. by apply Forall_cons in Hb as [Hb _]. }
  clear Hb. induction s as [|x s IH]; [done|]. cbn [RemoveAll].
  destruct (Ascii.eqb_spec nul x) as [<-|Hx]; [by destruct (Hn "" s)|].
  rewrite IH; [done|]. intros a b ->. by apply (Hn (String x a) b).
Qed.

(** ** Failing closed *)

Ltac scan_cases H :=
  unfold scan_line in H;
  repeat match type of H with
  | context [if ?b then _ else _] => let E := fresh "E" in destruct b eqn:E; try discriminate H
  end.

Lemma scan_line_quiet n st l st' :
  scan_line n st l = Ok st' → sc_inBlock st' = false → sc_out st' = [] → sc_stray st' = false →
  st' = st ∧ TrimSpace l = "".
Proof.
  intros H Hb Ho Hs. scan_cases H; simplify_eq/=; try congruence.
  - apply rbind_Ok in H as (rec & _ & [= <-]). simpl in Ho. by destruct (sc_out st).
  - split; [done|]. by apply String.eqb_eq.
  - by bool_facts; congruence.
Qed.

Lemma scan_lines_quiet n st ls st' :
  scan_lines n st ls = Ok st' → sc_inBlock st' = false → sc_out st' = [] → sc_stray st' = false →
  st' = st ∧ Forall blank ls.
Proof.
  revert n st. induction ls as [|l ls IH]; intros n st; simpl; [by intros [= ->]|].
  rewrite rbind_Ok. intros (st1 & H1 & H) Hb Ho Hs.
  destruct (IH _ _ H Hb Ho Hs) as [-> HF].
  destruct (scan_line_quiet _ _ _ _ H1 Hb Ho Hs) as [-> Hl]. split; [done|].
  constructor; [by apply TrimSpace_blank | done].
Qed.

Definition is_end (l : string) : bool := HasPrefix (TrimSpace l) endMark.

Lemma scan_open n st ls st' : Forall (λ l, is_end l = false) ls → sc_inBlock st = true →
  scan_lines n st ls = Ok st' → sc_inBlock st' = true.
Proof.
  intros HF. revert n st. induction HF as [|l ls Hl _ IH]; intros n st Hb; simpl; [by intros [= <-]|].
  rewrite rbind_Ok. intros (st1 & H1 & H). eapply IH; [|exact H]. unfold is_end in Hl.
  scan_cases H1; simplify_eq/=; congruence.
Qed.

(** "Nothing was reserved" is never concluded from damage: when the parser
    answers no records at all, the text is the kernel's own placeholder for a
    device without registrations, NUL bytes and surrounding space aside. *)
Theorem ParseAPTPL_none (s : string) (H : ParseAPTPL s = Ok []) : isNoRegistrations s = true.
Proof.
  unfold ParseAPTPL in H. apply rbind_Ok in H as (st & Hs & H).
  destruct (sc_inBlock st) eqn:Hb; [done|]. destruct (sc_out st) eqn:Ho; [|done].
  destruct (isNoRegistrations s); [done|]. exfalso.
  destruct (String.eqb_spec (withoutNul s) ""); [done|]. destruct (sc_stray st) eqn:Hst; [done|].
  destruct (scan_lines_quiet _ _ _ _ Hs Hb Ho Hst) as [_ HF].
  apply blank_lines in HF; [|apply Split_nonempty]. change nl_str with (str1 nl) in HF.
  rewrite Join_Split in HF. unfold withoutNul in n.
  rewrite blank_no_nul in n by done. by apply TrimSpace_blank in HF.
Qed.

(** C29. A file cut inside a registration block is refused: after any number of
    complete blocks, an opening marker followed by any text that holds no
    closing marker is an error, never a shorter list of records. *)
Theorem ParseAPTPL_truncated (blocks : list (list string)) (i : Z) (rest : string)
    (Hi : 0 <= i) (HF : Forall registration blocks)
    (Hcut : Forall (λ l, is_end l = false) (Split rest nl)) :
  ∃ e, ParseAPTPL (render_aptpl blocks +:+ startMark +:+ " " +:+ itoa i +:+ nl_str +:+ rest) = Err e.
Proof.
  destruct (marker_line startMark i Hi (or_introl eq_refl)) as (_ & Hone & _).
  unfold ParseAPTPL, render_aptpl. rewrite Split_unlines by (apply file_one_line; [lia | done]).
  rewrite <- !app_assoc_str, (app_assoc_str startMark), (app_assoc_str _ nl_str), Split_line by done.
  rewrite scan_lines_app. destruct (scan_file 0 0 scan0 blocks) as [start ->]; [lia | done | done |].
  cbn [rbind scan_lines]. rewrite scan_start by done. cbn [rbind].
  match goal with |- context [scan_lines ?n ?st ?ls] => destruct (scan_lines n st ls) as [st'|e] eqn:Hs end;
    [|by exists e].
  apply scan_open in Hs; [|done..]. simpl. rewrite Hs. by eexists.
Qed.
