(* ===== verification/AppTranslate.v ===== *)
(** * appliance: the translation of the database to a lio.Config

    appliance/translate.go and the export indexes of appliance.go. [desiredLIO]
    writes to the database: an exported object without an index gets one. The
    only run-time panic of the translation, an integer division by a block
    size of zero, is the [None] of [desiredLIO]; [range] is the order in which
    the runtime ranges over the map of exported objects. *)

From S2P Require Import Prelude GoStrings Errors Netip LioModel Configfs LioAptpl LioApply.
From S2P Require Import AppModel AppPortals.

(** ** Export indexes *)

(** [idx := 0; for used[idx] { idx++ }], with fuel. *)
Fixpoint lowest_free (fuel : nat) (used : gset Z) (idx : Z) : Z :=
  match fuel with
  | O => idx
  | S fuel => if decide (idx ∈ used) then lowest_free fuel used (idx + 1) else idx
  end.
Definition used_indexes (exports : gmap string Z) : gset Z := list_to_set (map_to_list exports).*2.
(** [exportIndex]: the index, and the map with it. *)
Definition exportIndex (objectUUID : string) (exports : gmap string Z) : Z * gmap string Z :=
  match exports !! objectUUID with
  | Some idx => (idx, exports)
  | None =>
      let used := used_indexes exports in
      let idx := lowest_free (S (size used)) used 0 in
      (idx, <[objectUUID := idx]> exports)
  end.
Definition pruneExports (d : db) : db :=
  with_Exports (filter (λ e : string * Z, connectionsOf d e.1 ≠ []) (db_Exports d)) d.

(** ** Names and device identity *)

Definition backstoreName (volumeUUID : string) : string := "vol_" +:+ RemoveAll volumeUUID (chr 45).
Definition Wwid (wwn : string) : string :=
  if negb ((String.length wwn =? 16)%nat && str_all is_lower_hex wwn) then ""
  else "0x6001405" +:+ wwn +:+ "000000000".
Definition boolAttr (b : bool) : string := if b then "1" else "0".
(** storage: [DiskPath]. *)
Definition objsDir (root : string) : string := path_Join [root; "objects"].
Definition objDir (root u : string) : string := path_Join [objsDir root; u].
Definition DiskPath (root uuid : string) : string := path_Join [objDir root uuid; "disk"].

(** ** desiredLIO *)

Section desired.
Context (range : ∀ A, list A → list A).
Arguments range {A}.
(* the store's root, the settings, and what a clear holds back *)
Context (root : string) (cfg : AppConfig) (prClearing : string) (withheld : gmap string string).

Definition exported_of (d : db) : gset string :=
  let all := foldl (λ m cn,
    match object d (cn_ObjectUUID cn) with
    | Some o => if String.eqb (o_State o) stateReady then {[cn_ObjectUUID cn]} ∪ m else m
    | None => m
    end) ∅ (db_Connections d) in
  let all := if String.eqb prClearing "" then all else all ∖ {[prClearing]} in
  all ∖ dom withheld.

Definition tpgAttributes : gmap string string :=
  list_to_map [("generate_node_acls", "0"); ("authentication", "0"); ("demo_mode_write_protect", "0")].
Definition backstoreAttributes (v : Object) : gmap string string :=
  list_to_map [("block_size", itoa (o_BlockSize v)); ("optimal_sectors", "0");
    ("emulate_write_cache", boolAttr (ac_WriteBack cfg));
    ("emulate_tpu", boolAttr (negb (ac_NoUnmap cfg)));
    ("emulate_tpws", boolAttr (negb (ac_NoUnmap cfg)))].

Record build := mkBuild { b_backstores : list Backstore; b_luns : list LUN; b_exports : gmap string Z }.

(** One exported object. *)
Definition export_object (d : db) (b : build) (vol : string) : option build :=
  match object d vol with
  | None => None
  | Some v =>
      let '(idx, exports) := exportIndex vol (b_exports b) in
      let name := backstoreName vol in
      if o_BlockSize v =? 0 then None
      else
        let size := o_Capacity v - Z.rem (o_Capacity v) (o_BlockSize v) in
        Some (mkBuild
          (b_backstores b ++ [mkBackstore FileIO idx name (DiskPath root vol) (ac_WriteBack cfg) size
                                (o_WWN v) "" "" "" (backstoreAttributes v)])
          (b_luns b ++ [mkLUN idx name]) exports)
  end.
Fixpoint export_all (d : db) (b : build) (vols : list string) : option build :=
  match vols with
  | [] => Some b
  | v :: vols => match export_object d b v with Some b => export_all d b vols | None => None end
  end.

Definition mapped_luns (d : db) (exported : gset string) (exports : gmap string Z) (h : Host)
    : list MappedLUN :=
  (λ cn, mkMappedLUN (cn_LUN cn) (default 0 (exports !! cn_ObjectUUID cn)) false)
    <$> filter (λ cn, cn_HostUUID cn = h_UUID h ∧ cn_ObjectUUID cn ∈ exported) (db_Connections d).
Definition host_acls (d : db) (exported : gset string) (exports : gmap string Z) (h : Host)
    : list ACL :=
  (λ iqn, mkACL iqn (mapped_luns d exported exports h)) <$> h_IQNs h.

(** The configuration, and the database with the indexes it allocated. *)
Definition desiredLIO (d : db) : option (Config * db) :=
  let exported := exported_of d in
  match export_all d (mkBuild [] [] (db_Exports d)) (range (elements exported)) with
  | None => None
  | Some b =>
      let tpg := mkTPG 1 true (portals d cfg) (b_luns b)
                   (mjoin (host_acls d exported (b_exports b) <$> db_Hosts d)) tpgAttributes in
      Some (mkConfig (b_backstores b) [mkTarget (ac_TargetIQN cfg) [tpg]],
            with_Exports (b_exports b) d)
  end.
End desired.

(** ** appliedView *)

(** [live[d.Backstore][d.Attr] = d.Live], for a drift whose value was read. *)
Definition live_values (drift : list AttrDrift) : gmap string (gmap string string) :=
  foldl (λ m d,
    match d_Err d with
    | Some _ => m
    | None => <[d_Backstore d := <[d_Attr d := d_Live d]> (default ∅ (m !! d_Backstore d))]> m
    end) ∅ drift.
Definition with_Attributes (a : gmap string string) (b : Backstore) : Backstore :=
  mkBackstore (bs_Type b) (bs_HBA b) (bs_Name b) (bs_Dev b) (bs_BufferedIO b) (bs_Size b) (bs_WWN b)
    (bs_VendorID b) (bs_ProductID b) (bs_Revision b) a.
Definition appliedView (desired : Config) (drift : list AttrDrift) : Config :=
  let live := live_values drift in
  mkConfig
    ((λ b, match live !! bs_Name b with
           | None => b
           | Some patch => with_Attributes (patch ∪ bs_Attributes b) b
           end) <$> c_Backstores desired)
    (c_Targets desired).
