(* ===== verification/AppTranslateProofs.v ===== *)
(** * appliance: the translation is sound

    Export indexes are lowest-free and injective, and the configuration
    [desiredLIO] builds from a well-formed database is one lio accepts and
    grants exactly the access the connections describe. *)

From S2P Require Import Prelude GoStrings Errors Netip LioModel LioValid Configfs LioAptpl LioApply LioSync.
From S2P Require Import AppModel AppPortals AppTranslate AppDb AppWf.

(** ** The lowest free index *)

Lemma lowest_free_go fuel used idx :
  let r := lowest_free fuel used idx in
  idx <= r <= idx + Z.of_nat fuel ∧ (∀ j, idx <= j < r → j ∈ used) ∧
  (r ∉ used ∨ r = idx + Z.of_nat fuel).
Proof.
  revert idx. induction fuel as [|fuel IH]; intros idx; simpl.
  - split_and!; [lia | lia | intros; lia | right; lia].
  - case_decide as Hin.
    + destruct (IH (idx + 1)) as (Hb & Hall & Hr). split_and!; [lia | lia | | destruct Hr; [by left | right; lia]].
      intros j Hj. destruct (decide (j = idx)) as [->|]; [done|]. apply Hall. lia.
    + split_and!; [lia | lia | intros; lia | by left].
Qed.

Lemma seqZ_subset_size (used : gset Z) n :
  (∀ j, 0 <= j < n → j ∈ used) → n <= Z.of_nat (size used).
Proof.
  intros Hall. destruct (decide (0 <= n)) as [Hn|]; [|lia].
  assert (Hs : (list_to_set (seqZ 0 n) : gset Z) ⊆ used).
  { intros j Hj. apply elem_of_list_to_set, elem_of_seqZ in Hj. apply Hall. lia. }
  apply subseteq_size in Hs. rewrite size_list_to_set, length_seqZ in Hs by apply NoDup_seqZ. lia.
Qed.

(** The loop stops within the fuel: on the lowest index not in use, which is
    at most the number of those in use. *)
Lemma lowest_free_spec used :
  let r := lowest_free (S (size used)) used 0 in
  r ∉ used ∧ (∀ j, 0 <= j < r → j ∈ used) ∧ 0 <= r <= Z.of_nat (size used).
Proof.
  destruct (lowest_free_go (S (size used)) used 0) as (Hb & Hall & Hr).
  pose proof (seqZ_subset_size used _ Hall) as Hsz. split_and!; [|done | lia..].
  destruct Hr as [Hr|Hr]; [done | lia].
Qed.

Lemma used_spec exports i : i ∈ used_indexes exports ↔ ∃ u, exports !! u = Some i.
Proof.
  unfold used_indexes. rewrite elem_of_list_to_set, list_elem_of_fmap. split.
  - intros ([u j] & -> & Hu). exists u. by apply elem_of_map_to_list.
  - intros [u Hu]. exists (u, i). split; [done|]. by apply elem_of_map_to_list.
Qed.

Definition exports_ok (m : gmap string Z) : Prop :=
  (∀ u i, m !! u = Some i → 0 <= i) ∧ ∀ u v i, m !! u = Some i → m !! v = Some i → u = v.

Lemma exportIndex_spec u m : exports_ok m →
  let '(i, m') := exportIndex u m in
  m' !! u = Some i ∧ m ⊆ m' ∧ exports_ok m' ∧ dom m' = {[u]} ∪ dom m.
Proof.
  intros [Hpos Hinj]. unfold exportIndex. destruct (m !! u) as [i|] eqn:Hu.
  - split_and!; [done..|]. apply elem_of_dom_2 in Hu. set_solver.
  - destruct (lowest_free_spec (used_indexes m)) as (Hf & _ & Hb).
    set (i := lowest_free _ _ _) in *.
    split_and!; [by rewrite lookup_insert_eq | by apply insert_subseteq | | by rewrite dom_insert_L].
    split.
    + intros v j. destruct (decide (v = u)) as [->|Hv].
      * rewrite lookup_insert_eq. intros [= <-]. lia.
      * rewrite lookup_insert_ne by done. apply Hpos.
    + assert (Hfree : ∀ v, m !! v ≠ Some i) by (intros v Hv; apply Hf, used_spec; by exists v).
      intros v w j. destruct (decide (v = u)) as [->|Hv], (decide (w = u)) as [->|Hw]; try done;
        rewrite ?lookup_insert_eq, ?lookup_insert_ne by done; [| |apply Hinj].
      * intros [= <-] H. by destruct (Hfree w).
      * intros H [= <-]. by destruct (Hfree v).
Qed.

(** ** Lookups *)

Lemma first_Some {A} (p : A → bool) l x : first p l = Some x → x ∈ l ∧ p x = true.
Proof.
  unfold first. intros H. apply head_Some in H as [l' Hl].
  assert (Hin : x ∈ filter (λ x, p x = true) l) by (rewrite Hl; left).
  by apply list_elem_of_filter in Hin as [? ?].
Qed.
Lemma first_None {A} (p : A → bool) l : first p l = None ↔ ∀ x, x ∈ l → p x = false.
Proof.
  unfold first. split.
  - intros H x Hx. destruct (p x) eqn:Hp; [|done].
    apply head_None in H. assert (Hin : x ∈ filter (λ x, p x = true) l) by by apply list_elem_of_filter.
    rewrite H in Hin. inversion Hin.
  - intros H. destruct (filter (λ x, p x = true) l) as [|x l'] eqn:Hl; [done|].
    assert (Hin : x ∈ filter (λ x, p x = true) l) by (rewrite Hl; left).
    apply list_elem_of_filter in Hin as [Hp Hx]. by rewrite H in Hp.
Qed.

Lemma object_Some d u o : object d u = Some o → o ∈ db_Objects d ∧ o_UUID o = u.
Proof. intros [Ho Hu]%first_Some. by apply String.eqb_eq in Hu. Qed.
Lemma object_of_uuid d u : u ∈ o_UUID <$> db_Objects d → ∃ o, object d u = Some o.
Proof.
  intros (o & -> & Ho)%list_elem_of_fmap. destruct (object d (o_UUID o)) as [o'|] eqn:H; [by exists o'|].
  apply first_None with (x := o) in H; [|done]. by rewrite String.eqb_refl in H.
Qed.

(** ** Backstore names *)

Lemma chars_inj s t : chars s = chars t → s = t.
Proof.
  revert t. induction s as [|c s IH]; intros [|d t]; simpl; try done.
  intros [= -> H]. f_equal. by apply IH.
Qed.
Lemma chars_RemoveAll s c : chars (RemoveAll s c) = filter (λ d, d ≠ c) (chars s).
Proof.
  induction s as [|d s IH]; [done|]. cbn [RemoveAll chars]. rewrite filter_cons.
  destruct (Ascii.eqb_spec c d) as [->|Hne].
  - by rewrite decide_False by tauto.
  - rewrite decide_True by done. cbn [chars]. by rewrite IH.
Qed.
Lemma length_chars s : length (chars s) = String.length s.
Proof. induction s as [|c s IH]; [done|]. simpl. by rewrite IH. Qed.

Definition uuid_dash : ascii := chr 45.
Lemma uuid_char_cases i c : uuid_char_ok i c = true →
  (any (Nat.eqb i) [8; 13; 18; 23]%nat = true ∧ c = uuid_dash) ∨
  (any (Nat.eqb i) [8; 13; 18; 23]%nat = false ∧ c ≠ uuid_dash ∧ is_lower_hex c = true).
Proof.
  unfold uuid_char_ok. destruct (any (Nat.eqb i) [8; 13; 18; 23]%nat).
  - intros ->%Ascii.eqb_eq. by left.
  - intros H. right. split_and!; [done | | done]. intros ->. by cbv in H.
Qed.

Lemma uuid_strip_inj i l1 l2 :
  uuid_chars_ok i l1 = true → uuid_chars_ok i l2 = true → length l1 = length l2 →
  filter (λ d, d ≠ uuid_dash) l1 = filter (λ d, d ≠ uuid_dash) l2 → l1 = l2.
Proof.
  revert i l2. induction l1 as [|c l1 IH]; intros i [|d l2]; try done.
  cbn [uuid_chars_ok length]. intros [Hc H1]%andb_true_iff [Hd H2]%andb_true_iff [= Hl].
  rewrite !filter_cons.
  apply uuid_char_cases in Hc as [[Hi ->]|(Hi & Hc & _)];
    apply uuid_char_cases in Hd as [[Hi' ->]|(Hi' & Hd & _)]; try congruence.
  - rewrite !decide_False by tauto. intros H. f_equal. by eapply IH.
  - rewrite !decide_True by done. intros [= -> H]. f_equal. by eapply IH.
Qed.

Lemma backstoreName_inj u v : validUUID u = true → validUUID v = true →
  backstoreName u = backstoreName v → u = v.
Proof.
  unfold validUUID, backstoreName. intros [Hul Hu]%andb_true_iff [Hvl Hv]%andb_true_iff H.
  apply (app_inj_len "vol_" "vol_") in H as [_ H]; [|done].
  apply chars_inj. apply (uuid_strip_inj 0); [done..| |].
  - apply Nat.eqb_eq in Hul, Hvl. by rewrite !length_chars, Hul, Hvl.
  - rewrite <- !chars_RemoveAll. by apply (f_equal chars) in H.
Qed.

Lemma uuid_chars_Forall i l : uuid_chars_ok i l = true →
  Forall (λ c, c = uuid_dash ∨ is_lower_hex c = true) l.
Proof.
  revert i. induction l as [|c l IH]; intros i; [constructor|]. cbn [uuid_chars_ok].
  intros [Hc Hl]%andb_true_iff. constructor; [|by eapply IH].
  apply uuid_char_cases in Hc as [[_ ->]|(_ & _ & H)]; auto.
Qed.

Lemma hex_not_special c : is_lower_hex c = true → c ≠ chr 47 ∧ c ≠ chr 32 ∧ c ≠ chr 9 ∧ c ≠ chr 10.
Proof. intros H. split_and!; intros ->; by cbv in H. Qed.

Lemma backstoreName_good u : validUUID u = true →
  backstoreName u ≠ "" ∧ backstoreName u ≠ "." ∧ backstoreName u ≠ ".." ∧
  Forall (λ c, c ≠ chr 47 ∧ c ≠ chr 32 ∧ c ≠ chr 9 ∧ c ≠ chr 10) (chars (backstoreName u)).
Proof.
  unfold validUUID. intros [_ Hu]%andb_true_iff. unfold backstoreName. split_and!; [done..|].
  rewrite chars_app, chars_RemoveAll. apply Forall_app. split.
  - repeat constructor; done.
  - apply uuid_chars_Forall in Hu. rewrite Forall_forall in Hu. apply Forall_forall.
    intros c [Hd Hc]%list_elem_of_filter. destruct (Hu c Hc) as [->|Hh]; [done | by apply hex_not_special].
Qed.

Lemma Clean_nonempty p : Clean p ≠ "".
Proof.
  unfold Clean. destruct (String.eqb p ""); [done|]. destruct (IsAbs p); [done|].
  by destruct (String.eqb_spec (Join (clean_go false [] (Split p slash)) "/") "").
Qed.
Lemma DiskPath_nonempty root u : DiskPath root u ≠ "".
Proof.
  unfold DiskPath, path_Join. destruct (filter _ _) as [|x l] eqn:Hf; [|apply Clean_nonempty].
  assert (Hin : "disk" ∈ filter (λ s, s ≠ "") [objDir root u; "disk"]).
  { apply list_elem_of_filter. split; [done | right; left]. }
  rewrite Hf in Hin. inversion Hin.
Qed.

(** ** Which objects are exported *)

Section translation.
Context (range : ∀ A, list A → list A) (range_perm : ∀ A (l : list A), range A l ≡ₚ l).
Context (root : string) (cfg : AppConfig) (prClearing : string) (withheld : gmap string string).

Definition ready (d : db) (u : string) : Prop := ∃ o, object d u = Some o ∧ o_State o = stateReady.

Lemma exported_spec d u :
  u ∈ exported_of prClearing withheld d ↔
  (∃ cn, cn ∈ db_Connections d ∧ cn_ObjectUUID cn = u) ∧ ready d u ∧
  (prClearing = "" ∨ u ≠ prClearing) ∧ withheld !! u = None.
Proof.
  unfold exported_of.
  assert (Hfold : ∀ l m, u ∈ foldl (λ m cn, match object d (cn_ObjectUUID cn) with
      | Some o => if String.eqb (o_State o) stateReady then {[cn_ObjectUUID cn]} ∪ m else m
      | None => m end) m l
    ↔ u ∈ (m : gset string) ∨ (∃ cn, cn ∈ l ∧ cn_ObjectUUID cn = u) ∧ ready d u).
  { unfold ready. induction l as [|cn l IH]; intros m; simpl.
    - split; [by left|]. intros [?|[(cn & Hcn & _) _]]; [done|]. inversion Hcn.
    - rewrite IH. setoid_rewrite elem_of_cons.
      destruct (object d (cn_ObjectUUID cn)) as [o|] eqn:Ho;
        [destruct (String.eqb_spec (o_State o) stateReady)|]; rewrite ?elem_of_union, ?elem_of_singleton;
        naive_solver. }
  rewrite elem_of_difference, not_elem_of_dom.
  destruct (String.eqb_spec prClearing "") as [->|Hne].
  - rewrite Hfold. set_solver.
  - rewrite elem_of_difference, elem_of_singleton, Hfold. set_solver.
Qed.

(** ** What the loop over the exported objects builds *)

Definition index_of (exports : gmap string Z) (vol : string) : Z := default 0 (exports !! vol).
Definition backstore_of (v : Object) (exports : gmap string Z) (vol : string) : Backstore :=
  mkBackstore FileIO (index_of exports vol) (backstoreName vol) (DiskPath root vol) (ac_WriteBack cfg)
    (o_Capacity v - Z.rem (o_Capacity v) (o_BlockSize v)) (o_WWN v) "" "" ""
    (backstoreAttributes cfg v).
Definition lun_of (exports : gmap string Z) (vol : string) : LUN :=
  mkLUN (index_of exports vol) (backstoreName vol).
Definition built (d : db) (exports : gmap string Z) (vol : string) (b : Backstore) : Prop :=
  ∃ v, object d vol = Some v ∧ o_BlockSize v ≠ 0 ∧ b = backstore_of v exports vol.

Lemma index_of_mono (m m' : gmap string Z) vol i : m ⊆ m' → m !! vol = Some i →
  index_of m' vol = i.
Proof. intros Hsub Hv. unfold index_of. by rewrite (lookup_weaken _ _ _ _ Hv Hsub). Qed.

Lemma export_all_spec d vols : ∀ b b', exports_ok (b_exports b) →
  export_all root cfg d b vols = Some b' →
  b_exports b ⊆ b_exports b' ∧ exports_ok (b_exports b') ∧
  dom (b_exports b') = list_to_set vols ∪ dom (b_exports b) ∧
  b_luns b' = b_luns b ++ (lun_of (b_exports b') <$> vols) ∧
  ∃ bs, b_backstores b' = b_backstores b ++ bs ∧ Forall2 (built d (b_exports b')) vols bs.
Proof.
  induction vols as [|vol vols IH]; intros b b' Hok; simpl.
  - intros [= <-]. split_and!; [done..| set_solver | by rewrite app_nil_r |].
    exists []. by rewrite app_nil_r.
  - destruct (export_object root cfg d b vol) as [b1|] eqn:H1; [|done]. intros H.
    unfold export_object in H1. destruct (object d vol) as [v|] eqn:Hv; [|done].
    pose proof (exportIndex_spec vol (b_exports b) Hok) as Hx.
    destruct (exportIndex vol (b_exports b)) as [idx ex] eqn:Hidx.
    destruct Hx as (Hlk & Hsub & Hok1 & Hdom).
    destruct (Z.eqb_spec (o_BlockSize v) 0) as [|Hbs]; [done|]. simplify_eq/=.
    apply IH in H as (Hsub' & Hok' & Hdom' & Hl & bs & Hb & HF); [|done]. simpl in *.
    assert (Hi : index_of (b_exports b') vol = idx) by by eapply index_of_mono.
    split_and!.
    + by transitivity ex.
    + done.
    + rewrite Hdom', Hdom. set_solver.
    + rewrite Hl, <- app_assoc. unfold lun_of at 2. by rewrite Hi.
    + exists (backstore_of v (b_exports b') vol :: bs). split.
      * rewrite Hb, <- app_assoc. unfold backstore_of. by rewrite Hi.
      * constructor; [by exists v | done].
Qed.

Lemma export_all_total d vols b :
  Forall (λ vol, ∃ v, object d vol = Some v ∧ o_BlockSize v ≠ 0) vols →
  ∃ b', export_all root cfg d b vols = Some b'.
Proof.
  intros HF. revert b. induction HF as [|vol vols (v & Hv & Hbs) _ IH]; intros b; simpl; [by eexists|].
  unfold export_object. rewrite Hv. destruct (exportIndex vol (b_exports b)) as [idx ex].
  apply Z.eqb_neq in Hbs as ->. apply IH.
Qed.

(** ** The configuration as a whole *)

(** What the appliance creates objects with, and the loader does not look at. *)
Definition presentable (o : Object) : Prop :=
  (o_WWN o = "" ∨ isHex16 (o_WWN o) = true) ∧ (o_BlockSize o = 512 ∨ o_BlockSize o = 4096).

(** What the division by it needs; the loader does not look at this either. *)
Definition sized (o : Object) : Prop := o_BlockSize o ≠ 0.
Lemma presentable_sized o : presentable o → sized o.
Proof. unfold sized. intros [_ [-> | ->]]; lia. Qed.

Definition the_tpg (d : db) (exports : gmap string Z) (vols : list string) : TPG :=
  mkTPG 1 true (portals d cfg) (lun_of exports <$> vols)
    (mjoin (host_acls d (exported_of prClearing withheld d) exports <$> db_Hosts d)) tpgAttributes.

Lemma desired_shape d c d' : exports_ok (db_Exports d) →
  desiredLIO range root cfg prClearing withheld d = Some (c, d') →
  ∃ vols bs, vols ≡ₚ elements (exported_of prClearing withheld d) ∧
    Forall2 (built d (db_Exports d')) vols bs ∧
    c = mkConfig bs [mkTarget (ac_TargetIQN cfg) [the_tpg d (db_Exports d') vols]] ∧
    d' = with_Exports (db_Exports d') d ∧
    exports_ok (db_Exports d') ∧ db_Exports d ⊆ db_Exports d' ∧
    dom (db_Exports d') = exported_of prClearing withheld d ∪ dom (db_Exports d).
Proof.
  intros Hok. unfold desiredLIO.
  set (vols := range string (elements (exported_of prClearing withheld d))).
  destruct (export_all root cfg d (mkBuild [] [] (db_Exports d)) vols) as [b|] eqn:Hb; [|done].
  intros [= <- <-]. apply export_all_spec in Hb as (Hsub & Hok' & Hdom & Hl & bs & Hbs & HF); [|done].
  simpl in *. exists vols, bs. split_and!; try done.
  - apply range_perm.
  - by rewrite Hbs, Hl.
  - rewrite Hdom. f_equal. unfold vols. rewrite range_perm. apply list_to_set_elements_L.
Qed.

Lemma built_names d exports vols bs : Forall2 (built d exports) vols bs →
  bs_Name <$> bs = backstoreName <$> vols.
Proof.
  induction 1 as [|vol b vols bs (v & _ & _ & ->) _ IH]; [done|].
  by rewrite !fmap_cons, IH.
Qed.

Lemma exported_uuid d u : wf_db d → u ∈ exported_of prClearing withheld d →
  validUUID u = true ∧ u ∈ o_UUID <$> db_Objects d.
Proof.
  intros Hwf ((cn & Hcn & <-) & _)%exported_spec.
  pose proof (wf_connections d Hwf) as Hc. rewrite Forall_forall in Hc. destruct (Hc cn Hcn) as [_ Ho _].
  split; [|done]. apply list_elem_of_fmap in Ho as (o & -> & Hin).
  pose proof (wf_objects d Hwf) as Hos. rewrite Forall_forall in Hos. by destruct (Hos o Hin).
Qed.

Lemma index_inj (m : gmap string Z) u v : exports_ok m → u ∈ dom m → v ∈ dom m →
  index_of m u = index_of m v → u = v.
Proof.
  intros [_ Hinj] [i Hi]%elem_of_dom [j Hj]%elem_of_dom. unfold index_of. rewrite Hi, Hj. simpl.
  intros ->. by apply (Hinj u v j).
Qed.

Lemma index_nonneg (m : gmap string Z) u : exports_ok m → 0 <= index_of m u.
Proof. intros [Hpos _]. unfold index_of. destruct (m !! u) eqn:Hu; simpl; [by eapply Hpos | lia]. Qed.

Lemma built_valid d exports vol b : exports_ok exports → validUUID vol = true →
  Forall presentable (db_Objects d) → built d exports vol b → valid_backstore b.
Proof.
  intros Hok Hu HF (v & Hv & _ & ->). apply object_Some in Hv as [Hv _].
  rewrite Forall_forall in HF. destruct (HF v Hv) as [Hw Hbs].
  destruct (backstoreName_good vol Hu) as (H1 & H2 & H3 & H4).
  unfold valid_backstore, backstore_of. cbn [bs_Type bs_Name bs_HBA bs_Dev bs_WWN bs_Attributes].
  split_and!; [by left | done.. | by apply index_nonneg | apply DiskPath_nonempty | |].
  - destruct Hw as [->|Hw]; [by left|]. right. by apply isHex16_spec.
  - intros x. unfold backstoreAttributes. simpl. rewrite lookup_insert_eq. intros [= <-].
    destruct Hbs as [-> | ->]; set_solver.
Qed.

Lemma host_lun_distinct d h exported : wf_db d →
  NoDup (ml_Index <$> mapped_luns d exported (db_Exports d) h).
Proof.
  intros Hwf. unfold mapped_luns. rewrite <- list_fmap_compose.
  apply NoDup_fmap_2_strong.
  - intros x y [[Hxh _] Hx]%list_elem_of_filter [[Hyh _] Hy]%list_elem_of_filter Heq. simpl in Heq.
    eapply (NoDup_key_inj _ _ _ _ (wf_luns d Hwf)); [done..|]. simpl. congruence.
  - apply NoDup_filter. eapply NoDup_fmap_1, (wf_luns d Hwf).
Qed.

Lemma mapped_index d exported exports exports' h :
  ml_Index <$> mapped_luns d exported exports h = ml_Index <$> mapped_luns d exported exports' h.
Proof. unfold mapped_luns. by rewrite <- !list_fmap_compose. Qed.

Lemma acls_iqns d exported exports hosts :
  acl_InitiatorIQN <$> mjoin (host_acls d exported exports <$> hosts) = mjoin (h_IQNs <$> hosts).
Proof.
  induction hosts as [|h hosts IH]; [done|].
  change (acl_InitiatorIQN <$> (host_acls d exported exports h ++ mjoin (host_acls d exported exports <$> hosts))
          = h_IQNs h ++ mjoin (h_IQNs <$> hosts)).
  rewrite fmap_app, IH. f_equal. unfold host_acls. rewrite <- list_fmap_compose. by apply list_fmap_id.
Qed.

Lemma ValidInitiatorIQN_parts q : ValidInitiatorIQN q = true →
  HasPrefix q "iqn." = true ∧ good_iqn_seg q.
Proof. intros [? ?]%andb_true_iff. split; [done | by apply validIQNSeg_spec]. Qed.

Lemma valid_portal_keys ps : valid_portals ps →
  Forall (λ p, IsValid (p_IP p) = true) ps ∧ NoDup (Portal_key <$> ps).
Proof.
  intros [_ HF Hnd _]. split; [eapply Forall_impl; [exact HF|]; by intros p [? _]|].
  apply (NoDup_fmap_iff raw_key); [|done]. rewrite Forall_forall in HF. intros x y Hx Hy.
  unfold raw_key, Portal_key, Portal_port. destruct (HF x Hx) as [_ Hx0], (HF y Hy) as [_ Hy0].
  apply Z.eqb_neq in Hx0, Hy0. by rewrite Hx0, Hy0.
Qed.

Lemma the_tpg_valid d exports vols bs :
  wf_db d → valid_portals (portals d cfg) → exports_ok exports →
  vols ≡ₚ elements (exported_of prClearing withheld d) →
  (exported_of prClearing withheld d) ⊆ dom exports →
  Forall2 (built d exports) vols bs →
  valid_tpg (bs_Name <$> bs) (the_tpg d exports vols).
Proof.
  intros Hwf Hps Hok Hperm Hdom HF.
  assert (Hin : ∀ u, u ∈ vols ↔ u ∈ exported_of prClearing withheld d).
  { intros u. by rewrite Hperm, elem_of_elements. }
  destruct (valid_portal_keys _ Hps) as [Hpv Hpk].
  constructor; cbn [the_tpg g_Tag g_LUNs g_Portals g_ACLs]; [lia | | | done.. | |].
  - apply Forall_fmap, Forall_forall. intros u Hu. split; [by apply index_nonneg|].
    cbn. erewrite built_names by done. by apply list_elem_of_fmap_2.
  - rewrite <- list_fmap_compose. apply NoDup_fmap_2_strong.
    + intros u v Hu%Hin Hv%Hin. cbn. apply index_inj; auto.
    + rewrite Hperm. apply NoDup_elements.
  - apply Forall_forall. intros a Ha.
    apply list_elem_of_join in Ha as (as_ & Ha & (h & -> & Hh)%list_elem_of_fmap).
    apply list_elem_of_fmap in Ha as (q & -> & Hq).
    pose proof (wf_hosts d Hwf) as Hhs. rewrite Forall_forall in Hhs.
    destruct (Hhs h Hh) as [_ _ Hqs]. rewrite Forall_forall in Hqs.
    destruct (ValidInitiatorIQN_parts q (Hqs q Hq)) as [Hp Hg].
    constructor; cbn [acl_InitiatorIQN acl_MappedLUNs]; [done..| |].
    + erewrite mapped_index. by apply host_lun_distinct.
    + apply Forall_fmap, Forall_forall. intros cn [[_ He] Hcn]%list_elem_of_filter. cbn. split.
      * pose proof (wf_connections d Hwf) as Hc. rewrite Forall_forall in Hc. by destruct (Hc cn Hcn) as [[? _] _ _].
      * rewrite <- list_fmap_compose. apply list_elem_of_fmap. exists (cn_ObjectUUID cn).
        split; [done | by apply Hin].
  - rewrite acls_iqns. apply (wf_iqns d Hwf).
Qed.

Lemma wf_with_Exports d ex : wf_db d → exports_ok ex →
  (∀ u, u ∈ dom ex → validUUID u = true) → wf_db (with_Exports ex d).
Proof.
  intros [] [Hpos Hinj] Hu. constructor; try done. intros u i Hi. split; [|by eapply Hpos].
  apply Hu. by eapply elem_of_dom_2.
Qed.

Lemma wf_exports_ok d : wf_db d → exports_ok (db_Exports d).
Proof. intros Hwf. split; [intros u i Hu; by destruct (wf_exports d Hwf u i Hu) | apply (wf_exports_inj d Hwf)]. Qed.

Lemma desired_wf d c d' : wf_db d →
  desiredLIO range root cfg prClearing withheld d = Some (c, d') → wf_db d'.
Proof.
  intros Hwf H. apply desired_shape in H as (vols & bs & _ & _ & _ & Hd' & Hok & _ & Hdom);
    [|by apply wf_exports_ok]. rewrite Hd'. apply wf_with_Exports; [done..|].
  intros u. rewrite Hdom, elem_of_union. intros [Hu|[i Hu]%elem_of_dom].
  - by apply exported_uuid in Hu as [? _].
  - by destruct (wf_exports d Hwf u i Hu).
Qed.

(** No panic: every exported object has a block size to divide by. *)
Lemma desired_defined d : wf_db d → Forall sized (db_Objects d) →
  ∃ c d', desiredLIO range root cfg prClearing withheld d = Some (c, d').
Proof.
  intros Hwf HF.
  destruct (export_all_total d (range _ (elements (exported_of prClearing withheld d)))
    (mkBuild [] [] (db_Exports d))) as [b Hb].
  { apply Forall_forall. intros u Hu. rewrite range_perm, elem_of_elements in Hu.
    apply exported_uuid in Hu as [_ Hu]; [|done]. apply object_of_uuid in Hu as [o Ho].
    exists o. split; [done|]. apply object_Some in Ho as [Ho _]. rewrite Forall_forall in HF.
    by apply HF. }
  unfold desiredLIO. rewrite Hb. by do 2 eexists.
Qed.

Lemma desired_valid d : wf_db d → Forall presentable (db_Objects d) →
  ValidTargetIQN (ac_TargetIQN cfg) = true → valid_portals (portals d cfg) →
  ∃ c d', desiredLIO range root cfg prClearing withheld d = Some (c, d') ∧ valid_config c.
Proof.
  intros Hwf HF Hiqn Hps. destruct (desired_defined d Hwf (Forall_impl _ _ _ HF presentable_sized)) as (c & d' & Hd).
  exists c, d'. split; [done|].
  apply desired_shape in Hd as (vols & bs & Hperm & HFb & -> & _ & Hok & _ & Hdom);
    [|by apply wf_exports_ok].
  assert (Huu : ∀ u, u ∈ vols → validUUID u = true).
  { intros u Hu. rewrite Hperm, elem_of_elements in Hu. by apply exported_uuid in Hu as [? _]. }
  constructor; cbn [c_Backstores c_Targets].
  - apply Forall_forall. intros x Hx. apply list_elem_of_lookup in Hx as [i Hi].
    destruct (Forall2_lookup_r _ _ _ _ _ HFb Hi) as (u & Hui & Hbu).
    apply list_elem_of_lookup_2 in Hui. eapply built_valid; eauto.
  - erewrite built_names by done. apply NoDup_fmap_2_strong.
    + intros u v Hu Hv. apply backstoreName_inj; auto.
    + rewrite Hperm. apply NoDup_elements.
  - apply Forall_singleton. unfold ValidTargetIQN in Hiqn. apply andb_true_iff in Hiqn as [Hp Hs].
    constructor; cbn [t_IQN t_TPGs]; [done | by apply validIQNSeg_spec | | apply NoDup_singleton].
    apply Forall_singleton. eapply the_tpg_valid; eauto. rewrite Hdom. set_solver.
  - apply NoDup_singleton.
Qed.

(** ** Access *)

(** The initiator [iqn] logging in to the target finds, at LUN [n], a device
    backed by [dev] with the serial [wwn]. *)
Definition grants (c : Config) (iqn : string) (n : Z) (dev wwn : string) : Prop :=
  ∃ t g a m l b, t ∈ c_Targets c ∧ g ∈ t_TPGs t ∧ a ∈ g_ACLs g ∧ acl_InitiatorIQN a = iqn ∧
    m ∈ acl_MappedLUNs a ∧ ml_Index m = n ∧ l ∈ g_LUNs g ∧ l_Index l = ml_TPGLUN m ∧
    b ∈ c_Backstores c ∧ bs_Name b = l_Backstore l ∧ bs_Dev b = dev ∧ bs_WWN b = wwn.
(** What the database says of it: a host with that binding is connected to an
    exported object at that LUN. *)
Definition entitled (d : db) (iqn : string) (n : Z) (dev wwn : string) : Prop :=
  ∃ h cn o, h ∈ db_Hosts d ∧ iqn ∈ h_IQNs h ∧ cn ∈ db_Connections d ∧ cn_HostUUID cn = h_UUID h ∧
    cn_LUN cn = n ∧ cn_ObjectUUID cn ∈ exported_of prClearing withheld d ∧
    object d (cn_ObjectUUID cn) = Some o ∧ dev = DiskPath root (cn_ObjectUUID cn) ∧ wwn = o_WWN o.

Lemma the_tpg_acl d exports vols a m :
  a ∈ g_ACLs (the_tpg d exports vols) → m ∈ acl_MappedLUNs a →
  ∃ h cn, h ∈ db_Hosts d ∧ acl_InitiatorIQN a ∈ h_IQNs h ∧ cn ∈ db_Connections d ∧
    cn_HostUUID cn = h_UUID h ∧ cn_LUN cn = ml_Index m ∧
    cn_ObjectUUID cn ∈ exported_of prClearing withheld d ∧
    ml_TPGLUN m = index_of exports (cn_ObjectUUID cn).
Proof.
  intros Ha Hm. apply list_elem_of_join in Ha as (as_ & Ha & (h & -> & Hh)%list_elem_of_fmap).
  apply list_elem_of_fmap in Ha as (q & -> & Hq). cbn in Hm.
  apply list_elem_of_fmap in Hm as (cn & -> & [[Hhost He] Hcn]%list_elem_of_filter).
  by exists h, cn.
Qed.

Lemma built_elem d exports vols bs u : Forall2 (built d exports) vols bs → u ∈ vols →
  ∃ b, b ∈ bs ∧ built d exports u b.
Proof.
  intros HF [i Hi]%list_elem_of_lookup.
  destruct (Forall2_lookup_l _ _ _ _ _ HF Hi) as (b & Hb & Hbu). exists b.
  split; [by eapply list_elem_of_lookup_2 | done].
Qed.
Lemma built_elem_r d exports vols bs b : Forall2 (built d exports) vols bs → b ∈ bs →
  ∃ u, u ∈ vols ∧ built d exports u b.
Proof.
  intros HF [i Hi]%list_elem_of_lookup.
  destruct (Forall2_lookup_r _ _ _ _ _ HF Hi) as (u & Hu & Hbu). exists u.
  split; [by eapply list_elem_of_lookup_2 | done].
Qed.

(** C14. What lio is asked for is valid: from a well-formed database whose
    objects have the WWN and block size the appliance creates them with, a
    usable target name and checked portals, [desiredLIO] does not panic and
    [lio.Config.Validate] accepts its result, whatever a clear holds back and
    in whatever order the runtime ranges over the exported objects. *)
Theorem desiredLIO_validates (d : db) (Hwf : wf_db d) (HF : Forall presentable (db_Objects d))
    (Hiqn : ValidTargetIQN (ac_TargetIQN cfg) = true) (Hps : valid_portals (portals d cfg)) :
  ∃ c d', desiredLIO range root cfg prClearing withheld d = Some (c, d') ∧ Config_Validate c = Ok tt.
Proof.
  destruct (desired_valid d Hwf HF Hiqn Hps) as (c & d' & Hd & Hc). exists c, d'.
  split; [done | by apply Config_Validate_spec].
Qed.

(** C12. The translation grants exactly the recorded access: in the
    configuration built from a well-formed database, an initiator reaches a
    device at a LUN precisely when a host holding that binding is connected, at
    that LUN, to an exported object (one that is ready and not held back by a
    clear), and the device is that object's own file and WWN. *)
Theorem desiredLIO_access (d : db) (c : Config) (d' : db) (Hwf : wf_db d)
    (H : desiredLIO range root cfg prClearing withheld d = Some (c, d')) :
  ∀ iqn n dev wwn, grants c iqn n dev wwn ↔ entitled d iqn n dev wwn.
Proof.
  apply desired_shape in H as (vols & bs & Hperm & HFb & -> & _ & Hok & _ & Hdom);
    [|by apply wf_exports_ok].
  assert (Hin : ∀ u, u ∈ vols ↔ u ∈ exported_of prClearing withheld d).
  { intros u. by rewrite Hperm, elem_of_elements. }
  set (ex := db_Exports d') in *.
  assert (Hexdom : ∀ u, u ∈ vols → u ∈ dom ex) by (intros u Hu; rewrite Hdom; set_solver).
  intros iqn n dev wwn. split.
  - intros (t & g & a & m & l & b & ->%list_elem_of_singleton & ->%list_elem_of_singleton & Ha & <- & Hm &
      <- & Hl & Hlm & Hb & Hn & <- & <-). cbn [c_Backstores] in Hb.
    apply list_elem_of_fmap in Hl as (u & -> & Hu).
    destruct (the_tpg_acl _ _ _ _ _ Ha Hm) as (h & cn & Hh & Hq & Hcn & Hhost & Hlun & He & Htpg).
    rewrite Htpg in Hlm. cbn in Hlm. apply Hin in He.
    apply index_inj in Hlm as ->; [|by auto..].
    destruct (built_elem_r _ _ _ _ _ HFb Hb) as (u' & Hu' & (v & Hv & _ & ->)). cbn in Hn.
    apply backstoreName_inj in Hn as ->; [|by eapply exported_uuid, Hin..].
    exists h, cn, v. split_and!; auto. by apply Hin.
  - intros (h & cn & o & Hh & Hq & Hcn & Hhost & <- & He & Ho & -> & ->).
    pose proof He as Hu. apply Hin in Hu.
    destruct (built_elem _ _ _ _ _ HFb Hu) as (b & Hb & (v & Hv & _ & ->)).
    rewrite Ho in Hv. injection Hv as <-.
    exists (mkTarget (ac_TargetIQN cfg) [the_tpg d ex vols]), (the_tpg d ex vols),
      (mkACL iqn (mapped_luns d (exported_of prClearing withheld d) ex h)),
      (mkMappedLUN (cn_LUN cn) (index_of ex (cn_ObjectUUID cn)) false),
      (lun_of ex (cn_ObjectUUID cn)), (backstore_of o ex (cn_ObjectUUID cn)).
    split_and!; try done; try (by left).
    + apply list_elem_of_join. exists (host_acls d (exported_of prClearing withheld d) ex h).
      split; [apply list_elem_of_fmap; by exists iqn | apply list_elem_of_fmap; by exists h].
    + cbn. apply list_elem_of_fmap. exists cn. split; [done | by apply list_elem_of_filter].
    + apply list_elem_of_fmap. by exists (cn_ObjectUUID cn).
Qed.
End translation.

(** An export index is the lowest one free: the search of [exportIndex]
    ends (its fuel, one more than the number of indexes in use, suffices), an
    object that has an index keeps it, and one that has none gets the least
    non-negative index no other object has, which is at most the number of
    indexes in use; nothing else in the map changes. *)
Theorem exportIndex_lowest (u : string) (m : gmap string Z) :
  let '(i, m') := exportIndex u m in
  m' = <[u := i]> m ∧
  match m !! u with
  | Some j => i = j
  | None => (∀ v, m !! v ≠ Some i) ∧ (∀ j, 0 <= j < i → ∃ v, m !! v = Some j) ∧
            0 <= i <= Z.of_nat (size (used_indexes m))
  end.
Proof.
  unfold exportIndex. destruct (m !! u) as [i|] eqn:Hu.
  - split; [by rewrite insert_id | done].
  - destruct (lowest_free_spec (used_indexes m)) as (Hf & Hall & Hb). split_and!; [done | | | lia..].
    + intros v Hv. apply Hf, used_spec. by exists v.
    + intros j Hj. by apply used_spec, Hall.
Qed.
