(* ===== verification/Storage.v ===== *)
(** * storage: bytes behind an identifier

    src/storage: the store of sparse backing files, and the file operations
    the appliance writes its database with. [Files F] is the interface to the
    file system: like [Kernel], any call may fail and may change [F]. Opening,
    writing and syncing a file are separate calls, each at the path of the open
    file. The list of quarantined directories, which the source keeps in the
    [Store], is returned to the caller that holds it. *)

From S2P Require Import Prelude GoStrings Errors Configfs AppTranslate.

Inductive fileop :=
  | FMkdirAll (path : string)
  | FRemove (path : string)
  | FRemoveAll (path : string)
  | FLink (old new : string)
  | FRename (old new : string)
  | FCreateTrunc (path : string)          (* O_CREATE|O_WRONLY|O_TRUNC *)
  | FCreate (path : string)               (* O_CREATE|O_WRONLY *)
  | FOpenWrite (path : string)            (* O_WRONLY *)
  | FOpen (path : string)
  | FWrite (path data : string)
  | FTruncate (path : string) (size : Z)
  | FClone (dst src : string)             (* ioctl FICLONE *)
  | FSync (path : string)
  | FClose (path : string)
  | FSyncDir (path : string).             (* open the directory and fsync it *)
#[global] Instance fileop_eq_dec : EqDecision fileop.
Proof. solve_decision. Defined.

Class Files (F : Type) := {
  fl_stat : string → F → result errno Z * F;                      (* the size *)
  fl_readdir : string → F → result errno (list (string * bool)) * F; (* name, IsDir *)
  fl_readfile : string → F → result errno string * F;
  fl_op : fileop → F → result errno unit * F;
  fl_now : F → string * F;                                        (* a formatted UTC time *)
  fl_random : F → result errno (list Z) * F                       (* sixteen bytes *)
}.

(** ** geometry.go *)

Definition SizeGranularity : Z := 4096.
Definition CheckGranularity (size granularity : Z) : result goerr unit :=
  if granularity <=? 0
  then Err (wrapf "storage: size granularity %d is not positive" [itoa granularity])
  else if negb (Z.rem size granularity =? 0)
  then Err (wrapf "size %d must be a multiple of %d" [itoa size; itoa granularity])
  else Ok tt.

(** [defer cleanup]: runs whatever [body] returned; its error is dropped. *)
Definition deferred {S A} (body : ST S A) (cleanup : ST S unit) : ST S A :=
  do r <- try body; try cleanup;; of_result r.

Section Store.
Context {F : Type} `{Files F} (root : string).

Definition fop (op p : string) (o : fileop) : ST F unit := sys op p (fl_op o).
Definition fs_MkdirAll (p : string) := fop "mkdir" p (FMkdirAll p).
Definition fs_Remove (p : string) := fop "remove" p (FRemove p).
Definition fs_RemoveAll (p : string) := fop "unlinkat" p (FRemoveAll p).
Definition fs_Link (old new : string) := fop "link" new (FLink old new).
Definition fs_Rename (old new : string) := fop "rename" new (FRename old new).
Definition fs_Sync (p : string) := fop "sync" p (FSync p).
Definition fs_Close (p : string) := fop "close" p (FClose p).
Definition syncDir (p : string) := fop "sync" p (FSyncDir p).
Definition fs_Stat (p : string) : ST F Z := sys "stat" p (fl_stat p).
Definition fs_ReadFile (p : string) : ST F string := sys "open" p (fl_readfile p).
Definition dirent_le (a b : string * bool) : bool := str_leb a.1 b.1.
Definition fs_ReadDir (p : string) : ST F (list (string * bool)) :=
  do l <- sys "open" p (fl_readdir p); ret (sort_by dirent_le l).
Definition fs_now : ST F string := λ f, let '(t, f) := fl_now f in (Ok t, f).

Definition quarantinePrefix : string := ".orphan-".
Definition stagingPrefix : string := ".staging-".

(** [Open]: the quarantined directories; staging leftovers are removed. *)
Definition Store_Open : ST F (list string) :=
  fs_MkdirAll (objsDir root);;
  do entries <- fs_ReadDir (objsDir root);
  do quarantined <- mcollect (λ e : string * bool,
    if HasPrefix e.1 stagingPrefix
    then try (fs_RemoveAll (path_Join [objsDir root; e.1]));; ret []
    else if HasPrefix e.1 quarantinePrefix then ret [e.1] else ret []) entries;
  ret (sort_strings quarantined).

Definition Store_Exists (uuid : string) : ST F bool :=
  do r <- try (fs_Stat (DiskPath root uuid)); ret (is_ok r).

Definition ObjectDirs : ST F (list string) :=
  do entries <- fs_ReadDir (objsDir root);
  ret (sort_strings (filter (λ n, HasPrefix n stagingPrefix || HasPrefix n quarantinePrefix = false)
                       entries.*1)).

(** [Quarantine]: the name given to the directory. *)
Definition Quarantine (uuid : string) : ST F string :=
  do now <- fs_now;
  let q := quarantinePrefix +:+ now +:+ "-" +:+ uuid in
  onerr (fs_Rename (objDir root uuid) (path_Join [objsDir root; q]))
    (ErrWrap "storage: cannot quarantine unrecorded object dir %s: %w" [uuid]);;
  ret q.

(** [stage]: build under a staging name, rename into place. *)
Definition stage (uuid : string) (fill : string → ST F unit) : ST F unit :=
  if String.eqb uuid "" || ContainsChar uuid slash || String.eqb uuid "." || String.eqb uuid ".."
  then throw (wrapf "storage: refusing to use %q as an object directory name" [uuid])
  else
    do r <- try (fs_Stat (objDir root uuid));
    match r with
    | Ok _ => throw (wrapf "storage: object %s already exists" [uuid])
    | Err err =>
        if negb (errors_Is err ENOENT) then throw err
        else
          let staging := path_Join [objsDir root; stagingPrefix +:+ uuid] in
          fs_MkdirAll staging;;
          deferred
            (fill (path_Join [staging; "disk"]);;
             syncDir staging;;
             fs_Rename staging (objDir root uuid);;
             syncDir (objsDir root))
            (fs_RemoveAll staging)
    end.

Definition Store_Create (uuid : string) (size : Z) : ST F unit :=
  if size <=? 0 then throw (wrapf "storage: size must be > 0" [])
  else
    stage uuid (λ disk,
      fop "open" disk (FCreate disk);;
      deferred (fop "truncate" disk (FTruncate disk size);; fs_Sync disk) (fs_Close disk)).

(** [reflink]. *)
Definition reflink (dst src : string) : ST F unit :=
  fop "open" src (FOpen src);;
  deferred
    (fop "open" dst (FCreateTrunc dst);;
     deferred
       (onerr (fop "ioctl" dst (FClone dst src))
          (ErrWrap "storage: FICLONE %s -> %s: %w (the data disk must support reflinks -- XFS or btrfs)"
             [src; dst]);;
        fs_Sync dst)
       (fs_Close dst))
    (fs_Close src).

Definition Store_Clone (srcUUID dstUUID : string) : ST F unit :=
  let src := DiskPath root srcUUID in
  onerr (fs_Stat src) (ErrWrap "storage: source %s: %w" [srcUUID]);;
  stage dstUUID (λ disk, reflink disk src).

Definition Store_Resize (uuid : string) (newSize : Z) : ST F unit :=
  let disk := DiskPath root uuid in
  fop "open" disk (FOpenWrite disk);;
  deferred
    (do sz <- fs_Stat disk;
     if newSize <? sz
     then throw (wrapf "storage: shrink unsupported (%d < %d)" [itoa newSize; itoa sz])
     else if newSize =? sz then ret tt
     else fop "truncate" disk (FTruncate disk newSize);; fs_Sync disk)
    (fs_Close disk).

Definition Store_Size (uuid : string) : ST F Z := fs_Stat (DiskPath root uuid).

Definition Store_Delete (uuid : string) : ST F unit :=
  fs_RemoveAll (objDir root uuid);; syncDir (objsDir root).
End Store.

(** ** appliance/backup.go *)

Section backups.
Context {F : Type} `{Files F}.

(** [filepath.Base]. *)
Fixpoint trim_slashes (l : list ascii) : list ascii :=
  match l with
  | c :: l' => if Ascii.eqb c slash then trim_slashes l' else l
  | [] => []
  end.
Definition Base (p : string) : string :=
  if String.eqb p "" then "."
  else
    let p' := of_chars (reverse (trim_slashes (reverse (chars p)))) in
    if String.eqb p' "" then "/"
    else match splitLastByte p' slash with Some (_, t) => t | None => p' end.

Definition dbBackupsKept : Z := 10.
(** [linkBackup]: the name made, or "" when there was nothing to link. *)
Definition linkBackup (path : string) : ST F string :=
  do now <- fs_now;
  let name := path +:+ ".bak." +:+ now in
  do r <- try (fs_Link path name);
  match r with
  | Ok _ => ret name
  | Err err => if IsNotExist err then ret "" else if IsExist err then ret name else throw err
  end.

Definition backup_names (path : string) (entries : list (string * bool)) : list string :=
  (filter (λ e : string * bool, negb e.2 && HasPrefix e.1 (Base path +:+ ".bak.") = true) entries).*1.
Definition pruneBackups (path : string) (keep : Z) : ST F unit :=
  do entries <- fs_ReadDir (Dir path);
  let backups := backup_names path entries in
  let n := Z.of_nat (length backups) in
  if n <=? keep then ret tt
  else
    mfor (λ name,
      do r <- try (fs_Remove (path_Join [Dir path; name]));
      match r with
      | Err err => if IsNotExist err then ret tt else throw err
      | Ok _ => ret tt
      end) (take (Z.to_nat (n - keep)) (sort_strings backups)).
Definition str_gtb (a b : string) : bool := negb (str_leb a b).
Definition latestBackup (path : string) : ST F string :=
  do entries <- fs_ReadDir (Dir path);
  let newest := foldl (λ m n, if str_gtb n m then n else m) "" (backup_names path entries) in
  ret (if String.eqb newest "" then "" else path_Join [Dir path; newest]).
End backups.
