(* ===== verification/AppCoordinator.v ===== *)
(** * appliance: the coordinator — commit, rollback and reconcile

    appliance/appliance.go and the reconcile of translate.go. The state is
    [world]: the coordinator's fields, the kernel that serves configfs and the
    saved reservation files, and the file system that holds the database and
    the backing files. [App] is a state monad whose outcomes are a value, an
    error or a run-time panic, which nothing in the package recovers. The
    caller holds the mutex throughout, so an operation is one computation.
    Logging, events and timings are left out. *)

From S2P Require Import Prelude GoStrings Errors Netip LioModel Configfs LioAptpl LioApply LioSync.
From S2P Require Import LioDelta LioStranded AppModel AppDb AppPortals AppTranslate AppAptpl Storage.

(** ** State *)

(** What /health publishes, guarded by its own mutex. *)
Record published := mkPublished {
  hl_healthErr : option goerr;
  hl_prUnbound : list aptpl_report;
  hl_prStranded : list StrandedReservation;
  hl_prStrandUndecided : list UndecidedStrand;
  hl_drift : list AttrDrift;
  hl_clearing : string;
  hl_withheldNames : gmap string string;
  hl_backupErr : option goerr;
  hl_portalFlagIgnored : option (string * string);   (* flag and record, when they disagree *)
  hl_iqnFlagIgnored : option (string * string)
}.
Definition published0 : published := mkPublished None [] [] [] [] "" ∅ None None None.

Record coord := mkCoord {
  c_st : db;
  c_cfg : AppConfig;
  c_root : string;                      (* of the store *)
  c_quarantined : list string;          (* the store's *)
  c_dbPath : string;
  c_applied : option Config;
  c_prClearing : string;
  c_withheld : gmap string string;
  c_lastReconcileErr : option goerr;
  c_health : published
}.

Definition set_st v c := mkCoord v (c_cfg c) (c_root c) (c_quarantined c) (c_dbPath c) (c_applied c)
  (c_prClearing c) (c_withheld c) (c_lastReconcileErr c) (c_health c).
Definition set_cfg v c := mkCoord (c_st c) v (c_root c) (c_quarantined c) (c_dbPath c) (c_applied c)
  (c_prClearing c) (c_withheld c) (c_lastReconcileErr c) (c_health c).
Definition set_quarantined v c := mkCoord (c_st c) (c_cfg c) (c_root c) v (c_dbPath c) (c_applied c)
  (c_prClearing c) (c_withheld c) (c_lastReconcileErr c) (c_health c).
Definition set_applied v c := mkCoord (c_st c) (c_cfg c) (c_root c) (c_quarantined c) (c_dbPath c) v
  (c_prClearing c) (c_withheld c) (c_lastReconcileErr c) (c_health c).
Definition set_prClearing v c := mkCoord (c_st c) (c_cfg c) (c_root c) (c_quarantined c) (c_dbPath c)
  (c_applied c) v (c_withheld c) (c_lastReconcileErr c) (c_health c).
Definition set_withheld v c := mkCoord (c_st c) (c_cfg c) (c_root c) (c_quarantined c) (c_dbPath c)
  (c_applied c) (c_prClearing c) v (c_lastReconcileErr c) (c_health c).
Definition set_lastReconcileErr v c := mkCoord (c_st c) (c_cfg c) (c_root c) (c_quarantined c)
  (c_dbPath c) (c_applied c) (c_prClearing c) (c_withheld c) v (c_health c).
Definition set_health v c := mkCoord (c_st c) (c_cfg c) (c_root c) (c_quarantined c) (c_dbPath c)
  (c_applied c) (c_prClearing c) (c_withheld c) (c_lastReconcileErr c) v.

Definition ph_reconciled err unbound stranded undecided drift h := mkPublished err unbound stranded
  undecided drift (hl_clearing h) (hl_withheldNames h) (hl_backupErr h) (hl_portalFlagIgnored h)
  (hl_iqnFlagIgnored h).
Definition ph_err v h := mkPublished v (hl_prUnbound h) (hl_prStranded h) (hl_prStrandUndecided h)
  (hl_drift h) (hl_clearing h) (hl_withheldNames h) (hl_backupErr h) (hl_portalFlagIgnored h)
  (hl_iqnFlagIgnored h).
Definition ph_pr unbound stranded undecided h := mkPublished (hl_healthErr h) unbound stranded undecided
  (hl_drift h) (hl_clearing h) (hl_withheldNames h) (hl_backupErr h) (hl_portalFlagIgnored h)
  (hl_iqnFlagIgnored h).
Definition ph_clearing v h := mkPublished (hl_healthErr h) (hl_prUnbound h) (hl_prStranded h)
  (hl_prStrandUndecided h) (hl_drift h) v (hl_withheldNames h) (hl_backupErr h)
  (hl_portalFlagIgnored h) (hl_iqnFlagIgnored h).
Definition ph_withheld v h := mkPublished (hl_healthErr h) (hl_prUnbound h) (hl_prStranded h)
  (hl_prStrandUndecided h) (hl_drift h) (hl_clearing h) v (hl_backupErr h)
  (hl_portalFlagIgnored h) (hl_iqnFlagIgnored h).
Definition ph_backup v h := mkPublished (hl_healthErr h) (hl_prUnbound h) (hl_prStranded h)
  (hl_prStrandUndecided h) (hl_drift h) (hl_clearing h) (hl_withheldNames h) v
  (hl_portalFlagIgnored h) (hl_iqnFlagIgnored h).
Definition ph_flags portal iqn h := mkPublished (hl_healthErr h) (hl_prUnbound h) (hl_prStranded h)
  (hl_prStrandUndecided h) (hl_drift h) (hl_clearing h) (hl_withheldNames h) (hl_backupErr h)
  portal iqn.

Record world (K F : Type) := mkWorld { w_c : coord; w_k : K; w_f : F }.
Arguments mkWorld {K F} _ _ _.
Arguments w_c {K F} _.
Arguments w_k {K F} _.
Arguments w_f {K F} _.

(** ** The monad *)

Inductive outcome (A : Type) :=
  | Done (a : A)
  | Fail (e : aerr)
  | Panic.
Arguments Done {A} a.
Arguments Fail {A} e.
Arguments Panic {A}.

Definition App (K F A : Type) : Type := world K F → outcome A * world K F.

Section monad.
Context {K F : Type}.

Definition aret {A} (a : A) : App K F A := λ w, (Done a, w).
Definition afail {A} (e : aerr) : App K F A := λ w, (Fail e, w).
Definition abind {A B} (m : App K F A) (f : A → App K F B) : App K F B :=
  λ w, match m w with
       | (Done a, w) => f a w
       | (Fail e, w) => (Fail e, w)
       | (Panic, w) => (Panic, w)
       end.
(** [v, err := m], for a caller that looks at the error. *)
Definition atry {A} (m : App K F A) : App K F (result aerr A) :=
  λ w, match m w with
       | (Done a, w) => (Done (Ok a), w)
       | (Fail e, w) => (Done (Err e), w)
       | (Panic, w) => (Panic, w)
       end.
Definition of_res {A} (r : result aerr A) : App K F A :=
  match r with Ok a => aret a | Err e => afail e end.
Definition get : App K F coord := λ w, (Done (w_c w), w).
Definition modify (f : coord → coord) : App K F unit :=
  λ w, (Done tt, mkWorld (f (w_c w)) (w_k w) (w_f w)).
(** A computation of lio, or of the file system, whose error is returned. *)
Definition in_kernel {A} (m : ST K A) : App K F A :=
  λ w, match m (w_k w) with
       | (Ok a, k) => (Done a, mkWorld (w_c w) k (w_f w))
       | (Err e, k) => (Fail (ALio e), mkWorld (w_c w) k (w_f w))
       end.
Definition in_files {A} (m : ST F A) : App K F A :=
  λ w, match m (w_f w) with
       | (Ok a, f) => (Done a, mkWorld (w_c w) (w_k w) f)
       | (Err e, f) => (Fail (ALio e), mkWorld (w_c w) (w_k w) f)
       end.
(** A method of the Manager that cannot fail, or that returns its error as a
    value. *)
Definition lio_call {A} (m : K → A * K) : App K F A :=
  λ w, let '(a, k) := m (w_k w) in (Done a, mkWorld (w_c w) k (w_f w)).
End monad.

Notation "'let!' x := m 'in' k" := (abind m (fun x => k))
  (at level 200, x pattern, m at level 100, k at level 200, right associativity) : go_scope.
Notation "m ;!; k" := (abind m (fun _ => k))
  (at level 100, k at level 200, right associativity) : go_scope.

(** ** Snapshot and rollback *)

(** [snapshotState]: every record, but neither [TargetIQN] nor [MachineID]. *)
Definition snapshotState (d : db) : db :=
  mkDb (db_Version d) (db_Objects d) (db_Hosts d) (db_Connections d) (db_Exports d) (db_Portals d) "" "".

Section Coordinator.
Context {K F : Type} `{Kernel K} `{Files F}.
(* the order of map iteration; the Manager's root and provider; encoding/json *)
Context (range : ∀ A, list A → list A) (mroot : string).
Context (aptplRecords : option (Backstore → ST K (list string))).
Context (marshal : db → string) (unmarshal : string → option Loaded).

Notation App := (App K F).

Definition st : App db := let! c := get in aret (c_st c).
Definition set_state (d : db) : App unit := modify (set_st d).
Definition restoreState (b : db) : App unit := set_state b.
Definition publish (f : published → published) : App unit := modify (λ c, set_health (f (c_health c)) c).

(** [c.desiredLIO()]: the indexes it allocates stay in the state. *)
Definition desired : App Config :=
  let! c := get in
  match desiredLIO range (c_root c) (c_cfg c) (c_prClearing c) (c_withheld c) (c_st c) with
  | None => λ w, (Panic, w)
  | Some (cfg, d) => set_state d ;!; aret cfg
  end.

(** ** Persisting the database *)

Definition backup_db (path : string) : ST F unit :=
  linkBackup path;; pruneBackups path dbBackupsKept.
(** Writing the temporary file: created, written, synced, closed. *)
Definition write_tmp (tmp data : string) : ST F unit :=
  fop "open" tmp (FCreateTrunc tmp);;
  do r <- try (fop "write" tmp (FWrite tmp data);; fs_Sync tmp);
  match r with
  | Err e => try (fs_Close tmp);; throw e
  | Ok _ => fs_Close tmp
  end.
Definition persist : App unit :=
  let! c := get in
  if String.eqb (c_dbPath c) "" then afail (AMsg "appliance: no database path configured" [])
  else
    let! backupErr := atry (in_files (backup_db (c_dbPath c))) in
    let tmp := c_dbPath c +:+ ".tmp" in
    in_files (write_tmp tmp (marshal (c_st c) +:+ nl_str)) ;!;
    in_files (fs_Rename tmp (c_dbPath c)) ;!;
    publish (ph_backup (match backupErr with Err (ALio e) => Some e | _ => None end)) ;!;
    let! r := atry (in_files (syncDir (Dir (c_dbPath c)))) in
    match r with
    | Err e => afail (AWrap "%w: %v" [] APersistedNotDurable)
    | Ok _ => aret tt
    end.

(** ** Reconcile *)

Definition setReconcileErr (err : goerr) : App unit :=
  modify (set_lastReconcileErr (Some err)) ;!; publish (ph_err (Some err)).
Definition setReconcileOK (unbound : list aptpl_report) (s : StrandReport) (drift : list AttrDrift)
    : App unit :=
  modify (set_lastReconcileErr None) ;!;
  publish (ph_reconciled None unbound (Stranded s) (Undecided s) drift).

(** [StrandedReservations] reports; an error would be a gap of its model. *)
Definition stranded_reports (cfg : Config) (k : K) : StrandReport * K :=
  match StrandedReservations mroot cfg k with
  | (Ok r, k) => (r, k)
  | (Err _, k) => (mkStrandReport [] [], k)
  end.

Definition reconcileFull (desired : Config) : App unit :=
  let! re := lio_call (Sync mroot aptplRecords desired) in
  match re.2 with
  | Some err =>
      modify (set_applied None) ;!; setReconcileErr err ;!; afail (ALio err)
  | None =>
      modify (set_applied (Some (appliedView desired (rp_Drift re.1)))) ;!;
      let! s := lio_call (stranded_reports desired) in
      setReconcileOK (rp_APTPLUnbound re.1) s (rp_Drift re.1)
  end.

(** [errors.Is(err, lio.ErrStaleScope)]. *)
Fixpoint is_stale (e : goerr) : bool :=
  match e with
  | ErrStaleScope => true
  | ErrWrap _ _ c => is_stale c
  | ErrLio _ _ _ (Some c) => is_stale c
  | _ => false
  end.

Definition reconcile : App unit :=
  let! dcfg := desired in
  let! c := get in
  match c_applied c with
  | None => reconcileFull dcfg
  | Some applied =>
      match Diff range applied dcfg with
      | None => reconcileFull dcfg
      | Some delta =>
          let! re := lio_call (ApplyDelta mroot aptplRecords dcfg delta) in
          match re.2 with
          | Some err =>
              modify (set_applied None) ;!;
              if is_stale err then reconcileFull dcfg
              else setReconcileErr err ;!; afail (ALio err)
          | None =>
              let! unbound := lio_call (VerifyAPTPL mroot aptplRecords dcfg) in
              let! s := lio_call (stranded_reports dcfg) in
              let! drift := lio_call (VerifyDrift mroot dcfg) in
              modify (set_applied (Some (appliedView dcfg drift))) ;!;
              setReconcileOK unbound s drift
          end
      end
  end.

(** ** Mutations *)

Definition healIfDegraded : App unit :=
  let! c := get in
  match c_lastReconcileErr c with
  | None => aret tt
  | Some _ =>
      let! r := atry reconcile in
      match r with
      | Ok _ => aret tt
      | Err e =>
          afail (statusErr StatusServiceUnavailable
            "appliance degraded: previous reconcile failed (%v); retry once the kernel LIO state is reachable"
            [] [e])
      end
  end.

Definition persistOnly (mutate : db → result aerr db) : App unit :=
  let! d := st in
  let backup := snapshotState d in
  match mutate d with
  | Err e => restoreState backup ;!; afail e
  | Ok d' =>
      set_state d' ;!;
      let! r := atry persist in
      match r with
      | Ok _ => aret tt
      | Err e =>
          if is_not_durable e then afail e
          else restoreState backup ;!; afail e
      end
  end.

Definition commit (mutate : db → result aerr db) : App unit :=
  healIfDegraded ;!;
  let! d := st in
  let backup := snapshotState d in
  match mutate d with
  | Err e => restoreState backup ;!; afail e
  | Ok d' =>
      set_state d' ;!;
      let! dcfg := desired in
      match Config_Validate dcfg with
      | Err e => restoreState backup ;!; afail (ALio e)
      | Ok _ =>
          let! r := atry persist in
          match r with
          | Err e =>
              if is_not_durable e then atry reconcile ;!; afail e
              else restoreState backup ;!; afail e
          | Ok _ => reconcile
          end
      end
  end.

(** ** Health *)

Definition holdBack (uuid name : string) : App unit :=
  modify (λ c, set_withheld (<[uuid := name]> (c_withheld c)) c) ;!;
  modify (λ c, set_health (ph_withheld (c_withheld c) (c_health c)) c).
Definition releaseHold (uuid : string) : App unit :=
  let! c := get in
  match c_withheld c !! uuid with
  | None => aret tt
  | Some _ =>
      modify (λ c, set_withheld (delete uuid (c_withheld c)) c) ;!;
      modify (λ c, set_health (ph_withheld (c_withheld c) (c_health c)) c)
  end.
Definition setClearing (name : string) : App unit := publish (ph_clearing name).

(** [RecheckPR], when the mutex is free. *)
Definition RecheckPR : App unit :=
  let! dcfg := desired in
  let! s := lio_call (stranded_reports dcfg) in
  let! unbound := lio_call (VerifyAPTPL mroot aptplRecords dcfg) in
  publish (ph_pr unbound (Stranded s) (Undecided s)).

Definition sortedValues (m : gmap string string) : list string := sort_strings (map_to_list m).*2.
(** [HealthSnapshot], without its timestamp; errors are not rendered. *)
Record Health := mkHealth {
  he_Degraded : bool; he_Detail : option goerr; he_PRUnbound : list aptpl_report;
  he_PRStranded : list StrandedReservation; he_PRStrandUndecided : list UndecidedStrand;
  he_Withheld : list string; he_ClearInProgress : string; he_Drift : list AttrDrift;
  he_BackupErr : option goerr; he_Quarantined : list string;
  he_PortalFlagIgnored : option (string * string); he_IQNFlagIgnored : option (string * string) }.
Definition HealthSnapshot (c : coord) : Health :=
  let h := c_health c in
  mkHealth (match hl_healthErr h with Some _ => true | None => false end) (hl_healthErr h)
    (hl_prUnbound h) (hl_prStranded h) (hl_prStrandUndecided h) (sortedValues (hl_withheldNames h))
    (hl_clearing h) (hl_drift h) (hl_backupErr h) (c_quarantined c) (hl_portalFlagIgnored h)
    (hl_iqnFlagIgnored h).
Definition Healthy (c : coord) : bool * option goerr :=
  match hl_healthErr (c_health c) with Some e => (false, Some e) | None => (true, None) end.
End Coordinator.
