(* ===== verification/AppObjects.v ===== *)
(** * appliance: volumes and snapshots

    appliance/objects.go, and the removal of a saved reservation file from
    ops.go. An operation that returns a value beside an error returns only the
    error here, unless its comment says otherwise. *)

From S2P Require Import Prelude GoStrings Errors Netip LioModel Configfs LioAptpl LioApply LioSync.
From S2P Require Import AppModel AppDb AppPortals AppTranslate AppAptpl Storage AppCoordinator.

Definition DefaultBlockSize : Z := 512.
Definition MaxBlockSize : Z := 4096.
Definition ValidBlockSize (n : Z) : bool := (n =? DefaultBlockSize) || (n =? MaxBlockSize).
Definition MinVolumeSize : Z := Z.shiftl 1 20.

Definition checkSize (size : Z) : result aerr unit :=
  if size <? MinVolumeSize
  then Err (statusErrCode StatusBadRequest CodeInvalidInput "size %d is below the %d-byte minimum"
              [itoa size; itoa MinVolumeSize])
  else
    match CheckGranularity size SizeGranularity with
    | Err e => Err (AStatus StatusBadRequest CodeInvalidInput "%s" [] [ALio e] None)
    | Ok _ => Ok tt
    end.

Record CreateRequest := mkCreateRequest {
  cr_Name : string; cr_Size : Z; cr_BlockSize : Z; cr_Source : string; cr_SourceKind : string }.

(** [matchExisting]: the repeat-create rule. *)
Definition matchExisting (d : db) (existing : Object) (req : CreateRequest) : result aerr Object :=
  if negb (cr_BlockSize req =? 0) && negb (o_BlockSize existing =? cr_BlockSize req)
  then Err (statusErrCode StatusConflict CodeConfigurationMismatch
              "%s %q already exists with block_size %d, not %d"
              [o_Kind existing; o_Name existing; itoa (o_BlockSize existing); itoa (cr_BlockSize req)])
  else if negb (String.eqb (cr_Source req) "") && negb (String.eqb (cr_Source req) (o_Source existing))
  then
    match resolveObject d (cr_SourceKind req) (cr_Source req) with
    | None => Err (statusErrCode StatusConflict CodeConfigurationMismatch
                     "%s %q already exists and was made from %s, which no longer exists..."
                     [o_Kind existing; o_Name existing; o_Source existing; cr_Source req])
    | Some src =>
        if negb (String.eqb (o_Source existing) (o_UUID src))
        then Err (statusErrCode StatusConflict CodeConfigurationMismatch
                    "%s %q already exists and was not made from %q"
                    [o_Kind existing; o_Name existing; cr_Source req])
        else Ok existing
    end
  else Ok existing.

(** The source of a copy and what the copy inherits: the object, the size and
    the block size. *)
Definition resolve_source (d : db) (req : CreateRequest) : result aerr (option Object * Z * Z) :=
  if String.eqb (cr_Source req) "" then Ok (None, cr_Size req, cr_BlockSize req)
  else
    match resolveObject d (cr_SourceKind req) (cr_Source req) with
    | None => Err (notFound (cr_SourceKind req) (cr_Source req))
    | Some s =>
        if negb (String.eqb (o_State s) stateReady)
        then Err (statusErrCode StatusConflict CodeUnsupportedState "%s %q is %s"
                    [o_Kind s; o_Name s; o_State s])
        else
          let size := if cr_Size req =? 0 then o_Capacity s else cr_Size req in
          if size <? o_Capacity s
          then Err (statusErrCode StatusBadRequest CodeInvalidInput
                      "size %d is smaller than %s %q (%d); a copy cannot shrink"
                      [itoa size; o_Kind s; o_Name s; itoa (o_Capacity s)])
          else Ok (Some s, size, o_BlockSize s)
    end.

Definition add_object (o : Object) (d : db) : result aerr db := Ok (with_Objects (db_Objects d ++ [o]) d).
Definition set_Name v o := mkObject (o_UUID o) v (o_Kind o) (o_WWN o) (o_Capacity o) (o_BlockSize o)
  (o_Created o) (o_State o) (o_Source o).
Definition set_Capacity v o := mkObject (o_UUID o) (o_Name o) (o_Kind o) (o_WWN o) v (o_BlockSize o)
  (o_Created o) (o_State o) (o_Source o).
Definition is_named (kind name : string) (o : Object) : bool :=
  String.eqb (o_Kind o) kind && String.eqb (o_Name o) name.
(** [if t := c.objectByName(kind, old); t != nil { t.Name = newName }]. *)
Definition rename_object (kind old newName : string) (d : db) : result aerr db :=
  Ok (with_Objects (update_first (is_named kind old) (set_Name newName) (db_Objects d)) d).
Definition resize_object (uuid : string) (newSize : Z) (d : db) : result aerr db :=
  Ok (with_Objects (update_first (λ o, String.eqb (o_UUID o) uuid) (set_Capacity newSize) (db_Objects d)) d).
Definition deleteObject (objs : list Object) (uuid : string) : list Object :=
  filter (λ o, o_UUID o ≠ uuid) objs.
Definition delete_object (uuid : string) (d : db) : result aerr db :=
  let d := with_Objects (deleteObject (db_Objects d) uuid) d in
  Ok (with_Exports (delete uuid (db_Exports d)) d).
Definition dropBytes (err : aerr) : bool := negb (is_not_durable err).

Section Objects.
Context {K F : Type} `{Kernel K} `{Files F}.
Context (range : ∀ A, list A → list A) (mroot : string).
Context (aptplRecords : option (Backstore → ST K (list string))).
Context (marshal : db → string).

Notation App := (App K F).
Notation persistOnly := (persistOnly marshal).
Notation healIfDegraded := (healIfDegraded range mroot aptplRecords).
Notation reconcile := (reconcile range mroot aptplRecords).

Definition random16 : App (list Z) := in_files (sys "getrandom" "" fl_random).
Definition newIdentity : App (string * string) := let! b := random16 in aret (newIdentity_of b).
Definition newHostUUID : App string := let! b := random16 in aret (newHostUUID_of b).

(** [discardSavedPR]: best effort. *)
Definition discardSavedPR (wwn : string) : App unit :=
  let! c := get in
  if String.eqb (ac_DBRoot (c_cfg c)) "" || String.eqb wwn "" then aret tt
  else
    atry (in_kernel (os_Remove (APTPLPath (ac_DBRoot (c_cfg c)) wwn))) ;!; aret tt.

(** The bytes of a new object. *)
Definition allocate (root uuid : string) (source : option Object) (size : Z) : App unit :=
  match source with
  | Some s =>
      in_files (Store_Clone root (o_UUID s) uuid) ;!;
      if o_Capacity s <? size then
        let! r := atry (in_files (Store_Resize root uuid size)) in
        match r with
        | Ok _ => aret tt
        | Err e => atry (in_files (Store_Delete root uuid)) ;!; afail e
        end
      else aret tt
  | None => in_files (Store_Create root uuid size)
  end.

Definition Create (kind : string) (req : CreateRequest) : App (Object * bool) :=
  of_res (checkName (cr_Name req)) ;!;
  let req := if cr_BlockSize req =? 0
             then mkCreateRequest (cr_Name req) (cr_Size req) DefaultBlockSize (cr_Source req)
                    (cr_SourceKind req)
             else req in
  if negb (ValidBlockSize (cr_BlockSize req))
  then afail (statusErrCode StatusBadRequest CodeInvalidInput "block_size must be %d or %d"
                [itoa DefaultBlockSize; itoa MaxBlockSize])
  else
    let! d := st in
    match objectByName d kind (cr_Name req) with
    | Some existing =>
        let! o := of_res (matchExisting d existing req) in aret (o, false)
    | None =>
        let! src := of_res (resolve_source d req) in
        let '(source, size, blockSize) := src in
        of_res (checkSize size) ;!;
        let! id := newIdentity in
        let '(uuid, wwn) := id in
        let! c := get in
        allocate (c_root c) uuid source size ;!;
        let! now := in_files fs_now in
        let obj := mkObject uuid (cr_Name req) kind wwn size blockSize now stateReady
                     (match source with Some s => o_UUID s | None => "" end) in
        let! r := atry (persistOnly (add_object obj)) in
        match r with
        | Ok _ => aret (obj, true)
        | Err e =>
            if dropBytes e then atry (in_files (Store_Delete (c_root c) uuid)) ;!; afail e
            else afail e
        end
    end.

Definition List_ (kind : string) : App (list Object) :=
  let! d := st in aret (filter (λ o, o_Kind o = kind) (db_Objects d)).
Definition Get_ (kind ref : string) : App (option Object) :=
  let! d := st in aret (resolveObject d kind ref).

Definition Rename (kind ref newName : string) : App Object :=
  of_res (checkName newName) ;!;
  let! d := st in
  match resolveObject d kind ref with
  | None => afail (notFound kind ref)
  | Some o =>
      if String.eqb (o_Name o) newName then aret o
      else
        match objectByName d kind newName with
        | Some _ => afail (nameTaken kind newName)
        | None =>
            persistOnly (rename_object kind (o_Name o) newName) ;!;
            let! d := st in
            match objectByName d kind newName with
            | Some o => aret o
            | None => λ w, (Panic, w)
            end
        end
  end.

Definition Delete (kind ref : string) : App unit :=
  let! d := st in
  match resolveObject d kind ref with
  | None => afail (notFound kind ref)
  | Some o =>
      if (0 <? length (connectionsOf d (o_UUID o)))%nat
      then afail (statusErrCode StatusConflict CodeResourceConnected
                    "%s %q is connected; disconnect it first" [o_Kind o; o_Name o])
      else
        healIfDegraded ;!;
        persistOnly (delete_object (o_UUID o)) ;!;
        discardSavedPR (o_WWN o) ;!;
        releaseHold (o_UUID o) ;!;
        let! c := get in
        in_files (Store_Delete (c_root c) (o_UUID o))
  end.

Definition Resize (kind ref : string) (newSize : Z) : App bool :=
  let! d := st in
  match resolveObject d kind ref with
  | None => afail (notFound kind ref)
  | Some o =>
      let exported := (0 <? length (connectionsOf d (o_UUID o)))%nat in
      if newSize =? o_Capacity o then aret exported
      else if newSize <? o_Capacity o
      then afail (statusErrCode StatusBadRequest CodeInvalidInput "shrink unsupported (%d < %d)"
                    [itoa newSize; itoa (o_Capacity o)])
      else
        of_res (checkSize newSize) ;!;
        healIfDegraded ;!;
        let! c := get in
        in_files (Store_Resize (c_root c) (o_UUID o) newSize) ;!;
        persistOnly (resize_object (o_UUID o) newSize) ;!;
        reconcile ;!;
        aret exported
  end.
End Objects.
