(* ===== verification/AppHosts.v ===== *)
(** * appliance: hosts, connections and portals

    appliance/hosts.go and the rest of ops.go. [SetBindings] and [Disconnect]
    return their warnings beside the error of their commit: an early refusal
    is a [Fail], what follows the warning is [Done (warnings, result)]. The
    warning is kept as its facts, not as its sentence. *)

From S2P Require Import Prelude GoStrings Errors Netip LioModel Configfs LioAptpl LioApply LioSync.
From S2P Require Import LioStranded AppModel AppDb AppPortals AppTranslate AppAptpl Storage.
From S2P Require Import AppCoordinator AppObjects.

Definition validIQN (s : string) : bool := ValidInitiatorIQN s.

(** [checkIQNs]: [seen] grows along the request. *)
Definition check_iqn (d : db) (exceptHost : string) (seen : list string) (q : string)
    : result aerr (list string) :=
  if negb (validIQN q)
  then Err (statusErrCode StatusBadRequest CodeInvalidInput
              "invalid initiator IQN %q (must start with iqn.)" [q])
  else if any (String.eqb q) seen
  then Err (statusErrCode StatusBadRequest CodeInvalidInput
              "duplicate initiator IQN %q in request" [q])
  else
    let owner := iqnOwner d q exceptHost in
    if negb (String.eqb owner "")
    then Err (statusErrCode StatusConflict CodeAlreadyExists "iqn %s is already bound to host %s" [q; owner])
    else Ok (q :: seen).
Definition checkIQNs (d : db) (iqns : list string) (exceptHost : string) : result aerr unit :=
  let? _ := rfold (check_iqn d exceptHost) [] iqns in Ok tt.

Definition add_host (h : Host) (d : db) : result aerr db := Ok (with_Hosts (db_Hosts d ++ [h]) d).
Definition set_HostName v h := mkHost (h_UUID h) v (h_IQNs h).
Definition set_IQNs v h := mkHost (h_UUID h) (h_Name h) v.
Definition rename_host (old newName : string) (d : db) : result aerr db :=
  Ok (with_Hosts (update_first (λ h, String.eqb (h_Name h) old) (set_HostName newName) (db_Hosts d)) d).
Definition rebind_host (uuid : string) (next : list string) (d : db) : result aerr db :=
  Ok (with_Hosts (update_first (λ h, String.eqb (h_UUID h) uuid) (set_IQNs next) (db_Hosts d)) d).
Definition delete_host (uuid : string) (d : db) : result aerr db :=
  Ok (with_Hosts (filter (λ x, h_UUID x ≠ uuid) (db_Hosts d)) d).
Definition connect (objUUID hostUUID : string) (lun : Z) (d : db) : result aerr db :=
  let '(_, exports) := exportIndex objUUID (db_Exports d) in
  let d := with_Exports exports d in
  Ok (with_Connections (db_Connections d ++ [mkConnection objUUID hostUUID lun]) d).
Definition disconnect (objUUID hostUUID : string) (d : db) : result aerr db :=
  Ok (pruneExports (with_Connections
        (filter (λ cn, ¬ (cn_ObjectUUID cn = objUUID ∧ cn_HostUUID cn = hostUUID)) (db_Connections d)) d)).
Definition replace_portals (ps : list Portal) (d : db) : result aerr db := Ok (with_Portals ps d).

(** The binding set a [SetBindings] request asks for. *)
Definition next_bindings (old : list string) (replace : option (list string)) (add remove : list string)
    : list string :=
  let next := match replace with Some r => r | None => old end in
  let next := foldl (λ next q, if any (String.eqb q) next then next else next ++ [q]) next add in
  if (0 <? length remove)%nat then filter (λ q, any (String.eqb q) remove = false) next else next.

Record ConnInfo := mkConnInfo { ci_TargetIQN : string; ci_Portals : list Portal; ci_LUN : Z; ci_Wwid : string }.
Definition connInfo (c : coord) (o : Object) (lun : Z) : ConnInfo :=
  mkConnInfo (ac_TargetIQN (c_cfg c)) (portals (c_st c) (c_cfg c)) lun (Wwid (o_WWN o)).

(** The loop of [Connect] over the connections: the first that is this pair or
    holds this LUN decides. *)
Fixpoint connect_scan (o : Object) (h : Host) (lun : Z) (l : list Connection) : result aerr bool :=
  match l with
  | [] => Ok false
  | cn :: l =>
      if String.eqb (cn_ObjectUUID cn) (o_UUID o) && String.eqb (cn_HostUUID cn) (h_UUID h) then
        if cn_LUN cn =? lun then Ok true
        else Err (statusErrCode StatusConflict CodeConfigurationMismatch
                    "%s %q is already connected to host %q at lun %d, not %d"
                    [o_Kind o; o_Name o; h_Name h; itoa (cn_LUN cn); itoa lun])
      else if String.eqb (cn_HostUUID cn) (h_UUID h) && (cn_LUN cn =? lun)
      then Err (statusErrCode StatusConflict CodeLUNConflict "lun %d is already in use on host %q"
                  [itoa lun; h_Name h])
      else connect_scan o h lun l
  end.

Inductive fence_warning :=
  (* whether a reservation protects the volume could not be determined *)
  | FenceUnreadable (err : aerr)
  (* the holder loses its access and with it the reservation; [others] is how
     many connections of the object remain, zero meaning the backstore goes too *)
  | FenceReleased (action holder restype : string) (others : Z).

Definition resTypeOrUnknown (t : string) : string := if String.eqb t "" then "could not be read" else t.

Record ConnectionView := mkView {
  v_Object : string; v_ObjectKind : string; v_ObjectUUID : string; v_Host : string;
  v_HostUUID : string; v_LUN : Z; v_TargetIQN : string; v_Wwid : string }.
Definition view_of (c : coord) (cn : Connection) : ConnectionView :=
  let o := object (c_st c) (cn_ObjectUUID cn) in
  let h := host (c_st c) (cn_HostUUID cn) in
  mkView (match o with Some o => o_Name o | None => "" end) (match o with Some o => o_Kind o | None => "" end)
    (cn_ObjectUUID cn) (match h with Some h => h_Name h | None => "" end) (cn_HostUUID cn) (cn_LUN cn)
    (ac_TargetIQN (c_cfg c)) (match o with Some o => Wwid (o_WWN o) | None => "" end).

(** The object a list filter names: no filter, nothing, or a uuid. *)
Inductive ref_filter := NoFilter | NoMatch | Only (uuid : string).
Definition object_filter (d : db) (objectRef objectKind : string) : result aerr ref_filter :=
  if String.eqb objectRef "" then Ok NoFilter
  else if String.eqb objectKind KindVolume || String.eqb objectKind KindSnapshot then
    Ok (match resolveObject d objectKind objectRef with Some o => Only (o_UUID o) | None => NoMatch end)
  else if String.eqb objectKind "" then
    match resolveObject d KindVolume objectRef, resolveObject d KindSnapshot objectRef with
    | Some _, Some _ => Err (statusErrCode StatusBadRequest CodeInvalidInput
                               "%q names both a volume and a snapshot; say which with object_kind" [objectRef])
    | Some vol, None => Ok (Only (o_UUID vol))
    | None, Some snap => Ok (Only (o_UUID snap))
    | None, None => Ok NoMatch
    end
  else Err (statusErrCode StatusBadRequest CodeInvalidInput "unknown object_kind %q (use %q or %q)"
              [objectKind; KindVolume; KindSnapshot]).
Definition host_filter (d : db) (hostRef : string) : ref_filter :=
  if String.eqb hostRef "" then NoFilter
  else match resolveHost d hostRef with Some h => Only (h_UUID h) | None => NoMatch end.
(** [wantX != "" && cn.X != wantX]: an empty uuid filters nothing. *)
Definition passes (f : ref_filter) (uuid : string) : bool :=
  match f with Only u => String.eqb u "" || String.eqb uuid u | _ => true end.
Definition ListConnections (c : coord) (objectRef objectKind hostRef : string)
    : result aerr (list ConnectionView) :=
  let? fo := object_filter (c_st c) objectRef objectKind in
  match fo with
  | NoMatch => Ok []
  | _ =>
      match host_filter (c_st c) hostRef with
      | NoMatch => Ok []
      | fh =>
          Ok (view_of c <$> filter (λ cn, passes fo (cn_ObjectUUID cn) && passes fh (cn_HostUUID cn) = true)
                              (db_Connections (c_st c)))
      end
  end.

Section Hosts.
Context {K F : Type} `{Kernel K} `{Files F}.
Context (range : ∀ A, list A → list A) (mroot : string).
Context (aptplRecords : option (Backstore → ST K (list string))).
Context (marshal : db → string).

Notation App := (App K F).
Notation persistOnly := (persistOnly marshal).
Notation healIfDegraded := (healIfDegraded range mroot aptplRecords).
Notation commit := (commit range mroot aptplRecords marshal).
Notation desired := (desired range).

Definition CreateHost (name : string) (iqns : list string) : App (Host * bool) :=
  of_res (checkName name) ;!;
  let! d := st in
  match hostByName d name with
  | Some existing =>
      if negb (bool_decide (sort_strings iqns = sort_strings (h_IQNs existing)))
      then afail (statusErrCode StatusConflict CodeConfigurationMismatch
                    "host %q already exists with bindings %v, not %v" (name :: h_IQNs existing ++ iqns))
      else aret (existing, false)
  | None =>
      of_res (checkIQNs d iqns "") ;!;
      let! uuid := newHostUUID in
      let h := mkHost uuid name iqns in
      commit (add_host h) ;!;
      aret (h, true)
  end.

Definition ListHosts : App (list Host) := let! d := st in aret (db_Hosts d).
Definition GetHost (ref : string) : App (option Host) := let! d := st in aret (resolveHost d ref).

Definition RenameHost (ref newName : string) : App Host :=
  of_res (checkName newName) ;!;
  let! d := st in
  match resolveHost d ref with
  | None => afail (notFound "host" ref)
  | Some target =>
      if String.eqb (h_Name target) newName then aret target
      else
        match hostByName d newName with
        | Some _ => afail (nameTaken "host" newName)
        | None =>
            persistOnly (rename_host (h_Name target) newName) ;!;
            let! d := st in
            match hostByName d newName with
            | Some h => aret h
            | None => λ w, (Panic, w)
            end
        end
  end.

(** [fenceLossWarningFor]; the backstore is looked up in the desired state. *)
Definition backstoreOf (objectUUID : string) : App (option Backstore) :=
  let! dcfg := desired in
  aret (first (λ b, String.eqb (bs_Name b) (backstoreName objectUUID)) (c_Backstores dcfg)).
Definition fenceLossWarningFor (objectUUID : string) (losing : list string) (detachingHost action : string)
    : App (option fence_warning) :=
  let! d := st in
  match object d objectUUID with
  | None => aret None
  | Some v =>
      let! bs := backstoreOf (o_UUID v) in
      match bs with
      | None => aret None
      | Some bs =>
          let! r := atry (in_kernel (ReservationHolder mroot bs)) in
          match r with
          | Err err => aret (Some (FenceUnreadable err))
          | Ok res =>
              if String.eqb (rv_Holder res) "" then aret None
              else if rv_SPC2 res then aret None
              else if negb (any (String.eqb (rv_Holder res)) losing) then aret None
              else if AllRegistrants res then aret None
              else
                let others := filter (λ cn, cn_ObjectUUID cn = objectUUID ∧
                  (detachingHost = "" ∨ cn_HostUUID cn ≠ detachingHost)) (db_Connections d) in
                aret (Some (FenceReleased action (rv_Holder res) (resTypeOrUnknown (rv_Type res))
                              (Z.of_nat (length others))))
          end
      end
  end.
Definition fenceLossWarning (objectUUID hostUUID : string) : App (option fence_warning) :=
  let! d := st in
  match host d hostUUID with
  | None => aret None
  | Some h =>
      fenceLossWarningFor objectUUID (h_IQNs h) hostUUID
        ("disconnecting host " +:+ h_Name h +:+ " from object " +:+ objectUUID)
  end.

Fixpoint collect_warnings (losing : list string) (h : Host) (l : list Connection)
    : App (list fence_warning) :=
  match l with
  | [] => aret []
  | cn :: l =>
      if negb (String.eqb (cn_HostUUID cn) (h_UUID h)) then collect_warnings losing h l
      else
        let! w := fenceLossWarningFor (cn_ObjectUUID cn) losing ""
                    ("removing " +:+ Join losing ", " +:+ " from host " +:+ h_Name h
                     +:+ " (object " +:+ cn_ObjectUUID cn +:+ ")") in
        let! rest := collect_warnings losing h l in
        aret (match w with Some w => w :: rest | None => rest end)
  end.

Definition SetBindings (ref : string) (replace : option (list string)) (add remove : list string)
    : App (list fence_warning * result aerr Host) :=
  let! d := st in
  match resolveHost d ref with
  | None => afail (notFound "host" ref)
  | Some h =>
      let next := next_bindings (h_IQNs h) replace add remove in
      of_res (checkIQNs d next (h_UUID h)) ;!;
      let dropped := filter (λ q, any (String.eqb q) next = false) (h_IQNs h) in
      let! warnings := (if (0 <? length dropped)%nat
                        then collect_warnings dropped h (db_Connections d) else aret []) in
      let! r := atry (commit (rebind_host (h_UUID h) next)) in
      aret (warnings, match r with Ok _ => Ok (set_IQNs next h) | Err e => Err e end)
  end.

Definition DeleteHost (ref : string) : App unit :=
  let! d := st in
  match resolveHost d ref with
  | None => afail (notFound "host" ref)
  | Some h =>
      if (0 <? length (connectionsOfHost d (h_UUID h)))%nat
      then afail (statusErrCode StatusConflict CodeResourceConnected
                    "host %q has connections; disconnect first" [h_Name h])
      else commit (delete_host (h_UUID h))
  end.

Definition Connect (kind objectRef hostRef : string) (lun : option Z) : App (ConnInfo * bool) :=
  let! d := st in
  match resolveObject d kind objectRef with
  | None => afail (notFound kind objectRef)
  | Some o =>
      if negb (String.eqb (o_State o) stateReady)
      then afail (statusErrCode StatusConflict CodeUnsupportedState "%s %q is %s"
                    [o_Kind o; o_Name o; o_State o])
      else
        match resolveHost d hostRef with
        | None => afail (notFound "host" hostRef)
        | Some h =>
            match lun with
            | None => afail (statusErrCode StatusBadRequest CodeLUNRequired "a lun is required..." [])
            | Some lun =>
                if (lun <? 0) || (maxLUN <? lun)
                then afail (statusErrCode StatusBadRequest CodeInvalidInput "invalid lun %d (must be 0..%d)"
                              [itoa lun; itoa maxLUN])
                else
                  let! found := of_res (connect_scan o h lun (db_Connections d)) in
                  if found : bool then let! c := get in aret (connInfo c o lun, false)
                  else
                    commit (connect (o_UUID o) (h_UUID h) lun) ;!;
                    let! c := get in aret (connInfo c o lun, true)
            end
        end
  end.

Definition Disconnect (kind objectRef hostRef : string)
    : App (option fence_warning * result aerr unit) :=
  let! d := st in
  match resolveObject d kind objectRef with
  | None => afail (notFound kind objectRef)
  | Some o =>
      match resolveHost d hostRef with
      | None => afail (notFound "host" hostRef)
      | Some h =>
          if negb (any (λ cn, String.eqb (cn_ObjectUUID cn) (o_UUID o)
                              && String.eqb (cn_HostUUID cn) (h_UUID h)) (db_Connections d))
          then aret (None, Ok tt)
          else
            healIfDegraded ;!;
            let! warning := fenceLossWarning (o_UUID o) (h_UUID h) in
            let! r := atry (commit (disconnect (o_UUID o) (h_UUID h))) in
            aret (warning, r)
      end
  end.

Definition Target_ : App (string * list Portal) :=
  let! c := get in aret (ac_TargetIQN (c_cfg c), portals (c_st c) (c_cfg c)).

Definition SetPortals (ps : list Portal) : App (list Portal) :=
  let! c := get in
  if (length ps =? 0)%nat
  then afail (statusErr StatusBadRequest "refusing to remove every portal..." [] [])
  else
    let next := mkAppConfig (ac_TargetIQN (c_cfg c)) "" ps "" false false in
    match AppConfig_Validate range next with
    | Err e => afail (statusErr StatusBadRequest "%v" [] [e])
    | Ok _ =>
        let prev := db_Portals (c_st c) in
        if samePortalSet prev ps then aret (portals (c_st c) (c_cfg c))
        else
          let! r := atry (commit (replace_portals ps)) in
          let! c := get in
          match r with
          | Err e =>
              if samePortalSet (db_Portals (c_st c)) prev
              then afail (statusErr StatusConflict "portal change rejected, portals unchanged (%s): %v"
                            [portalsText prev] [e])
              else afail (statusErr StatusConflict
                            "portals are now recorded as %s but the kernel did not accept them (%v)..."
                            [portalsText ps] [e])
          | Ok _ =>
              publish (λ h, ph_flags None (hl_iqnFlagIgnored h) h) ;!;
              aret (portals (c_st c) (c_cfg c))
          end
    end.
End Hosts.
