(* ===== verification/AppIdentity.v ===== *)
(** * appliance: starting up — storage, identity, portals, re-initialisation

    [Open] and what it calls in appliance/appliance.go, with
    appliance/identity.go and appliance/reinit.go. *)

From S2P Require Import Prelude GoStrings Errors Netip LioModel Configfs LioAptpl LioApply LioSync.
From S2P Require Import AppModel AppDb AppPortals AppTranslate AppAptpl Storage AppCoordinator AppObjects.

Definition IQNPrefix : string := "iqn.2026-01.dev.glitr:".
Definition DefaultMachineIDPath : string := "/etc/machine-id".
Definition validMachineID (id : string) : bool :=
  (String.length id =? 32)%nat && str_all is_lower_hex id.
Definition DeriveTargetIQN (machineID : string) : string := IQNPrefix +:+ machineID.
Definition machineIDPath (cfg : AppConfig) : string :=
  if negb (String.eqb (ac_MachineIDPath cfg) "") then ac_MachineIDPath cfg else DefaultMachineIDPath.
Definition set_State v o := mkObject (o_UUID o) (o_Name o) (o_Kind o) (o_WWN o) (o_Capacity o)
  (o_BlockSize o) (o_Created o) v (o_Source o).
Definition set_WWN v o := mkObject (o_UUID o) (o_Name o) (o_Kind o) v (o_Capacity o) (o_BlockSize o)
  (o_Created o) (o_State o) (o_Source o).

Section Identity.
Context {K F : Type} `{Kernel K} `{Files F}.
Context (range : ∀ A, list A → list A) (mroot : string).
Context (aptplRecords : option (Backstore → ST K (list string))).
Context (marshal : db → string) (unmarshal : string → option Loaded).

Notation App := (App K F).
Notation persist := (persist marshal).

Definition readMachineID (path : string) : App string :=
  let! r := atry (in_files (fs_ReadFile path)) in
  match r with
  | Err (ALio e) => if errors_Is e ENOENT then aret "" else afail (AWrap "reading %s: %w" [path] (ALio e))
  | Err e => afail (AWrap "reading %s: %w" [path] e)
  | Ok b =>
      let id := TrimSpace b in
      if String.eqb id "" then aret ""
      else if negb (validMachineID id)
      then afail (AMsg "%s does not contain a machine ID (%q)" [path; id])
      else aret id
  end.

(** [liveTargetIQN]: the one target the kernel serves, if it is one. *)
Definition liveTargetIQN : App string :=
  let! r := atry (in_kernel (Discover mroot)) in
  aret (match r with Ok live => match c_Targets live with [t] => t_IQN t | _ => "" end | Err _ => "" end).

(** The name decided on: recorded, given, live or derived. *)
Definition decide_iqn (d : db) (cfg : AppConfig) (actual : string) : App string :=
  if negb (String.eqb (db_TargetIQN d) "") then
    (if negb (String.eqb (ac_TargetIQN cfg) "") && negb (String.eqb (ac_TargetIQN cfg) (db_TargetIQN d))
     then publish (λ h, ph_flags (hl_portalFlagIgnored h) (Some (ac_TargetIQN cfg, db_TargetIQN d)) h)
     else aret tt) ;!;
    aret (db_TargetIQN d)
  else if negb (String.eqb (ac_TargetIQN cfg) "") then aret (ac_TargetIQN cfg)
  else
    let! live := liveTargetIQN in
    if negb (String.eqb live "") then liveTargetIQN
    else if negb (String.eqb actual "") then aret (DeriveTargetIQN actual)
    else afail (AMsg "appliance: no target IQN was given and none can be derived..." [machineIDPath cfg]).

Definition adoptIdentity : App unit :=
  let! c := get in
  let! actual := (let! r := atry (readMachineID (machineIDPath (c_cfg c))) in
                  match r with Ok a => aret a | Err e => afail (AWrap "appliance: %w" [] e) end) in
  let recorded := db_MachineID (c_st c) in
  if negb (String.eqb recorded "") && negb (String.eqb actual "") && negb (String.eqb recorded actual)
  then afail (AIdentityConflict recorded actual (c_dbPath c))
  else
    let! iqn := decide_iqn (c_st c) (c_cfg c) actual in
    if String.eqb (db_TargetIQN (c_st c)) iqn && String.eqb recorded actual
    then modify (λ c, set_cfg (with_TargetIQN iqn (c_cfg c)) c)
    else
      modify (λ c, set_st (with_Identity iqn actual (c_st c)) c) ;!;
      modify (λ c, set_cfg (with_TargetIQN iqn (c_cfg c)) c) ;!;
      let! r := atry persist in
      match r with
      | Ok _ => aret tt
      | Err e => afail (AWrap "appliance: recording the target identity: %w" [] e)
      end.

Definition adoptPortals : App unit :=
  let! c := get in
  if (length (db_Portals (c_st c)) =? 0)%nat then
    modify (λ c, set_st (with_Portals (ac_Portals (c_cfg c)) (c_st c)) c) ;!;
    let! r := atry persist in
    match r with
    | Ok _ => aret tt
    | Err e => afail (AWrap "recording the initial portal list: %w" [] e)
    end
  else if negb (samePortalSet (db_Portals (c_st c)) (ac_Portals (c_cfg c)))
  then publish (λ h, ph_flags (Some (portalsText (ac_Portals (c_cfg c)), portalsText (db_Portals (c_st c))))
                       (hl_iqnFlagIgnored h) h)
  else aret tt.

(** [load]: whether there was a database. *)
Definition load : App bool :=
  let! c := get in
  let! r := atry (in_files (fs_ReadFile (c_dbPath c))) in
  match r with
  | Err (ALio e) => if IsNotExist e then aret false else afail (ALio e)
  | Err e => afail e
  | Ok data =>
      match unmarshal data with
      | None => afail (AMsg "invalid JSON" [])
      | Some loaded =>
          let! d := of_res (load_document range (c_dbPath c) loaded) in
          set_state d ;!; aret true
      end
  end.

Fixpoint quarantine_unknown (root : string) (known dirs : list string) : App unit :=
  match dirs with
  | [] => aret tt
  | d :: dirs =>
      if any (String.eqb d) known then quarantine_unknown root known dirs
      else
        let! q := in_files (Quarantine root d) in
        modify (λ c, set_quarantined (sort_strings (c_quarantined c ++ [q])) c) ;!;
        quarantine_unknown root known dirs
  end.
(** An object whose file is absent is marked, in place. *)
Fixpoint mark_missing (root : string) (objs : list Object) : App (list Object) :=
  match objs with
  | [] => aret []
  | o :: objs =>
      let! ok := in_files (Store_Exists root (o_UUID o)) in
      let! rest := mark_missing root objs in
      aret ((if ok : bool then o else set_State stateMissing o) :: rest)
  end.
Definition adoptStorage (dbExisted : bool) : App unit :=
  let! c := get in
  let! dirs := in_files (ObjectDirs (c_root c)) in
  if negb dbExisted && (0 <? length dirs)%nat then
    atry (in_files (latestBackup (c_dbPath c))) ;!;
    afail (AMsg "appliance: %s is missing but %d object director(ies) are present in %s; refusing to start..."
             [c_dbPath c; itoa (Z.of_nat (length dirs)); c_root c])
  else
    quarantine_unknown (c_root c) (o_UUID <$> db_Objects (c_st c)) dirs ;!;
    let! objs := mark_missing (c_root c) (db_Objects (c_st c)) in
    modify (λ c, set_st (with_Objects objs (c_st c)) c).

(** The coordinator before anything is loaded. *)
Definition new_coord (root : string) (cfg : AppConfig) (quarantined : list string) : coord :=
  mkCoord (mkDb dbVersion [] [] [] ∅ [] "" "") cfg root quarantined
    (path_Join [root; "appliance.json"]) None "" ∅ None published0.

(** [Open], of a store opened at [root] (its quarantined directories are
    [quarantined]). *)
Definition Open (root : string) (quarantined : list string) (cfg : AppConfig) : App unit :=
  of_res (AppConfig_Validate range cfg) ;!;
  modify (λ _, new_coord root cfg quarantined) ;!;
  let! existed := load in
  adoptStorage existed ;!;
  adoptIdentity ;!;
  adoptPortals ;!;
  reconcile range mroot aptplRecords ;!;
  (* logOrphanPRState looks at the saved files and only logs *)
  let! c := get in
  if String.eqb (ac_DBRoot (c_cfg c)) "" then aret tt
  else atry (in_kernel (OrphanPRState (ac_DBRoot (c_cfg c)) (o_WWN <$> db_Objects (c_st c)))) ;!; aret tt.

(** ** reinit.go *)

Fixpoint remint (objs : list Object) : App (list Object) :=
  match objs with
  | [] => aret []
  | o :: objs =>
      let! id := newIdentity in
      let! rest := remint objs in
      aret (set_WWN id.2 o :: rest)
  end.
Definition remintWWNs : App unit :=
  let! d := st in
  let! objs := remint (db_Objects d) in
  modify (λ c, set_st (with_Objects objs (c_st c)) c).

Fixpoint set_aside (root : string) (objs : list Object) : App unit :=
  match objs with
  | [] => aret tt
  | o :: objs =>
      let! ok := in_files (Store_Exists root (o_UUID o)) in
      (if ok : bool then
         let! r := atry (in_files (Quarantine root (o_UUID o))) in
         match r with
         | Ok q => modify (λ c, set_quarantined (sort_strings (c_quarantined c ++ [q])) c)
         | Err e => afail (AWrap "appliance: setting %s aside: %w" [o_Name o] e)
         end
       else aret tt) ;!;
      set_aside root objs
  end.
Definition wipeObjects : App unit :=
  let! c := get in
  set_aside (c_root c) (db_Objects (c_st c)) ;!;
  modify (λ c, set_st (with_Exports ∅ (with_Connections [] (with_Objects [] (c_st c)))) c).

Definition Reinit (root targetIQN machineIDPath : string) (wipe : bool) : App unit :=
  if String.eqb root "" then afail (AMsg "appliance: reinit needs a data root (-root)" [])
  else if negb (String.eqb targetIQN "") && negb (ValidTargetIQN targetIQN)
  then afail (AMsg "appliance: target IQN %q is not usable (-iqn)" [targetIQN])
  else
    let path := if String.eqb machineIDPath "" then DefaultMachineIDPath else machineIDPath in
    let! machineID := (let! r := atry (readMachineID path) in
                       match r with Ok a => aret a | Err e => afail (AWrap "appliance: %w" [] e) end) in
    let! iqn := (if String.eqb targetIQN "" then
                   (if String.eqb machineID ""
                    then afail (AMsg "appliance: no target IQN was given and none can be derived: %s..." [path])
                    else aret (DeriveTargetIQN machineID))
                 else aret targetIQN) in
    let! quarantined := in_files (Store_Open root) in
    modify (λ _, new_coord root (mkAppConfig "" "" [] "" false false) quarantined) ;!;
    load ;!;
    (if wipe then wipeObjects else remintWWNs) ;!;
    modify (λ c, set_st (with_Identity iqn machineID (with_Portals [] (c_st c))) c) ;!;
    let! r := atry persist in
    match r with
    | Ok _ => aret tt
    | Err e =>
        if is_not_durable e then aret tt
        else afail (AWrap "appliance: writing the re-initialised database: %w" [] e)
    end.
End Identity.
