(* ===== verification/AppClear.v ===== *)
(** * appliance: breaking a reservation

    appliance/clearpr.go. The operation withholds the object from the desired
    configuration, reconciles (which destroys its backstore and with it the
    reservation), discards the saved record a rebuild would replay, and
    reconciles again. A refusal before anything is touched is a [Fail]; from
    then on the result is [Done (res, err)], because the source returns the
    description of what was dropped beside the error. A warning is kept as its
    facts. [pageSize] is the kernel's page size, which bounds the registration
    list it prints. *)

From S2P Require Import Prelude GoStrings Errors Netip LioModel Configfs LioAptpl LioApply LioSync.
From S2P Require Import LioStranded AppModel AppDb AppPortals AppTranslate AppAptpl Storage.
From S2P Require Import AppCoordinator AppObjects AppHosts.

Inductive clear_warning :=
  | WHolderUnreadable (err : aerr)
  | WWithheld (name : string)
  | WFenceUnestablished (name : string)      (* partly presented, fence unknown *)
  | WPartlyPresented (name : string)
  | WDisappeared
  | WNotPresented (name : string)
  | WAlreadyReleased (err : aerr) (name : string) (registrations : Z)
  | WFenceUnknown (name : string).

Record ClearedReservation := mkCleared {
  cl_Object : string; cl_Held : bool; cl_HeldKnown : bool; cl_Holder : string; cl_ISID : string;
  cl_Type : string; cl_SavedRecordDiscarded : bool; cl_Warning : list clear_warning }.
Definition addWarning (w : clear_warning) (r : ClearedReservation) : ClearedReservation :=
  mkCleared (cl_Object r) (cl_Held r) (cl_HeldKnown r) (cl_Holder r) (cl_ISID r) (cl_Type r)
    (cl_SavedRecordDiscarded r) (cl_Warning r ++ [w]).
Definition set_discarded (v : bool) (r : ClearedReservation) : ClearedReservation :=
  mkCleared (cl_Object r) (cl_Held r) (cl_HeldKnown r) (cl_Holder r) (cl_ISID r) (cl_Type r) v (cl_Warning r).

Inductive fenceVerdict := fenceUnknown | fenceDown | fenceUp.
#[global] Instance fenceVerdict_eq_dec : EqDecision fenceVerdict.
Proof. solve_decision. Defined.

(** What was in effect, from what [ReservationHolder] answered. *)
Definition describe_holder (name : string) (r : option (result aerr Reservation)) : ClearedReservation :=
  match r with
  | None => mkCleared name false true "" "" "" false []
  | Some (Err err) => mkCleared name false false "" "" "" false [WHolderUnreadable err]
  | Some (Ok res) =>
      if rv_SPC2 res then mkCleared name true true (rv_Holder res) "" "SPC-2 reservation" false []
      else if negb (String.eqb (rv_Holder res) "")
      then mkCleared name true true (rv_Holder res) (rv_ISID res) (rv_Type res) false []
      else mkCleared name false true "" "" "" false []
  end.

Definition noDevice : PRState := mkPRState [] "" true "" false false.
Definition verdict_of (s : PRState) : fenceVerdict :=
  if negb (st_HolderKnown s) then fenceUnknown
  else if negb (String.eqb (st_Holder s) "") then fenceUp else fenceDown.

(** What [fenceStateOf] returns: the verdict, the state read, whether there is
    a backstore, and the error of the reading. *)
Record fence := mkFence {
  fe_verdict : fenceVerdict; fe_state : PRState; fe_backstore : bool; fe_err : option aerr }.

(** The decision of [verifyCleared]. *)
Definition verify_fence (kind name : string) (f : fence) : result aerr unit :=
  match fe_err f, fe_verdict f with
  | Some e, _ => Err (statusErrWrap StatusConflict CodeClearUnverified AClearVerify
      "the reservation on %[1]s %[2]q was torn down, but the result could NOT be read back (%[3]v)..."
      [kind; name] [e])
  | None, fenceUnknown => Err (statusErrWrap StatusConflict CodeClearUnverified AClearVerify
      "%s %q reports a reservation state that could not be interpreted..." [kind; name] [])
  | None, fenceUp => Err (statusErrWrap StatusConflict CodeClearUnverified AClearVerify
      "%s %q is still held by %q after the backstore was rebuilt..."
      [kind; name; st_Holder (fe_state f)] [])
  | None, fenceDown =>
      if negb (fe_backstore f) then Ok tt
      else if st_Truncated (fe_state f)
      then Err (statusErrWrap StatusConflict CodeFenceDropped AClearVerify
        "the reservation on %[1]s %[2]q is gone... but the kernel truncated its registration list..."
        [kind; name] [])
      else
        let n := Z.of_nat (length (st_Registrations (fe_state f))) in
        if 0 <? n
        then Err (statusErrWrap StatusConflict CodeFenceDropped AClearVerify
          "the reservation on %[1]s %[2]q is gone, but %[3]d registration(s) survived the tear-down..."
          [kind; name; itoa n] [])
        else Ok tt
  end.

Section Clear.
Context {K F : Type} `{Kernel K} `{Files F}.
Context (range : ∀ A, list A → list A) (mroot : string).
Context (aptplRecords : option (Backstore → ST K (list string))) (pageSize : Z).

Notation App := (App K F).
Notation reconcile := (reconcile range mroot aptplRecords).
Notation healIfDegraded := (healIfDegraded range mroot aptplRecords).
Notation backstoreOf := (backstoreOf range).

(** The holder of the object's backstore; [None] when it has none. *)
Definition read_holder (uuid : string) : App (option (result aerr Reservation)) :=
  let! bs := backstoreOf uuid in
  match bs with
  | None => aret None
  | Some bs => let! r := atry (in_kernel (ReservationHolder mroot bs)) in aret (Some r)
  end.

Definition fenceStateOf (uuid : string) : App fence :=
  let! bs := backstoreOf uuid in
  match bs with
  | None => aret (mkFence fenceDown noDevice false None)
  | Some bs =>
      let! r := atry (in_kernel (PRState_read mroot pageSize bs)) in
      match r with
      | Err e => aret (mkFence fenceUnknown zeroPRState true (Some e))
      | Ok s => aret (mkFence (verdict_of s) s true None)
      end
  end.

Definition verifyCleared (uuid kind name : string) : App (result aerr unit) :=
  let! f := fenceStateOf uuid in aret (verify_fence kind name f).

Definition file_gone (e : aerr) : bool :=
  match e with ALio e => errors_Is e ENOENT | _ => false end.
(** The [os.Stat] that must find nothing, with [removed] carried along. *)
Definition confirm_gone (path : string) (removed : bool) : App (bool * option aerr) :=
  let! s := atry (in_kernel (sys "stat" path (sys_stat path))) in
  match s with
  | Ok _ => aret (removed, Some (AMsg "%s still exists after removal" [path]))
  | Err e =>
      if negb (file_gone e)
      then aret (removed, Some (AWrap "could not confirm %s is gone: %w" [path] e))
      else aret (removed, None)
  end.
(** [discardSavedPRChecked]: whether a record was removed, and the error. *)
Definition discardSavedPRChecked (wwn : string) : App (bool * option aerr) :=
  let! c := get in
  let dbRoot := ac_DBRoot (c_cfg c) in
  if String.eqb dbRoot "" || String.eqb wwn "" then aret (false, None)
  else
    let path := APTPLPath dbRoot wwn in
    let! r := atry (in_kernel (os_Remove path)) in
    match r with
    | Err e =>
        if negb (file_gone e) then aret (false, Some (AWrap "removing %s: %w" [path] e))
        else confirm_gone path false
    | Ok _ => confirm_gone path true
    end.

Definition recoverFromFailedPrune (out : ClearedReservation) (kind name uuid : string) (pruneErr : aerr)
    : App (ClearedReservation * option aerr) :=
  modify (set_prClearing "") ;!;
  let! r := atry reconcile in
  match r with
  | Err e =>
      aret (addWarning (WNotPresented name) out,
            Some (statusErrWrap StatusConflict CodeFenceUnknown pruneErr
              "could not clear the reservation on %s %q (%v) AND could not restore its export afterwards (%v)..."
              [kind; name] [pruneErr; e]))
  | Ok _ =>
      let! f := fenceStateOf uuid in
      match fe_verdict f with
      | fenceDown =>
          aret (addWarning (WAlreadyReleased pruneErr name
                  (Z.of_nat (length (st_Registrations (fe_state f))))) out,
                Some (statusErrWrap StatusConflict CodeFenceDropped pruneErr
                  "the clear of %[1]s %[2]q failed (%[3]v) AFTER its reservation had already been released..."
                  [kind; name] [pruneErr]))
      | fenceUp =>
          aret (out, Some (statusErrWrap StatusConflict CodeClearUnverified pruneErr
                  "could not clear the reservation on %s %q (%v); it is still held by %q, so fencing is unchanged"
                  [kind; name; st_Holder (fe_state f)] [pruneErr]))
      | fenceUnknown =>
          aret (addWarning (WFenceUnknown name) out,
                Some (statusErrWrap StatusConflict CodeFenceUnknown pruneErr
                  "could not clear the reservation on %[1]s %[2]q (%[3]v) AND the fence state could not be established..."
                  [kind; name] (pruneErr :: match fe_err f with Some e => [e] | None => [] end)))
      end
  end.

(** Phase 3: present the object again, and prove the promise. *)
Definition rebuild (out : ClearedReservation) (kind name uuid : string)
    : App (ClearedReservation * option aerr) :=
  modify (set_prClearing "") ;!;
  let! r := atry reconcile in
  match r with
  | Err e =>
      let! f := fenceStateOf uuid in
      if decide (fe_verdict f = fenceUnknown)
      then aret (addWarning (WFenceUnestablished name) out,
                 Some (statusErrWrap StatusServiceUnavailable CodeFenceUnknown e
                   "the reservation on %[1]s %[2]q was cleared, but the %[1]s could NOT be presented again afterwards (%[3]v) and its fence state could not be read (%[4]v) -- see /health"
                   [kind; name] (e :: match fe_err f with Some e => [e] | None => [] end)))
      else aret (addWarning (WPartlyPresented name) out,
                 Some (statusErrWrap StatusServiceUnavailable CodeReconcileFailed e
                   "the reservation on %[1]s %[2]q was cleared, but the %[1]s could NOT be presented again afterwards (%[3]v) -- see /health"
                   [kind; name] [e]))
  | Ok _ =>
      let! v := verifyCleared uuid kind name in
      match v with
      | Err e => aret (out, Some e)
      | Ok _ => aret (addWarning WDisappeared out, None)
      end
  end.

(** The phases, once [setClearing] has published that a clear is under way. *)
Definition clear_phases (out : ClearedReservation) (kind : string) (v : Object)
    : App (ClearedReservation * option aerr) :=
  modify (set_prClearing (o_UUID v)) ;!;
  let! r := atry reconcile in
  match r with
  | Err pruneErr => recoverFromFailedPrune out kind (o_Name v) (o_UUID v) pruneErr
  | Ok _ =>
      let! d := discardSavedPRChecked (o_WWN v) in
      let '(discarded, err) := d in
      let out := set_discarded discarded out in
      match err with
      | None =>
          releaseHold (o_UUID v) ;!;
          rebuild out kind (o_Name v) (o_UUID v)
      | Some e =>
          holdBack (o_UUID v) (o_Name v) ;!;
          let! c := get in
          aret (addWarning (WWithheld (o_Name v)) out,
                Some (statusErrWrap StatusConflict CodeFenceDropped e
                  "the reservation on %[1]s %[2]q was released, but its saved APTPL record could NOT be discarded (%[3]v)... Delete the FILE %[4]s (NOT the %[1]s) and re-run the clear"
                  [kind; o_Name v; APTPLPath (ac_DBRoot (c_cfg c)) (o_WWN v)] [e]))
      end
  end.

Definition ClearReservation (kind ref confirm : string) : App (ClearedReservation * option aerr) :=
  let! d := st in
  match resolveObject d kind ref with
  | None => afail (notFound kind ref)
  | Some v =>
      if negb (String.eqb confirm (o_Name v))
      then afail (statusErrCode StatusBadRequest CodeInvalidInput
             "clearing a reservation drops fencing and interrupts every initiator using %s %q, so it must be confirmed by name: expected confirm=%q, got %q"
             [kind; o_Name v; o_Name v; confirm])
      else if negb (String.eqb (o_State v) stateReady)
      then afail (statusErrCode StatusConflict CodeUnsupportedState
             "%s %q is %s, so it has no backstore to clear" [kind; o_Name v; o_State v])
      else
        healIfDegraded ;!;
        let! r := read_holder (o_UUID v) in
        let out := describe_holder (o_Name v) r in
        setClearing (o_Name v) ;!;
        let! res := clear_phases out kind v in
        setClearing "" ;!;
        aret res
  end.
End Clear.
