(* ===== verification/AppEvents.v ===== *)
(** * appliance: verdicts and transitions

    src/appliance/events.go: how bad a health snapshot is, which standing
    conditions it has, and what is logged when either changes. The record of an
    operation and the other records of the log are in [AppOpLog]. *)

From S2P Require Import Prelude GoStrings Errors Netip LioModel Configfs LioAptpl LioApply LioStranded.
From S2P Require Import AppModel Storage AppCoordinator.

(** ** The fields of an error *)

(** [errors.As] for [*StatusError], through the wrapping of an error. *)
Fixpoint as_status (e : aerr) : option (Z * string) :=
  match e with
  | AStatus st r _ _ _ _ => Some (st, r)
  | AWrap _ _ c => as_status c
  | _ => None
  end.
Definition status (e : aerr) : Z :=
  match as_status e with Some (code, _) => code | None => StatusInternalServerError end.
Definition errorCode (e : aerr) : string :=
  match as_status e with Some (code, reason) => ErrorCode code reason | None => CodeInternal end.

(** The level of a record. *)
Inductive level := LevelInfo | LevelNotice | LevelWarn | LevelError.

(** ** Health *)

Definition healthOK : string := "ok".
Definition healthWarning : string := "warning".
Definition healthDegraded : string := "degraded".

Definition nonempty {A} (l : list A) : bool := (0 <? length l)%nat.
Definition present {A} (o : option A) : bool := match o with Some _ => true | None => false end.

Definition Health_Status (h : Health) : string :=
  if he_Degraded h then healthDegraded
  else if nonempty (he_Withheld h) || negb (String.eqb (he_ClearInProgress h) "")
          || nonempty (he_PRUnbound h) || nonempty (he_PRStranded h)
  then healthWarning else healthOK.

Definition Conditions (h : Health) : list string :=
  sort_strings (omap (λ c : string * bool, if c.2 then Some c.1 else None)
    [("pr_unbound", nonempty (he_PRUnbound h));
     ("pr_stranded", nonempty (he_PRStranded h));
     ("pr_strand_undecided", nonempty (he_PRStrandUndecided h));
     ("clear_in_progress", negb (String.eqb (he_ClearInProgress h) ""));
     ("withheld_after_failed_clear", nonempty (he_Withheld h));
     ("attribute_drift", nonempty (he_Drift h));
     ("db_backup_failing", present (he_BackupErr h));
     ("quarantined_volume_dirs", nonempty (he_Quarantined h));
     ("portal_flag_ignored", present (he_PortalFlagIgnored h));
     ("iqn_flag_ignored", present (he_IQNFlagIgnored h))]).

Definition healthRank (s : string) : Z :=
  if String.eqb s healthDegraded then 2 else if String.eqb s healthWarning then 1 else 0.

(** What arrived and what cleared. *)
Definition diffConditions (prev now : list string) : list string * list string :=
  (filter (λ n, any (String.eqb n) prev = false) now,
   filter (λ p, any (String.eqb p) now = false) prev).

(** The record [health.status_changed]. *)
Record transition := mkTransition {
  tr_from : string; tr_to : string; tr_added : list string; tr_cleared : list string; tr_level : level }.
(** [lastStatus] and [lastConditions]; the status is empty before the first. *)
Record noted := mkNoted { nt_status : string; nt_conditions : list string }.
Definition noted0 : noted := mkNoted "" [].

Definition noteHealth (n : noted) (h : Health) : option transition * noted :=
  let now := mkNoted (Health_Status h) (Conditions h) in
  let '(added, cleared) := diffConditions (nt_conditions n) (nt_conditions now) in
  if String.eqb (nt_status n) "" then (None, now)
  else if String.eqb (nt_status now) (nt_status n) && negb (nonempty added) && negb (nonempty cleared)
  then (None, now)
  else
    (Some (mkTransition (nt_status n) (nt_status now) added cleared
             (if healthRank (nt_status n) <? healthRank (nt_status now) then LevelWarn else LevelInfo)), now).

(** The records logged along a history of snapshots. *)
Fixpoint note_all (n : noted) (hs : list Health) : list transition * noted :=
  match hs with
  | [] => ([], n)
  | h :: hs =>
      let '(t, n) := noteHealth n h in
      let '(ts, n) := note_all n hs in
      (match t with Some t => t :: ts | None => ts end, n)
  end.

(** ** The log of transitions is enough to know the state *)

(** What a reader who saw the first snapshot and then only the records knows:
    the verdict and the set of conditions. *)
Definition replay_one (s : string * gset string) (t : transition) : string * gset string :=
  (tr_to t, (s.2 ∖ list_to_set (tr_cleared t)) ∪ list_to_set (tr_added t)).
Definition replay : string * gset string → list transition → string * gset string := foldl replay_one.
Definition known (n : noted) : string * gset string := (nt_status n, list_to_set (nt_conditions n)).
(** A record that follows from what is known before it and is not idle. *)
Definition follows (s : string * gset string) (t : transition) : Prop :=
  tr_from t = s.1 ∧ list_to_set (tr_cleared t) ⊆ s.2 ∧ (list_to_set (tr_added t) : gset string) ## s.2 ∧
  (tr_to t ≠ tr_from t ∨ tr_added t ≠ [] ∨ tr_cleared t ≠ []) ∧
  (tr_level t = LevelWarn ↔ healthRank (tr_from t) < healthRank (tr_to t)).
Fixpoint chained (s : string * gset string) (ts : list transition) : Prop :=
  match ts with
  | [] => True
  | t :: ts => follows s t ∧ chained (replay_one s t) ts
  end.

Lemma diffConditions_added prev now n : n ∈ (diffConditions prev now).1 ↔ n ∈ now ∧ n ∉ prev.
Proof.
  cbn. rewrite list_elem_of_filter, any_false. split.
  - intros [Hp Hn]. split; [done|]. intros Hin. specialize (Hp n Hin). by rewrite String.eqb_refl in Hp.
  - intros [Hn Hp]. split; [|done]. intros x Hx. apply String.eqb_neq. by intros ->.
Qed.
Lemma diffConditions_cleared prev now n : n ∈ (diffConditions prev now).2 ↔ n ∈ prev ∧ n ∉ now.
Proof. apply (diffConditions_added now prev). Qed.

Lemma nonempty_false {A} (l : list A) : nonempty l = false ↔ l = [].
Proof. unfold nonempty. destruct l; cbn; [done|]. by split. Qed.
Lemma Health_Status_nonempty h : Health_Status h ≠ "".
Proof. unfold Health_Status. by repeat case_match. Qed.

(** The sets agree once what arrived and what cleared is applied. *)
Lemma diffConditions_apply prev now :
  (list_to_set prev ∖ list_to_set (diffConditions prev now).2) ∪ list_to_set (diffConditions prev now).1
  =@{gset string} list_to_set now.
Proof.
  apply set_eq. intros x. rewrite elem_of_union, elem_of_difference, !elem_of_list_to_set.
  rewrite diffConditions_added, diffConditions_cleared. destruct (decide (x ∈ now)), (decide (x ∈ prev)); tauto.
Qed.

Lemma noteHealth_spec n h : nt_status n ≠ "" →
  let '(t, n') := noteHealth n h in
  n' = mkNoted (Health_Status h) (Conditions h) ∧
  match t with
  | None => known n' = known n
  | Some t => follows (known n) t ∧ replay_one (known n) t = known n'
  end.
Proof.
  intros Hn. unfold noteHealth. cbn [nt_status nt_conditions].
  pose proof (diffConditions_apply (nt_conditions n) (Conditions h)) as Happly.
  pose proof (diffConditions_added (nt_conditions n) (Conditions h)) as Hadd.
  pose proof (diffConditions_cleared (nt_conditions n) (Conditions h)) as Hclr.
  destruct (diffConditions (nt_conditions n) (Conditions h)) as [added cleared]. cbn [fst snd] in *.
  apply String.eqb_neq in Hn. rewrite Hn.
  destruct (String.eqb (Health_Status h) (nt_status n) && negb (nonempty added) && negb (nonempty cleared)) eqn:Hidle.
  - apply andb_true_iff in Hidle as [[Hs%String.eqb_eq Ha%negb_true_iff%nonempty_false]%andb_true_iff
                                     Hc%negb_true_iff%nonempty_false]. subst.
    split; [done|]. unfold known. cbn [nt_status nt_conditions]. rewrite <- Happly, Hs. f_equal.
    cbn [list_to_set]. by rewrite (right_id_L ∅ (∪)), difference_empty_L.
  - split; [done|]. split.
    + split_and!; cbn.
      * done.
      * intros x. rewrite !elem_of_list_to_set, Hclr. by intros [? _].
      * intros x. rewrite !elem_of_list_to_set, Hadd. tauto.
      * destruct (decide (Health_Status h = nt_status n)) as [Hs|]; [right | by left].
        destruct added; [right | by left]. destruct cleared; [|done]. apply String.eqb_eq in Hs. by rewrite Hs in Hidle.
      * destruct (Z.ltb_spec (healthRank (nt_status n)) (healthRank (Health_Status h))); split; (lia || done).
    + unfold known, replay_one. cbn [tr_to tr_cleared tr_added nt_status nt_conditions snd]. by rewrite Happly.
Qed.

Lemma note_all_spec hs : ∀ n, nt_status n ≠ "" →
  let '(ts, n') := note_all n hs in
  chained (known n) ts ∧ replay (known n) ts = known n' ∧
  n' = default n ((λ h, mkNoted (Health_Status h) (Conditions h)) <$> last hs).
Proof.
  induction hs as [|h hs IH]; intros n Hn; cbn [note_all]; [by cbn|].
  pose proof (noteHealth_spec n h Hn) as Ht. destruct (noteHealth n h) as [t n1]. destruct Ht as [-> Ht].
  specialize (IH (mkNoted (Health_Status h) (Conditions h)) (Health_Status_nonempty h)).
  destruct (note_all _ hs) as [ts n2]. destruct IH as (Hc & Hr & Hl).
  assert (Hlast : n2 = default n ((λ h, mkNoted (Health_Status h) (Conditions h)) <$> last (h :: hs))).
  { rewrite Hl, last_cons. by destruct (last hs). }
  destruct t as [t|]; [destruct Ht as [Hf Ht] | rewrite Ht in Hc, Hr]; split_and!; cbn; try done.
  - by rewrite Ht.
  - by rewrite Ht.
Qed.

(** C31. The health log is complete and quiet: whatever the history of
    snapshots, the first one logs nothing, and from its verdict and conditions
    the records alone give the verdict and the conditions of the last one; each
    record starts from the verdict before it, adds only what was absent and
    clears only what was present, says something that changed, and is a warning
    exactly when the verdict got worse. *)
Theorem note_all_replays (h : Health) (hs : list Health) :
  let first := (Health_Status h, list_to_set (Conditions h) : gset string) in
  let '(ts, n) := note_all noted0 (h :: hs) in
  chained first ts ∧ replay first ts = (nt_status n, list_to_set (nt_conditions n)) ∧
  n = default noted0 ((λ h, mkNoted (Health_Status h) (Conditions h)) <$> last (h :: hs)).
Proof.
  cbn [note_all]. unfold noteHealth at 1. destruct (diffConditions _ _). cbn [nt_status noted0 String.eqb].
  pose proof (note_all_spec hs (mkNoted (Health_Status h) (Conditions h)) (Health_Status_nonempty h)) as Hs.
  destruct (note_all _ hs) as [ts n]. destruct Hs as (Hc & Hr & Hl). split_and!; [done..|].
  rewrite Hl, last_cons. by destruct (last hs).
Qed.
