(* ===== verification/AppRest.v ===== *)
(** * appliance: the REST interface

    src/appliance/rest.go: the route table, the decoding of a request into one
    call of the coordinator, and the answer. A path is the list of its
    segments, as net/http's mux has them after its redirects (a path that is not
    clean, and /v1 to /v1/); a query is the list of its pairs; encoding/json is
    the record [Decoders] of what each body struct decodes to. An answer is a status code, a body as a value and
    the warnings that ride on it; headers are not modelled. *)

From S2P Require Import Prelude GoStrings Errors Netip LioModel Configfs LioAptpl LioApply LioStranded.
From S2P Require Import AppModel AppDb AppPortals AppTranslate Storage AppCoordinator AppObjects AppHosts.
From S2P Require Import AppClear AppEvents.

Definition StatusOK : Z := 200.
Definition StatusCreated : Z := 201.
Definition StatusMethodNotAllowed : Z := 405.

(** ** Bodies *)

Record portals_body := mkPortalsBody { pb_Portals : list string; pb_Port : Z }.
Record object_body := mkObjectBody {
  ob_Name : string; ob_Size : Z; ob_BlockSize : Z; ob_Source : string; ob_SourceKind : string }.
Record connection_body := mkConnectionBody { cb_Host : string; cb_LUN : option Z }.
Record host_body := mkHostBody { hb_Name : string; hb_IQNs : list string }.
Record bindings_body := mkBindingsBody { bb_Add : list string; bb_Remove : list string }.

(** What encoding/json makes of a text: a value of the struct, or its error. *)
Record Decoders := mkDecoders {
  dec_portals : string → result string portals_body;
  dec_object : string → result string object_body;
  dec_name : string → result string string;
  dec_size : string → result string Z;
  dec_confirm : string → result string string;
  dec_connection : string → result string connection_body;
  dec_host : string → result string host_body;
  dec_iqns : string → result string (option (list string));
  dec_bindings : string → result string bindings_body
}.

(** At most [n] bytes: [http.MaxBytesReader]. What is past them is not read, and
    a value that is not complete by then does not decode. *)
Fixpoint limit (n : Z) (s : string) : string :=
  match s with
  | "" => ""
  | String c s => if n <=? 0 then "" else String c (limit (n - 1) s)
  end.
Definition maxBody : Z := Z.shiftl 1 20.
Definition readJSON {A} (dec : string → result string A) (text : string) : result aerr A :=
  match dec (limit maxBody text) with
  | Ok a => Ok a
  | Err msg => Err (AMsg "invalid JSON body: " [msg])
  end.

(** ** Answers *)

Inductive body :=
  | BHealth (h : Health) (status : string)
  | BTarget (iqn : string) (ps : list Portal)
  | BPortals (ps : list Portal)
  | BObject (o : Object) | BObjects (l : list Object)
  | BRescan (required : bool)
  | BCleared (out : ClearedReservation)
  | BConn (info : ConnInfo) | BViews (l : list ConnectionView)
  | BHost (h : Host) | BHosts (l : list Host)
  | BDeleted (name : string) | BDisconnected (name : string)
  | BError (code : string) (e : aerr)
  | BClearError (code : string) (e : aerr) (out : ClearedReservation)
  | BPlain (text : string).
Record response := mkResponse { rs_Code : Z; rs_Body : body; rs_Warnings : list fence_warning }.

Definition writeJSON (code : Z) (v : body) : response := mkResponse code v [].
Definition errResp (code : Z) (e : aerr) : response := writeJSON code (BError (codeForStatus code) e).
Definition errRespFor (e : aerr) : response := writeJSON (status e) (BError (errorCode e) e).
Definition createdCode (created : bool) : Z := if created then StatusCreated else StatusOK.
Definition respond (okCode : Z) (r : result aerr body) : response :=
  match r with Ok v => writeJSON okCode v | Err e => errRespFor e end.
Definition respondWithWarning (warnings : list fence_warning) (r : result aerr body) : response :=
  match r with
  | Err e => mkResponse (status e) (BError (errorCode e) e) warnings
  | Ok v => mkResponse StatusOK v warnings
  end.
Definition respondCleared (out : ClearedReservation) (err : option aerr) : response :=
  match err with
  | Some e => writeJSON (status e) (BClearError (errorCode e) e out)
  | None => writeJSON StatusOK (BCleared out)
  end.
Definition zeroCleared : ClearedReservation := mkCleared "" false false "" "" "" false [].

Definition collectionOf (k : string) : string :=
  if String.eqb k KindSnapshot then "snapshots" else "volumes".
Definition sourceKind (target given : string) : string :=
  if String.eqb given KindVolume || String.eqb given KindSnapshot then given
  else if String.eqb target KindSnapshot then KindVolume else KindSnapshot.

(** ** Routes *)

Inductive route :=
  | GetHealth | GetTarget | PutPortals
  | PostObject (kind : string) | ListObjects (kind : string) | GetObject (kind : string)
  | PatchObject (kind : string) | DeleteObject (kind : string) | PostResize (kind : string)
  | PostClear (kind : string)
  | PostConnection (kind : string) | DeleteConnection (kind : string) | ObjectConnections (kind : string)
  | AllConnections
  | PostHost | ListHosts_ | GetHost_ | PatchHost | PutIQNs | PatchIQNs | DeleteHost_ | HostConnections.

(** A pattern: the method, and the path with [None] for a wildcard. *)
Definition pattern : Type := string * list (option string) * route.
Definition object_routes (k : string) : list pattern :=
  let coll := Some (collectionOf k) in
  [("POST", [coll], PostObject k);
   ("GET", [coll], ListObjects k);
   ("GET", [coll; None], GetObject k);
   ("PATCH", [coll; None], PatchObject k);
   ("DELETE", [coll; None], DeleteObject k);
   ("POST", [coll; None; Some "resize"], PostResize k);
   ("POST", [coll; None; Some "clear-reservation"], PostClear k);
   ("POST", [coll; None; Some "connections"], PostConnection k);
   ("DELETE", [coll; None; Some "connections"; None], DeleteConnection k);
   ("GET", [coll; None; Some "connections"], ObjectConnections k)].
Definition routes : list pattern :=
  [("GET", [Some "health"], GetHealth);
   ("GET", [Some "target"], GetTarget);
   ("PUT", [Some "target"; Some "portals"], PutPortals)]
  ++ mjoin (object_routes <$> [KindVolume; KindSnapshot])
  ++ [("GET", [Some "connections"], AllConnections);
      ("POST", [Some "hosts"], PostHost);
      ("GET", [Some "hosts"], ListHosts_);
      ("GET", [Some "hosts"; None], GetHost_);
      ("PATCH", [Some "hosts"; None], PatchHost);
      ("PUT", [Some "hosts"; None; Some "iqns"], PutIQNs);
      ("PATCH", [Some "hosts"; None; Some "iqns"], PatchIQNs);
      ("DELETE", [Some "hosts"; None], DeleteHost_);
      ("GET", [Some "hosts"; None; Some "connections"], HostConnections)].

(** The values of the wildcards, when the path matches. *)
Fixpoint match_path (p : list (option string)) (segs : list string) : option (list string) :=
  match p, segs with
  | [], [] => Some []
  | Some lit :: p, s :: segs => if String.eqb lit s then match_path p segs else None
  | None :: p, s :: segs => if String.eqb s "" then None else cons s <$> match_path p segs
  | _, _ => None
  end.
(** A GET pattern also takes HEAD. *)
Definition method_ok (pattern given : string) : bool :=
  String.eqb pattern given || (String.eqb pattern "GET" && String.eqb given "HEAD").

Record http := mkHttp {
  ht_Method : string; ht_Path : list string; ht_Query : list (string * string); ht_Body : string }.
Definition query_Get (q : list (string * string)) (k : string) : string :=
  default "" (snd <$> first (λ e : string * string, String.eqb e.1 k) q).

(** The mux: a route with the values of its wildcards, or its own answer. *)
Definition dispatch (meth : string) (segs : list string) : result response (route * list string) :=
  let matching := omap (λ e : pattern, let '(m, p, rt) := e in
                          (λ vs, (m, rt, vs)) <$> match_path p segs) routes in
  match first (λ e : string * route * list string, method_ok e.1.1 meth) matching with
  | Some (_, rt, vs) => Ok (rt, vs)
  | None =>
      match matching with
      | [] => Err (writeJSON StatusNotFound (BPlain "404 page not found"))
      | _ => Err (writeJSON StatusMethodNotAllowed (BPlain "Method Not Allowed"))
      end
  end.

(** ** Handlers *)

Section Handler.
Context {K F : Type} `{Kernel K} `{Files F}.
Context (range : ∀ A, list A → list A) (mroot : string).
Context (aptplRecords : option (Backstore → ST K (list string))) (pageSize : Z) (marshal : db → string).
Context (json : Decoders).

Notation App := (App K F).

Definition answering {A} (m : App A) (f : result aerr A → response) : App response :=
  let! r := atry m in aret (f r).
Definition rmap {A B} (f : A → B) (r : result aerr A) : result aerr B :=
  match r with Ok a => Ok (f a) | Err e => Err e end.
(** [readJSON], then the handler proper. *)
Definition with_body {A} (dec : string → result string A) (text : string) (k : A → App response) : App response :=
  match readJSON dec text with
  | Err e => aret (errResp StatusBadRequest e)
  | Ok a => k a
  end.

Definition health_response (h : Health) : response :=
  let status := Health_Status h in
  writeJSON (if String.eqb status healthDegraded then StatusServiceUnavailable else StatusOK) (BHealth h status).
Definition put_portals (b : portals_body) : App response :=
  let port := if pb_Port b =? 0 then DefaultPortalPort else pb_Port b in
  if (length (pb_Portals b) =? 0)%nat
  then answering (SetPortals range mroot aptplRecords marshal []) (λ r, respond StatusOK (rmap BPortals r))
  else
    match ParsePortals (Join (pb_Portals b) ",") port with
    | Err perr => aret (errResp StatusBadRequest perr)
    | Ok parsed =>
        answering (SetPortals range mroot aptplRecords marshal parsed) (λ r, respond StatusOK (rmap BPortals r))
    end.
(** Success or creation, told apart by the code. *)
Definition respond_created {A} (f : A → body) (r : result aerr (A * bool)) : response :=
  match r with
  | Ok (a, created) => respond (createdCode created) (Ok (f a))
  | Err e => respond StatusOK (Err e)
  end.
Definition post_object (kind : string) (b : object_body) : App response :=
  answering
    (Create marshal kind (mkCreateRequest (ob_Name b) (ob_Size b) (ob_BlockSize b) (ob_Source b)
                            (sourceKind kind (ob_SourceKind b))))
    (respond_created BObject).
Definition found {A} (what ref : string) (f : A → body) (r : result aerr (option A)) : response :=
  match r with
  | Ok (Some a) => writeJSON StatusOK (f a)
  | Ok None => errRespFor (notFound what ref)
  | Err e => errRespFor e
  end.
Definition list_connections (objectRef objectKind hostRef : string) : App response :=
  let! c := get in
  aret (respond StatusOK (rmap BViews (ListConnections c objectRef objectKind hostRef))).
Definition set_bindings (ref : string) (replace : option (list string)) (add remove : list string) : App response :=
  answering (SetBindings range mroot aptplRecords marshal ref replace add remove)
    (λ r, match r with
          | Ok (warnings, h) => respondWithWarning warnings (rmap BHost h)
          | Err e => respondWithWarning [] (Err e)
          end).
Definition delete_connection (kind name host : string) : App response :=
  answering (Disconnect range mroot aptplRecords marshal kind name host)
    (λ r, match r with
          | Ok (warning, u) => respondWithWarning (option_list warning) (rmap (λ _, BDisconnected name) u)
          | Err e => respondWithWarning [] (Err e)
          end).
Definition post_clear (kind name confirm : string) : App response :=
  answering (ClearReservation range mroot aptplRecords pageSize kind name confirm)
    (λ r, match r with
          | Ok (out, err) => respondCleared out err
          | Err e => respondCleared zeroCleared (Some e)
          end).

Definition handle (rt : route) (vs : list string) (q : list (string * string)) (text : string) : App response :=
  let name := default "" (vs !! 0%nat) in
  match rt with
  | GetHealth => let! c := get in aret (health_response (HealthSnapshot c))
  | GetTarget => answering Target_ (λ r, respond StatusOK (rmap (λ t, BTarget t.1 t.2) r))
  | PutPortals => with_body (dec_portals json) text put_portals
  | PostObject kind => with_body (dec_object json) text (post_object kind)
  | ListObjects kind => answering (List_ kind) (λ r, respond StatusOK (rmap BObjects r))
  | GetObject kind => answering (Get_ kind name) (found kind name BObject)
  | PatchObject kind => with_body (dec_name json) text (λ new,
      answering (Rename marshal kind name new) (λ r, respond StatusOK (rmap BObject r)))
  | DeleteObject kind =>
      answering (Delete range mroot aptplRecords marshal kind name)
        (λ r, respond StatusOK (rmap (λ _, BDeleted name) r))
  | PostResize kind => with_body (dec_size json) text (λ size,
      answering (Resize range mroot aptplRecords marshal kind name size) (λ r, respond StatusOK (rmap BRescan r)))
  | PostClear kind => with_body (dec_confirm json) text (post_clear kind name)
  | PostConnection kind => with_body (dec_connection json) text (λ b,
      answering (Connect range mroot aptplRecords marshal kind name (cb_Host b) (cb_LUN b))
        (respond_created BConn))
  | DeleteConnection kind => delete_connection kind name (default "" (vs !! 1%nat))
  | ObjectConnections kind => list_connections name kind ""
  | AllConnections => list_connections (query_Get q "object") (query_Get q "object_kind") (query_Get q "host")
  | PostHost => with_body (dec_host json) text (λ b,
      answering (CreateHost range mroot aptplRecords marshal (hb_Name b) (hb_IQNs b)) (respond_created BHost))
  | ListHosts_ => answering ListHosts (λ r, respond StatusOK (rmap BHosts r))
  | GetHost_ => answering (GetHost name) (found "host" name BHost)
  | PatchHost => with_body (dec_name json) text (λ new,
      answering (RenameHost marshal name new) (λ r, respond StatusOK (rmap BHost r)))
  | PutIQNs => with_body (dec_iqns json) text (λ iqns,
      set_bindings name (Some (default [] iqns)) [] [])
  | PatchIQNs => with_body (dec_bindings json) text (λ b,
      set_bindings name None (bb_Add b) (bb_Remove b))
  | DeleteHost_ =>
      answering (DeleteHost range mroot aptplRecords marshal name)
        (λ r, respond StatusOK (rmap (λ _, BDeleted name) r))
  | HostConnections => list_connections "" "" name
  end.

(** [Handler]: the mount under [APIPrefix], then the mux. *)
Definition APIPrefix : string := "v1".
Definition Handler (r : http) : App response :=
  match ht_Path r with
  | v :: segs =>
      if String.eqb v APIPrefix
      then match dispatch (ht_Method r) segs with
           | Ok (rt, vs) => handle rt vs (ht_Query r) (ht_Body r)
           | Err rs => aret rs
           end
      else aret (errResp StatusNotFound (AMsg "the API is served under /v1/" []))
  | [] => aret (errResp StatusNotFound (AMsg "the API is served under /v1/" []))
  end.
End Handler.
