(* ===== verification/AppRun.v ===== *)
(** * Reasoning about the coordinator's computations

    [post m c Q]: run from the coordinator [c], whatever the kernel and the
    file system hold and answer, [m] ends with an outcome and a coordinator
    that satisfy [Q]. The rules follow the constructs of the monad; [app_step]
    applies the one that fits. *)

From S2P Require Import Prelude GoStrings Errors Netip LioModel Configfs LioAptpl LioApply LioSync.
From S2P Require Import AppModel AppDb AppCoordinator Storage.

Section post.
Context {K F : Type}.
Notation App := (App K F).

(** The same of one run. *)
Definition runs {A} (m : App A) (w : world K F) (Q : outcome A → coord → Prop) : Prop :=
  Q (m w).1 (w_c (m w).2).
Definition post {A} (m : App A) (c : coord) (Q : outcome A → coord → Prop) : Prop :=
  ∀ k f, runs m (mkWorld c k f) Q.

Implicit Types c : coord.

Lemma post_runs {A} (m : App A) w Q : post m (w_c w) Q → runs m w Q.
Proof. intros Hm. destruct w as [c k f]. apply Hm. Qed.

Lemma runs_bind {A B} (m : App A) (g : A → App B) w Q :
  runs m w (λ o c, match o with
                   | Done a => post (g a) c Q
                   | Fail e => Q (Fail e) c
                   | Panic => Q Panic c
                   end) →
  runs (abind m g) w Q.
Proof.
  unfold runs, abind. destruct (m w) as [[a|e|] w']; simpl; [|done..].
  intros Hg. by apply post_runs.
Qed.
Lemma post_bind {A B} (m : App A) (g : A → App B) c Q :
  post m c (λ o c, match o with
                   | Done a => post (g a) c Q
                   | Fail e => Q (Fail e) c
                   | Panic => Q Panic c
                   end) →
  post (abind m g) c Q.
Proof. intros Hm k f. apply runs_bind, Hm. Qed.

Lemma post_mono {A} (m : App A) c (Q Q' : outcome A → coord → Prop) :
  post m c Q → (∀ o c', Q o c' → Q' o c') → post m c Q'.
Proof. intros Hm HQ k f. apply HQ, Hm. Qed.

Lemma post_ret {A} (a : A) c (Q : outcome A → coord → Prop) : Q (Done a) c → post (aret a) c Q.
Proof. by intros ? k f. Qed.
Lemma post_fail {A} e c (Q : outcome A → coord → Prop) : Q (Fail e) c → post (afail e) c Q.
Proof. by intros ? k f. Qed.
Lemma post_panic {A} c (Q : outcome A → coord → Prop) : Q Panic c → post (λ w, (Panic, w)) c Q.
Proof. by intros ? k f. Qed.
Lemma post_of_res {A} (r : result aerr A) c (Q : outcome A → coord → Prop) :
  (∀ a, r = Ok a → Q (Done a) c) → (∀ e, r = Err e → Q (Fail e) c) → post (of_res r) c Q.
Proof. intros Ha He. destruct r; [apply post_ret | apply post_fail]; auto. Qed.
Lemma post_get c (Q : outcome coord → coord → Prop) : Q (Done c) c → post get c Q.
Proof. by intros ? k f. Qed.
Lemma post_modify g c (Q : outcome unit → coord → Prop) : Q (Done tt) (g c) → post (modify g) c Q.
Proof. by intros ? k f. Qed.
Lemma post_st c (Q : outcome db → coord → Prop) : Q (Done (c_st c)) c → post st c Q.
Proof. by intros ? k f. Qed.

Lemma post_try {A} (m : App A) c (Q : outcome (result aerr A) → coord → Prop) :
  post m c (λ o c, match o with
                   | Done a => Q (Done (Ok a)) c
                   | Fail e => Q (Done (Err e)) c
                   | Panic => Q Panic c
                   end) →
  post (atry m) c Q.
Proof.
  intros Hm k f. specialize (Hm k f). unfold runs, atry in *.
  by destruct (m (mkWorld c k f)) as [[a|e|] w'].
Qed.

Lemma post_kernel {A} (m : ST K A) c (Q : outcome A → coord → Prop) :
  (∀ a k k', m k = (Ok a, k') → Q (Done a) c) → (∀ e k k', m k = (Err e, k') → Q (Fail (ALio e)) c) →
  post (in_kernel m) c Q.
Proof.
  intros Ha He k f. unfold runs, in_kernel. cbn [w_k].
  destruct (m k) as [[a|e] k'] eqn:Hm; [by eapply Ha | by eapply He].
Qed.
Lemma post_files {A} (m : ST F A) c (Q : outcome A → coord → Prop) :
  (∀ a f f', m f = (Ok a, f') → Q (Done a) c) → (∀ e f f', m f = (Err e, f') → Q (Fail (ALio e)) c) →
  post (in_files m) c Q.
Proof.
  intros Ha He k f. unfold runs, in_files. cbn [w_f].
  destruct (m f) as [[a|e] f'] eqn:Hm; [by eapply Ha | by eapply He].
Qed.
Lemma post_lio {A} (m : K → A * K) c (Q : outcome A → coord → Prop) :
  (∀ a k k', m k = (a, k') → Q (Done a) c) → post (lio_call m) c Q.
Proof.
  intros Ha k f. unfold runs, lio_call. cbn [w_k]. destruct (m k) as [a k'] eqn:Hm. by eapply Ha.
Qed.

(** At one run, a step that changes nothing and a step on the file system. *)
Lemma runs_of_res {A B} (r : result aerr A) (g : A → App B) w Q :
  (∀ a, r = Ok a → runs (g a) w Q) → (∀ e, r = Err e → Q (Fail e) (w_c w)) →
  runs (abind (of_res r) g) w Q.
Proof. intros Ha He. unfold runs, abind, of_res. destruct r; [by apply Ha | by apply He]. Qed.
Lemma runs_st {B} (g : db → App B) w Q : runs (g (c_st (w_c w))) w Q → runs (abind st g) w Q.
Proof. done. Qed.
Lemma runs_modify {B} h (g : unit → App B) w Q :
  runs (g tt) (mkWorld (h (w_c w)) (w_k w) (w_f w)) Q → runs (abind (modify h) g) w Q.
Proof. by destruct w. Qed.
Lemma runs_assoc {A B C} (m : App A) (f : A → App B) (g : B → App C) w Q :
  runs (abind m (λ a, abind (f a) g)) w Q → runs (abind (abind m f) g) w Q.
Proof. unfold runs, abind. by destruct (m w) as [[a|e|] w']. Qed.
Lemma runs_files {A B} (m : ST F A) (g : A → App B) w Q :
  (∀ a f, m (w_f w) = (Ok a, f) → post (g a) (w_c w) Q) → (∀ e, Q (Fail (ALio e)) (w_c w)) →
  runs (abind (in_files m) g) w Q.
Proof.
  intros Ha He. unfold runs, abind, in_files. destruct (m (w_f w)) as [[a|e] f] eqn:Hm; [|apply He].
  by apply (post_runs (g a) (mkWorld (w_c w) (w_k w) f)), (Ha a f).
Qed.
End post.

(** One step of symbolic execution; branches of the program are split, and the
    equations remembered. *)
Ltac app_step :=
  lazymatch goal with
  | |- post (abind _ _) _ _ => apply post_bind; cbv beta
  | |- post (aret _) _ _ => apply post_ret; cbv beta iota
  | |- post (afail _) _ _ => apply post_fail; cbv beta iota
  | |- post (of_res _) _ _ => apply post_of_res; intros; cbv beta iota
  | |- post get _ _ => apply post_get; cbv beta iota
  | |- post st _ _ => apply post_st; cbv beta iota
  | |- post (set_state _) _ _ => apply post_modify; cbv beta iota
  | |- post (restoreState _) _ _ => apply post_modify; cbv beta iota
  | |- post (publish _) _ _ => apply post_modify; cbv beta iota
  | |- post (modify _) _ _ => apply post_modify; cbv beta iota
  | |- post (atry _) _ _ => apply post_try; cbv beta
  | |- post (in_kernel _) _ _ => apply post_kernel; intros; cbv beta iota
  | |- post (in_files _) _ _ => apply post_files; intros; cbv beta iota
  | |- post (lio_call _) _ _ => apply post_lio; intros; cbv beta iota
  | |- post (λ w, (Panic, w)) _ _ => apply post_panic; cbv beta iota
  | |- post (let '(_, _) := ?x in _) _ _ => destruct x eqn:?
  | |- post (match ?x with _ => _ end) _ _ => destruct x eqn:?
  end.
Ltac app_steps := repeat app_step.
