(* ===== verification/AppAnswers.v ===== *)
(** * appliance: an answer says what happened

    Every error of every operation maps to one of five statuses and to a
    machine code, so that an HTTP answer below 400 is never an error and one
    from 400 up always is. [tells] is the rule each operation keeps; its
    conclusions are collected in the hint database [tells]. Then whose error it
    is ([refuses], [yields]): one of the caller's comes before anything was
    done, and 404 only for a reference that names nothing; and the converse
    ([away]). *)

From S2P Require Import Prelude GoStrings Errors Netip LioModel LioValid Configfs LioAptpl LioApply LioSync.
From S2P Require Import LioDelta LioStranded AppModel AppDb AppPortals AppTranslate Storage AppAptpl.
From S2P Require Import AppCoordinator AppObjects AppHosts AppClear AppEvents AppRest AppRun.

Definition error_statuses : list Z :=
  [StatusBadRequest; StatusNotFound; StatusConflict; StatusInternalServerError; StatusServiceUnavailable].
Definition honest (e : aerr) : Prop := status e ∈ error_statuses.
(** What a result or an outcome says, when the value has to satisfy [V]. *)
Definition says {A} (V : A → Prop) (r : result aerr A) : Prop :=
  match r with Ok a => V a | Err e => honest e end.
Definition hon {A} (V : A → Prop) (o : outcome A) : Prop :=
  match o with Done a => V a | Fail e => honest e | Panic => True end.
Definition anything {A} : A → Prop := λ _, True.

Lemma codeForStatus_nonempty s : codeForStatus s ≠ "".
Proof. unfold codeForStatus. by repeat case_match. Qed.
Lemma errorCode_nonempty e : errorCode e ≠ "".
Proof.
  unfold errorCode, ErrorCode. destruct (as_status e) as [[st r]|]; [|done].
  destruct (String.eqb_spec r ""); cbn; [apply codeForStatus_nonempty | done].
Qed.

(** An error built by the package: its status evaluates. *)
Ltac honest := first [ assumption | by (unfold honest; vm_compute; set_solver) | solve [eauto with tells] ].

Create HintDb tells.
Lemma honest_status st r fmt args shown cause : st ∈ error_statuses → honest (AStatus st r fmt args shown cause).
Proof. done. Qed.
Lemma honest_lio e : honest (ALio e).
Proof. unfold honest. cbn. set_solver. Qed.
Lemma honest_msg fmt args : honest (AMsg fmt args).
Proof. unfold honest. cbn. set_solver. Qed.
Lemma honest_wrap fmt args e : honest e → honest (AWrap fmt args e).
Proof. done. Qed.
Lemma honest_not_durable : honest APersistedNotDurable.
Proof. unfold honest. cbn. set_solver. Qed.
Lemma in_400 : StatusBadRequest ∈ error_statuses. Proof. by apply (bool_decide_unpack _). Qed.
Lemma in_404 : StatusNotFound ∈ error_statuses. Proof. by apply (bool_decide_unpack _). Qed.
Lemma in_409 : StatusConflict ∈ error_statuses. Proof. by apply (bool_decide_unpack _). Qed.
Lemma in_503 : StatusServiceUnavailable ∈ error_statuses. Proof. by apply (bool_decide_unpack _). Qed.
#[export] Hint Resolve honest_status honest_lio honest_msg honest_wrap honest_not_durable
  in_400 in_404 in_409 in_503 : tells.

(** ** Checks *)

Ltac says_cases :=
  repeat first [ progress cbn [rbind says] | case_match ]; try done; eauto with tells.

Lemma checkName_says name : says anything (checkName name).
Proof. unfold checkName. says_cases. Qed.
Lemma rfold_says {A S} (f : S → A → result aerr S) l s :
  (∀ s x, says anything (f s x)) → says anything (rfold f s l).
Proof.
  intros Hf. revert s. induction l as [|x l IH]; intros s; [done|]. cbn [rfold].
  specialize (Hf s x). destruct (f s x); [apply IH | done].
Qed.
Lemma checkIQNs_says d iqns except : says anything (checkIQNs d iqns except).
Proof.
  unfold checkIQNs. pose proof (rfold_says (check_iqn d except) iqns []) as Hf.
  destruct (rfold _ _ _); cbn in *; [done|]. apply Hf. intros s x. unfold check_iqn. cbv zeta. says_cases.
Qed.
Lemma matchExisting_says d o req : says anything (matchExisting d o req).
Proof. unfold matchExisting. says_cases. Qed.
Lemma resolve_source_says d req : says anything (resolve_source d req).
Proof. unfold resolve_source. cbv zeta. says_cases. Qed.
Lemma checkSize_says size : says anything (checkSize size).
Proof. unfold checkSize. says_cases. Qed.
Lemma connect_scan_says o h lun l : says anything (connect_scan o h lun l).
Proof. induction l as [|cn l IH]; cbn [connect_scan]; says_cases. Qed.
Lemma ListConnections_says c o k h : says anything (ListConnections c o k h).
Proof.
  unfold ListConnections, object_filter. says_cases.
Qed.
Lemma verify_fence_says kind name f : says anything (verify_fence kind name f).
Proof. unfold verify_fence. cbv zeta. says_cases. Qed.
#[export] Hint Resolve checkName_says checkIQNs_says matchExisting_says resolve_source_says checkSize_says
  connect_scan_says ListConnections_says verify_fence_says : tells.
Lemma says_Err {A} V (r : result aerr A) e : says V r → r = Err e → honest e.
Proof. by intros H ->. Qed.

(** ** Operations *)

Section tells.
Context {K F : Type} `{Kernel K} `{Files F}.
Context (range : ∀ A, list A → list A) (mroot : string).
Context (aptplRecords : option (Backstore → ST K (list string))) (pageSize : Z) (marshal : db → string).

Notation App := (App K F).
Notation post := (post (K := K) (F := F)).

Definition tells {A} (V : A → Prop) (m : App A) : Prop := ∀ c, post m c (λ o _, hon V o).
Lemma post_tells {A} V (m : App A) c (Q : outcome A → coord → Prop) : tells V m →
  (∀ a c, V a → Q (Done a) c) → (∀ e c, honest e → Q (Fail e) c) → (∀ c, Q Panic c) → post m c Q.
Proof. intros Hm Ha He Hp. eapply post_mono; [apply Hm|]. intros [a|e|] c' Ho; [by apply Ha | by apply He | apply Hp]. Qed.

Ltac tell_done :=
  lazymatch goal with
  | |- hon _ (Done _) => first [done | cbn; first [done | assumption | solve [eauto with tells]]]
  | |- hon _ (Fail _) => cbn [hon]; first [assumption | solve [eauto with tells] | solve [eapply says_Err; [|eassumption]; eauto with tells]]
  | |- hon _ Panic => done
  | |- honest _ => first [assumption | solve [eauto with tells]]
  end.
(** Symbolic execution down to the calls of operations already covered. *)
Ltac tell :=
  repeat first
    [ app_step
    | tell_done
    | lazymatch goal with |- AppRun.post _ _ _ => eapply post_tells; [solve [eauto with tells] | intros; cbv beta iota ..] end ].
Ltac tells := intros ?; tell.

Lemma desired_tells : tells anything (desired range).
Proof. unfold desired. tells. Qed.
Lemma persist_tells : tells anything (persist marshal).
Proof. unfold persist, publish. tells. Qed.
Hint Resolve desired_tells persist_tells : tells.
Lemma reconcileFull_tells cfg : tells anything (reconcileFull mroot aptplRecords cfg).
Proof. unfold reconcileFull, setReconcileErr, setReconcileOK. tells. Qed.
Hint Resolve reconcileFull_tells : tells.
Lemma reconcile_tells : tells anything (reconcile range mroot aptplRecords).
Proof. unfold reconcile, setReconcileErr, setReconcileOK. tells. Qed.
Hint Resolve reconcile_tells : tells.
Lemma healIfDegraded_tells : tells anything (healIfDegraded range mroot aptplRecords).
Proof. unfold healIfDegraded. tells. Qed.
Hint Resolve healIfDegraded_tells : tells.

(** The mutations never fail. *)
Definition succeeds (mutate : db → result aerr db) : Prop := ∀ d, is_ok (mutate d) = true.
Lemma succeeds_Err mutate d e : succeeds mutate → mutate d = Err e → honest e.
Proof. intros Hm He. specialize (Hm d). by rewrite He in Hm. Qed.
Lemma persistOnly_tells mutate : succeeds mutate → tells anything (persistOnly marshal mutate).
Proof. intros Hm. unfold persistOnly, restoreState. tells. all: by eapply succeeds_Err. Qed.
Lemma commit_tells mutate : succeeds mutate → tells anything (commit range mroot aptplRecords marshal mutate).
Proof. intros Hm. unfold commit, restoreState. tells. all: by eapply succeeds_Err. Qed.
Lemma allocate_tells root uuid source size : tells anything (allocate root uuid source size).
Proof. unfold allocate. tells. Qed.
Lemma discardSavedPR_tells wwn : tells anything (discardSavedPR wwn).
Proof. unfold discardSavedPR. tells. Qed.
Lemma releaseHold_tells uuid : tells anything (releaseHold uuid).
Proof. unfold releaseHold. tells. Qed.
Lemma holdBack_tells uuid name : tells anything (holdBack uuid name).
Proof. unfold holdBack. tells. Qed.
Lemma newIdentity_tells : tells anything newIdentity.
Proof. unfold newIdentity, random16. tells. Qed.
Lemma newHostUUID_tells : tells anything newHostUUID.
Proof. unfold newHostUUID, random16. tells. Qed.
Lemma backstoreOf_tells uuid : tells anything (backstoreOf range uuid).
Proof. unfold backstoreOf. tells. Qed.
Hint Resolve persistOnly_tells commit_tells allocate_tells discardSavedPR_tells releaseHold_tells holdBack_tells
  newIdentity_tells newHostUUID_tells backstoreOf_tells : tells.
Lemma connect_succeeds o h lun : succeeds (connect o h lun).
Proof. intros d. unfold connect. by destruct (exportIndex o (db_Exports d)). Qed.
Hint Resolve connect_succeeds : tells.
Hint Extern 1 (succeeds _) => (intros ?; reflexivity) : tells.

Lemma fenceLossWarningFor_tells u losing host action :
  tells anything (fenceLossWarningFor range mroot u losing host action).
Proof. unfold fenceLossWarningFor. tells. Qed.
Hint Resolve fenceLossWarningFor_tells : tells.
Lemma fenceLossWarning_tells u h : tells anything (fenceLossWarning range mroot u h).
Proof. unfold fenceLossWarning. tells. Qed.
Lemma collect_warnings_tells losing h l : tells anything (collect_warnings range mroot losing h l).
Proof. induction l as [|cn l IH]; cbn [collect_warnings]; tells. Qed.
Hint Resolve fenceLossWarning_tells collect_warnings_tells : tells.

Lemma Create_tells kind req : tells anything (Create marshal kind req).
Proof. unfold Create. tells. Qed.
Lemma Rename_tells kind ref new : tells anything (Rename marshal kind ref new).
Proof. unfold Rename. tells. Qed.
Lemma Delete_tells kind ref : tells anything (Delete range mroot aptplRecords marshal kind ref).
Proof. unfold Delete. tells. Qed.
Lemma Resize_tells kind ref size : tells anything (Resize range mroot aptplRecords marshal kind ref size).
Proof. unfold Resize. tells. Qed.
Lemma CreateHost_tells name iqns : tells anything (CreateHost range mroot aptplRecords marshal name iqns).
Proof. unfold CreateHost. tells. Qed.
Lemma RenameHost_tells ref new : tells anything (RenameHost marshal ref new).
Proof. unfold RenameHost. tells. Qed.
Lemma DeleteHost_tells ref : tells anything (DeleteHost range mroot aptplRecords marshal ref).
Proof. unfold DeleteHost. tells. Qed.
Lemma Connect_tells kind o h lun : tells anything (Connect range mroot aptplRecords marshal kind o h lun).
Proof. unfold Connect. tells. Qed.
Lemma SetPortals_tells ps : tells anything (SetPortals range mroot aptplRecords marshal ps).
Proof. unfold SetPortals. tells. Qed.
(** The error after a warning is in the value. *)
Lemma SetBindings_tells ref replace add remove :
  tells (λ r, says anything r.2) (SetBindings range mroot aptplRecords marshal ref replace add remove).
Proof. unfold SetBindings. tells. Qed.
Lemma Disconnect_tells kind o h :
  tells (λ r, says anything r.2) (Disconnect range mroot aptplRecords marshal kind o h).
Proof. unfold Disconnect. tells. Qed.
Hint Resolve Create_tells Rename_tells Delete_tells Resize_tells CreateHost_tells RenameHost_tells
  DeleteHost_tells Connect_tells SetPortals_tells SetBindings_tells Disconnect_tells : tells.

(** Clearing a reservation gives its error in the value too. *)
Definition told (r : ClearedReservation * option aerr) : Prop :=
  match r.2 with Some e => honest e | None => True end.
Lemma fenceStateOf_tells uuid : tells anything (fenceStateOf range mroot pageSize uuid).
Proof. unfold fenceStateOf. tells. Qed.
Lemma read_holder_tells uuid : tells anything (read_holder range mroot uuid).
Proof. unfold read_holder. tells. Qed.
Lemma discardSavedPRChecked_tells wwn :
  tells (λ r, match r.2 with Some e => honest e | None => True end) (discardSavedPRChecked wwn).
Proof. unfold discardSavedPRChecked, confirm_gone. tells. Qed.
Hint Resolve fenceStateOf_tells read_holder_tells discardSavedPRChecked_tells : tells.
Lemma verifyCleared_tells uuid kind name : tells (says anything) (verifyCleared range mroot pageSize uuid kind name).
Proof. unfold verifyCleared. tells. Qed.
Hint Resolve verifyCleared_tells : tells.
Lemma recover_tells out kind name uuid e :
  tells told (recoverFromFailedPrune range mroot aptplRecords pageSize out kind name uuid e).
Proof. unfold recoverFromFailedPrune. tells. Qed.
Lemma rebuild_tells out kind name uuid :
  tells told (rebuild range mroot aptplRecords pageSize out kind name uuid).
Proof. unfold rebuild. tells. Qed.
Hint Resolve recover_tells rebuild_tells : tells.
Lemma clear_phases_tells out kind v : tells told (clear_phases range mroot aptplRecords pageSize out kind v).
Proof. unfold clear_phases. tells. Qed.
Hint Resolve clear_phases_tells : tells.
Lemma ClearReservation_tells kind ref confirm :
  tells told (ClearReservation range mroot aptplRecords pageSize kind ref confirm).
Proof. unfold ClearReservation, setClearing. tells. Qed.

(** ** Creating what is already there *)

(** An answer "not created" leaves the world as it was. *)
Definition replays {A} (m : App (A * bool)) : Prop := ∀ w a w', m w = (Done (a, false), w') → w' = w.
Definition makes {A} (r : A * bool) : Prop := r.2 = true.
Lemma replays_makes {A} (m : App (A * bool)) : tells makes m → replays m.
Proof.
  intros Hm [c k f] a w' Hw. specialize (Hm c k f). unfold runs in Hm. by rewrite Hw in Hm.
Qed.
Lemma replays_ret {A} (r : A * bool) : replays (aret r).
Proof. by intros w a w' [= _ <-]. Qed.
Lemma replays_fail {A} e : replays (afail e : App (A * bool)).
Proof. by intros w a w'. Qed.
Lemma replays_of_res {A B} (r : result aerr B) (g : B → App (A * bool)) :
  (∀ b, replays (g b)) → replays (abind (of_res r) g).
Proof. intros Hg w a w'. unfold abind, of_res. destruct r; [apply Hg | done]. Qed.
Lemma replays_st {A} (g : db → App (A * bool)) : (∀ d, replays (g d)) → replays (abind st g).
Proof. intros Hg w a w'. apply Hg. Qed.
Lemma replays_get {A} (g : coord → App (A * bool)) : (∀ c, replays (g c)) → replays (abind get g).
Proof. intros Hg w a w'. apply Hg. Qed.
Ltac replays :=
  repeat (intros; lazymatch goal with
  | |- replays (abind (of_res _) _) => apply replays_of_res
  | |- replays (abind st _) => apply replays_st
  | |- replays (abind get (λ c, aret _)) => apply replays_get
  | |- replays (aret _) => apply replays_ret
  | |- replays (afail _) => apply replays_fail
  | |- replays (match ?x with _ => _ end) => destruct x
  | |- replays _ => apply replays_makes; tells
  end).

Lemma Create_replays kind req : replays (Create marshal kind req).
Proof. unfold Create. replays. Qed.
Lemma CreateHost_replays name iqns : replays (CreateHost range mroot aptplRecords marshal name iqns).
Proof. unfold CreateHost. replays. Qed.
Lemma Connect_replays kind o h lun : replays (Connect range mroot aptplRecords marshal kind o h lun).
Proof. unfold Connect. replays. Qed.
End tells.

(** ** Whose error it is

    An error of the appliance's own (500, 503) may come at any point. One that
    says the caller is at fault (400, 404, 409) comes before anything was done,
    and 404 only when something the request refers to is not recorded. Two
    operations answer 409 for failures of their own: [SetPortals] and
    [ClearReservation]. *)

Definition own (e : aerr) : Prop := status e = StatusInternalServerError ∨ status e = StatusServiceUnavailable.
Definition caller_error (L : Prop) (e : aerr) : Prop :=
  status e = StatusBadRequest ∨ status e = StatusConflict ∨ (status e = StatusNotFound ∧ L).

Create HintDb ours.
Lemma own_lio e : own (ALio e).
Proof. by left. Qed.
Lemma own_msg fmt args : own (AMsg fmt args).
Proof. by left. Qed.
Lemma own_wrap fmt args e : own e → own (AWrap fmt args e).
Proof. done. Qed.
Lemma own_not_durable : own APersistedNotDurable.
Proof. by left. Qed.
Lemma own_503 fmt args shown : own (statusErr StatusServiceUnavailable fmt args shown).
Proof. by right. Qed.
#[export] Hint Resolve own_lio own_msg own_wrap own_not_durable own_503 : ours.

Section ours.
Context {K F : Type} `{Kernel K} `{Files F}.
Notation App := (App K F).
Notation world := (world K F).

(** Every failure is the appliance's own. *)
Definition ours {A} (m : App A) : Prop := ∀ w e w', m w = (Fail e, w') → own e.
Lemma ours_bind {A B} (m : App A) (g : A → App B) : ours m → (∀ a, ours (g a)) → ours (abind m g).
Proof.
  intros Hm Hg w e w'. unfold abind. specialize (Hm w). destruct (m w) as [[a|e1|] w1]; [apply Hg | |done].
  intros [= -> ->]. by eapply Hm.
Qed.
Lemma ours_try {A} (m : App A) : ours (atry m).
Proof. intros w e w'. unfold atry. by destruct (m w) as [[] ?]. Qed.
(** An error caught and passed on. *)
Lemma ours_catch {A B} (m : App A) (g : result aerr A → App B) :
  ours m → (∀ a, ours (g (Ok a))) → (∀ e, own e → ours (g (Err e))) → ours (abind (atry m) g).
Proof.
  intros Hm Ha He w e w'. unfold abind, atry. specialize (Hm w). destruct (m w) as [[a|e1|] w1]; [apply Ha| |done].
  apply He. by eapply Hm.
Qed.
Lemma ours_ret {A} (a : A) : ours (aret a).
Proof. by intros w e w'. Qed.
Lemma ours_fail {A} e : own e → ours (afail e : App A).
Proof. by intros He w e' w' [= <- _]. Qed.
Lemma ours_panic {A} : ours ((λ w, (Panic, w)) : App A).
Proof. by intros w e w'. Qed.
Lemma ours_get : ours get.
Proof. by intros w e w'. Qed.
Lemma ours_st : ours st.
Proof. by intros w e w'. Qed.
Lemma ours_modify g : ours (modify g).
Proof. by intros w e w'. Qed.
Lemma ours_kernel {A} (m : ST K A) : ours (in_kernel m).
Proof. intros w e w'. unfold in_kernel. destruct (m (w_k w)) as [[a|x] k]; [done|]. intros [= <- _]. apply own_lio. Qed.
Lemma ours_files {A} (m : ST F A) : ours (in_files m).
Proof. intros w e w'. unfold in_files. destruct (m (w_f w)) as [[a|x] k]; [done|]. intros [= <- _]. apply own_lio. Qed.
Lemma ours_lio {A} (m : K → A * K) : ours (lio_call m).
Proof. intros w e w'. unfold lio_call. by destruct (m (w_k w)). Qed.

(** The caller is refused before anything happens, or the failure is ours. *)
Definition refuses {A} (L : Prop) (m : App A) : Prop :=
  ∀ w e w', m w = (Fail e, w') → own e ∨ (caller_error L e ∧ w' = w).
Lemma refuses_ours {A} L (m : App A) : ours m → refuses L m.
Proof. intros Hm w e w' Hw. left. by eapply Hm. Qed.
Lemma refuses_fail {A} (L : Prop) e : caller_error L e → refuses L (afail e : App A).
Proof. intros He w e' w' [= <- <-]. by right. Qed.
Lemma refuses_of_res {A B} (L : Prop) (r : result aerr A) (g : A → App B) :
  (∀ e, r = Err e → caller_error L e) → (∀ a, r = Ok a → refuses L (g a)) → refuses L (abind (of_res r) g).
Proof.
  intros He Hg w e w'. unfold abind, of_res. destruct r; [by apply Hg|]. intros [= <- <-]. right. by split; [apply He|].
Qed.
Lemma caller_error_weaken (L L' : Prop) e : (L → L') → caller_error L e → caller_error L' e.
Proof. unfold caller_error. tauto. Qed.
(** At one database. *)
Definition refuses_at {A} (d : db) (L : Prop) (m : App A) : Prop :=
  ∀ w e w', c_st (w_c w) = d → m w = (Fail e, w') → own e ∨ (caller_error L e ∧ w' = w).
Lemma refuses_at_weaken {A} d (L L' : Prop) (m : App A) : (L → L') → refuses_at d L m → refuses_at d L' m.
Proof.
  intros HL Hm w e w' Hw Hr. destruct (Hm w e w' Hw Hr) as [?|[Hc ->]]; [by left|]. right. split; [|done].
  by eapply caller_error_weaken.
Qed.
Lemma refuses_at_any {A} d L (m : App A) : refuses L m → refuses_at d L m.
Proof. intros Hm w e w' _. apply Hm. Qed.
Lemma refuses_at_st {A} d L (g : db → App A) : refuses L (g d) → refuses_at d L (abind st g).
Proof. intros Hg w e w' Hw. unfold abind, st. cbn. rewrite Hw. apply Hg. Qed.
Lemma refuses_at_of_res {A B} d (L : Prop) (r : result aerr A) (g : A → App B) :
  (∀ e, r = Err e → caller_error L e) → (∀ a, r = Ok a → refuses_at d L (g a)) →
  refuses_at d L (abind (of_res r) g).
Proof.
  intros He Hg w e w' Hw. unfold abind, of_res. destruct r; [by apply Hg|]. intros [= <- <-]. right.
  by split; [apply He|].
Qed.
End ours.
#[export] Hint Resolve ours_try ours_ret ours_panic ours_get ours_st ours_modify ours_kernel ours_files ours_lio : ours.

Ltac ours_step :=
  lazymatch goal with
  | |- ours (abind (atry _) _) => first [apply ours_catch; [solve [eauto with ours] | intros; cbv beta iota ..] | apply ours_bind; [apply ours_try | intros]]
  | |- ours (abind _ _) => apply ours_bind; [|intros]
  | |- ours (afail _) => apply ours_fail; solve [eauto with ours]
  | |- ours (let '(_, _) := ?x in _) => destruct x
  | |- ours (match ?x with _ => _ end) => destruct x eqn:?
  | |- ours _ => solve [eauto with ours]
  end.
Ltac ours := intros; repeat ours_step.

Ltac caller := unfold caller_error; cbn; tauto.

Section refusals.
Context {K F : Type} `{Kernel K} `{Files F}.
Context (range : ∀ A, list A → list A) (mroot : string).
Context (aptplRecords : option (Backstore → ST K (list string))) (pageSize : Z) (marshal : db → string).
Notation App := (App K F).

Lemma ours_desired : ours (desired (K := K) (F := F) range).
Proof. unfold desired. ours. Qed.
Lemma ours_persist : ours (persist (K := K) (F := F) marshal).
Proof. unfold persist, publish. ours. Qed.
Hint Resolve ours_desired ours_persist : ours.
Lemma ours_reconcileFull cfg : ours (reconcileFull (K := K) (F := F) mroot aptplRecords cfg).
Proof. unfold reconcileFull, setReconcileErr, setReconcileOK, publish. ours. Qed.
Hint Resolve ours_reconcileFull : ours.
Lemma ours_reconcile : ours (reconcile (K := K) (F := F) range mroot aptplRecords).
Proof. unfold reconcile, setReconcileErr, setReconcileOK, publish. ours. Qed.
Hint Resolve ours_reconcile : ours.
Lemma ours_heal : ours (healIfDegraded (K := K) (F := F) range mroot aptplRecords).
Proof. unfold healIfDegraded. ours. Qed.
Hint Resolve ours_heal : ours.
Lemma ours_persistOnly mutate : succeeds mutate → ours (persistOnly (K := K) (F := F) marshal mutate).
Proof.
  intros Hm. unfold persistOnly, restoreState. apply ours_bind; [apply ours_st|]. intros d. cbv zeta.
  specialize (Hm d). destruct (mutate d); [ours|done].
Qed.
Lemma ours_commit mutate : succeeds mutate → ours (commit (K := K) (F := F) range mroot aptplRecords marshal mutate).
Proof.
  intros Hm. unfold commit, restoreState. apply ours_bind; [apply ours_heal|]. intros _.
  apply ours_bind; [apply ours_st|]. intros d. cbv zeta. specialize (Hm d). destruct (mutate d); [ours|done].
Qed.
Lemma ours_allocate root uuid source size : ours (allocate (K := K) (F := F) root uuid source size).
Proof. unfold allocate. ours. Qed.
Lemma ours_discardSavedPR wwn : ours (discardSavedPR (K := K) (F := F) wwn).
Proof. unfold discardSavedPR. ours. Qed.
Lemma ours_releaseHold uuid : ours (releaseHold (K := K) (F := F) uuid).
Proof. unfold releaseHold. ours. Qed.
Lemma ours_newIdentity : ours (newIdentity (K := K) (F := F)).
Proof. unfold newIdentity, random16. ours. Qed.
Lemma ours_newHostUUID : ours (newHostUUID (K := K) (F := F)).
Proof. unfold newHostUUID, random16. ours. Qed.
Lemma ours_backstoreOf uuid : ours (backstoreOf (K := K) (F := F) range uuid).
Proof. unfold backstoreOf. ours. Qed.
Hint Resolve ours_persistOnly ours_commit ours_allocate ours_discardSavedPR ours_releaseHold ours_newIdentity
  ours_newHostUUID ours_backstoreOf : ours.
Lemma ours_fenceLossWarningFor u losing host action :
  ours (fenceLossWarningFor (K := K) (F := F) range mroot u losing host action).
Proof. unfold fenceLossWarningFor. ours. Qed.
Hint Resolve ours_fenceLossWarningFor : ours.
Lemma ours_fenceLossWarning u h : ours (fenceLossWarning (K := K) (F := F) range mroot u h).
Proof. unfold fenceLossWarning. ours. Qed.
Lemma ours_collect_warnings losing h l : ours (collect_warnings (K := K) (F := F) range mroot losing h l).
Proof. induction l as [|cn l IH]; cbn [collect_warnings]; ours. Qed.
Hint Resolve ours_fenceLossWarning ours_collect_warnings : ours.
Hint Extern 1 (succeeds _) => (first [apply connect_succeeds | intros ?; reflexivity]) : ours.

(** The operations. [L]: what a 404 says. *)
Lemma checkName_caller L name e : checkName name = Err e → caller_error L e.
Proof. unfold checkName. case_match; [done|]. intros [= <-]. caller. Qed.
Lemma checkIQNs_caller L d iqns h e : checkIQNs d iqns h = Err e → caller_error L e.
Proof.
  unfold checkIQNs. generalize (@nil string). induction iqns as [|q qs IH]; intros seen; cbn [rfold rbind]; [done|].
  destruct (check_iqn d h seen q) as [s'|e'] eqn:Hc; cbn [rbind]; [apply IH|]. intros [= <-]. revert Hc.
  unfold check_iqn. cbv zeta. repeat case_match; intros [= <-]; caller.
Qed.
Lemma checkSize_caller L size e : checkSize size = Err e → caller_error L e.
Proof. unfold checkSize. repeat case_match; intros [= <-]; caller. Qed.
Lemma matchExisting_caller L d o req e : matchExisting d o req = Err e → caller_error L e.
Proof. unfold matchExisting. repeat case_match; intros [= <-]; caller. Qed.
Lemma resolve_source_caller d req e : resolve_source d req = Err e →
  caller_error (cr_Source req ≠ "" ∧ resolveObject d (cr_SourceKind req) (cr_Source req) = None) e.
Proof.
  unfold resolve_source. cbv zeta. destruct (String.eqb_spec (cr_Source req) ""); [done|].
  repeat case_match; intros [= <-]; caller.
Qed.
Lemma connect_scan_caller L o h lun l e : connect_scan o h lun l = Err e → caller_error L e.
Proof. induction l as [|cn l IH]; cbn [connect_scan]; repeat case_match; try done; intros [= <-]; caller. Qed.

Ltac refuse :=
  intros; repeat lazymatch goal with
  | |- refuses_at _ _ (abind (of_res _) _) => apply refuses_at_of_res; [solve [eauto using checkName_caller] | intros]
  | |- refuses_at _ _ (abind st _) => apply refuses_at_st
  | |- refuses_at _ _ (let _ := _ in _) => cbv zeta
  | |- refuses_at _ _ (match ?x with _ => _ end) => destruct x eqn:?
  | |- refuses_at _ _ _ => apply refuses_at_any
  | |- refuses _ (abind (of_res _) _) =>
      apply refuses_of_res;
        [solve [eauto using checkName_caller, checkIQNs_caller, checkSize_caller, matchExisting_caller,
                connect_scan_caller, resolve_source_caller] | intros]
  | |- refuses _ (let '(_, _) := ?x in _) => destruct x eqn:?
  | |- refuses _ (match ?x with _ => _ end) => destruct x eqn:?
  | |- refuses _ (afail _) => apply refuses_fail; caller
  | |- refuses _ _ => apply refuses_ours; solve [ours]
  end.

Lemma Rename_refuses d kind ref new :
  refuses_at d (resolveObject d kind ref = None) (Rename (K := K) (F := F) marshal kind ref new).
Proof. unfold Rename. refuse. Qed.
Lemma Delete_refuses d kind ref :
  refuses_at d (resolveObject d kind ref = None) (Delete (K := K) (F := F) range mroot aptplRecords marshal kind ref).
Proof. unfold Delete. refuse. Qed.
Lemma Resize_refuses d kind ref size :
  refuses_at d (resolveObject d kind ref = None)
    (Resize (K := K) (F := F) range mroot aptplRecords marshal kind ref size).
Proof. unfold Resize. refuse. Qed.
Lemma CreateHost_refuses d name iqns :
  refuses_at d False (CreateHost (K := K) (F := F) range mroot aptplRecords marshal name iqns).
Proof. unfold CreateHost. refuse. Qed.
Lemma RenameHost_refuses d ref new :
  refuses_at d (resolveHost d ref = None) (RenameHost (K := K) (F := F) marshal ref new).
Proof. unfold RenameHost. refuse. Qed.
Lemma DeleteHost_refuses d ref :
  refuses_at d (resolveHost d ref = None) (DeleteHost (K := K) (F := F) range mroot aptplRecords marshal ref).
Proof. unfold DeleteHost. refuse. Qed.
Lemma Connect_refuses d kind o h lun :
  refuses_at d (resolveObject d kind o = None ∨ resolveHost d h = None)
    (Connect (K := K) (F := F) range mroot aptplRecords marshal kind o h lun).
Proof. unfold Connect. refuse. Qed.
Lemma Disconnect_refuses d kind o h :
  refuses_at d (resolveObject d kind o = None ∨ resolveHost d h = None)
    (Disconnect (K := K) (F := F) range mroot aptplRecords marshal kind o h).
Proof. unfold Disconnect. refuse. Qed.
Lemma SetBindings_refuses d ref replace add remove :
  refuses_at d (resolveHost d ref = None)
    (SetBindings (K := K) (F := F) range mroot aptplRecords marshal ref replace add remove).
Proof. unfold SetBindings. refuse. Qed.
Lemma Create_refuses d kind req :
  refuses_at d (cr_Source req ≠ "" ∧ resolveObject d (cr_SourceKind req) (cr_Source req) = None)
    (Create (K := K) (F := F) marshal kind req).
Proof.
  unfold Create. apply refuses_at_of_res; [eauto using checkName_caller|]. intros [] _. cbv zeta.
  set (req' := if cr_BlockSize req =? 0 then _ else req).
  assert (Hs : cr_Source req' = cr_Source req) by (unfold req'; by destruct (_ =? _)).
  assert (Hk : cr_SourceKind req' = cr_SourceKind req) by (unfold req'; by destruct (_ =? _)).
  rewrite <- Hs, <- Hk. clearbody req'. clear Hs Hk.
  destruct (negb _); [refuse|]. apply refuses_at_st. destruct (objectByName _ _ _); [refuse|].
  apply refuses_of_res; [apply resolve_source_caller|]. intros [[source size] bs] _. refuse.
Qed.
End refusals.

(** ** Errors beside a value *)

Section yields.
Context {K F : Type} `{Kernel K} `{Files F}.
Context (range : ∀ A, list A → list A) (mroot : string).
Context (aptplRecords : option (Backstore → ST K (list string))) (pageSize : Z) (marshal : db → string).
Notation App := (App K F).

Definition yields {A} (V : A → Prop) (m : App A) : Prop := ∀ w a w', m w = (Done a, w') → V a.
Lemma yields_ret {A} (V : A → Prop) a : V a → yields V (aret a).
Proof. by intros Ha w b w' [= <- _]. Qed.
Lemma yields_fail {A} (V : A → Prop) e : yields V (afail e).
Proof. by intros w b w'. Qed.
Lemma yields_bind {A B} (V : B → Prop) (m : App A) (g : A → App B) :
  (∀ a, yields V (g a)) → yields V (abind m g).
Proof. intros Hg w b w'. unfold abind. destruct (m w) as [[a|e|] w1]; [apply Hg | done..]. Qed.
Lemma yields_after {A B} (U : A → Prop) (V : B → Prop) (m : App A) (g : A → App B) :
  yields U m → (∀ a, U a → yields V (g a)) → yields V (abind m g).
Proof.
  intros Hm Hg w b w'. unfold abind. specialize (Hm w). destruct (m w) as [[a|e|] w1]; [|done..].
  apply Hg. by eapply Hm.
Qed.
Lemma yields_try {A} (m : App A) : ours m → yields (λ r, ∀ e, r = Err e → own e) (atry m).
Proof.
  intros Hm w r w'. unfold atry. specialize (Hm w). destruct (m w) as [[a|e|] w1]; intros [= <- _] e'; [done|].
  intros [= <-]. by eapply Hm.
Qed.

Lemma SetBindings_yields ref replace add remove :
  yields (λ r, ∀ e, r.2 = Err e → own e)
    (SetBindings (K := K) (F := F) range mroot aptplRecords marshal ref replace add remove).
Proof.
  unfold SetBindings. apply yields_bind. intros d. destruct (resolveHost _ _); [|apply yields_fail].
  cbv zeta. apply yields_bind. intros []. apply yields_bind. intros ws.
  eapply yields_after; [by apply yields_try, ours_commit|]. intros [[]|e] Hr; apply yields_ret; [done|].
  cbn. intros e' [= <-]. by apply Hr.
Qed.
Lemma Disconnect_yields kind o h :
  yields (λ r, ∀ e, r.2 = Err e → own e)
    (Disconnect (K := K) (F := F) range mroot aptplRecords marshal kind o h).
Proof.
  unfold Disconnect. apply yields_bind. intros d. destruct (resolveObject _ _ _); [|apply yields_fail].
  destruct (resolveHost _ _); [|apply yields_fail]. destruct (negb _); [by apply yields_ret|].
  apply yields_bind. intros []. apply yields_bind. intros ws.
  eapply yields_after; [by apply yields_try, ours_commit|]. intros r Hr. by apply yields_ret.
Qed.

(** A clear that got as far as the kernel never answers as if the caller had
    named or said something wrong. *)
Definition late (e : aerr) : Prop := status e = StatusConflict ∨ own e.
Definition late_clear (r : ClearedReservation * option aerr) : Prop := ∀ e, r.2 = Some e → late e.
Lemma late_conflict r c fmt args shown : late (statusErrWrap StatusConflict r c fmt args shown).
Proof. by left. Qed.
Lemma late_503 r c fmt args shown : late (statusErrWrap StatusServiceUnavailable r c fmt args shown).
Proof. by right; right. Qed.
Lemma verify_fence_late kind name f e : verify_fence kind name f = Err e → late e.
Proof. unfold verify_fence. cbv zeta. repeat case_match; intros [= <-]; apply late_conflict. Qed.
Ltac late :=
  repeat (intros; lazymatch goal with
  | |- yields _ (abind _ _) => apply yields_bind
  | |- yields _ (aret _) => apply yields_ret; intros ? [=]; subst; first [apply late_conflict | apply late_503]
  | |- yields _ (afail _) => apply yields_fail
  | |- yields _ (let '(_, _) := ?x in _) => destruct x
  | |- yields _ (match ?x with _ => _ end) => destruct x
  end).
Lemma recover_late out kind name uuid e :
  yields late_clear (recoverFromFailedPrune (K := K) (F := F) range mroot aptplRecords pageSize out kind name uuid e).
Proof. unfold recoverFromFailedPrune. late. Qed.
Lemma verifyCleared_late uuid kind name :
  yields (λ r, ∀ e, r = Err e → late e) (verifyCleared (K := K) (F := F) range mroot pageSize uuid kind name).
Proof. unfold verifyCleared. apply yields_bind. intros f. apply yields_ret. apply verify_fence_late. Qed.
Lemma rebuild_late out kind name uuid :
  yields late_clear (rebuild (K := K) (F := F) range mroot aptplRecords pageSize out kind name uuid).
Proof.
  unfold rebuild. apply yields_bind. intros []. apply yields_bind. intros [[]|e]; [|late].
  eapply yields_after; [apply verifyCleared_late|]. intros [[]|ev] Hv; [by apply yields_ret|].
  apply yields_ret. intros e' [= <-]. by apply Hv.
Qed.
Lemma clear_phases_late out kind v :
  yields late_clear (clear_phases (K := K) (F := F) range mroot aptplRecords pageSize out kind v).
Proof.
  unfold clear_phases. apply yields_bind. intros []. apply yields_bind. intros [[]|e]; [|apply recover_late].
  apply yields_bind. intros [discarded [e|]]; [late|]. apply yields_bind. intros []. apply rebuild_late.
Qed.
Lemma ClearReservation_late kind ref confirm :
  yields late_clear (ClearReservation (K := K) (F := F) range mroot aptplRecords pageSize kind ref confirm).
Proof.
  unfold ClearReservation. apply yields_bind. intros d. destruct (resolveObject _ _ _); [|apply yields_fail].
  destruct (negb _); [apply yields_fail|]. destruct (negb _); [apply yields_fail|].
  apply yields_bind. intros []. apply yields_bind. intros r. cbv zeta. apply yields_bind. intros [].
  eapply yields_after; [apply clear_phases_late|]. intros res Hres. apply yields_bind. intros []. by apply yields_ret.
Qed.
Lemma ours_fenceStateOf uuid : ours (fenceStateOf (K := K) (F := F) range mroot pageSize uuid).
Proof. pose proof (ours_backstoreOf (K := K) (F := F) range) as Hb. unfold fenceStateOf. ours. Qed.
Lemma ours_clear_phases out kind v :
  ours (clear_phases (K := K) (F := F) range mroot aptplRecords pageSize out kind v).
Proof.
  pose proof ours_fenceStateOf as Hf. pose proof (ours_reconcile (K := K) (F := F) range mroot aptplRecords) as Hr.
  unfold clear_phases, recoverFromFailedPrune, rebuild, verifyCleared, discardSavedPRChecked, confirm_gone,
    releaseHold, holdBack, publish. ours.
Qed.
Lemma ClearReservation_refuses d kind ref confirm :
  refuses_at d (resolveObject d kind ref = None)
    (ClearReservation (K := K) (F := F) range mroot aptplRecords pageSize kind ref confirm).
Proof.
  pose proof (ours_heal (K := K) (F := F) range mroot aptplRecords) as Hh.
  pose proof (ours_backstoreOf (K := K) (F := F) range) as Hb. pose proof ours_clear_phases as Hp.
  unfold ClearReservation. apply refuses_at_st. destruct (resolveObject _ _ _); [|apply refuses_fail; caller].
  destruct (negb _); [apply refuses_fail; caller|]. destruct (negb _); [apply refuses_fail; caller|].
  apply refuses_ours. unfold read_holder, setClearing, publish. ours.
Qed.
(** The portals are the caller's fault whoever failed, but never missing. *)
Lemma SetPortals_statuses ps w e w' : SetPortals (K := K) (F := F) range mroot aptplRecords marshal ps w = (Fail e, w') →
  status e = StatusBadRequest ∨ status e = StatusConflict.
Proof.
  unfold SetPortals, abind, get, atry, publish, modify, aret, afail. cbv zeta.
  repeat case_match; intros [=]; subst; cbn; auto; discriminate.
Qed.

(** ** References that name nothing *)

Definition away {A} (m : App A) (w : world K F) : Prop :=
  ∃ e, m w = (Fail e, w) ∧ (status e = StatusNotFound ∨ status e = StatusBadRequest).
Lemma away_404 {A} what ref w : away (afail (notFound what ref) : App A) w.
Proof. eexists. split; [done|]. by left. Qed.
Lemma away_checked {A} name (m : App A) w : away m w → away (of_res (checkName name) ;!; m) w.
Proof.
  unfold checkName, away, of_res, abind. destruct (validName name); [done|]. intros _.
  eexists. split; [done|]. by right.
Qed.
Lemma away_st {A} (g : db → App A) w : away (g (c_st (w_c w))) w → away (abind st g) w.
Proof. done. Qed.
Ltac away := intros; try apply away_checked; apply away_st; repeat case_match; try congruence; apply away_404.
Lemma Rename_away kind ref new w : resolveObject (c_st (w_c w)) kind ref = None →
  away (Rename (K := K) (F := F) marshal kind ref new) w.
Proof. unfold Rename. away. Qed.
Lemma Delete_away kind ref w : resolveObject (c_st (w_c w)) kind ref = None →
  away (Delete (K := K) (F := F) range mroot aptplRecords marshal kind ref) w.
Proof. unfold Delete. away. Qed.
Lemma Resize_away kind ref size w : resolveObject (c_st (w_c w)) kind ref = None →
  away (Resize (K := K) (F := F) range mroot aptplRecords marshal kind ref size) w.
Proof. unfold Resize. away. Qed.
Lemma RenameHost_away ref new w : resolveHost (c_st (w_c w)) ref = None →
  away (RenameHost (K := K) (F := F) marshal ref new) w.
Proof. unfold RenameHost. away. Qed.
Lemma DeleteHost_away ref w : resolveHost (c_st (w_c w)) ref = None →
  away (DeleteHost (K := K) (F := F) range mroot aptplRecords marshal ref) w.
Proof. unfold DeleteHost. away. Qed.
Lemma SetBindings_away ref replace add remove w : resolveHost (c_st (w_c w)) ref = None →
  away (SetBindings (K := K) (F := F) range mroot aptplRecords marshal ref replace add remove) w.
Proof. unfold SetBindings. away. Qed.
Lemma Connect_away kind o h lun w : resolveObject (c_st (w_c w)) kind o = None →
  away (Connect (K := K) (F := F) range mroot aptplRecords marshal kind o h lun) w.
Proof. unfold Connect. away. Qed.
Lemma Disconnect_away kind o h w :
  resolveObject (c_st (w_c w)) kind o = None ∨ resolveHost (c_st (w_c w)) h = None →
  away (Disconnect (K := K) (F := F) range mroot aptplRecords marshal kind o h) w.
Proof. unfold Disconnect. intros [?|?]; away. Qed.
Lemma ClearReservation_away kind ref confirm w : resolveObject (c_st (w_c w)) kind ref = None →
  away (ClearReservation (K := K) (F := F) range mroot aptplRecords pageSize kind ref confirm) w.
Proof. unfold ClearReservation. away. Qed.
End yields.
