(* ===== verification/AppSteady.v ===== *)
(** * appliance: what the coordinator's shared steps leave behind

    The database the coordinator holds stays well formed, and what it believes
    of the kernel ([c_applied], [c_lastReconcileErr]) stays in step with what
    /health publishes: the specifications, as [post]s, of reconcile, persist,
    commit and the other steps every operation is made of. *)

From S2P Require Import Prelude GoStrings Errors Netip LioModel Configfs LioAptpl LioApply LioSync.
From S2P Require Import LioDelta LioStranded AppModel AppDb AppPortals AppTranslate AppTranslateProofs Storage.
From S2P Require Import AppCoordinator AppRun.

(** A database the appliance can work with: well formed, and no object has a
    block size of zero. *)
Definition sound (d : db) : Prop := wf_db d ∧ Forall sized (db_Objects d).

(** The same records; only export indexes may have been given. *)
Definition reindexed (d d' : db) : Prop :=
  d' = with_Exports (db_Exports d') d ∧ (sound d → sound d').

Lemma reindexed_refl d : reindexed d d.
Proof. by split; [destruct d|]. Qed.
Lemma reindexed_trans d1 d2 d3 : reindexed d1 d2 → reindexed d2 d3 → reindexed d1 d3.
Proof.
  intros [H12 Hs12] [H23 Hs23]. split; [|auto]. rewrite H23, H12. done.
Qed.
Lemma reindexed_objects d d' : reindexed d d' → db_Objects d' = db_Objects d.
Proof. by intros [-> _]. Qed.
Lemma reindexed_hosts d d' : reindexed d d' → db_Hosts d' = db_Hosts d.
Proof. by intros [-> _]. Qed.
Lemma reindexed_connections d d' : reindexed d d' → db_Connections d' = db_Connections d.
Proof. by intros [-> _]. Qed.

Lemma snapshot_sound d : sound (snapshotState d) ↔ sound d.
Proof. split; intros [[] ?]; (split; [by constructor | done]). Qed.

(** What no shared step changes. *)
Record frame (c c' : coord) : Prop := mkFrame {
  fr_cfg : c_cfg c' = c_cfg c;
  fr_root : c_root c' = c_root c;
  fr_dbPath : c_dbPath c' = c_dbPath c;
  fr_prClearing : c_prClearing c' = c_prClearing c;
  fr_withheld : c_withheld c' = c_withheld c;
  fr_clearing : hl_clearing (c_health c') = hl_clearing (c_health c);
  fr_names : hl_withheldNames (c_health c') = hl_withheldNames (c_health c)
}.
Lemma frame_refl c : frame c c.
Proof. by constructor. Qed.
Lemma frame_trans c1 c2 c3 : frame c1 c2 → frame c2 c3 → frame c1 c3.
Proof. intros [] []. constructor; etrans; eauto. Qed.

(** The belief about the kernel, and what is published of it. *)
Record same_belief (c c' : coord) : Prop := mkSame {
  sb_applied : c_applied c' = c_applied c;
  sb_lastReconcileErr : c_lastReconcileErr c' = c_lastReconcileErr c;
  sb_healthErr : hl_healthErr (c_health c') = hl_healthErr (c_health c)
}.
(** Replacing the database is part of neither. *)
Lemma frame_set_st d c c' : frame (set_st d c) c' → frame c c'.
Proof. intros []. by constructor. Qed.
Lemma frame_to_st d c c' : frame c c' → frame c (set_st d c').
Proof. intros []. by constructor. Qed.
Lemma same_set_st d c c' : same_belief (set_st d c) c' → same_belief c c'.
Proof. intros []. by constructor. Qed.
Lemma same_to_st d c c' : same_belief c c' → same_belief c (set_st d c').
Proof. intros []. by constructor. Qed.
Record truthful (c : coord) : Prop := mkTruthful {
  tr_published : hl_healthErr (c_health c) = c_lastReconcileErr c;
  tr_applied : c_applied c = None ↔ c_lastReconcileErr c ≠ None
}.
Lemma same_belief_truthful c c' : same_belief c c' → truthful c → truthful c'.
Proof. intros [Ha Hl Hh] [H1 H2]. constructor; by rewrite ?Ha, ?Hl, ?Hh. Qed.

#[export] Hint Resolve reindexed_refl frame_refl : glitr.

Section steady.
Context {K F : Type} `{Kernel K} `{Files F}.
Context (range : ∀ A, list A → list A) (range_perm : ∀ A (l : list A), range A l ≡ₚ l).
Context (mroot : string) (aptplRecords : option (Backstore → ST K (list string))).
Context (marshal : db → string).

Notation App := (App K F).
Notation reconcileFull := (reconcileFull (K := K) (F := F) mroot aptplRecords).
Notation reconcile := (reconcile (K := K) (F := F) range mroot aptplRecords).
Notation desired := (desired (K := K) (F := F) range).
Notation persist := (persist (K := K) (F := F) marshal).
Notation persistOnly := (persistOnly (K := K) (F := F) marshal).
Notation healIfDegraded := (healIfDegraded (K := K) (F := F) range mroot aptplRecords).
Notation commit := (commit (K := K) (F := F) range mroot aptplRecords marshal).

Lemma desired_total root cfg pc wh d : sound d →
  ∃ c d', desiredLIO range root cfg pc wh d = Some (c, d') ∧ reindexed d d'.
Proof.
  intros [Hwf HF].
  destruct (desired_defined range range_perm root cfg pc wh d Hwf HF) as (c & d' & Hd).
  exists c, d'. split; [done|].
  pose proof (desired_wf range range_perm root cfg pc wh d c d' Hwf Hd) as Hwf'.
  apply (desired_shape range range_perm) in Hd as (_ & _ & _ & _ & _ & Hd' & _); [|by apply wf_exports_ok].
  split; [done|]. intros _. split; [done|]. by rewrite Hd'.
Qed.

(** What [desired] leaves: the coordinator with a re-indexed database. *)
Definition reindex (c c' : coord) : Prop := ∃ d, reindexed (c_st c) d ∧ c' = set_st d c.
Lemma desired_post c : sound (c_st c) →
  post desired c (λ o c', (∃ cfg, o = Done cfg) ∧ reindex c c').
Proof.
  intros Hs. unfold AppCoordinator.desired. app_step. app_step.
  destruct (desired_total (c_root c) (c_cfg c) (c_prClearing c) (c_withheld c) _ Hs) as (cfg & d' & Hd & Hr).
  rewrite Hd. app_steps. split; [eauto|]. by exists d'.
Qed.

(** What [c'] is after a step that keeps the records: the frame, and the
    database up to export indexes. *)
Definition kept (c c' : coord) : Prop := frame c c' ∧ reindexed (c_st c) (c_st c').
Lemma kept_refl c : kept c c.
Proof. split; auto with glitr. Qed.
Lemma kept_trans c1 c2 c3 : kept c1 c2 → kept c2 c3 → kept c1 c3.
Proof. intros [] []. split; [by eapply frame_trans | by eapply reindexed_trans]. Qed.
Lemma reindex_kept c c' : reindex c c' → kept c c' ∧ same_belief c c'.
Proof. intros (d & Hd & ->). split; [split; [by constructor | done] | by constructor]. Qed.

(** Whether the kernel was brought to the desired state, as it is believed. *)
Record settled (ok : bool) (c : coord) : Prop := mkSettled {
  se_truthful : truthful c;
  se_ok : c_lastReconcileErr c = None ↔ ok = true
}.
Definition is_done {A} (o : outcome A) : bool := match o with Done _ => true | _ => false end.

(** Closes [kept c c'] and [settled ok c'] where [c'] is a record update. *)
Ltac by_update :=
  lazymatch goal with
  | |- kept _ _ => split; [by constructor | apply reindexed_refl]
  | |- settled _ _ => split; [split|]; cbn; intuition congruence
  end.

Lemma reconcileFull_post dcfg c :
  post (reconcileFull dcfg) c
    (λ o c', o ≠ Panic ∧ kept c c' ∧ c_st c' = c_st c ∧ settled (is_done o) c').
Proof.
  unfold AppCoordinator.reconcileFull, setReconcileErr, setReconcileOK. app_steps;
    (split_and!; [done | by_update | done | by_update]).
Qed.

Lemma reconcile_post c : sound (c_st c) →
  post reconcile c (λ o c', o ≠ Panic ∧ kept c c' ∧ settled (is_done o) c').
Proof.
  intros Hs. unfold AppCoordinator.reconcile. app_step. eapply post_mono; [by apply desired_post|].
  intros o c1 [[dcfg ->] Hr]. cbv beta iota.
  apply reindex_kept in Hr as [Hk Hb]. 
  assert (Hfull : ∀ c2, kept c c2 → post (reconcileFull dcfg) c2
    (λ o c', o ≠ Panic ∧ kept c c' ∧ settled (is_done o) c')).
  { intros c2 Hk2. eapply post_mono; [apply reconcileFull_post|].
    intros o c3 (Hp & Hk3 & _ & Hset). split_and!; [done | by eapply kept_trans | done]. }
  app_step. app_step. destruct (c_applied c1) as [applied|] eqn:Ha; [|by apply Hfull].
  destruct (Diff range applied dcfg) as [delta|]; [|by apply Hfull].
  app_step. app_step. destruct a as [reports [err|]]; cbn [snd].
  - app_step. app_step. destruct (is_stale err).
    + apply Hfull. eapply kept_trans; [done | by_update].
    + unfold setReconcileErr. app_steps. split_and!; [done | | by_update].
      eapply kept_trans; [done | by_update].
  - unfold setReconcileOK. app_steps. split_and!; [done | | by_update].
    eapply kept_trans; [done | by_update].
Qed.

Lemma healIfDegraded_post c : sound (c_st c) → truthful c →
  post healIfDegraded c (λ o c', o ≠ Panic ∧ kept c c' ∧ settled (is_done o) c').
Proof.
  intros Hs Ht. unfold AppCoordinator.healIfDegraded. app_step. app_step.
  destruct (c_lastReconcileErr c) as [err|] eqn:Hl.
  - app_step. app_step. eapply post_mono; [by apply reconcile_post|].
    intros [[]|e|] c1 (Hp & Hk & Hset); cbv beta iota; [app_step | app_step | done]; by split_and!.
  - app_step. split_and!; [done | apply kept_refl|]. split; [done|]. by rewrite Hl.
Qed.

Lemma persist_post c :
  post persist c (λ o c', o ≠ Panic ∧ frame c c' ∧ same_belief c c' ∧ c_st c' = c_st c).
Proof.
  unfold AppCoordinator.persist. app_steps;
    by repeat match goal with |- context [match ?x with _ => _ end] => destruct x end.
Qed.

(** A property of the database that implies soundness and does not depend on
    export indexes, nor on the identity a snapshot leaves out. *)
Record stable (I : db → Prop) : Prop := {
  stable_sound d : I d → sound d;
  stable_reindexed d d' : reindexed d d' → I d → I d';
  stable_snapshot d : I d → I (snapshotState d)
}.
Lemma sound_stable : stable sound.
Proof. split; [done | by intros d d' [_ ?] | by intros d ?%snapshot_sound]. Qed.
(** A mutation that keeps it, from any re-indexing of the database. *)
Definition keeps (I : db → Prop) (d : db) (mutate : db → result aerr db) : Prop :=
  ∀ d1 d2, reindexed d d1 → I d1 → mutate d1 = Ok d2 → I d2.

Context (I : db → Prop) (HI : stable I).

Lemma persistOnly_post mutate c : I (c_st c) → keeps I (c_st c) mutate →
  post (persistOnly mutate) c (λ o c', o ≠ Panic ∧ frame c c' ∧ same_belief c c' ∧ I (c_st c') ∧
    (is_done o = true → mutate (c_st c) = Ok (c_st c'))).
Proof.
  intros Hs Hm. unfold AppCoordinator.persistOnly. app_step. app_step.
  destruct (mutate (c_st c)) as [d'|e] eqn:Hd.
  - app_step. app_step. app_step. app_step. eapply post_mono; [apply persist_post|].
    pose proof (Hm _ _ (reindexed_refl _) Hs Hd) as Hs'.
    intros [[]|e|] c1 (Hp & Hf%frame_set_st & Hb%same_set_st & Hst); cbv beta iota; [| |done].
    + app_step. cbn in *. by rewrite Hst.
    + destruct (is_not_durable e); [app_step; by rewrite Hst|].
      app_steps. split_and!; try done; [by apply frame_to_st | by apply same_to_st | by apply (stable_snapshot I)].
  - app_steps. split_and!; try done; by apply (stable_snapshot I).
Qed.

Lemma commit_post mutate c : I (c_st c) → truthful c → keeps I (c_st c) mutate →
  post (commit mutate) c (λ o c', o ≠ Panic ∧ frame c c' ∧ truthful c' ∧ I (c_st c') ∧
    (is_done o = true → ∃ d1 d2, reindexed (c_st c) d1 ∧ mutate d1 = Ok d2 ∧ reindexed d2 (c_st c'))).
Proof.
  intros Hs Ht Hm. unfold AppCoordinator.commit. app_step.
  eapply post_mono; [apply healIfDegraded_post; [by apply (stable_sound I) | done]|].
  intros o c1 (Hp & [Hf Hr] & [Ht1 _]).
  assert (Hs1 : I (c_st c1)) by by apply (stable_reindexed I HI (c_st c)).
  destruct o as [[]|e|]; cbv beta iota; [|by split_and!..].
  assert (Hback : ∀ c2 e, frame c c2 → truthful c2 →
    post (restoreState (snapshotState (c_st c1)) ;!; (afail e : App unit)) c2
      (λ o c', o ≠ Panic ∧ frame c c' ∧ truthful c' ∧ I (c_st c') ∧
        (is_done o = true → ∃ d1 d2, reindexed (c_st c) d1 ∧ mutate d1 = Ok d2 ∧ reindexed d2 (c_st c')))).
  { intros c2 e Hf2 Ht2. app_steps. split_and!; [done | by apply frame_to_st | by destruct Ht2 | | done].
    by apply (stable_snapshot I). }
  app_step. app_step. destruct (mutate (c_st c1)) as [d'|e] eqn:Hd; [|by apply Hback].
  pose proof (Hm _ _ Hr Hs1 Hd) as Hs'.
  app_step. app_step. app_step. eapply post_mono; [by apply desired_post, (stable_sound I)|].
  intros o c2 [[dcfg ->] Hre]. cbv beta iota. apply reindex_kept in Hre as [[Hf2 Hr2] Hb2%same_set_st].
  assert (Hs2 : I (c_st c2)) by by apply (stable_reindexed I HI d').
  assert (Hf12 : frame c c2) by (eapply frame_trans; [exact Hf | by eapply frame_set_st]).
  assert (Ht2 : truthful c2) by by eapply same_belief_truthful.
  destruct (Config_Validate dcfg) as [[]|]; [|by apply Hback].
  app_step. app_step. eapply post_mono; [apply persist_post|].
  intros o c3 (Hp3 & Hf3 & Hb3 & Hst3).
  assert (frame c c3) by by eapply frame_trans.
  assert (truthful c3) by by eapply same_belief_truthful.
  assert (Hs3 : I (c_st c3)) by by rewrite Hst3.
  destruct o as [[]|e|]; cbv beta iota; [| |done].
  - eapply post_mono; [by apply reconcile_post, (stable_sound I)|]. intros o c4 (Hp4 & [Hf4 Hr4] & [Ht4 _]).
    split_and!; [done | by eapply frame_trans | apply Ht4.. | by apply (stable_reindexed I HI (c_st c3)) |].
    intros _. exists (c_st c1), d'. split_and!; [done..|]. rewrite Hst3 in Hr4. by eapply reindexed_trans.
  - destruct (is_not_durable e); [|by apply Hback].
    app_step. app_step. eapply post_mono; [by apply reconcile_post, (stable_sound I)|].
    intros o c4 (Hp4 & [Hf4 Hr4] & [Ht4 _]).
    assert (frame c c4) by by eapply frame_trans.
    destruct o as [[]|e'|]; cbv beta iota; [app_step | app_step | done];
      (split_and!; [done | done | apply Ht4.. | by apply (stable_reindexed I HI (c_st c3)) | done]).
Qed.
End steady.
