(* ===== verification/AppMutations.v ===== *)
(** * appliance: what each mutation does to a sound database

    Every change an operation commits, with the guards the operation checks
    before it, keeps the database [sound]. The four parts of soundness are
    treated apart; each is closed under dropping records, insensitive to their
    order, and extended by a record that clashes with none. First, what
    [newIdentity] and [newHostUUID] make of sixteen random bytes. *)

From S2P Require Import Prelude GoStrings Errors Netip LioModel AppModel AppDb AppWf.
From S2P Require Import AppTranslate AppTranslateProofs AppObjects AppHosts AppSteady.

(** ** Identifiers *)

Definition is_byte (z : Z) : Prop := 0 <= z < 256.
Definition random16_ok (b : list Z) : Prop := length b = 16%nat ∧ Forall is_byte b.

Lemma hex_char_lower d : 0 <= d < 16 → is_lower_hex (hex_char d) = true.
Proof.
  intros Hd. assert (HF : Forall (λ d, is_lower_hex (hex_char d) = true) (seqZ 0 16))
    by (repeat constructor).
  rewrite Forall_forall in HF. apply HF, elem_of_seqZ. lia.
Qed.
Lemma hex_byte z : is_byte z →
  is_lower_hex (hex_char (z / 16)) = true ∧ is_lower_hex (hex_char (z mod 16)) = true.
Proof.
  unfold is_byte. intros Hz. split; apply hex_char_lower.
  - split; [apply Z.div_pos; lia | apply Z.div_lt_upper_bound; lia].
  - apply Z.mod_pos_bound. lia.
Qed.

(** The stamp keeps a byte a byte, and fixes the high nibble of the one and the
    two high bits of the other. *)
Lemma lor_land_byte z m c : 0 <= m < 256 → 0 <= c < 256 → 0 <= z → is_byte (Z.lor (Z.land z m) c).
Proof.
  intros Hm Hc Hz. assert (0 <= Z.land z m) by (apply Z.land_nonneg; lia). split.
  - apply Z.lor_nonneg. lia.
  - assert (Hl : Z.lor (Z.land z m) c < 2 ^ 8); [|exact Hl].
    apply Z.log2_lt_cancel. rewrite Z.log2_pow2, Z.log2_lor by lia.
    apply Z.max_lub_lt.
    + eapply Z.le_lt_trans; [apply Z.log2_land; lia|]. apply Z.min_lt_iff. right.
      destruct (decide (m = 0)) as [->|]; [done|]. apply Z.log2_lt_pow2; lia.
    + destruct (decide (c = 0)) as [->|]; [done|]. apply Z.log2_lt_pow2; lia.
Qed.

(** The text [newIdentity] makes of the stamped bytes, as hex digits. *)
Lemma minted_uuid b : random16_ok b →
  validUUID (newIdentity_of b).1 = true ∧ isHex16 (newIdentity_of b).2 = true ∧
  newHostUUID_of b = (newIdentity_of b).1.
Proof.
  intros [Hl HF]. do 16 (destruct b as [|? b]; [done|]). destruct b; [|done].
  repeat match goal with H : Forall _ (_ :: _) |- _ => apply Forall_cons in H as [? H] end. clear HF Hl.
  unfold newHostUUID_of, newIdentity_of, stamp_v4, slice.
  cbn [list_insert insert nth take drop Nat.sub].
  match goal with |- context [Z.lor (Z.land ?z 15) 64] =>
    assert (is_byte (Z.lor (Z.land z 15) 64)) by (apply lor_land_byte; unfold is_byte in *; lia);
    generalize dependent (Z.lor (Z.land z 15) 64); intros end.
  match goal with |- context [Z.lor (Z.land ?z 63) 128] =>
    assert (is_byte (Z.lor (Z.land z 63) 128)) by (apply lor_land_byte; unfold is_byte in *; lia);
    generalize dependent (Z.lor (Z.land z 63) 128); intros end.
  repeat match goal with H : is_byte _ |- _ => apply hex_byte in H as [? ?] end.
  split_and!; [| |reflexivity].
  - unfold validUUID. apply andb_true_iff. split; [reflexivity|].
    cbn -[is_lower_hex hex_char Z.div Z.modulo].
    repeat (apply andb_true_iff; split; [first [reflexivity|assumption]|]). reflexivity.
  - unfold isHex16. apply andb_true_iff. split; [reflexivity|].
    cbn -[is_lower_hex hex_char Z.div Z.modulo].
    repeat (apply andb_true_iff; split; [assumption|]). reflexivity.
Qed.

(** ** Lists *)

(** The first match is replaced, or there is none. *)
Lemma update_first_perm {A} (p : A → bool) (f : A → A) l :
  (∃ x r, p x = true ∧ l ≡ₚ x :: r ∧ update_first p f l ≡ₚ f x :: r)
  ∨ update_first p f l = l.
Proof.
  induction l as [|x l IH]; [by right|]. simpl. destruct (p x) eqn:Hp.
  - left. by exists x, l.
  - destruct IH as [(y & r & Hy & Hl & Hu)|Hu].
    + left. exists y, (x :: r). split; [done|]. rewrite Hu, Hl. split; constructor.
    + right. by rewrite Hu.
Qed.
Lemma update_first_hit {A} (p : A → bool) (f : A → A) l :
  (∃ x, x ∈ l ∧ p x = true) → ∃ x, p x = true ∧ f x ∈ update_first p f l.
Proof.
  induction l as [|y l IH]; intros (x & Hx & Hp); [inversion Hx|]. simpl.
  destruct (p y) eqn:Hy; [exists y; split; [done | left]|].
  apply elem_of_cons in Hx as [->|Hx]; [congruence|].
  destruct IH as (z & Hz & Hin); [by exists x|]. exists z. split; [done | by right].
Qed.
Lemma update_first_same {A B} (g : A → B) (p : A → bool) f l :
  (∀ x, g (f x) = g x) → g <$> update_first p f l = g <$> l.
Proof.
  intros Hg. induction l as [|x l IH]; [done|]. simpl.
  destruct (p x); [by rewrite fmap_cons, Hg | by rewrite !fmap_cons, IH].
Qed.
Lemma NoDup_fmap_sublist {A B} (g : A → B) l k : l `sublist_of` k → NoDup (g <$> k) → NoDup (g <$> l).
Proof. intros Hs Hk. eapply sublist_NoDup; [exact Hk | by apply fmap_sublist]. Qed.
Lemma Forall_sublist {A} (P : A → Prop) l k : l `sublist_of` k → Forall P k → Forall P l.
Proof. induction 1; intros HF; [done | |]; inversion HF; subst; auto. Qed.
Lemma join_sublist {A B} (g : A → list B) l k :
  l `sublist_of` k → mjoin (g <$> l) `sublist_of` mjoin (g <$> k).
Proof.
  induction 1 as [|x l k Hs IH|x l k Hs IH]; [done | |]; rewrite ?fmap_cons; cbn [mjoin list_join].
  - by apply sublist_app.
  - by apply sublist_inserts_l.
Qed.
Lemma not_elem_fmap {A B} (g : A → B) x (l : list A) : (∀ y, y ∈ l → g y ≠ g x) → g x ∉ g <$> l.
Proof. intros Hy (y & Heq & Hin)%list_elem_of_fmap. by apply (Hy y). Qed.

(** ** The parts of soundness *)

Definition object_name (o : Object) : string * string := (o_Kind o, o_Name o).
Definition objects_ok (l : list Object) : Prop :=
  Forall (λ o, wf_object o ∧ sized o) l ∧ NoDup (o_UUID <$> l) ∧ NoDup (object_name <$> l).
Definition hosts_ok (l : list Host) : Prop :=
  Forall wf_host l ∧ NoDup (h_UUID <$> l) ∧ NoDup (h_Name <$> l) ∧ NoDup (mjoin (h_IQNs <$> l)).
Definition conns_ok (os hs : list string) (l : list Connection) : Prop :=
  Forall (wf_connection os hs) l ∧ NoDup ((λ cn, (cn_HostUUID cn, cn_ObjectUUID cn)) <$> l) ∧
  NoDup ((λ cn, (cn_HostUUID cn, cn_LUN cn)) <$> l).
Definition exports_wf (m : gmap string Z) : Prop :=
  (∀ u i, m !! u = Some i → validUUID u = true ∧ 0 <= i) ∧
  ∀ u v i, m !! u = Some i → m !! v = Some i → u = v.

Lemma sound_parts d : sound d ↔
  objects_ok (db_Objects d) ∧ hosts_ok (db_Hosts d) ∧
  conns_ok (o_UUID <$> db_Objects d) (h_UUID <$> db_Hosts d) (db_Connections d) ∧
  exports_wf (db_Exports d).
Proof.
  unfold sound, objects_ok, hosts_ok, conns_ok, exports_wf. rewrite Forall_and. split.
  - intros [[] ?]. by split_and!.
  - intros (((? & ?) & ? & ?) & (? & ? & ? & ?) & (? & ? & ?) & ? & ?). by split; [constructor|].
Qed.

#[export] Instance objects_ok_perm : Proper ((≡ₚ) ==> iff) objects_ok.
Proof.
  intros l k Hp. unfold objects_ok.
  f_equiv; [by apply Forall_Permutation|]. f_equiv; by apply NoDup_Permutation_proper, fmap_Permutation.
Qed.
#[export] Instance hosts_ok_perm : Proper ((≡ₚ) ==> iff) hosts_ok.
Proof.
  intros l k Hp. unfold hosts_ok. f_equiv; [by apply Forall_Permutation|].
  f_equiv; [by apply NoDup_Permutation_proper, fmap_Permutation|].
  f_equiv; [by apply NoDup_Permutation_proper, fmap_Permutation|].
  by apply NoDup_Permutation_proper, join_Permutation, fmap_Permutation.
Qed.

#[export] Instance conns_ok_perm os hs : Proper ((≡ₚ) ==> iff) (conns_ok os hs).
Proof.
  intros l k Hp. unfold conns_ok.
  f_equiv; [by apply Forall_Permutation|]. f_equiv; by apply NoDup_Permutation_proper, fmap_Permutation.
Qed.

Lemma objects_ok_sublist l k : l `sublist_of` k → objects_ok k → objects_ok l.
Proof.
  intros Hs (HF & Hu & Hn). split_and!;
    [by eapply Forall_sublist | by eapply NoDup_fmap_sublist..].
Qed.
Lemma hosts_ok_sublist l k : l `sublist_of` k → hosts_ok k → hosts_ok l.
Proof.
  intros Hs (HF & Hu & Hn & Hq). split_and!;
    [by eapply Forall_sublist | by eapply NoDup_fmap_sublist.. |].
  eapply sublist_NoDup; [exact Hq | by apply join_sublist].
Qed.
Lemma conns_ok_mono os hs os' hs' l k : l `sublist_of` k →
  (∀ cn, cn ∈ l → cn_ObjectUUID cn ∈ os → cn_ObjectUUID cn ∈ os') →
  (∀ cn, cn ∈ l → cn_HostUUID cn ∈ hs → cn_HostUUID cn ∈ hs') →
  conns_ok os hs k → conns_ok os' hs' l.
Proof.
  intros Hs Ho Hh (HF & Hp & Hl). split_and!; [|by eapply NoDup_fmap_sublist..].
  apply (Forall_sublist _ l) in HF; [|done]. rewrite Forall_forall in *.
  intros cn Hin. destruct (HF cn Hin). constructor; auto.
Qed.
Lemma exports_wf_subseteq (m m' : gmap string Z) : m ⊆ m' → exports_wf m' → exports_wf m.
Proof.
  intros Hs [Hu Hi]. split.
  - intros u i Hm. by eapply Hu, lookup_weaken.
  - intros u v i Hm Hm'. eapply Hi; by eapply lookup_weaken.
Qed.

Lemma objects_ok_cons o l : objects_ok (o :: l) ↔
  wf_object o ∧ sized o ∧ o_UUID o ∉ o_UUID <$> l ∧ object_name o ∉ object_name <$> l ∧ objects_ok l.
Proof.
  unfold objects_ok. rewrite Forall_cons, !fmap_cons, !NoDup_cons. tauto.
Qed.
Lemma hosts_ok_cons h l : hosts_ok (h :: l) ↔
  wf_host h ∧ h_UUID h ∉ h_UUID <$> l ∧ h_Name h ∉ h_Name <$> l ∧ NoDup (h_IQNs h) ∧
  (∀ q y, q ∈ h_IQNs h → y ∈ l → q ∉ h_IQNs y) ∧ hosts_ok l.
Proof.
  unfold hosts_ok. rewrite Forall_cons, !fmap_cons, !NoDup_cons. cbn [mjoin list_join].
  rewrite NoDup_app.
  assert (Hd : (∀ q, q ∈ h_IQNs h → q ∉ mjoin (h_IQNs <$> l))
               ↔ ∀ q y, q ∈ h_IQNs h → y ∈ l → q ∉ h_IQNs y).
  { split.
    - intros Hq q y Hin Hy Hqy. apply (Hq q Hin), list_elem_of_join.
      exists (h_IQNs y). split; [done|]. apply list_elem_of_fmap. by exists y.
    - intros Hq q Hin (qs & Hqs & (y & -> & Hy)%list_elem_of_fmap)%list_elem_of_join. by apply (Hq q y). }
  tauto.
Qed.
Lemma conns_ok_cons os hs cn l : conns_ok os hs (cn :: l) ↔
  wf_connection os hs cn ∧
  (∀ y, y ∈ l → cn_HostUUID y = cn_HostUUID cn →
     cn_ObjectUUID y ≠ cn_ObjectUUID cn ∧ cn_LUN y ≠ cn_LUN cn) ∧
  conns_ok os hs l.
Proof.
  unfold conns_ok. rewrite Forall_cons, !fmap_cons, !NoDup_cons. split.
  - intros ([Hc HF] & [Hp HNp] & [Hl HNl]). split_and!; try done. intros y Hy Hh. split; intros He.
    + apply Hp, list_elem_of_fmap. exists y. by rewrite Hh, He.
    + apply Hl, list_elem_of_fmap. exists y. by rewrite Hh, He.
  - intros (Hc & Hy & HF & HNp & HNl). split_and!; try done.
    + intros (y & [= He Ho] & Hin)%list_elem_of_fmap. by destruct (Hy y Hin).
    + intros (y & [= He Ho] & Hin)%list_elem_of_fmap. by destruct (Hy y Hin).
Qed.

(** ** Objects *)

Lemma objectByName_None d kind name : objectByName d kind name = None →
  ∀ o, o ∈ db_Objects d → object_name o ≠ (kind, name).
Proof.
  intros H o Ho [= <- <-]. apply first_None with (x := o) in H; [|done]. by rewrite !String.eqb_refl in H.
Qed.
Lemma resolveObject_elem d kind ref o : resolveObject d kind ref = Some o →
  o ∈ db_Objects d ∧ o_Kind o = kind.
Proof.
  unfold resolveObject, objectByName. destruct (first _ _) as [o'|] eqn:Hf.
  - intros [= <-]. apply first_Some in Hf as [Ho [Hk _]%andb_true_iff]. by apply String.eqb_eq in Hk.
  - destruct (object d ref) as [o'|] eqn:Ho; [|done].
    destruct (String.eqb_spec (o_Kind o') kind); [|done]. intros [= <-]. by apply object_Some in Ho as [? _].
Qed.

Lemma add_object_sound o d d' : wf_object o → sized o →
  o_UUID o ∉ o_UUID <$> db_Objects d → objectByName d (o_Kind o) (o_Name o) = None →
  sound d → add_object o d = Ok d' → sound d'.
Proof.
  intros Ho Hp Hu Hn [HO (HH & HC & HE)]%sound_parts [= <-]. apply sound_parts. cbn.
  split_and!; try done.
  - rewrite (comm (++)). apply objects_ok_cons. split_and!; try done.
    apply not_elem_fmap. intros y Hy. by apply (objectByName_None _ _ _ Hn).
  - eapply conns_ok_mono; [done | | done | exact HC]. intros cn _ Hin. rewrite fmap_app, elem_of_app. by left.
Qed.

(** A new name, or a new size, for the object some test selects. *)
Lemma change_object_sound p f d : (∀ o, o_UUID (f o) = o_UUID o ∧ o_BlockSize (f o) = o_BlockSize o ∧ o_Kind (f o) = o_Kind o) →
  (∀ o, p o = true → valid_name (o_Name o) → valid_name (o_Name (f o))) →
  (∀ o y, p o = true → y ∈ db_Objects d → object_name y = object_name (f o) → object_name o = object_name (f o)) →
  sound d → sound (with_Objects (update_first p f (db_Objects d)) d).
Proof.
  intros Hf Hname Hclash [HO (HH & HC & HE)]%sound_parts. apply sound_parts. cbn.
  rewrite update_first_same by apply Hf. split_and!; try done.
  destruct (update_first_perm p f (db_Objects d)) as [(x & r & Hx & Hl & ->)| ->]; [|done].
  assert (Hxr : ∀ y, y ∈ r → y ∈ db_Objects d) by (intros y Hy; rewrite Hl; by right).
  rewrite Hl in HO. apply objects_ok_cons in HO as ([Hu Hk Hn] & Hp & Hxu & Hxn & Hr).
  apply objects_ok_cons. destruct (Hf x) as (Hfu & Hfb & Hfk). split_and!; try done.
  - constructor; rewrite ?Hfu, ?Hfk; auto.
  - unfold sized. by rewrite Hfb.
  - by rewrite Hfu.
  - apply not_elem_fmap. intros y Hy He. apply Hxn.
    rewrite (Hclash x y Hx (Hxr y Hy) He), <- He. apply list_elem_of_fmap. by exists y.
Qed.

Lemma rename_object_sound kind old new d d' : valid_name new → objectByName d kind new = None →
  sound d → rename_object kind old new d = Ok d' → sound d'.
Proof.
  intros Hn Hfree Hs [= <-]. apply change_object_sound; [done | done | | done].
  intros o y [Hk _]%andb_true_iff Hy He. apply String.eqb_eq in Hk.
  destruct (objectByName_None _ _ _ Hfree y Hy). rewrite He. unfold object_name. simpl. by rewrite Hk.
Qed.
Lemma resize_object_sound uuid size d d' : sound d → resize_object uuid size d = Ok d' → sound d'.
Proof. intros Hs [= <-]. by apply change_object_sound. Qed.

Lemma delete_object_sound uuid d d' : connectionsOf d uuid = [] → sound d →
  delete_object uuid d = Ok d' → sound d'.
Proof.
  intros Hnone [HO (HH & HC & HE)]%sound_parts [= <-]. apply sound_parts. cbn. split_and!.
  - eapply objects_ok_sublist; [apply sublist_filter | done].
  - done.
  - eapply conns_ok_mono; [done | | done | exact HC].
    intros cn Hcn (o & He & Ho)%list_elem_of_fmap. apply list_elem_of_fmap. exists o. split; [done|].
    apply list_elem_of_filter. split; [|done]. intros Hu.
    assert (Hin : cn ∈ connectionsOf d uuid) by (apply list_elem_of_filter; by rewrite He, Hu).
    rewrite Hnone in Hin. inversion Hin.
  - eapply exports_wf_subseteq; [apply delete_subseteq | done].
Qed.

(** ** Hosts *)

Lemma hostByName_None d name : hostByName d name = None → ∀ h, h ∈ db_Hosts d → h_Name h ≠ name.
Proof.
  intros H h Hh <-. apply first_None with (x := h) in H; [|done]. by rewrite String.eqb_refl in H.
Qed.
Lemma resolveHost_elem d ref h : resolveHost d ref = Some h → h ∈ db_Hosts d.
Proof.
  unfold resolveHost, hostByName, host. destruct (first _ _) as [h'|] eqn:Hf.
  - intros [= <-]. by apply first_Some in Hf as [? _].
  - by intros [? _]%first_Some.
Qed.

(** The bindings of a request that passes [checkIQNs] are valid, distinct, and
    no other host's. *)
Definition free_iqns (hosts : list Host) (except : string) (iqns : list string) : Prop :=
  Forall (λ q, ValidInitiatorIQN q = true) iqns ∧ NoDup iqns ∧
  ∀ q h, q ∈ iqns → h ∈ hosts → h_UUID h ≠ except → q ∉ h_IQNs h.

Lemma iqnOwner_none d q except : Forall wf_host (db_Hosts d) → iqnOwner d q except = "" →
  ∀ h, h ∈ db_Hosts d → h_UUID h ≠ except → q ∉ h_IQNs h.
Proof.
  intros HF Ho h Hh Hne Hq. unfold iqnOwner in Ho.
  destruct (first _ _) as [h'|] eqn:Hf.
  - apply first_Some in Hf as [Hh' _]. rewrite Forall_forall in HF. destruct (HF h' Hh') as [Hu _ _].
    by rewrite Ho in Hu.
  - apply first_None with (x := h) in Hf; [|done]. apply andb_false_iff in Hf as [Hf|Hf].
    + by apply negb_false_iff, String.eqb_eq in Hf.
    + rewrite any_false in Hf. specialize (Hf q Hq). by rewrite String.eqb_refl in Hf.
Qed.

Lemma checkIQNs_free d iqns except : Forall wf_host (db_Hosts d) →
  checkIQNs d iqns except = Ok tt → free_iqns (db_Hosts d) except iqns.
Proof.
  intros HF Hc. unfold checkIQNs in Hc. apply rbind_Ok in Hc as (seen & Hs & _).
  apply (rfold_distinct_sound (λ s k, k ∈ s) id
    (λ q, ValidInitiatorIQN q = true ∧ iqnOwner d q except = "")) in Hs as (HP & Hnd & _).
  - rewrite list_fmap_id in Hnd. unfold free_iqns. rewrite (Forall_forall _ iqns) in HP. split_and!; [|done|].
    + apply Forall_forall. intros q Hq. by apply HP.
    + intros q h Hq. apply iqnOwner_none; [done|]. by apply HP.
  - intros s q s'. unfold check_iqn, validIQN. destruct (ValidInitiatorIQN q); [|done]. cbn [negb].
    destruct (any (String.eqb q) s) eqn:Ha; [done|].
    destruct (String.eqb_spec (iqnOwner d q except) ""); [|done]. intros [= <-].
    split_and!; [done..| |intros k; by rewrite elem_of_cons].
    intros Hin. rewrite any_false in Ha. specialize (Ha q Hin). by rewrite String.eqb_refl in Ha.
Qed.

Lemma add_host_sound h d d' : validUUID (h_UUID h) = true → valid_name (h_Name h) →
  h_UUID h ∉ h_UUID <$> db_Hosts d → hostByName d (h_Name h) = None →
  (∀ y, y ∈ db_Hosts d → h_UUID y ≠ "") → free_iqns (db_Hosts d) "" (h_IQNs h) →
  sound d → add_host h d = Ok d' → sound d'.
Proof.
  intros Hu Hn Hfresh Hfree Hne (Hv & Hnd & Hq) [HO (HH & HC & HE)]%sound_parts [= <-].
  apply sound_parts. cbn. split_and!; try done.
  - rewrite (comm (++)). apply hosts_ok_cons. split_and!; try done.
    + apply not_elem_fmap. by apply hostByName_None.
    + intros q y Hin Hy. apply Hq; auto.
  - eapply conns_ok_mono; [done | done | | exact HC]. intros cn _ Hin. rewrite fmap_app, elem_of_app. by left.
Qed.

Lemma rename_host_sound old new d d' : valid_name new → hostByName d new = None →
  sound d → rename_host old new d = Ok d' → sound d'.
Proof.
  intros Hn Hfree [HO (HH & HC & HE)]%sound_parts [= <-]. apply sound_parts. cbn.
  rewrite update_first_same by done. split_and!; try done.
  destruct (update_first_perm (λ h, String.eqb (h_Name h) old) (set_HostName new) (db_Hosts d))
    as [(x & r & Hx & Hl & ->)| ->]; [|done].
  assert (Hxr : ∀ y, y ∈ r → y ∈ db_Hosts d) by (intros y Hy; rewrite Hl; by right).
  rewrite Hl in HH. apply hosts_ok_cons in HH as ([Hu Hnm Hi] & Hxu & Hxn & Hnd & Hq & Hr).
  apply hosts_ok_cons. split_and!; try done. apply (not_elem_fmap _ (set_HostName new x)).
  intros y Hy. by apply (hostByName_None d), Hxr.
Qed.

Lemma rebind_host_sound uuid next d d' : free_iqns (db_Hosts d) uuid next →
  sound d → rebind_host uuid next d = Ok d' → sound d'.
Proof.
  intros (Hv & Hnd & Hq) [HO (HH & HC & HE)]%sound_parts [= <-]. apply sound_parts. cbn.
  rewrite update_first_same by done. split_and!; try done.
  destruct (update_first_perm (λ h, String.eqb (h_UUID h) uuid) (set_IQNs next) (db_Hosts d))
    as [(x & r & Hx & Hl & ->)| ->]; [|done].
  apply String.eqb_eq in Hx as <-.
  assert (Hxr : ∀ y, y ∈ r → y ∈ db_Hosts d) by (intros y Hy; rewrite Hl; by right).
  rewrite Hl in HH. apply hosts_ok_cons in HH as ([Hu Hnm Hi] & Hxu & Hxn & _ & _ & Hr).
  apply hosts_ok_cons. split_and!; try done. intros q y Hin Hy. apply (Hq q y Hin); [by apply Hxr|].
  intros He. apply Hxu, list_elem_of_fmap. by exists y.
Qed.

Lemma delete_host_sound uuid d d' : connectionsOfHost d uuid = [] → sound d →
  delete_host uuid d = Ok d' → sound d'.
Proof.
  intros Hnone [HO (HH & HC & HE)]%sound_parts [= <-]. apply sound_parts. cbn. split_and!; try done.
  - eapply hosts_ok_sublist; [apply sublist_filter | done].
  - eapply conns_ok_mono; [done | done | | exact HC].
    intros cn Hcn (h & He & Hh)%list_elem_of_fmap. apply list_elem_of_fmap. exists h. split; [done|].
    apply list_elem_of_filter. split; [|done]. intros Hu.
    assert (Hin : cn ∈ connectionsOfHost d uuid) by (apply list_elem_of_filter; by rewrite He, Hu).
    rewrite Hnone in Hin. inversion Hin.
Qed.

(** ** Connections *)

Lemma connect_scan_fresh o h lun l : connect_scan o h lun l = Ok false →
  ∀ y, y ∈ l → cn_HostUUID y = h_UUID h → cn_ObjectUUID y ≠ o_UUID o ∧ cn_LUN y ≠ lun.
Proof.
  induction l as [|cn l IH]; intros Hs y Hy Hh; [inversion Hy|]. cbn [connect_scan] in Hs.
  destruct (String.eqb_spec (cn_ObjectUUID cn) (o_UUID o)) as [Ho|Ho],
    (String.eqb_spec (cn_HostUUID cn) (h_UUID h)) as [Hc|Hc]; cbn [andb] in Hs;
    destruct (Z.eqb_spec (cn_LUN cn) lun) as [Hl|Hl]; try done;
    apply elem_of_cons in Hy as [->|Hy]; auto.
Qed.

Lemma connect_sound o h lun d d' : o ∈ db_Objects d → h ∈ db_Hosts d → 0 <= lun <= maxLUN →
  connect_scan o h lun (db_Connections d) = Ok false →
  sound d → connect (o_UUID o) (h_UUID h) lun d = Ok d' → sound d'.
Proof.
  intros Ho Hh Hl Hscan Hs. pose proof (wf_exports_ok d (proj1 Hs)) as Hok.
  apply sound_parts in Hs as [HO (HH & HC & HE)]. unfold connect.
  pose proof (exportIndex_spec (o_UUID o) _ Hok) as Hspec.
  destruct (exportIndex (o_UUID o) (db_Exports d)) as [i ex]. destruct Hspec as (_ & Hsub & [Hpos Hinj] & Hdom).
  intros [= <-]. apply sound_parts. cbn. split_and!; try done.
  - rewrite (comm (++)). apply conns_ok_cons. split_and!; [|by apply connect_scan_fresh | done].
    constructor; [done | |]; apply list_elem_of_fmap; by eexists.
  - split; [|done]. intros u j Hu. split; [|by eapply Hpos]. apply elem_of_dom_2 in Hu.
    rewrite Hdom, elem_of_union, elem_of_singleton in Hu. destruct Hu as [->|[j' Hu]%elem_of_dom].
    + destruct HO as (HF & _). rewrite Forall_forall in HF. apply (HF o Ho).
    + by apply (proj1 HE u j').
Qed.

Lemma disconnect_sound ou hu d d' : sound d → disconnect ou hu d = Ok d' → sound d'.
Proof.
  intros [HO (HH & HC & HE)]%sound_parts [= <-]. apply sound_parts. cbn. split_and!; try done.
  - eapply conns_ok_mono; [apply sublist_filter | done..].
  - eapply exports_wf_subseteq; [apply map_filter_subseteq | done].
Qed.

Lemma replace_portals_sound ps d d' : sound d → replace_portals ps d = Ok d' → sound d'.
Proof. intros Hs%sound_parts [= <-]. by apply sound_parts. Qed.
