(* ===== verification/AppRequests.v ===== *)
(** * appliance: what holds between requests

    [quiescent] is the invariant of the coordinator between two requests: the
    database is sound, what /health publishes is what the coordinator believes,
    and no recorded object is held back from its initiators without being
    published as withheld. Every operation on volumes, snapshots, hosts,
    connections and portals keeps it and does not panic, whatever the kernel
    and the disk answer. *)

From S2P Require Import Prelude GoStrings Errors Netip LioModel Configfs LioAptpl LioApply LioSync.
From S2P Require Import LioDelta LioStranded AppModel AppDb AppWf AppPortals AppTranslate AppTranslateProofs.
From S2P Require Import Storage AppAptpl AppCoordinator AppObjects AppHosts AppIdentity AppClear.
From S2P Require Import AppRun AppSteady AppMutations.

Definition admissible (pc : string) (wh : gmap string string) (d : db) : Prop :=
  sound d ∧ (pc ∈ o_UUID <$> db_Objects d → is_Some (wh !! pc)).
Record quiescent (c : coord) : Prop := mkQuiescent {
  qu_admissible : admissible (c_prClearing c) (c_withheld c) (c_st c);
  qu_truthful : truthful c;
  qu_clearing : hl_clearing (c_health c) = "";
  qu_names : hl_withheldNames (c_health c) = c_withheld c
}.

Lemma admissible_stable pc wh : stable (admissible pc wh).
Proof.
  split.
  - by intros d [? _].
  - intros d d' Hr [Hs Hp]. split; [by apply Hr|]. by rewrite (reindexed_objects _ _ Hr).
  - intros d [?%snapshot_sound Hp]. by split.
Qed.
Lemma quiescent_frame c c' : quiescent c → frame c c' → truthful c' →
  admissible (c_prClearing c) (c_withheld c) (c_st c') → quiescent c'.
Proof.
  intros [] [] Ht Ha. constructor; [|done | congruence..]. congruence.
Qed.
(** A mutation that, from any re-indexing, keeps soundness and records no new
    object. *)
Definition calm (mutate : db → result aerr db) (d : db) : Prop :=
  ∀ e d2, sound (with_Exports e d) → mutate (with_Exports e d) = Ok d2 →
    sound d2 ∧ ∀ u, u ∈ o_UUID <$> db_Objects d2 → u ∈ o_UUID <$> db_Objects d.
Lemma reindexed_inv d d1 : reindexed d d1 → ∃ e, d1 = with_Exports e d.
Proof. intros [-> _]. by eexists. Qed.
Lemma keeps_admissible pc wh d mutate : calm mutate d → keeps (admissible pc wh) d mutate.
Proof.
  intros Hm d1 d2 [e ->]%reindexed_inv [Hs Hp] Hd. destruct (Hm e d2 Hs Hd) as [Hs2 Hu].
  split; [done|]. intros Hin. by apply Hp, Hu.
Qed.

Definition fresh_draw (c : coord) (b : list Z) : Prop :=
  random16_ok b ∧ (newIdentity_of b).1 ∉ o_UUID <$> db_Objects (c_st c) ∧
  (newIdentity_of b).1 ∉ h_UUID <$> db_Hosts (c_st c) ∧ (newIdentity_of b).1 ≠ c_prClearing c.

Section requests.
Context {K F : Type} `{Kernel K} `{Files F}.
Context (range : ∀ A, list A → list A) (range_perm : ∀ A (l : list A), range A l ≡ₚ l).
Context (mroot : string) (aptplRecords : option (Backstore → ST K (list string))).
Context (marshal : db → string).

Notation App := (App K F).
Notation world := (world K F).
Notation post := (post (K := K) (F := F)).

(** The sixteen bytes a request may draw are fresh. *)
Definition fresh (w : world) : Prop :=
  ∀ b f', fl_random (w_f w) = (Ok b, f') → fresh_draw (w_c w) b.

(** ** Every request keeps the invariant *)

(** What is shown of a request: it does not panic and leaves a quiescent
    coordinator. *)
Definition safe {A} (o : outcome A) (c : coord) : Prop := o ≠ Panic ∧ quiescent c.

Notation commit := (commit (K := K) (F := F) range mroot aptplRecords marshal).
Notation persistOnly := (persistOnly (K := K) (F := F) marshal).
Notation healIfDegraded := (healIfDegraded (K := K) (F := F) range mroot aptplRecords).
Notation reconcile := (reconcile (K := K) (F := F) range mroot aptplRecords).

Lemma commit_does mutate c : quiescent c → calm mutate (c_st c) →
  post (commit mutate) c (λ o c', safe o c' ∧
    (is_done o = true → ∃ d1 d2, reindexed (c_st c) d1 ∧ mutate d1 = Ok d2 ∧ reindexed d2 (c_st c'))).
Proof.
  intros Hq Hm. eapply post_mono.
  - apply (commit_post range range_perm mroot aptplRecords marshal
             (admissible (c_prClearing c) (c_withheld c)) (admissible_stable _ _)).
    + apply Hq.
    + apply Hq.
    + by apply keeps_admissible.
  - intros o c' (Hp & Hf & Ht & Ha & Hd). split; [split; [done | by eapply quiescent_frame] | done].
Qed.
Lemma commit_safe mutate c : quiescent c → calm mutate (c_st c) → post (commit mutate) c safe.
Proof. intros Hq Hm. eapply post_mono; [by apply commit_does|]. by intros o c' [? _]. Qed.
Lemma persistOnly_safe mutate c : quiescent c → calm mutate (c_st c) →
  post (persistOnly mutate) c (λ o c', safe o c' ∧ (is_done o = true → mutate (c_st c) = Ok (c_st c'))).
Proof.
  intros Hq Hm. eapply post_mono.
  - apply (persistOnly_post marshal
             (admissible (c_prClearing c) (c_withheld c)) (admissible_stable _ _)).
    + apply Hq.
    + by apply keeps_admissible.
  - intros o c' (Hp & Hf & Hb & Ha & Hd). split; [|done]. split; [done|].
    eapply quiescent_frame; [done | done | | done]. eapply same_belief_truthful; [done | apply Hq].
Qed.
Lemma kept_quiescent c c' : quiescent c → kept c c' → truthful c' → quiescent c'.
Proof.
  intros Hq [Hf Hr] Ht. eapply quiescent_frame; [done..|].
  eapply stable_reindexed; [apply admissible_stable | exact Hr | apply Hq].
Qed.
Lemma heal_safe c : quiescent c →
  post healIfDegraded c (λ o c', safe o c' ∧ kept c c').
Proof.
  intros Hq. eapply post_mono; [apply healIfDegraded_post; [done | apply Hq..]|].
  intros o c' (Hp & Hk & Ht & _). split; [|done]. split; [done|]. by eapply kept_quiescent.
Qed.
Lemma reconcile_safe c : quiescent c → post reconcile c safe.
Proof.
  intros Hq. eapply post_mono; [apply reconcile_post; [done | apply Hq]|].
  intros o c' (Hp & Hk & Ht & _). split; [done|]. by eapply kept_quiescent.
Qed.

(** ** Volumes and snapshots *)

Lemma wf_name n : checkName n = Ok tt → valid_name n.
Proof.
  unfold checkName. destruct (validName n) as [[]|] eqn:Hv; [|done]. intros _. by apply validName_spec.
Qed.

Lemma Rename_safe kind ref new c : quiescent c → post (Rename marshal kind ref new) c safe.
Proof.
  intros Hq. unfold Rename. app_steps; try by split.
  destruct a. apply wf_name in H1.
  destruct (resolveObject_elem _ _ _ _ Heqo) as [Hin Hk].
  eapply post_mono; [apply persistOnly_safe; [done|]|].
  - intros e d2 Hs Hd. split; [by apply (rename_object_sound kind (o_Name o) new (with_Exports e (c_st c)))|].
    revert Hd. intros [= <-].
    cbn. by rewrite update_first_same.
  - intros [[]|e|] c1 [[Hp Hq1] Hd]; [|by split|done]. app_steps; try by split.
    exfalso. specialize (Hd eq_refl). injection Hd as Hd.
    destruct (update_first_hit (is_named kind (o_Name o)) (set_Name new) (db_Objects (c_st c)))
      as (x & Hx & Hu).
    { exists o. split; [done|]. unfold is_named. by rewrite Hk, !String.eqb_refl. }
    rewrite <- Hd in Heqo1. unfold objectByName in Heqo1.
    apply first_None with (x := set_Name new x) in Heqo1; [|done]. cbn in Heqo1.
    unfold is_named in Hx. apply andb_true_iff in Hx as [Hx _]. by rewrite Hx, String.eqb_refl in Heqo1.
Qed.

Lemma releaseHold_safe uuid c : quiescent c → uuid ∉ o_UUID <$> db_Objects (c_st c) →
  post (releaseHold uuid) c (λ o c', safe o c' ∧ is_done o = true).
Proof.
  intros Hq Hu. unfold releaseHold. app_steps; [|by split].
  destruct Hq as [[Hs Hp] Ht Hc Hn]. split; [|done]. split; [done|]. constructor; [split; [done|] | by destruct Ht | done | done].
  intros Hin. cbn. rewrite lookup_delete_ne; [by apply Hp|]. intros ->. by apply Hu.
Qed.

Lemma no_conns l : (0 <? @length Connection l)%nat = false → l = [].
Proof. by destruct l. Qed.

Lemma Delete_safe kind ref c : quiescent c →
  post (Delete range mroot aptplRecords marshal kind ref) c safe.
Proof.
  intros Hq. unfold Delete. app_step. app_step. destruct (resolveObject _ _ _) as [o|]; [|by app_step].
  destruct (0 <? length _)%nat eqn:Hnone; [by app_step|]. apply no_conns in Hnone.
  app_step. eapply post_mono; [by apply heal_safe|]. intros [[]|e|] c1 [[Hp Hq1] [_ Hr]]; [|by split|done].
  apply reindexed_inv in Hr as [ex Hst].
  app_step. eapply post_mono; [apply persistOnly_safe; [done|]|].
  { intros e d2 Hs Hd. rewrite Hst in Hs, Hd |- *.
    split; [by apply (delete_object_sound (o_UUID o) (with_Exports e (with_Exports ex (c_st c))))|].
    injection Hd as <-. cbn. intros u (x & -> & Hx)%list_elem_of_fmap.
    apply list_elem_of_fmap. exists x. split; [done|]. by apply list_elem_of_filter in Hx as [_ ?]. }
  intros [[]|e|] c2 [[Hp2 Hq2] Hd]; [|by split|done]. specialize (Hd eq_refl). injection Hd as Hd.
  app_step. unfold discardSavedPR. app_step. app_step.
  assert (Hrel : post (releaseHold (o_UUID o)) c2 (λ o c', safe o c' ∧ is_done o = true)).
  { apply releaseHold_safe; [done|]. rewrite <- Hd. cbn.
    intros (x & Hx & [Hne _]%list_elem_of_filter)%list_elem_of_fmap. by rewrite Hx in Hne. }
  assert (Hfin : post (releaseHold (o_UUID o) ;!; (let! c := get in in_files (Store_Delete (c_root c) (o_UUID o))))
                   c2 safe).
  { app_step. eapply post_mono; [exact Hrel|]. intros [[]|e|] c3 [[Hp3 Hq3] Hdone]; [|done..]. by app_steps. }
  destruct (_ || _); [app_step; exact Hfin|].
  app_step. app_step. app_step; app_step; exact Hfin.
Qed.

Lemma Resize_safe kind ref size c : quiescent c →
  post (Resize range mroot aptplRecords marshal kind ref size) c safe.
Proof.
  intros Hq. unfold Resize. app_steps; try by split.
  eapply post_mono; [by apply heal_safe|]. intros [[]|e|] c1 [[Hp Hq1] _]; [|by split|done].
  app_step. app_step. app_step. app_step; [|by split].
  app_step. eapply post_mono; [apply persistOnly_safe; [done|]|].
  { intros ex d2 Hs Hd. split; [by eapply resize_object_sound|]. injection Hd as <-.
    cbn. by rewrite update_first_same. }
  intros [[]|e|] c2 [[Hp2 Hq2] _]; [|by split|done].
  app_step. eapply post_mono; [by apply reconcile_safe|]. intros [[]|e|] c3 [Hp3 Hq3]; [|by split|done].
  by app_step.
Qed.

(** ** Hosts and connections *)

Lemma RenameHost_safe ref new c : quiescent c → post (RenameHost marshal ref new) c safe.
Proof.
  intros Hq. unfold RenameHost. app_steps; try by split.
  destruct a. apply wf_name in H1. pose proof (resolveHost_elem _ _ _ Heqo) as Hin.
  eapply post_mono; [apply persistOnly_safe; [done|]|].
  - intros e d2 Hs Hd. split; [|by injection Hd as <-].
    by apply (rename_host_sound (h_Name h) new (with_Exports e (c_st c))).
  - intros [[]|e|] c1 [[Hp Hq1] Hd]; [|by split|done]. app_steps; try by split.
    exfalso. specialize (Hd eq_refl). injection Hd as Hd.
    destruct (update_first_hit (λ x, String.eqb (h_Name x) (h_Name h)) (set_HostName new) (db_Hosts (c_st c)))
      as (x & Hx & Hu).
    { exists h. split; [done|]. apply String.eqb_refl. }
    rewrite <- Hd in Heqo1. apply (hostByName_None _ _ Heqo1) in Hu. done.
Qed.

Lemma backstoreOf_post uuid c : quiescent c →
  post (backstoreOf range uuid) c (λ o c', (∃ bs, o = Done bs) ∧ quiescent c' ∧ kept c c').
Proof.
  intros Hq. unfold backstoreOf. app_step.
  eapply post_mono; [apply desired_post; [done | apply Hq]|].
  intros o c1 [[cfg ->] [Hk Hb]%reindex_kept]. app_step. split_and!; [by eexists| |done].
  eapply kept_quiescent; [done..|]. eapply same_belief_truthful; [done | apply Hq].
Qed.
Lemma fenceLossWarningFor_post uuid losing dh action c : quiescent c →
  post (fenceLossWarningFor range mroot uuid losing dh action) c
    (λ o c', (∃ w, o = Done w) ∧ quiescent c' ∧ kept c c').
Proof.
  intros Hq. unfold fenceLossWarningFor. app_step. app_step.
  assert (Hk : kept c c) by apply kept_refl.
  destruct (object _ _) as [v|]; [|app_step; by split_and!; eauto].
  app_step. eapply post_mono; [by apply backstoreOf_post|].
  intros o c1 ([bs ->] & Hq1 & Hk1). cbv beta iota.
  app_steps; by split_and!; eauto.
Qed.
Lemma collect_warnings_post losing h l c : quiescent c →
  post (collect_warnings range mroot losing h l) c (λ o c', (∃ w, o = Done w) ∧ quiescent c' ∧ kept c c').
Proof.
  revert c. induction l as [|cn l IH]; intros c Hq; cbn [collect_warnings].
  { app_step. split_and!; [by eexists | done | apply kept_refl]. }
  destruct (negb _); [by apply IH|]. app_step.
  eapply post_mono; [by apply fenceLossWarningFor_post|]. intros o c1 ([w ->] & Hq1 & Hk1). cbv beta iota.
  app_step. eapply post_mono; [by apply IH|]. intros o c2 ([ws ->] & Hq2 & Hk2). cbv beta iota.
  app_step. split_and!; [by eexists | done | by eapply kept_trans].
Qed.

Lemma calm_same (mutate : db → result aerr db) d :
  (∀ e d2, mutate (with_Exports e d) = Ok d2 → db_Objects d2 = db_Objects d) →
  (∀ e d2, sound (with_Exports e d) → mutate (with_Exports e d) = Ok d2 → sound d2) → calm mutate d.
Proof. intros Ho Hs e d2 Hd Hm. split; [by eapply Hs|]. by rewrite (Ho e d2 Hm). Qed.

Lemma sound_hosts d : sound d → Forall wf_host (db_Hosts d).
Proof. by intros [[] _]. Qed.

(** The tail [r, err := commit(...)] of an operation that looks at the error. *)
Lemma try_commit_safe {A} mutate (g : result aerr unit → App A) c (Q : outcome A → coord → Prop) :
  quiescent c → calm mutate (c_st c) → (∀ r c', quiescent c' → post (g r) c' Q) →
  post (let! r := atry (commit mutate) in g r) c Q.
Proof.
  intros Hq Hm Hg. app_step. app_step. eapply post_mono; [by apply commit_safe|].
  intros [[]|e|] c' [Hp Hq']; [by apply Hg..|done].
Qed.

Lemma SetBindings_safe ref replace add remove c : quiescent c →
  post (SetBindings range mroot aptplRecords marshal ref replace add remove) c safe.
Proof.
  intros Hq. unfold SetBindings. app_step. app_step. destruct (resolveHost _ _) as [h|]; [|by app_step].
  cbv zeta. set (next := next_bindings _ _ _ _).
  app_step. app_step; [|by split]. destruct a.
  apply checkIQNs_free in H1; [|by apply sound_hosts, Hq].
  app_step.
  assert (Hcommit : ∀ warnings c1, quiescent c1 → kept c c1 →
    post (let! r := atry (commit (rebind_host (h_UUID h) next)) in
          aret (warnings : list fence_warning, match r with Ok _ => Ok (set_IQNs next h) | Err e => Err e end))
      c1 safe).
  { intros warnings c1 Hq1 [_ Hr]. apply reindexed_inv in Hr as [ex Hst].
    apply try_commit_safe; [done| |by intros; app_step].
    rewrite Hst. apply calm_same; [by intros e d2 [= <-]|].
    intros e d2 Hs. by apply (rebind_host_sound (h_UUID h) next (with_Exports e (with_Exports ex (c_st c)))). }
  destruct (_ <? _)%nat.
  - eapply post_mono; [by apply collect_warnings_post|]. intros o c1 ([w ->] & Hq1 & Hk). by apply Hcommit.
  - app_step. apply Hcommit; [done | apply kept_refl].
Qed.

Lemma DeleteHost_safe ref c : quiescent c →
  post (DeleteHost range mroot aptplRecords marshal ref) c safe.
Proof.
  intros Hq. unfold DeleteHost. app_step. app_step. destruct (resolveHost _ _) as [h|]; [|by app_step].
  destruct (0 <? length _)%nat eqn:Hnone; [by app_step|]. apply no_conns in Hnone.
  apply commit_safe; [done|]. apply calm_same; [by intros e d2 [= <-]|].
  intros e d2 Hs. by apply (delete_host_sound (h_UUID h) (with_Exports e (c_st c))).
Qed.

Lemma connect_objects o h lun d d2 : connect o h lun d = Ok d2 → db_Objects d2 = db_Objects d.
Proof. unfold connect. destruct (exportIndex _ _). by intros [= <-]. Qed.

(** What a creation adds to the records. *)
Definition adds {A B} (g : db → list B) (new : A → B → Prop) (c : coord) (o : outcome (A * bool)) (c' : coord) : Prop :=
  safe o c' ∧
  match o with Done (a, true) => ∃ b, new a b ∧ g (c_st c') = g (c_st c) ++ [b] | _ => True end.
Lemma adds_fail {A B} (g : db → list B) (new : A → B → Prop) c e c' : quiescent c' → adds g new c (Fail e) c'.
Proof. by split. Qed.
Lemma adds_known {A B} (g : db → list B) (new : A → B → Prop) c a c' : quiescent c' →
  adds g new c (Done (a, false)) c'.
Proof. by split. Qed.
(** After a commit that appends to [g], which export indexes do not matter to. *)
Lemma commit_adds {A B} (g : db → list B) (new : A → B → Prop) mutate c (k : unit → App (A * bool)) b :
  quiescent c → calm mutate (c_st c) → (∀ e d, g (with_Exports e d) = g d) →
  (∀ d d', mutate d = Ok d' → g d' = g d ++ [b]) →
  (∀ c', quiescent c' → post (k tt) c' (λ o c2, c2 = c' ∧ ∃ x, o = Done (x, true) ∧ new x b)) →
  post (commit mutate ;!; k tt) c (adds g new c).
Proof.
  intros Hq Hm Hg Happ Hk. app_step. eapply post_mono; [by apply commit_does|].
  intros [[]|e|] c1 [[Hp Hq1] Hd]; [|by split|done].
  destruct (Hd eq_refl) as (d1 & d2 & [Hr1 _] & Hmu & [Hr2 _]).
  eapply post_mono; [by apply Hk|]. intros o c2 [-> (x & -> & Hx)]. split; [by split|].
  exists b. split; [done|]. rewrite Hr2, Hg, (Happ _ _ Hmu), Hr1, Hg. done.
Qed.

Lemma Connect_adds kind objectRef hostRef lun c : quiescent c →
  post (Connect range mroot aptplRecords marshal kind objectRef hostRef lun) c
    (adds db_Connections (λ info cn, cn_LUN cn = ci_LUN info) c).
Proof.
  intros Hq. unfold Connect. app_step. app_step.
  destruct (resolveObject _ _ _) as [o|] eqn:Ho; [|by app_step].
  destruct (negb _); [by app_step|].
  destruct (resolveHost _ _) as [h|] eqn:Hh; [|by app_step].
  destruct lun as [lun|]; [|by app_step].
  destruct (_ || _) eqn:Hlun; [by app_step|]. bool_facts.
  app_step. app_step; [|by split]. destruct a; [by app_steps|].
  apply (commit_adds _ _ _ _ (λ _, let! c := get in aret (connInfo c o lun, true))
           (mkConnection (o_UUID o) (h_UUID h) lun)); try done.
  - apply calm_same; [intros e d2 Hd; by apply connect_objects in Hd|].
    intros e d2 Hs. apply (connect_sound o h lun (with_Exports e (c_st c))); try done.
    + by apply resolveObject_elem in Ho as [? _].
    + by apply resolveHost_elem in Hh.
  - intros d d'. unfold connect. destruct (exportIndex _ _). by intros [= <-].
  - intros c' Hq'. app_steps. split; [done|]. by eexists.
Qed.
Lemma Connect_safe kind objectRef hostRef lun c : quiescent c →
  post (Connect range mroot aptplRecords marshal kind objectRef hostRef lun) c safe.
Proof. intros Hq. eapply post_mono; [by apply Connect_adds|]. by intros o c' [? _]. Qed.

Lemma Disconnect_safe kind objectRef hostRef c : quiescent c →
  post (Disconnect range mroot aptplRecords marshal kind objectRef hostRef) c safe.
Proof.
  intros Hq. unfold Disconnect. app_step. app_step.
  destruct (resolveObject _ _ _) as [o|]; [|by app_step].
  destruct (resolveHost _ _) as [h|]; [|by app_step].
  destruct (negb _); [by app_step|].
  app_step. eapply post_mono; [by apply heal_safe|]. intros [[]|e|] c1 [[Hp Hq1] _]; [|by split|done].
  assert (Hcommit : ∀ w c2, quiescent c2 →
    post (let! r := atry (commit (disconnect (o_UUID o) (h_UUID h))) in aret (w : option fence_warning, r))
      c2 safe).
  { intros w c2 Hq2. apply try_commit_safe; [done| |by intros; app_step].
    apply calm_same; [by intros e d2 [= <-]|]. intros e d2 Hs. by apply disconnect_sound. }
  app_step. unfold fenceLossWarning. app_step. app_step.
  destruct (host _ _) as [h'|]; [|app_step; by apply Hcommit].
  eapply post_mono; [by apply fenceLossWarningFor_post|]. intros o' c2 ([w ->] & Hq2 & _). by apply Hcommit.
Qed.

Lemma SetPortals_safe ps c : quiescent c →
  post (SetPortals range mroot aptplRecords marshal ps) c safe.
Proof.
  intros Hq. unfold SetPortals. app_step. app_step. destruct (_ =? _)%nat; [by app_step|].
  cbv zeta. destruct (AppConfig_Validate _ _); [|by app_step].
  destruct (samePortalSet _ _); [by app_step|].
  apply try_commit_safe; [done| |].
  - apply calm_same; [by intros e d2 [= <-]|]. intros e d2. by apply replace_portals_sound.
  - intros r c1 [? [] ? ?]. app_steps; by split.
Qed.

Lemma RecheckPR_safe c : quiescent c → post (RecheckPR range mroot aptplRecords) c safe.
Proof.
  intros Hq. unfold RecheckPR. app_step. eapply post_mono; [apply desired_post; [done | apply Hq]|].
  intros o c1 [[cfg ->] [Hk Hb]%reindex_kept]. cbv beta iota.
  assert (Hq1 : quiescent c1).
  { eapply kept_quiescent; [done..|]. eapply same_belief_truthful; [done | apply Hq]. }
  destruct Hq1 as [? [] ? ?]. by app_steps.
Qed.

(** ** The requests that draw an identifier *)

Lemma draw_runs {B} (g : list Z → App B) (w : world) Q :
  fresh w → (∀ b, fresh_draw (w_c w) b → post (g b) (w_c w) Q) → (∀ e, Q (Fail e) (w_c w)) →
  runs (let! b := random16 in g b) w Q.
Proof.
  intros Hf Hg He. apply runs_files; [|by intros e; apply He].
  intros b f' Hb. apply Hg. unfold sys in Hb. destruct (fl_random (w_f w)) as [[b'|e] f''] eqn:Hr; [|done].
  injection Hb as -> ->. by eapply Hf.
Qed.

Lemma host_uuid_nonempty d y : sound d → y ∈ db_Hosts d → h_UUID y ≠ "".
Proof.
  intros Hs Hy He. apply sound_hosts in Hs. rewrite Forall_forall in Hs.
  destruct (Hs y Hy) as [Hu _ _]. by rewrite He in Hu.
Qed.

Lemma CreateHost_adds name iqns (w : world) : quiescent (w_c w) → fresh w →
  runs (CreateHost range mroot aptplRecords marshal name iqns) w (adds db_Hosts eq (w_c w)).
Proof.
  intros Hq Hf. unfold CreateHost. apply runs_of_res; [|by split]. intros [] Hn%wf_name.
  apply runs_st. destruct (hostByName _ _) as [h|] eqn:Hfree.
  { destruct (negb _); by split. }
  apply runs_of_res; [|by split]. intros [] Hiqns. unfold newHostUUID. apply runs_assoc.
  apply draw_runs; [done| |by split]. intros b (Hb & _ & Hh & _). app_step. app_step. cbv zeta.
  destruct (minted_uuid b Hb) as (Hu & _ & ->).
  set (h := mkHost (newIdentity_of b).1 name iqns).
  apply (commit_adds _ _ _ _ (λ _, aret (h, true)) h); [done| |done|by intros d d' [= <-]|].
  - apply calm_same; [by intros e d2 [= <-]|].
    intros e d2 Hs Hd. apply (add_host_sound h (with_Exports e (c_st (w_c w)))); try done.
    + intros y. by apply (host_uuid_nonempty (with_Exports e (c_st (w_c w)))).
    + apply checkIQNs_free; [|done]. by apply (sound_hosts (with_Exports e (c_st (w_c w)))).
  - intros c' Hq'. app_step. split; [done|]. by exists h.
Qed.
Lemma CreateHost_safe name iqns (w : world) : quiescent (w_c w) → fresh w →
  runs (CreateHost range mroot aptplRecords marshal name iqns) w safe.
Proof. intros Hq Hf. by destruct (CreateHost_adds name iqns w Hq Hf). Qed.

Lemma resolve_source_block d req src size bs : sound d → ValidBlockSize (cr_BlockSize req) = true →
  resolve_source d req = Ok (src, size, bs) → bs ≠ 0.
Proof.
  intros [_ HF] Hv. unfold resolve_source. destruct (String.eqb _ _).
  - intros [= <- <- <-]. unfold ValidBlockSize in Hv.
    apply orb_true_iff in Hv as [Hv|Hv]; apply Z.eqb_eq in Hv; by rewrite Hv.
  - destruct (resolveObject _ _ _) as [s|] eqn:Hs; [|done]. destruct (negb _); [done|].
    cbv zeta. destruct (_ <? _); [done|]. intros [= <- <- <-].
    apply resolveObject_elem in Hs as [Hs _]. rewrite Forall_forall in HF. by apply (HF s Hs).
Qed.

Lemma allocate_post root uuid source size c :
  post (allocate root uuid source size) c (λ o c', o ≠ Panic ∧ c' = c).
Proof. unfold allocate. destruct source; app_steps; by split. Qed.

Lemma Create_adds kind req (w : world) : quiescent (w_c w) → kind = KindVolume ∨ kind = KindSnapshot → fresh w →
  runs (Create marshal kind req) w (adds db_Objects eq (w_c w)).
Proof.
  intros Hq Hk Hf. unfold Create. apply runs_of_res; [|by split]. intros [] Hn%wf_name. cbv zeta.
  set (req' := if cr_BlockSize req =? 0 then _ else req).
  assert (Hname : cr_Name req' = cr_Name req) by (unfold req'; by destruct (_ =? _)).
  rewrite <- Hname in Hn. clearbody req'. clear Hname.
  destruct (ValidBlockSize (cr_BlockSize req')) eqn:Hbs; cbn [negb]; [|by split].
  apply runs_st. destruct (objectByName _ _ _) as [o|] eqn:Hfree.
  { apply runs_of_res; by split. }
  apply runs_of_res; [|by split]. intros [[source size] bs] Hsrc.
  apply resolve_source_block in Hsrc; [|apply Hq|done].
  apply runs_of_res; [|by split]. intros [] _. unfold newIdentity. apply runs_assoc.
  apply draw_runs; [done| |by split]. intros b (Hb & Ho & _ & Hpc). app_step. app_step.
  destruct (minted_uuid b Hb) as (Hu & Hw & _). destruct (newIdentity_of b) as [uuid wwn]. cbn in Hu, Hw, Ho, Hpc.
  app_step. app_step. app_step. eapply post_mono; [apply allocate_post|].
  intros [[]|e|] c1 [Hp ->]; [|by split|done]. app_step. app_step; [|by split]. cbv zeta.
  set (obj := mkObject uuid _ _ _ _ _ _ _ _).
  app_step. app_step. eapply post_mono.
  - apply (persistOnly_post marshal (admissible (c_prClearing (w_c w)) (c_withheld (w_c w))) (admissible_stable _ _));
      [apply Hq|].
    intros d1 d2 [e ->]%reindexed_inv [Hs Hin] Hd. split.
    + apply (add_object_sound obj (with_Exports e (c_st (w_c w)))); done.
    + injection Hd as <-. cbn. rewrite fmap_app, elem_of_app. intros [Hold|Hnew%list_elem_of_singleton]; [by apply Hin|].
      by rewrite Hnew in Hpc.
  - intros o c1 (Hp1 & Hfr & Hb1 & Ha & Hd).
    assert (Hq1 : quiescent c1).
    { eapply quiescent_frame; [done..| |done]. eapply same_belief_truthful; [done | apply Hq]. }
    destruct o; [| |done]; [|app_steps; by split].
    specialize (Hd eq_refl). injection Hd as Hd. app_step. split; [done|]. exists obj. by rewrite <- Hd.
Qed.
Lemma Create_safe kind req (w : world) : quiescent (w_c w) → kind = KindVolume ∨ kind = KindSnapshot → fresh w →
  runs (Create marshal kind req) w safe.
Proof. intros Hq Hk Hf. by destruct (Create_adds kind req w Hq Hk Hf). Qed.
End requests.
