(* ===== verification/AppClearProofs.v ===== *)
(** * appliance: what breaking a reservation leaves behind

    [clear_result] is the abstract specification of [ClearReservation] past its
    guards: six ways it can end, each with what holds of the object, of its
    saved record and of the fence, and with the error code the caller sees.
    The theorem says the operation ends in one of them. *)

From S2P Require Import Prelude GoStrings Errors Netip LioModel Configfs LioAptpl LioApply LioSync.
From S2P Require Import LioStranded AppModel AppDb AppPortals AppTranslate AppTranslateProofs AppAptpl Storage.
From S2P Require Import AppCoordinator AppObjects AppHosts AppClear AppRun AppSteady AppRequests.

(** No reservation, and no registration, as far as [f] tells. *)
Definition clean (f : fence) : Prop :=
  fe_err f = None ∧ fe_verdict f = fenceDown ∧
  (fe_backstore f = false ∨ st_Truncated (fe_state f) = false ∧ st_Registrations (fe_state f) = []).
(** The code of a rebuilt object that is not clean. *)
Definition unclean_code (f : fence) : string :=
  if decide (fe_err f = None ∧ fe_verdict f = fenceDown) then CodeFenceDropped else CodeClearUnverified.
(** The code after a prune that failed. *)
Definition verdict_code (v : fenceVerdict) : string :=
  match v with fenceDown => CodeFenceDropped | fenceUp => CodeClearUnverified | fenceUnknown => CodeFenceUnknown end.

Lemma verify_fence_Ok kind name f u : verify_fence kind name f = Ok u → clean f.
Proof.
  unfold verify_fence, clean. destruct (fe_err f); [done|]. destruct (fe_verdict f); try done.
  destruct (fe_backstore f); cbn [negb]; [|by auto]. destruct (st_Truncated _); [done|].
  destruct (st_Registrations _) as [|r l]; [by auto|].
  destruct (Z.ltb_spec 0 (Z.of_nat (length (r :: l)))) as [|Hl]; [done|]. cbn in Hl. lia.
Qed.
Lemma verify_fence_Err kind name f e : verify_fence kind name f = Err e →
  ¬ clean f ∧ code_of e = Some (unclean_code f).
Proof.
  unfold verify_fence, clean, unclean_code. destruct (fe_err f).
  { intros [= <-]. rewrite decide_False by (by intros [? _]). split; [by intros [? _] | done]. }
  destruct (fe_verdict f); cbn [negb];
    try (intros [= <-]; rewrite decide_False by (by intros [_ ?]); split; [by intros (_ & ? & _) | done]).
  rewrite decide_True by done. destruct (fe_backstore f); cbn [negb]; [|done].
  destruct (st_Truncated _); [intros [= <-]; split; [by intros (_ & _ & [?|[? _]]) | done]|].
  destruct (0 <? _) eqn:Hn; [|done]. intros [= <-]. split; [|done].
  intros (_ & _ & [?|[_ Hr]]); [done|]. by rewrite Hr in Hn.
Qed.

Section clearing.
Context {K F : Type} `{Kernel K} `{Files F}.
Context (range : ∀ A, list A → list A) (range_perm : ∀ A (l : list A), range A l ≡ₚ l).
Context (mroot : string) (aptplRecords : option (Backstore → ST K (list string))) (pageSize : Z).

Notation App := (App K F).
Notation world := (world K F).
Notation post := (post (K := K) (F := F)).
Notation reconcile := (reconcile (K := K) (F := F) range mroot aptplRecords).

(** [f] is what was read of the object: it had no device, which is to say it
    was not exported, or some kernel state answered [PRState] so. *)
Definition fence_seen (c : coord) (uuid : string) (f : fence) : Prop :=
  (f = mkFence fenceDown noDevice false None ∧
   uuid ∉ exported_of (c_prClearing c) (c_withheld c) (c_st c)) ∨
  ∃ bs k, bs_Name bs = backstoreName uuid ∧
    f = match (PRState_read mroot pageSize bs k).1 with
        | Ok s => mkFence (verdict_of s) s true None
        | Err e => mkFence fenceUnknown zeroPRState true (Some (ALio e))
        end.
(** No saved record can be replayed: there is nowhere to keep one, or some
    kernel state answered that the file is not there. *)
Definition record_gone (c : coord) (v : Object) : Prop :=
  ac_DBRoot (c_cfg c) = "" ∨ o_WWN v = "" ∨
  ∃ k, (sys_stat (APTPLPath (ac_DBRoot (c_cfg c)) (o_WWN v)) k).1 = Err ENOENT.

(** The object is part of the desired configuration again, and the kernel was
    last brought to it ([ok]) or not. *)
Definition offered (ok : bool) (c' : coord) : Prop := c_prClearing c' = "" ∧ settled ok c'.

Inductive clear_result (c : coord) (v : Object) (c' : coord) : ClearedReservation → option aerr → Prop :=
  (* the reservation is gone, and shown to be *)
  | cr_cleared res f :
      offered true c' → c_withheld c' = delete (o_UUID v) (c_withheld c) → record_gone c v →
      fence_seen c' (o_UUID v) f → clean f →
      clear_result c v c' res None
  (* presented again, but a reservation or registration is there or cannot be ruled out *)
  | cr_not_clean res f e :
      offered true c' → c_withheld c' = delete (o_UUID v) (c_withheld c) → record_gone c v →
      fence_seen c' (o_UUID v) f → ¬ clean f → code_of e = Some (unclean_code f) →
      clear_result c v c' res (Some e)
  (* the record is gone; presenting the object again failed *)
  | cr_not_rebuilt res f e :
      offered false c' → c_withheld c' = delete (o_UUID v) (c_withheld c) → record_gone c v →
      fence_seen c' (o_UUID v) f →
      code_of e = Some (if decide (fe_verdict f = fenceUnknown) then CodeFenceUnknown else CodeReconcileFailed) →
      clear_result c v c' res (Some e)
  (* the record could not be shown gone: the object stays out, and published *)
  | cr_withheld res e :
      c_prClearing c' = o_UUID v → c_withheld c' = <[o_UUID v := o_Name v]> (c_withheld c) →
      settled true c' → code_of e = Some CodeFenceDropped →
      clear_result c v c' res (Some e)
  (* the tear-down failed, and was undone *)
  | cr_restored res f e :
      offered true c' → c_withheld c' = c_withheld c →
      fence_seen c' (o_UUID v) f → code_of e = Some (verdict_code (fe_verdict f)) →
      clear_result c v c' res (Some e)
  (* the tear-down failed, and so did undoing it *)
  | cr_not_restored res e :
      offered false c' → c_withheld c' = c_withheld c → code_of e = Some CodeFenceUnknown →
      clear_result c v c' res (Some e).

(** ** The steps *)

Lemma exported_of_kept pc wh d d' : reindexed d d' → exported_of pc wh d' = exported_of pc wh d.
Proof. by intros [e ->]%reindexed_inv. Qed.

Lemma backstoreOf_seen uuid c : sound (c_st c) →
  post (backstoreOf range uuid) c (λ o c', kept c c' ∧ same_belief c c' ∧
    ∃ bs, o = Done bs ∧ match bs with
                        | None => uuid ∉ exported_of (c_prClearing c) (c_withheld c) (c_st c)
                        | Some bs => bs_Name bs = backstoreName uuid
                        end).
Proof.
  intros Hs. unfold backstoreOf, desired. app_step. app_step. app_step.
  destruct (desired_total range range_perm (c_root c) (c_cfg c) (c_prClearing c) (c_withheld c) _ Hs)
    as (cfg & d' & Hd & Hr).
  rewrite Hd. app_step. app_step. app_step. app_step.
  split; [split; [by constructor | done]|]. split; [by constructor|]. eexists. split; [done|].
  destruct (first _ _) as [bs|] eqn:Hf.
  - apply first_Some in Hf as [_ Hn]. by apply String.eqb_eq in Hn.
  - intros Hu. apply (desired_shape range range_perm) in Hd as (vols & bs & Hperm & HF & -> & _);
      [|by apply wf_exports_ok; destruct Hs].
    assert (Hin : uuid ∈ vols) by by rewrite Hperm, elem_of_elements.
    destruct (built_elem _ _ _ _ _ _ _ HF Hin) as (b & Hb & (o & _ & _ & ->)).
    rewrite first_None in Hf. specialize (Hf _ Hb). cbn in Hf. by rewrite String.eqb_refl in Hf.
Qed.

Lemma fenceStateOf_seen uuid c : sound (c_st c) →
  post (fenceStateOf range mroot pageSize uuid) c (λ o c', kept c c' ∧ same_belief c c' ∧
    ∃ f, o = Done f ∧ fence_seen c uuid f).
Proof.
  intros Hs. unfold fenceStateOf. app_step. eapply post_mono; [by apply backstoreOf_seen|].
  intros o c' (Hk & Hb & bs & -> & Hbs). cbv beta iota. destruct bs as [bs|].
  - app_step. app_step. app_step; app_step; (split_and!; [done | done |]); eexists; (split; [done|]);
      right; exists bs, k; (split; [done|]);
      match goal with H : PRState_read _ _ _ _ = _ |- _ => by rewrite H end.
  - app_step. split_and!; [done..|]. eexists. split; [done | by left].
Qed.

Lemma stat_gone path e k k' : sys "stat" path (sys_stat path) k = (Err e, k') → errors_Is e ENOENT = true →
  (sys_stat path k).1 = Err ENOENT.
Proof.
  unfold sys. destruct (sys_stat path k) as [[a|en] k1] eqn:Hs; [done|]. intros [= <- <-].
  cbn. intros Hen. by apply bool_decide_eq_true in Hen as ->.
Qed.

Lemma confirm_gone_post path removed c :
  post (confirm_gone path removed) c (λ o c', c' = c ∧
    ∃ err, o = Done (removed, err) ∧ (err = None → ∃ k, (sys_stat path k).1 = Err ENOENT)).
Proof.
  unfold confirm_gone. app_steps; (split; [done|]); (eexists; split; [done|]); try done; intros _.
  eexists; eapply stat_gone; [done|].
  match goal with Hn : negb _ = false |- _ => by apply negb_false_iff in Hn end.
Qed.

Lemma discardSavedPRChecked_post v c :
  post (discardSavedPRChecked (o_WWN v)) c (λ o c', c' = c ∧
    ∃ removed err, o = Done (removed, err) ∧ (err = None → record_gone c v)).
Proof.
  unfold discardSavedPRChecked. app_step. app_step. cbv zeta.
  destruct (_ || _) eqn:Hnone.
  { app_step. split; [done|]. exists false, None. split; [done|]. intros _.
    apply orb_true_iff in Hnone as [Hd|Hw]; [left | right; left]; by apply String.eqb_eq. }
  app_steps;
    try (eapply post_mono; [apply confirm_gone_post|]; cbv beta; intros o c' (-> & err & -> & Hs));
    (split; [done|]); do 2 eexists; (split; [done|]); try done;
    intros He; right; right; by apply Hs.
Qed.

(** What the phases keep of the coordinator [c] the clear started from. *)
Record midway (c c' : coord) : Prop := mkMidway {
  mw_cfg : c_cfg c' = c_cfg c;
  mw_root : c_root c' = c_root c;
  mw_dbPath : c_dbPath c' = c_dbPath c;
  mw_st : reindexed (c_st c) (c_st c');
  mw_truthful : truthful c';
  mw_names : hl_withheldNames (c_health c') = c_withheld c'
}.
Lemma midway_kept c c1 c2 : midway c c1 → kept c1 c2 → truthful c2 → midway c c2.
Proof.
  intros [] [[] Hr] Ht. constructor; [congruence.. | by eapply reindexed_trans | done | congruence].
Qed.
Lemma same_settled ok c c' : same_belief c c' → settled ok c → settled ok c'.
Proof.
  intros Hb [Ht Hl]. split; [by eapply same_belief_truthful|]. by rewrite (sb_lastReconcileErr _ _ Hb).
Qed.
Lemma fence_seen_kept uuid f c c' : kept c c' → fence_seen c uuid f → fence_seen c' uuid f.
Proof.
  intros [[] Hr] [[-> Hu]|Hs]; [left | by right]. split; [done|].
  rewrite fr_prClearing, fr_withheld. by rewrite (exported_of_kept _ _ _ _ Hr).
Qed.

Section phases.
Context (c : coord) (Hs : sound (c_st c)) (v : Object).

Lemma reconcile_mid c1 : midway c c1 →
  post reconcile c1 (λ o c', o ≠ Panic ∧ midway c c' ∧ settled (is_done o) c' ∧
    c_prClearing c' = c_prClearing c1 ∧ c_withheld c' = c_withheld c1).
Proof.
  intros Hm. eapply post_mono; [apply reconcile_post; [done | by apply (mw_st _ _ Hm)]|].
  intros o c2 (Hp & Hk & Hset). split_and!; [done | | done | apply Hk | apply Hk].
  eapply midway_kept; [done..|]. apply Hset.
Qed.
Lemma fenceStateOf_mid uuid ok c1 : midway c c1 → settled ok c1 →
  post (fenceStateOf range mroot pageSize uuid) c1 (λ o c', midway c c' ∧ settled ok c' ∧
    c_prClearing c' = c_prClearing c1 ∧ c_withheld c' = c_withheld c1 ∧
    ∃ f, o = Done f ∧ fence_seen c' uuid f).
Proof.
  intros Hm Hset. eapply post_mono; [apply fenceStateOf_seen; by apply (mw_st _ _ Hm)|].
  intros o c2 (Hk & Hb & f & -> & Hf). assert (settled ok c2) by by eapply same_settled.
  split_and!; [eapply midway_kept; [done..|]; by eapply se_truthful | done | apply Hk | apply Hk |].
  exists f. split; [done|]. by eapply fence_seen_kept.
Qed.

(** What a phase ends with. *)
Definition ends (o : outcome (ClearedReservation * option aerr)) (c' : coord) : Prop :=
  midway c c' ∧ ∃ res err, o = Done (res, err) ∧ clear_result c v c' res err.

Lemma set_prClearing_midway u c1 : midway c c1 → midway c (set_prClearing u c1).
Proof. intros [? ? ? ? [] ?]. by constructor. Qed.
Lemma set_prClearing_settled ok u c1 : settled ok c1 → settled ok (set_prClearing u c1).
Proof. by intros [[] ?]. Qed.

(** The end of a phase: what is left is which way it ended. *)
Lemma ends_now res err c' : midway c c' → clear_result c v c' res err →
  post (aret (res, err) : App _) c' ends.
Proof. intros Hm Hr. app_step. split; [done|]. by exists res, err. Qed.

Lemma recover_ends out kind name e c1 : midway c c1 → c_withheld c1 = c_withheld c →
  post (recoverFromFailedPrune range mroot aptplRecords pageSize out kind name (o_UUID v) e) c1 ends.
Proof.
  intros Hm Hw. unfold recoverFromFailedPrune. app_step. app_step. app_step. app_step.
  eapply post_mono; [by apply reconcile_mid, set_prClearing_midway|].
  intros o c2 (Hp & Hm2 & Hset & Hpc & Hw2). cbn in Hpc, Hw2. rewrite Hw in Hw2.
  destruct o as [[]|e2|]; cbv beta iota; [|by apply ends_now; [done | by apply cr_not_restored]|done].
  app_step. eapply post_mono; [by eapply fenceStateOf_mid|].
  intros o c3 (Hm3 & Hset3 & Hpc3 & Hw3 & f & -> & Hf). cbv beta iota. rewrite Hpc in Hpc3. rewrite Hw2 in Hw3.
  destruct (fe_verdict f) eqn:Hv; (apply ends_now; [done|]);
    (eapply cr_restored; [by split | done | done | by rewrite Hv]).
Qed.

Lemma rebuild_ends out kind name c1 : midway c c1 →
  c_withheld c1 = delete (o_UUID v) (c_withheld c) → record_gone c v →
  post (rebuild range mroot aptplRecords pageSize out kind name (o_UUID v)) c1 ends.
Proof.
  intros Hm Hw Hgone. unfold rebuild. app_step. app_step. app_step. app_step.
  eapply post_mono; [by apply reconcile_mid, set_prClearing_midway|].
  intros o c2 (Hp & Hm2 & Hset & Hpc & Hw2). cbn in Hpc, Hw2. rewrite Hw in Hw2.
  destruct o as [[]|e2|]; cbv beta iota; [| |done]; [unfold verifyCleared; app_step|]; app_step;
    (eapply post_mono; [by eapply fenceStateOf_mid|]);
    intros o c3 (Hm3 & Hset3 & Hpc3 & Hw3 & f & -> & Hf); cbv beta iota; rewrite Hpc in Hpc3; rewrite Hw2 in Hw3.
  - app_step. destruct (verify_fence kind name f) as [u|e] eqn:Hver.
    + apply ends_now; [done|]. apply verify_fence_Ok in Hver. by eapply cr_cleared.
    + apply ends_now; [done|]. apply verify_fence_Err in Hver as [? ?]. by eapply cr_not_clean.
  - destruct (decide (fe_verdict f = fenceUnknown)) as [Hv|Hv]; (apply ends_now; [done|]);
      (eapply cr_not_rebuilt; [by split | done | done | done |]); [by rewrite decide_True | by rewrite decide_False].
Qed.

Lemma phases_end out kind c1 : midway c c1 → c_withheld c1 = c_withheld c →
  post (clear_phases range mroot aptplRecords pageSize out kind v) c1 ends.
Proof.
  intros Hm Hw. unfold clear_phases. app_step. app_step. app_step. app_step.
  eapply post_mono; [by apply reconcile_mid, set_prClearing_midway|].
  intros o c2 (Hp & Hm2 & Hset & Hpc & Hw2). cbn in Hpc, Hw2. rewrite Hw in Hw2.
  destruct o as [[]|e2|]; cbv beta iota; [|by apply recover_ends|done].
  app_step. eapply post_mono; [apply discardSavedPRChecked_post|].
  intros o c3 (-> & removed & err & -> & Hgone). cbv beta iota zeta.
  assert (Hcfg : c_cfg c2 = c_cfg c) by apply Hm2. destruct Hm2 as [? ? ? ? [] Hn].
  destruct err as [e|]; app_step.
  - unfold holdBack. app_step. app_step. app_step. app_step. app_step.
    apply ends_now; [by constructor|]. apply cr_withheld; [done | cbn; by rewrite Hw2 | | done].
    by destruct Hset as [[] ?].
  - specialize (Hgone eq_refl). unfold record_gone in Hgone. rewrite Hcfg in Hgone.
    unfold releaseHold. app_step. app_step. destruct (c_withheld c2 !! o_UUID v) eqn:Hlk.
    + app_step. app_step. app_step. apply rebuild_ends; [by constructor | cbn; by rewrite Hw2 | done].
    + app_step. apply rebuild_ends; [by constructor | | done]. rewrite Hw2 in Hlk |- *. by rewrite delete_id.
Qed.
End phases.

(** ** The operation *)

Lemma clear_result_frame c c1 v c' res err : frame c c1 → clear_result c1 v c' res err →
  clear_result c v c' res err.
Proof.
  intros Hf Hr. destruct Hf as [Hcfg _ _ _ Hw _ _].
  assert (Hg : record_gone c1 v → record_gone c v) by (unfold record_gone; by rewrite Hcfg).
  destruct Hr; rewrite Hw in *; eauto using clear_result.
Qed.
Lemma clear_result_published c v c' res err s : clear_result c v c' res err →
  clear_result c v (set_health (ph_clearing s (c_health c')) c') res err.
Proof.
  intros Hr. assert (Hset : ∀ ok, settled ok c' → settled ok (set_health (ph_clearing s (c_health c')) c'))
    by by intros ok [[] ?].
  assert (Hoff : ∀ ok, offered ok c' → offered ok (set_health (ph_clearing s (c_health c')) c'))
    by (intros ok [? ?]; split; auto).
  destruct Hr; eauto using clear_result.
Qed.

(** All but the reservation itself: the settings, the records, and that a
    quiescent coordinator is left. *)
Definition clear_spec (kind ref confirm : string) (c : coord)
    (o : outcome (ClearedReservation * option aerr)) (c' : coord) : Prop :=
  safe o c' ∧ c_cfg c' = c_cfg c ∧ reindexed (c_st c) (c_st c') ∧
  match o with
  | Done (res, err) =>
      ∃ v, resolveObject (c_st c) kind ref = Some v ∧ confirm = o_Name v ∧ o_State v = stateReady ∧
           clear_result c v c' res err
  | _ => c_withheld c' = c_withheld c ∧ c_prClearing c' = c_prClearing c
  end.

Lemma ClearReservation_post kind ref confirm c : quiescent c →
  post (ClearReservation range mroot aptplRecords pageSize kind ref confirm) c (clear_spec kind ref confirm c).
Proof.
  intros Hq. assert (Hsame : ∀ e, clear_spec kind ref confirm c (Fail e) c) by (intros e; split; [by split | auto with glitr]).
  unfold ClearReservation. app_step. app_step. destruct (resolveObject _ _ _) as [v|] eqn:Hv; [|by app_step].
  destruct (String.eqb_spec confirm (o_Name v)) as [Hconf|]; cbn [negb]; [|by app_step].
  destruct (String.eqb_spec (o_State v) stateReady) as [Hready|]; cbn [negb]; [|by app_step].
  app_step. eapply post_mono; [by apply (heal_safe range range_perm)|].
  intros [[]|e|] c1 [[Hp Hq1] Hk]; cbv beta iota; [| |done].
  2:{ split; [by split|]. split; [apply Hk|]. split; [apply Hk|]. by split; apply Hk. }
  app_step. unfold read_holder. app_step. eapply post_mono; [apply backstoreOf_seen, Hq1|].
  intros o c2 (Hk2 & Hb2 & bs & -> & _). cbv beta iota.
  assert (Hm2 : midway c1 c2).
  { eapply midway_kept; [|done|]; [constructor; auto with glitr; apply Hq1|].
    eapply same_belief_truthful; [done | apply Hq1]. }
  assert (Hw2 : c_withheld c2 = c_withheld c1) by apply Hk2.
  assert (Hrest : ∀ out, post (setClearing (o_Name v) ;!;
      (let! res := clear_phases range mroot aptplRecords pageSize out kind v in setClearing "" ;!; aret res)) c2
      (clear_spec kind ref confirm c)).
  { intros out. unfold setClearing. app_step. app_step. app_step.
    eapply post_mono; [apply (phases_end c1); [apply Hq1 | by destruct Hm2 as [? ? ? ? [] ?]; constructor | done]|].
    intros o c3 (Hm3 & res & err & -> & Hres). cbv beta iota. app_step. app_step. app_step.
    apply (clear_result_frame c) in Hres; [|apply Hk].
    assert (Hr3 : reindexed (c_st c) (c_st c3)) by by eapply reindexed_trans; [apply Hk | apply Hm3].
    split; [|split; [cbn; rewrite (mw_cfg _ _ Hm3); apply Hk | split; [done|]]].
    - split; [done|]. destruct Hm3 as [? ? ? ? [] ?]. constructor; [|done..]. split; [by apply Hr3, Hq|].
      intros Hin. assert (Hnil : ¬ "" ∈ o_UUID <$> db_Objects (c_st c3)).
      { intros (x & Hx & Hxin)%list_elem_of_fmap. destruct Hr3 as [_ Hs3]. destruct (Hs3 (proj1 (qu_admissible _ Hq))) as [[HF _ _] _].
        rewrite Forall_forall in HF. destruct (HF x Hxin) as [Hu _ _]. by rewrite <- Hx in Hu. }
      destruct Hres as [? ? [Hpc _]|? ? ? [Hpc _]|? ? ? [Hpc _]|? ? Hpc Hw|? ? ? [Hpc _]|? ? [Hpc _]];
        cbn in *; rewrite Hpc in Hin |- *; try done.
      rewrite Hw, lookup_insert_eq. by eexists.
    - exists v. split_and!; try done. by apply clear_result_published. }
  destruct bs as [bs|]; [|app_step; apply Hrest].
  app_step. app_step. app_step; app_step; apply Hrest.
Qed.

(** C4. Breaking a reservation never under-reports: from a quiescent
    coordinator, [ClearReservation] refuses without holding anything back, or
    ends in one of the six ways of [clear_result], with the records of the
    database unchanged and a quiescent coordinator. Success means that no saved
    record can restore the reservation, that the kernel took the rebuilt
    object, and that a state was read with no holder, no registration and
    nothing truncated. When the record could not be shown gone, the object is
    left out of the desired configuration and published as withheld. The code
    that reads as still fenced is never given for a fence that was read to be
    down. *)
Theorem ClearReservation_outcomes (kind ref confirm : string) (w : world) (Hq : quiescent (w_c w)) :
  let '(o, w') := ClearReservation range mroot aptplRecords pageSize kind ref confirm w in
  clear_spec kind ref confirm (w_c w) o (w_c w').
Proof.
  pose proof (post_runs _ w _ (ClearReservation_post kind ref confirm (w_c w) Hq)) as Hp. unfold runs in Hp.
  by destruct (ClearReservation _ _ _ _ _ _ _ w).
Qed.
End clearing.
