(* ===== verification/AppIdentityProofs.v ===== *)
(** * appliance: the identity a start settles on *)

From S2P Require Import Prelude GoStrings Errors Netip LioModel Configfs LioAptpl LioApply LioSync.
From S2P Require Import AppModel AppDb AppPortals AppTranslate AppAptpl Storage AppCoordinator AppObjects.
From S2P Require Import AppIdentity AppRun AppSteady.

Section identity.
Context {K F : Type} `{Kernel K} `{Files F}.
Context (mroot : string) (marshal : db → string).

Notation App := (App K F).
Notation world := (world K F).
Notation post := (post (K := K) (F := F)).

(** What [adoptIdentity] leaves of the coordinator [c]. *)
Definition adopted (c : coord) (o : outcome unit) (c' : coord) : Prop :=
  c_st c' = with_Identity (db_TargetIQN (c_st c')) (db_MachineID (c_st c')) (c_st c) ∧
  match o with
  | Done _ =>
      ac_TargetIQN (c_cfg c') = db_TargetIQN (c_st c') ∧
      (db_TargetIQN (c_st c) ≠ "" → db_TargetIQN (c_st c') = db_TargetIQN (c_st c)) ∧
      (db_TargetIQN (c_st c) = "" → ac_TargetIQN (c_cfg c) ≠ "" →
         db_TargetIQN (c_st c') = ac_TargetIQN (c_cfg c)) ∧
      (db_MachineID (c_st c) = "" ∨ db_MachineID (c_st c') = "" ∨
         db_MachineID (c_st c') = db_MachineID (c_st c))
  | Fail (AIdentityConflict recorded actual _) =>
      c' = c ∧ recorded = db_MachineID (c_st c) ∧ recorded ≠ "" ∧ actual ≠ "" ∧ actual ≠ recorded
  | Fail _ => True
  | Panic => False
  end.

Lemma same_identity d : d = with_Identity (db_TargetIQN d) (db_MachineID d) d.
Proof. by destruct d. Qed.

Definition not_conflict (e : aerr) : Prop := match e with AIdentityConflict _ _ _ => False | _ => True end.
Lemma adopted_fail c e c' : not_conflict e →
  c_st c' = with_Identity (db_TargetIQN (c_st c')) (db_MachineID (c_st c')) (c_st c) → adopted c (Fail e) c'.
Proof. intros He Hst. split; [done|]. by destruct e. Qed.

Lemma readMachineID_post path c :
  post (readMachineID path) c (λ o c', c' = c ∧ o ≠ Panic).
Proof. unfold readMachineID. app_steps; by split. Qed.

(** The name decided on; only the published flags change. *)
Lemma decide_iqn_post c actual :
  post (decide_iqn mroot (c_st c) (c_cfg c) actual) c (λ o c', c_st c' = c_st c ∧ c_cfg c' = c_cfg c ∧
    match o with
    | Done iqn => (db_TargetIQN (c_st c) ≠ "" → iqn = db_TargetIQN (c_st c)) ∧
                  (db_TargetIQN (c_st c) = "" → ac_TargetIQN (c_cfg c) ≠ "" → iqn = ac_TargetIQN (c_cfg c))
    | Fail e => not_conflict e
    | Panic => False
    end).
Proof.
  unfold decide_iqn, liveTargetIQN. destruct (String.eqb_spec (db_TargetIQN (c_st c)) "") as [He|He]; cbn [negb].
  - destruct (String.eqb_spec (ac_TargetIQN (c_cfg c)) "") as [Hf|Hf]; cbn [negb]; [|by app_step].
    app_steps; by rewrite ?He.
  - app_step. destruct (_ && _); app_steps; done.
Qed.

Lemma adoptIdentity_post c : post (adoptIdentity mroot marshal) c (adopted c).
Proof.
  assert (Hsame : ∀ e, not_conflict e → adopted c (Fail e) c) by (intros e He; apply adopted_fail; [done | apply same_identity]).
  unfold adoptIdentity. app_step. app_step. app_step. app_step. app_step.
  eapply post_mono; [apply readMachineID_post|].
  intros [actual|e|] c1 [-> Hp]; cbv beta iota; [| |done]; app_step; [|by apply Hsame].
  cbv zeta. destruct (_ && _) eqn:Hconf.
  { app_step. bool_facts. split; [apply same_identity|].
    repeat match goal with H : String.eqb _ _ = false |- _ => apply String.eqb_neq in H end.
    split_and!; congruence. }
  assert (Hmid : db_MachineID (c_st c) = "" ∨ actual = "" ∨ actual = db_MachineID (c_st c)).
  { destruct (String.eqb_spec (db_MachineID (c_st c)) ""); [by left|].
    destruct (String.eqb_spec actual ""); [by right; left|].
    destruct (String.eqb_spec (db_MachineID (c_st c)) actual); [by right; right | done]. }
  app_step. eapply post_mono; [apply decide_iqn_post|].
  intros [iqn|e|] c1 (Hst & Hcfg & Hiqn); cbv beta iota; [| |done].
  2:{ apply adopted_fail; [done|]. rewrite Hst. apply same_identity. }
  destruct Hiqn as [Hrec Hflag].
  destruct (String.eqb (db_TargetIQN (c_st c)) iqn && _) eqn:Hsameid.
  - app_step. bool_facts.
    repeat match goal with H : String.eqb _ _ = true |- _ => apply String.eqb_eq in H end.
    split; [cbn; rewrite Hst; apply same_identity|]. cbn. rewrite Hst.
    split_and!; [done | done | | by right; right]. intros He Hfl. rewrite <- (Hflag He Hfl). done.
  - app_step. app_step. app_step. app_step. app_step. app_step.
    eapply post_mono; [apply persist_post|]. intros o c2 (Hp2 & Hf & _ & Hst2). cbn in Hst2.
    rewrite Hst in Hst2. assert (Hc2 : ac_TargetIQN (c_cfg c2) = iqn) by by rewrite (fr_cfg _ _ Hf).
    destruct o as [[]|e|]; cbv beta iota; [| |done]; app_step.
    + split; [by rewrite Hst2|]. rewrite Hst2. cbn. by split_and!.
    + apply adopted_fail; [done|]. by rewrite Hst2.
Qed.

(** C24. A start never renames the target, and never moves a database to
    another machine in silence: whatever the flag, the kernel and the
    machine-id file say, when [adoptIdentity] succeeds the recorded target name
    is kept if there is one, a name given by flag is taken only if there is
    none, the name in effect is the recorded one, and the machine recorded is
    not replaced by another; a machine that differs from the recorded one is
    refused with nothing changed; and on every branch only the two identity
    fields of the database change. *)
Theorem adoptIdentity_never_renames (w : world) :
  let '(o, w') := adoptIdentity mroot marshal w in adopted (w_c w) o (w_c w').
Proof.
  pose proof (post_runs _ w _ (adoptIdentity_post (w_c w))) as Hp. unfold runs in Hp.
  by destruct (adoptIdentity _ _ w).
Qed.
End identity.
