(* ===== verification/AppReach.v ===== *)
(** * appliance: the coordinator as a state machine

    [perform] runs one request; [reachable] are the worlds that a start and
    then any sequence of requests lead to, whatever the kernel and the disk
    answer, if the document of the start records no block size of zero
    ([usable_document]). Every reachable coordinator is [quiescent], and no
    request panics in one. *)

From S2P Require Import Prelude GoStrings Errors Netip LioModel Configfs LioAptpl LioApply LioSync.
From S2P Require Import LioDelta LioStranded AppModel AppDb AppWf AppPortals AppTranslate AppTranslateProofs.
From S2P Require Import Storage AppAptpl AppCoordinator AppObjects AppHosts AppIdentity AppClear.
From S2P Require Import AppRun AppSteady AppMutations AppRequests AppClearProofs AppIdentityProofs.

Inductive request :=
  | RCreate (kind : string) (req : CreateRequest)
  | RRename (kind ref newName : string)
  | RDelete (kind ref : string)
  | RResize (kind ref : string) (size : Z)
  | RCreateHost (name : string) (iqns : list string)
  | RRenameHost (ref newName : string)
  | RSetBindings (ref : string) (replace : option (list string)) (add remove : list string)
  | RDeleteHost (ref : string)
  | RConnect (kind objectRef hostRef : string) (lun : option Z)
  | RDisconnect (kind objectRef hostRef : string)
  | RSetPortals (ps : list Portal)
  | RClearReservation (kind ref confirm : string)
  | RRecheckPR.

(** The kind is fixed by the route a request arrives on. *)
Definition good_request (r : request) : Prop :=
  match r with RCreate kind _ => kind = KindVolume ∨ kind = KindSnapshot | _ => True end.

Section machine.
Context {K F : Type} `{Kernel K} `{Files F}.
Context (range : ∀ A, list A → list A) (range_perm : ∀ A (l : list A), range A l ≡ₚ l).
Context (mroot : string) (aptplRecords : option (Backstore → ST K (list string))) (pageSize : Z).
Context (marshal : db → string) (unmarshal : string → option Loaded).

Notation App := (App K F).
Notation world := (world K F).
Notation post := (post (K := K) (F := F)).

Definition perform (r : request) : App unit :=
  match r with
  | RCreate kind req => Create marshal kind req ;!; aret tt
  | RRename kind ref new => Rename marshal kind ref new ;!; aret tt
  | RDelete kind ref => Delete range mroot aptplRecords marshal kind ref
  | RResize kind ref size => Resize range mroot aptplRecords marshal kind ref size ;!; aret tt
  | RCreateHost name iqns => CreateHost range mroot aptplRecords marshal name iqns ;!; aret tt
  | RRenameHost ref new => RenameHost marshal ref new ;!; aret tt
  | RSetBindings ref replace add remove =>
      SetBindings range mroot aptplRecords marshal ref replace add remove ;!; aret tt
  | RDeleteHost ref => DeleteHost range mroot aptplRecords marshal ref
  | RConnect kind o h lun => Connect range mroot aptplRecords marshal kind o h lun ;!; aret tt
  | RDisconnect kind o h => Disconnect range mroot aptplRecords marshal kind o h ;!; aret tt
  | RSetPortals ps => SetPortals range mroot aptplRecords marshal ps ;!; aret tt
  | RClearReservation kind ref confirm =>
      ClearReservation range mroot aptplRecords pageSize kind ref confirm ;!; aret tt
  | RRecheckPR => RecheckPR range mroot aptplRecords
  end.

(** The document that a start reads at this path, if it reads one, has no object with a block size of zero. The appliance writes none, but its loader
    does not look, and a connection to such an object panics. *)
Definition usable_document (path : string) (w : world) : Prop :=
  ∀ data f loaded, fs_ReadFile path (w_f w) = (Ok data, f) →
    unmarshal data = Some loaded → Forall sized (db_Objects (db_of loaded)).

(** [Open] is the only way in. A request that panics leads nowhere: no request
    of a reachable world does. *)
Inductive reachable : world → Prop :=
  | reach_open root quarantined cfg w w' :
      usable_document (c_dbPath (new_coord root cfg quarantined)) w →
      Open range mroot aptplRecords marshal unmarshal root quarantined cfg w = (Done tt, w') →
      reachable w'
  | reach_request r w o w' :
      reachable w → good_request r → fresh w → perform r w = (o, w') → o ≠ Panic → reachable w'.

(** A request that draws no identifier, from any world. *)
Lemma unit_safe {A} (m : App A) c : post m c safe → post (m ;!; aret tt) c safe.
Proof.
  intros Hm. app_step. eapply post_mono; [exact Hm|].
  intros [a|e|] c1 [Hp Hq]; [by app_step | by split | done].
Qed.
Lemma unit_runs {A} (m : App A) w : runs m w safe → runs (m ;!; aret tt) w safe.
Proof.
  intros Hm. apply runs_bind. unfold runs in Hm |- *. destruct (m w) as [[a|e|] w'], Hm as [Hp Hq]; cbn in *;
    [by app_step | by split | done].
Qed.

Lemma perform_safe r w : quiescent (w_c w) → good_request r → fresh w → runs (perform r) w safe.
Proof.
  intros Hq Hr Hf. destruct r; cbn [perform];
    try (apply post_runs; try apply unit_safe;
         first [ by apply Rename_safe | by apply Delete_safe | by apply Resize_safe | by apply RenameHost_safe
               | by apply SetBindings_safe | by apply DeleteHost_safe | by apply Connect_safe
               | by apply Disconnect_safe | by apply SetPortals_safe | by apply RecheckPR_safe ]).
  - by apply unit_runs, Create_safe.
  - by apply unit_runs, CreateHost_safe.
  - apply unit_runs, post_runs. eapply post_mono; [by apply ClearReservation_post|]. by intros o c' [? _].
Qed.

(** ** Starting up *)

(** The coordinator while it starts: sound, nothing held back. *)
Record starting (c : coord) : Prop := mkStarting {
  st_sound : sound (c_st c);
  st_prClearing : c_prClearing c = "";
  st_withheld : c_withheld c = ∅;
  st_clearing : hl_clearing (c_health c) = "";
  st_names : hl_withheldNames (c_health c) = ∅
}.
Definition starts {A} (o : outcome A) (c : coord) : Prop := o ≠ Panic ∧ starting c.

Lemma new_coord_starting root cfg quarantined : starting (new_coord root cfg quarantined).
Proof.
  constructor; [|done..]. apply sound_parts. cbn. split_and!;
    first [by repeat constructor | split; intros *; by rewrite lookup_empty].
Qed.
Lemma frame_starting c c' : starting c → frame c c' → sound (c_st c') → starting c'.
Proof. intros [] [] Hs. constructor; [done | congruence..]. Qed.

(** What [load] takes over is what it read. *)
Lemma loaded_sound path loaded d : load_document range path loaded = Ok d →
  Forall sized (db_Objects (db_of loaded)) → sound d.
Proof.
  intros Hl HF. split; [by apply load_document_wf in Hl as [? _]|].
  unfold load_document in Hl. apply rbind_Ok in Hl as ([] & _ & Hl). by apply rbind_Ok in Hl as ([] & _ & [= <-]).
Qed.
Lemma load_starts (w : world) : starting (w_c w) → usable_document (c_dbPath (w_c w)) w →
  runs (load range unmarshal) w starts.
Proof.
  intros Hst Hdoc. destruct w as [c k f]. cbn in Hst, Hdoc. unfold load, runs, abind, get, atry, in_files.
  cbn [w_c w_f w_k].
  destruct (fs_ReadFile (c_dbPath c) f) as [[data|e] f'] eqn:Hr; [|by destruct (IsNotExist e); cbn; split].
  destruct (unmarshal data) as [loaded|] eqn:Hu; [|by split].
  specialize (Hdoc data f' loaded Hr Hu). unfold of_res.
  destruct (load_document range (c_dbPath c) loaded) as [d|e] eqn:Hl; [|by split].
  split; [done|]. destruct Hst. constructor; [|done..]. by eapply loaded_sound.
Qed.

Lemma quarantine_post root known dirs c : starting c →
  post (quarantine_unknown root known dirs) c (λ o c', starts o c' ∧ c_st c' = c_st c).
Proof.
  revert c. induction dirs as [|d dirs IH]; intros c Hst; cbn [quarantine_unknown]; [by app_step|].
  destruct (any _ _); [by apply IH|]. app_step. app_step; [|by split]. app_step. app_step.
  eapply post_mono; [apply IH; by destruct Hst|]. by intros o c2 [? ->].
Qed.

(** Marking an object missing changes nothing its soundness rests on. *)
Definition marked (o o' : Object) : Prop := o' = o ∨ o' = set_State stateMissing o.
Lemma mark_missing_post root objs c :
  post (mark_missing root objs) c (λ o c', c' = c ∧ o ≠ Panic ∧
    ∀ objs', o = Done objs' → Forall2 marked objs objs').
Proof.
  revert c. induction objs as [|x objs IH]; intros c; cbn [mark_missing].
  { app_step. split_and!; [done..|]. intros objs' [= <-]. constructor. }
  app_step. app_step; [|by split_and!]. app_step. eapply post_mono; [apply IH|].
  intros [objs'|e|] c1 (-> & Hp & HF); cbv beta iota; [|by split_and!..].
  app_step. split_and!; [done..|]. intros l [= <-]. constructor; [|by apply HF].
  destruct a; [by left | by right].
Qed.
Lemma marked_fmap {B} (g : Object → B) l l' : (∀ o, g (set_State stateMissing o) = g o) →
  Forall2 marked l l' → g <$> l' = g <$> l.
Proof.
  intros Hg. induction 1 as [|o o' l l' Ho _ IH]; [done|]. rewrite !fmap_cons, IH.
  by destruct Ho as [-> | ->]; rewrite ?Hg.
Qed.
Lemma marked_sound d objs : Forall2 marked (db_Objects d) objs → sound d → sound (with_Objects objs d).
Proof.
  intros Hm [(HF & Hu & Hn) (HH & HC & HE)]%sound_parts. apply sound_parts. cbn.
  rewrite (marked_fmap o_UUID _ _ (λ _, eq_refl) Hm). split_and!; try done. split_and!.
  - clear -Hm HF. induction Hm as [|o o' l l' Ho _ IH]; [constructor|]. inversion HF as [|? ? [[] Hp] HF']; subst.
    constructor; [|by apply IH]. destruct Ho as [-> | ->]; by split; [constructor|].
  - by rewrite (marked_fmap o_UUID _ _ (λ _, eq_refl) Hm).
  - by rewrite (marked_fmap object_name _ _ (λ _, eq_refl) Hm).
Qed.

Lemma adoptStorage_starts existed c : starting c → post (adoptStorage existed) c starts.
Proof.
  intros Hst. unfold adoptStorage. app_step. app_step. app_step. app_step; [|by split].
  destruct (_ && _).
  { app_step. app_step. app_step; by app_step. }
  app_step.
  eapply post_mono; [by apply quarantine_post|]. intros [[]|e|] c1 [[Hp Hst1] Hst2]; cbv beta iota; [|by split|done].
  app_step. eapply post_mono; [apply mark_missing_post|].
  intros [objs|e|] c2 (-> & Hp2 & HF); cbv beta iota; [|by split|done].
  app_step. split; [done|]. specialize (HF objs eq_refl). rewrite <- Hst2 in HF.
  destruct Hst1. constructor; [|done..]. by apply marked_sound.
Qed.

Lemma with_identity_sound iqn mid d : sound d → sound (with_Identity iqn mid d).
Proof. intros Hs%sound_parts. by apply sound_parts. Qed.
Lemma with_portals_sound ps d : sound d → sound (with_Portals ps d).
Proof. intros Hs%sound_parts. by apply sound_parts. Qed.

Lemma persist_starts c : starting c → post (persist marshal) c starts.
Proof.
  intros Hst. eapply post_mono; [apply persist_post|]. intros o c' (Hp & Hf & _ & Hs). split; [done|].
  eapply frame_starting; [done..|]. rewrite Hs. apply Hst.
Qed.

Lemma liveTargetIQN_post c :
  post (liveTargetIQN (F := F) mroot) c (λ o c', c' = c ∧ o ≠ Panic).
Proof. unfold liveTargetIQN. app_steps; by split. Qed.
Lemma decide_iqn_starts d cfg actual c : starting c → post (decide_iqn (F := F) mroot d cfg actual) c starts.
Proof.
  intros Hst. unfold decide_iqn. destruct (negb (String.eqb (db_TargetIQN d) "")).
  { app_step. destruct (_ && _); [destruct Hst; by app_steps | by app_steps]. }
  destruct (negb _); [by app_step|]. app_step. eapply post_mono; [apply liveTargetIQN_post|].
  intros [live|e|] c1 [-> Hp]; cbv beta iota; [|by split|done].
  destruct (negb _).
  - eapply post_mono; [apply liveTargetIQN_post|]. by intros o c1 [-> ?].
  - destruct (negb _); by app_step.
Qed.

Lemma adoptIdentity_starts c : starting c → post (adoptIdentity mroot marshal) c starts.
Proof.
  intros Hst. unfold adoptIdentity. app_step. app_step. app_step. app_step. app_step.
  eapply post_mono; [apply readMachineID_post|].
  intros o c1 [-> Hp]. destruct o as [actual|e|]; cbv beta iota; [| |done]; app_step; [|by split].
  cbv zeta. destruct (_ && _); [by app_step|].
  app_step. eapply post_mono; [by apply decide_iqn_starts|].
  intros [iqn|e|] c1 [Hp1 Hst1]; cbv beta iota; [|by split|done].
  destruct (_ && _); [destruct Hst1; by app_step|].
  app_step. app_step. app_step. app_step. app_step. app_step. 
  eapply post_mono; [apply persist_starts; destruct Hst, Hst1; constructor; [|done..]; by apply with_identity_sound|].
  intros [[]|e|] c2 [Hp2 Hst2]; cbv beta iota; [by app_step..|done].
Qed.

Lemma adoptPortals_starts c : starting c → post (adoptPortals marshal) c starts.
Proof.
  intros Hst. unfold adoptPortals. app_step. app_step. destruct (_ =? _)%nat.
  - app_step. app_step. app_step. app_step.
    eapply post_mono; [apply persist_starts; destruct Hst; constructor; [|done..]; by apply with_portals_sound|].
    intros [[]|e|] c2 [Hp2 Hst2]; cbv beta iota; [by app_step..|done].
  - destruct (negb _); destruct Hst; by app_step.
Qed.

Lemma Open_safe root quarantined cfg (w : world) :
  usable_document (c_dbPath (new_coord root cfg quarantined)) w →
  runs (Open range mroot aptplRecords marshal unmarshal root quarantined cfg) w
    (λ o c', is_done o = true → quiescent c').
Proof.
  intros Hdoc. unfold Open. apply runs_of_res; [|done]. intros [] _. apply runs_modify.
  pose proof (new_coord_starting root cfg quarantined) as Hst.
  apply runs_bind. pose proof (load_starts (mkWorld (new_coord root cfg quarantined) (w_k w) (w_f w)) Hst Hdoc) as Hl.
  unfold runs in Hl |- *. destruct (load _ _ _) as [o w1], Hl as [Hp1 Hst1]. cbn [fst snd] in *.
  destruct o as [existed|e|]; [|done..]. remember (w_c w1) as c1 eqn:Hc1. clear Hc1.
  app_step. eapply post_mono; [by apply adoptStorage_starts|]. intros [[]|e|] c2 [Hp2 Hst2]; [|done..].
  app_step. eapply post_mono; [by apply adoptIdentity_starts|]. intros [[]|e|] c3 [Hp3 Hst3]; [|done..].
  app_step. eapply post_mono; [by apply adoptPortals_starts|]. intros [[]|e|] c4 [Hp4 Hst4]; [|done..].
  app_step. eapply post_mono; [apply reconcile_post; [done | apply Hst4]|].
  intros [[]|e|] c5 (Hp5 & [Hf Hr] & [Ht _]); [|done..].
  assert (Hq : quiescent c5).
  { destruct Hf, Hst4. constructor; [split; [by apply Hr|] | done | congruence..].
    intros Hin. exfalso. rewrite fr_prClearing, st_prClearing0 in Hin. apply list_elem_of_fmap in Hin as (x & Hx & Hin).
    destruct Hr as [_ [[HF _ _] _]]; [done|]. rewrite Forall_forall in HF. destruct (HF x Hin) as [Hu _ _].
    by rewrite <- Hx in Hu. }
  app_step. app_step. destruct (String.eqb _ _); [by app_step|]. app_step. app_step. by app_step; app_step.
Qed.

(** Between requests the coordinator is quiescent. *)
Lemma reachable_quiescent w : reachable w → quiescent (w_c w).
Proof.
  induction 1 as [root quarantined cfg w w' Hd Ho|r w o w' _ IH Hg Hf Hp Hnp].
  - pose proof (Open_safe root quarantined cfg w Hd) as Hq. unfold runs in Hq.
    rewrite Ho in Hq. by apply Hq.
  - pose proof (perform_safe r w IH Hg Hf) as [_ Hq]. by rewrite Hp in Hq.
Qed.


(** C6. What /health says is true: in every reachable world the published error
    is the last reconcile's, it is absent exactly when the coordinator holds a
    configuration it believes applied, no clear is shown as under way, every
    volume held back is listed by name, and a ready, connected object is in the
    desired configuration exactly when it is not published as withheld: nothing
    is kept from its initiators silently. (Reachable, here and below: from a
    start whose document records no block size of zero, [usable_document].) *)
Theorem reachable_health (w : world) (Hr : reachable w) :
  let c := w_c w in
  let h := HealthSnapshot c in
  he_Detail h = c_lastReconcileErr c ∧ (he_Degraded h = true ↔ c_applied c = None) ∧
  he_ClearInProgress h = "" ∧
  (∀ u n, c_withheld c !! u = Some n → n ∈ he_Withheld h) ∧
  ∀ u cn, cn ∈ db_Connections (c_st c) → cn_ObjectUUID cn = u → ready (c_st c) u →
    u ∈ exported_of (c_prClearing c) (c_withheld c) (c_st c) ↔ hl_withheldNames (c_health c) !! u = None.
Proof.
  apply reachable_quiescent in Hr as [[Hs Hpc] [Hpub Happ] Hcl Hn]. cbn. split_and!; [done | | done | |].
  - rewrite Hpub, Happ. by destruct (c_lastReconcileErr (w_c w)).
  - intros u n Hu. rewrite Hn. unfold sortedValues, sort_strings. rewrite sort_by_perm.
    apply list_elem_of_fmap. exists (u, n). split; [done | by apply elem_of_map_to_list].
  - intros u cn Hcn Hu Hready. rewrite Hn, (exported_spec range range_perm). split; [by intros (_ & _ & _ & ?)|].
    intros Hw. split_and!; [by exists cn | done | | done]. right. intros ->.
    destruct Hready as (o & [Ho Hou]%object_Some & _).
    destruct Hpc as [n Hsome]; [rewrite <- Hou; apply list_elem_of_fmap; by exists o|]. congruence.
Qed.
End machine.
