(* ===== verification/AppRestProofs.v ===== *)
(** * appliance: what the REST interface keeps and answers

    Every HTTP request, to any path with any body, is at most one request of
    the state machine of [AppReach]: it gets an answer and leads to a reachable
    world, and a GET or HEAD leads nowhere. *)

From S2P Require Import Prelude GoStrings Errors Netip LioModel Configfs LioAptpl LioApply LioSync.
From S2P Require Import LioDelta LioStranded AppModel AppDb AppWf AppPortals AppTranslate AppTranslateProofs.
From S2P Require Import Storage AppAptpl AppCoordinator AppObjects AppHosts AppIdentity AppClear AppEvents AppRest.
From S2P Require Import AppRun AppAnswers AppSteady AppMutations AppRequests AppClearProofs AppReach.

(** ** The route table *)

(** Routes that only look. *)
Definition reading (rt : route) : bool :=
  match rt with
  | GetHealth | GetTarget | ListObjects _ | GetObject _ | ObjectConnections _ | AllConnections
  | ListHosts_ | GetHost_ | HostConnections => true
  | _ => false
  end.
Definition kind_ok (rt : route) : Prop :=
  match rt with PostObject k => k = KindVolume ∨ k = KindSnapshot | _ => True end.

Lemma dispatch_route meth segs rt vs : dispatch meth segs = Ok (rt, vs) →
  ∃ m p, (m, p, rt) ∈ routes ∧ method_ok m meth = true.
Proof.
  unfold dispatch. destruct (first _ _) as [[[m rt'] vs']|] eqn:Hf; [|by case_match].
  intros [= -> ->]. unfold first in Hf. apply head_Some_elem_of, list_elem_of_filter in Hf as [Hm Hin].
  apply list_elem_of_omap in Hin as ([[m0 p] rt0] & Hin & Hp).
  destruct (match_path p segs); [|done]. injection Hp as -> -> ->. by exists m, p.
Qed.
Lemma routes_table m p rt : (m, p, rt) ∈ routes →
  reading rt = String.eqb m "GET" ∧ String.eqb m "HEAD" = false ∧ kind_ok rt.
Proof.
  assert (HF : Forall (λ e : pattern, reading e.2 = String.eqb e.1.1 "GET" ∧ String.eqb e.1.1 "HEAD" = false
                                      ∧ kind_ok e.2) routes) by (repeat constructor; cbn; auto).
  rewrite Forall_forall in HF. intros Hin. by apply (HF _ Hin).
Qed.
Lemma dispatch_kind meth segs rt vs : dispatch meth segs = Ok (rt, vs) → kind_ok rt.
Proof. intros (m & p & Hin & _)%dispatch_route. by apply routes_table in Hin as (_ & _ & ?). Qed.
(** GET and HEAD arrive at a route that only looks. *)
Lemma dispatch_reads meth segs rt vs : dispatch meth segs = Ok (rt, vs) →
  meth = "GET" ∨ meth = "HEAD" → reading rt = true.
Proof.
  intros (m & p & Hin & Hok)%dispatch_route Hm. apply routes_table in Hin as (-> & Hh & _).
  unfold method_ok in Hok. apply orb_true_iff in Hok as [->%String.eqb_eq|[? _]%andb_true_iff]; [|done].
  by destruct Hm as [->| ->].
Qed.

Lemma dispatch_own meth segs rs : dispatch meth segs = Err rs →
  ∃ text, rs_Body rs = BPlain text ∧ (rs_Code rs = StatusNotFound ∨ rs_Code rs = StatusMethodNotAllowed).
Proof.
  unfold dispatch. destruct (first _ _) as [[[m rt'] vs']|]; [done|].
  case_match; intros [= <-]; eexists; (split; [done|]); auto.
Qed.
(** The routes of POST. *)
Definition posting (rt : route) : bool :=
  match rt with
  | PostObject _ | PostResize _ | PostClear _ | PostConnection _ | PostHost => true
  | _ => false
  end.
Lemma dispatch_posts segs rt vs : dispatch "POST" segs = Ok (rt, vs) → posting rt = true.
Proof.
  intros (m & p & Hin & Hok)%dispatch_route.
  assert (HF : Forall (λ e : pattern, posting e.2 = String.eqb e.1.1 "POST") routes) by (repeat constructor).
  rewrite Forall_forall in HF. specialize (HF _ Hin). cbn [fst snd] in HF. rewrite HF.
  unfold method_ok in Hok. by apply orb_true_iff in Hok as [?|[_ ?]%andb_true_iff].
Qed.

(** ** What an answer says *)

(** The body of each status. An error carries the status and the machine code of
    the coordinator's error, or, when the coordinator was not asked, the code of
    the status. *)
Definition answer_ok (rs : response) : Prop :=
  match rs_Body rs with
  | BError code e =>
      rs_Code rs ∈ error_statuses ∧ code ≠ "" ∧
      (rs_Code rs = status e ∧ code = errorCode e ∨ code = codeForStatus (rs_Code rs))
  | BClearError code e _ =>
      rs_Code rs ∈ error_statuses ∧ code ≠ "" ∧ rs_Code rs = status e ∧ code = errorCode e
  | BPlain _ => rs_Code rs = StatusNotFound ∨ rs_Code rs = StatusMethodNotAllowed
  | BHealth h s =>
      s = Health_Status h ∧ rs_Code rs = (if he_Degraded h then StatusServiceUnavailable else StatusOK)
  | BObject _ | BHost _ | BConn _ => rs_Code rs = StatusOK ∨ rs_Code rs = StatusCreated
  | _ => rs_Code rs = StatusOK
  end.
(** The answer of a request that creates nothing. *)
Definition quiet_answer (rs : response) : Prop := answer_ok rs ∧ rs_Code rs ≠ StatusCreated.
(** The record a creation answers with is the one it added. *)
Definition created (c c' : coord) (b : body) : Prop :=
  match b with
  | BObject o => db_Objects (c_st c') = db_Objects (c_st c) ++ [o]
  | BHost h => db_Hosts (c_st c') = db_Hosts (c_st c) ++ [h]
  | BConn info => ∃ cn, cn_LUN cn = ci_LUN info ∧ db_Connections (c_st c') = db_Connections (c_st c) ++ [cn]
  | _ => False
  end.
Definition is_record (b : body) : Prop := match b with BObject _ | BHost _ | BConn _ => True | _ => False end.

Lemma error_not code : code ∈ error_statuses → code ≠ StatusOK ∧ code ≠ StatusCreated.
Proof. intros Hc. split; intros ->; revert Hc; apply (bool_decide_unpack _); by vm_compute. Qed.
Lemma error_quiet e ws : honest e → quiet_answer (mkResponse (status e) (BError (errorCode e) e) ws).
Proof. intros He. split; [split_and!; [done | apply errorCode_nonempty | by left] | by apply error_not]. Qed.
Lemma errResp_quiet code e : code ∈ error_statuses → quiet_answer (errResp code e).
Proof. intros Hc. split; [split_and!; [done | apply codeForStatus_nonempty | by right] | by apply error_not]. Qed.
Lemma respond_quiet {A} (g : A → body) (r : result aerr A) : says anything r →
  (∀ a, quiet_answer (writeJSON StatusOK (g a))) → quiet_answer (respond StatusOK (rmap g r)).
Proof. intros Hr Hg. destruct r; cbn; [apply Hg | by apply error_quiet]. Qed.
Lemma warning_quiet {A} (g : A → body) ws (r : result aerr A) : says anything r →
  (∀ a, quiet_answer (mkResponse StatusOK (g a) ws)) → quiet_answer (respondWithWarning ws (rmap g r)).
Proof. intros Hr Hg. destruct r; cbn; [apply Hg | by apply error_quiet]. Qed.

Section rest.
Context {K F : Type} `{Kernel K} `{Files F}.
Context (range : ∀ A, list A → list A) (range_perm : ∀ A (l : list A), range A l ≡ₚ l).
Context (mroot : string) (aptplRecords : option (Backstore → ST K (list string))) (pageSize : Z).
Context (marshal : db → string) (unmarshal : string → option Loaded).
Context (json : Decoders).

Notation App := (App K F).
Notation world := (world K F).
Notation perform := (perform (K := K) (F := F) range mroot aptplRecords pageSize marshal).
Notation reachable := (reachable (K := K) (F := F) range mroot aptplRecords pageSize marshal unmarshal).
Notation handle := (handle (K := K) (F := F) range mroot aptplRecords pageSize marshal json).
Notation Handler := (Handler (K := K) (F := F) range mroot aptplRecords pageSize marshal json).

(** ** Requests that only look *)

Definition looks (m : App response) : Prop := ∀ w, ∃ rs, m w = (Done rs, w).
Lemma looks_ret rs : looks (aret rs).
Proof. intros w. by exists rs. Qed.
Lemma looks_get (g : coord → response) : looks (let! c := get in aret (g c)).
Proof. intros w. by eexists. Qed.
Lemma looks_answering {A} (g : coord → A) (f : result aerr A → response) :
  looks (answering (let! c := get in aret (g c)) f).
Proof. intros w. by eexists. Qed.
Lemma looks_answering_st {A} (g : db → A) (f : result aerr A → response) :
  looks (answering (let! d := st in aret (g d)) f).
Proof. intros w. by eexists. Qed.
Lemma reading_looks rt vs q text : reading rt = true → looks (handle rt vs q text).
Proof.
  destruct rt; intros [=]; cbn [AppRest.handle];
    first [apply looks_get | apply looks_answering | apply looks_answering_st].
Qed.

(** ** Requests of the state machine *)

(** The handler is the request [rq], answered. *)
Definition is_request {A} (m : App A) (rq : request) : Prop :=
  ∀ w, (perform rq w).2 = (m w).2 ∧ ((m w).1 = Panic → (perform rq w).1 = Panic).
Lemma request_unit (m : App unit) rq : perform rq = m → is_request m rq.
Proof. intros Hm w. by rewrite Hm. Qed.
Lemma request_value {A} (m : App A) rq : perform rq = (m ;!; aret tt) → is_request m rq.
Proof. intros Hm w. rewrite Hm. unfold abind. by destruct (m w) as [[a|e|] w']. Qed.

Definition lives (m : App response) (w : world) : Prop := ∃ rs w', m w = (Done rs, w') ∧ reachable w'.
Lemma lives_ret rs w : reachable w → lives (aret rs) w.
Proof. intros Hr. by exists rs, w. Qed.
Lemma lives_answering {A} (m : App A) f rq w : is_request m rq → good_request rq →
  reachable w → fresh w → lives (answering m f) w.
Proof using range_perm.
  intros Hm Hg Hr Hf. destruct (Hm w) as [H2 H1].
  pose proof (reachable_quiescent range range_perm mroot aptplRecords pageSize marshal unmarshal w Hr) as Hq.
  destruct (perform_safe range range_perm mroot aptplRecords pageSize marshal rq w Hq Hg Hf) as [Hp _].
  assert (Hn : reachable (m w).2).
  { rewrite <- H2. destruct (perform rq w) as [o w'] eqn:Hw. by apply (reach_request _ _ _ _ _ _ rq w o w'). }
  unfold lives, answering, abind, atry. destruct (m w) as [[a|e|] w'] eqn:Hmw; cbn in *.
  - by exists (f (Ok a)), w'.
  - by exists (f (Err e)), w'.
  - by destruct Hp; apply H1.
Qed.
Lemma lives_with_body {A} dec text (k : A → App response) w : reachable w →
  (∀ a, lives (k a) w) → lives (with_body dec text k) w.
Proof. intros Hr Hk. unfold with_body. destruct (readJSON dec text); [apply Hk | by apply lives_ret]. Qed.

Lemma handle_lives rt vs q text w : kind_ok rt → reachable w → fresh w → lives (handle rt vs q text) w.
Proof using range_perm.
  intros Hk Hr Hf. destruct (reading rt) eqn:Hrd.
  { destruct (reading_looks rt vs q text Hrd w) as [rs Hs]. by exists rs, w. }
  assert (Hval : ∀ A (m : App A) f rq, perform rq = (m ;!; aret tt) → good_request rq → lives (answering m f) w).
  { intros A m f rq Hm Hg. by apply (lives_answering m f rq); [apply request_value|..]. }
  assert (Hunit : ∀ (m : App unit) f rq, perform rq = m → good_request rq → lives (answering m f) w).
  { intros m f rq Hm Hg. by apply (lives_answering m f rq); [apply request_unit|..]. }
  destruct rt; try discriminate; cbn [AppRest.handle]; try (apply lives_with_body; [done|]; intros b).
  - unfold put_portals. cbv zeta. destruct (_ =? _)%nat; [by apply (Hval _ _ _ (RSetPortals []))|].
    destruct (ParsePortals _ _) as [ps|e]; [by apply (Hval _ _ _ (RSetPortals ps)) | by apply lives_ret].
  - unfold post_object. by eapply (Hval _ _ _ (RCreate kind _)).
  - by apply (Hval _ _ _ (RRename kind (default "" (vs !! 0%nat)) b)).
  - by apply (Hunit _ _ (RDelete kind (default "" (vs !! 0%nat)))).
  - by apply (Hval _ _ _ (RResize kind (default "" (vs !! 0%nat)) b)).
  - by apply (Hval _ _ _ (RClearReservation kind (default "" (vs !! 0%nat)) b)).
  - by apply (Hval _ _ _ (RConnect kind (default "" (vs !! 0%nat)) (cb_Host b) (cb_LUN b))).
  - by apply (Hval _ _ _ (RDisconnect kind (default "" (vs !! 0%nat)) (default "" (vs !! 1%nat)))).
  - by apply (Hval _ _ _ (RCreateHost (hb_Name b) (hb_IQNs b))).
  - by apply (Hval _ _ _ (RRenameHost (default "" (vs !! 0%nat)) b)).
  - by apply (Hval _ _ _ (RSetBindings (default "" (vs !! 0%nat)) (Some (default [] b)) [] [])).
  - by apply (Hval _ _ _ (RSetBindings (default "" (vs !! 0%nat)) None (bb_Add b) (bb_Remove b))).
  - by apply (Hunit _ _ (RDeleteHost (default "" (vs !! 0%nat)))).
Qed.

(** C11. Every HTTP request is answered and keeps the appliance in a reachable
    world, and looking changes nothing: in a reachable world, whatever the
    method, the path, the query and the body, the handler neither crashes nor
    leaves the state machine of the coordinator, so all that is proved of
    reachable worlds holds after any sequence of HTTP requests; and a GET or
    HEAD leaves the records, the kernel and the disk as they were. Of the start
    this asks that the document it read records no block size of zero (the
    loader does not check, and the POST of a connection to such an object does
    panic, [AppWitnesses.Logs.panic_said]), and of each request that the random
    identifiers it draws are not in use ([fresh]). *)
Theorem Handler_reachable (r : http) (w : world) (Hr : reachable w) (Hf : fresh w) :
  ∃ rs w', Handler r w = (Done rs, w') ∧ reachable w' ∧
    (ht_Method r = "GET" ∨ ht_Method r = "HEAD" → w' = w).
Proof using range_perm.
  unfold AppRest.Handler.
  assert (Hret : ∀ rs : response, ∃ rs' w', aret rs w = (Done rs', w') ∧ reachable w' ∧
    (ht_Method r = "GET" ∨ ht_Method r = "HEAD" → w' = w)) by (intros rs; by exists rs, w).
  destruct (ht_Path r) as [|v segs]; [apply Hret|]. destruct (String.eqb v APIPrefix); [|apply Hret].
  destruct (dispatch (ht_Method r) segs) as [[rt vs]|rs] eqn:Hd; [|apply Hret].
  destruct (handle_lives rt vs (ht_Query r) (ht_Body r) w) as (rs & w' & Hs & Hl); [by eapply dispatch_kind | done..|].
  exists rs, w'. split_and!; [done..|]. intros Hm.
  destruct (reading_looks rt vs (ht_Query r) (ht_Body r) (dispatch_reads _ _ _ _ Hd Hm) w) as [rs' Hs'].
  rewrite Hs in Hs'. by injection Hs'.
Qed.

(** ** What each route answers *)

Notation tells := (tells (K := K) (F := F)).

Definition quiets (m : App response) : Prop := ∀ w rs w', m w = (Done rs, w') → quiet_answer rs.
Lemma quiets_ret rs : quiet_answer rs → quiets (aret rs).
Proof. by intros Hq w rs' w' [= <- _]. Qed.
Lemma quiets_get (g : coord → response) : (∀ c, quiet_answer (g c)) → quiets (let! c := get in aret (g c)).
Proof. intros Hg w rs w' [= <- _]. apply Hg. Qed.
Lemma quiets_answering {A} V (m : App A) f : tells V m → (∀ r, says V r → quiet_answer (f r)) →
  quiets (answering m f).
Proof.
  intros Hm Hf [c k d] rs w'. specialize (Hm c k d). unfold runs in Hm. unfold answering, abind, atry.
  destruct (m _) as [[a|e|] w1]; cbn in *; [intros [= <- _]; by apply (Hf (Ok a))| |done].
  intros [= <- _]. by apply (Hf (Err e)).
Qed.
Lemma quiets_body {A} dec text (k : A → App response) : (∀ a, quiets (k a)) → quiets (with_body dec text k).
Proof.
  intros Hk. unfold with_body. destruct (readJSON dec text); [apply Hk | apply quiets_ret, errResp_quiet, in_400].
Qed.
(** A look at the database. *)
Lemma quiets_look {A} (g : coord → A) (f : result aerr A → response) :
  (∀ a, quiet_answer (f (Ok a))) → quiets (answering (let! c := get in aret (g c)) f).
Proof. intros Hf w rs w' [= <- _]. apply Hf. Qed.
Lemma quiets_look_st {A} (g : db → A) (f : result aerr A → response) :
  (∀ a, quiet_answer (f (Ok a))) → quiets (answering (let! d := st in aret (g d)) f).
Proof. intros Hf w rs w' [= <- _]. apply Hf. Qed.
Lemma quiets_list o k h : quiets (list_connections o k h).
Proof. apply quiets_get. intros c. apply respond_quiet; [apply ListConnections_says | done]. Qed.
Lemma quiets_op {A} (g : A → body) (m : App A) : tells anything m →
  (∀ a, quiet_answer (writeJSON StatusOK (g a))) → quiets (answering m (λ r, respond StatusOK (rmap g r))).
Proof. intros Hm Hg. apply (quiets_answering anything); [done|]. intros r Hr. by apply respond_quiet. Qed.
Lemma found_quiet {A} what ref (g : A → body) o : (∀ a, quiet_answer (writeJSON StatusOK (g a))) →
  quiet_answer (found what ref g (Ok o)).
Proof. intros Hg. destruct o; cbn; [apply Hg|]. apply error_quiet, honest_status, in_404. Qed.
Lemma health_quiet h : quiet_answer (health_response h).
Proof.
  unfold health_response, quiet_answer, answer_ok. cbv zeta. cbn [writeJSON rs_Body rs_Code]. unfold Health_Status.
  destruct (he_Degraded h); [by split_and!|]. destruct (_ || _); by split_and!.
Qed.

(** A record read or changed, at 200. *)
Lemma ok_quiet b : match b with BError _ _ | BClearError _ _ _ | BPlain _ | BHealth _ _ => False | _ => True end →
  quiet_answer (writeJSON StatusOK b).
Proof. intros Hb. split; [|done]. unfold answer_ok. destruct b; cbn in *; auto; done. Qed.
Lemma ok_warned b ws : match b with BError _ _ | BClearError _ _ _ | BPlain _ | BHealth _ _ => False | _ => True end →
  quiet_answer (mkResponse StatusOK b ws).
Proof. intros Hb. split; [|done]. unfold answer_ok. destruct b; cbn in *; auto; done. Qed.

Lemma quiets_bindings ref replace add remove :
  quiets (set_bindings range mroot aptplRecords marshal ref replace add remove).
Proof.
  apply (quiets_answering (λ r, says anything r.2)); [apply SetBindings_tells|].
  intros [[ws r]|e] Hr; [apply warning_quiet; [done|]; intros a; by apply ok_warned | by apply error_quiet].
Qed.
Lemma quiets_disconnect kind name host :
  quiets (delete_connection range mroot aptplRecords marshal kind name host).
Proof.
  apply (quiets_answering (λ r, says anything r.2)); [apply Disconnect_tells|].
  intros [[ws r]|e] Hr; [apply warning_quiet; [done|]; intros a; by apply ok_warned | by apply error_quiet].
Qed.
Lemma quiets_clear kind name confirm : quiets (post_clear range mroot aptplRecords pageSize kind name confirm).
Proof.
  apply (quiets_answering told); [apply ClearReservation_tells|]. 
  intros [[out [e|]]|e] Hr; cbn in *; [|by apply ok_quiet|];
    (split; [split_and!; [done | apply errorCode_nonempty | done..] | by apply error_not]).
Qed.
Lemma quiets_portals b : quiets (put_portals range mroot aptplRecords marshal b).
Proof.
  unfold put_portals. cbv zeta. destruct (_ =? _)%nat; [apply quiets_op; [apply SetPortals_tells | by intros; apply ok_quiet]|].
  destruct (ParsePortals _ _); [|apply quiets_ret, errResp_quiet, in_400].
  apply quiets_op; [apply SetPortals_tells | by intros; apply ok_quiet].
Qed.

(** Routes that create. *)
Definition creating (rt : route) : bool :=
  match rt with PostObject _ | PostConnection _ | PostHost => true | _ => false end.

Lemma handle_quiets rt vs q text : creating rt = false → quiets (handle rt vs q text).
Proof.
  destruct rt; intros [=]; cbn [AppRest.handle]; try (apply quiets_body; intros b).
  - apply quiets_get. intros c. apply health_quiet.
  - apply quiets_look. intros a. by apply ok_quiet.
  - apply quiets_portals.
  - apply quiets_look_st. intros a. by apply ok_quiet.
  - apply quiets_look_st. intros a. apply found_quiet. intros o. by apply ok_quiet.
  - apply quiets_op; [apply Rename_tells | by intros; apply ok_quiet].
  - apply quiets_op; [apply Delete_tells | by intros; apply ok_quiet].
  - apply quiets_op; [apply Resize_tells | by intros; apply ok_quiet].
  - apply quiets_clear.
  - apply quiets_disconnect.
  - apply quiets_list.
  - apply quiets_list.
  - apply quiets_look_st. intros a. by apply ok_quiet.
  - apply quiets_look_st. intros a. apply found_quiet. intros o. by apply ok_quiet.
  - apply quiets_op; [apply RenameHost_tells | by intros; apply ok_quiet].
  - apply quiets_bindings.
  - apply quiets_bindings.
  - apply quiets_op; [apply DeleteHost_tells | by intros; apply ok_quiet].
  - apply quiets_list.
Qed.

(** What an answer to a creating request is evidence of. *)
Definition explains (m : App response) (w : world) : Prop := ∀ rs w', m w = (Done rs, w') →
  answer_ok rs ∧ (rs_Code rs = StatusCreated → created (w_c w) (w_c w') (rs_Body rs)) ∧
  (rs_Code rs = StatusOK → w' = w).
Lemma quiet_explains e w : quiet_answer e → rs_Code e ≠ StatusOK → explains (aret e) w.
Proof. by intros [Ha Hn] Hok rs w' [= <- _]. Qed.
Lemma explains_body {A} dec text (k : A → App response) w : (∀ a, explains (k a) w) → explains (with_body dec text k) w.
Proof.
  intros Hk. unfold with_body. destruct (readJSON dec text); [apply Hk|].
  apply quiet_explains; [apply errResp_quiet, in_400 | done].
Qed.
Lemma explains_creation {A B} (m : App (A * bool)) (g : A → body) (l : db → list B) new (w : world) :
  tells anything m → replays m → runs m w (adds l new (w_c w)) →
  (∀ a, is_record (g a)) →
  (∀ a b c', new a b → l (c_st c') = l (c_st (w_c w)) ++ [b] → created (w_c w) c' (g a)) →
  explains (answering m (respond_created g)) w.
Proof.
  intros Hm Hrep Hadds Hg Hnew rs w'. specialize (Hrep w). destruct w as [c k d]. specialize (Hm c k d).
  unfold runs in *. cbn [w_c] in *. unfold answering, abind, atry.
  destruct (m _) as [[[a []]|e|] w1]; cbn in *; [| | |done]; intros [= <- <-].
  - destruct Hadds as [_ (b & Hb & Hl)]. cbn. split; [|split; [intros _; by eapply Hnew | done]].
    specialize (Hg a). unfold answer_ok. cbn. destruct (g a); (done || by right).
  - split; [|split; [done | by intros _; apply (Hrep a)]].
    specialize (Hg a). unfold answer_ok. cbn. destruct (g a); (done || by left).
  - cbn in Hm. destruct (error_not _ Hm) as [? ?]. split; [|done]. by apply (error_quiet e []).
Qed.

Lemma handle_explains rt vs q text (w : world) : creating rt = true → kind_ok rt → quiescent (w_c w) → fresh w →
  explains (handle rt vs q text) w.
Proof using range_perm.
  intros Hc Hk Hq Hf. destruct rt; try discriminate; cbn [AppRest.handle]; apply explains_body; intros b.
  - apply (explains_creation _ _ db_Objects eq); [apply Create_tells | apply Create_replays | | done |].
    + by apply Create_adds.
    + by intros a o c' -> Hl.
  - eapply (explains_creation _ _ db_Connections); [apply Connect_tells | apply Connect_replays | | done |].
    + apply post_runs. by apply (Connect_adds range range_perm mroot aptplRecords marshal).
    + intros a cn c' Hl Hcn. by exists cn.
  - apply (explains_creation _ _ db_Hosts eq); [apply CreateHost_tells | apply CreateHost_replays | | done |].
    + by apply (CreateHost_adds range range_perm mroot aptplRecords marshal).
    + by intros a o c' -> Hl.
Qed.

(** The other routes of POST answer no record. *)
Lemma answering_body {A} (m : App A) f w rs w' : (∀ r, ¬ is_record (rs_Body (f r))) →
  answering m f w = (Done rs, w') → ¬ is_record (rs_Body rs).
Proof.
  intros Hf. unfold answering, abind, atry. destruct (m w) as [[a|e|] w1]; cbn; [intros [= <- _]..|done]; apply Hf.
Qed.
Lemma handle_no_record rt vs q text w rs w' : posting rt = true → creating rt = false →
  handle rt vs q text w = (Done rs, w') → ¬ is_record (rs_Body rs).
Proof.
  intros Hp Hc. destruct rt; try discriminate; cbn [AppRest.handle]; unfold with_body;
    (destruct (readJSON _ text); [|intros [= <- _]; cbn; tauto]); apply answering_body.
  - intros []; cbn; tauto.
  - intros [[out [e|]]|e]; cbn; tauto.
Qed.

(** ** Whose error an answer says it is *)

(** The path names an object or a host that is not recorded. *)
Definition turned_away (d : db) (rt : route) (vs : list string) : Prop :=
  let name := default "" (vs !! 0%nat) in
  match rt with
  | GetObject k | PatchObject k | DeleteObject k | PostResize k | PostClear k | PostConnection k =>
      resolveObject d k name = None
  | GetHost_ | PatchHost | PutIQNs | PatchIQNs | DeleteHost_ => resolveHost d name = None
  | DeleteConnection k => resolveObject d k name = None ∨ resolveHost d (default "" (vs !! 1%nat)) = None
  | _ => False
  end.
(** The path or the body does: the host to connect, the source to copy. *)
Definition lacks (d : db) (rt : route) (vs : list string) (text : string) : Prop :=
  turned_away d rt vs ∨
  match rt with
  | PostConnection _ => ∃ b, readJSON (dec_connection json) text = Ok b ∧ resolveHost d (cb_Host b) = None
  | PostObject k => ∃ b, readJSON (dec_object json) text = Ok b ∧ ob_Source b ≠ "" ∧
                         resolveObject d (sourceKind k (ob_SourceKind b)) (ob_Source b) = None
  | _ => False
  end.
(** The routes whose own failures are answered 5xx, and only they. *)
Definition blames (rt : route) : bool := match rt with PutPortals | PostClear _ => false | _ => true end.

(** What the status says: [L] is what a 404 says, [B] whether a 4xx says that
    nothing was done. *)
Definition stated (L : Prop) (B : bool) (m : App response) (w : world) : Prop := ∀ rs w', m w = (Done rs, w') →
  (rs_Code rs = StatusNotFound → L) ∧ (B = true → 400 <= rs_Code rs < 500 → w' = w).
Lemma stated_still L B m w : (∀ rs w', m w = (Done rs, w') → w' = w ∧ rs_Code rs ≠ StatusNotFound) → stated L B m w.
Proof. intros Hm rs w' Hr. destruct (Hm rs w' Hr) as [-> Hn]. by split. Qed.
Lemma stated_body {A} L B dec text (k : A → App response) w :
  (∀ a, readJSON dec text = Ok a → stated L B (k a) w) → stated L B (with_body dec text k) w.
Proof.
  intros Hk. unfold with_body. destruct (readJSON dec text); [by apply Hk|].
  apply stated_still. by intros rs w' [= <- <-].
Qed.
Lemma own_5xx e : own e → status e ≠ StatusNotFound ∧ ¬ 400 <= status e < 500.
Proof.
  unfold own, StatusNotFound, StatusInternalServerError, StatusServiceUnavailable. intros [-> | ->]; split; lia.
Qed.
Lemma late_not_404 e : late e → status e ≠ StatusNotFound.
Proof. intros [-> | Ho]; [done|]. by apply own_5xx. Qed.
Lemma stated_answering {A} (L : Prop) B V (m : App A) f w : refuses_at (c_st (w_c w)) L m → yields V m →
  (∀ e, rs_Code (f (Err e)) = status e) →
  (∀ a, V a → rs_Code (f (Ok a)) ≠ StatusNotFound ∧ (B = true → ¬ 400 <= rs_Code (f (Ok a)) < 500)) →
  stated L B (answering m f) w.
Proof.
  intros Hm Hv Hf Ha rs w'. specialize (Hm w). specialize (Hv w). unfold answering, abind, atry.
  destruct (m w) as [[a|e|] w1]; cbn; [| |done]; intros [= <- <-].
  - destruct (Ha a) as [H1 H2]; [by eapply Hv|]. split; [by intros ?%H1 | intros Hb Hr; by destruct (H2 Hb)].
  - rewrite Hf. destruct (Hm e w1 eq_refl eq_refl) as [[H1 H2]%own_5xx|[Hc ->]].
    { split; [by intros ?%H1 | by intros _ ?%H2]. }
    split; [|done]. intros He. unfold caller_error in Hc. rewrite He in Hc.
    destruct Hc as [Hc|[Hc|[_ Hc]]]; [discriminate..|done].
Qed.
Lemma yields_any {A} (m : App A) : yields (λ _, True) m.
Proof. by intros w a w' _. Qed.

Lemma stated_looks {A} L B (g : coord → A) (f : result aerr A → response) w :
  (∀ a, rs_Code (f (Ok a)) ≠ StatusNotFound) → stated L B (answering (let! c := get in aret (g c)) f) w.
Proof. intros Hf. apply stated_still. intros rs w' [= <- <-]. by split. Qed.
Lemma stated_looks_st {A} L B (g : db → A) (f : result aerr A → response) w :
  (∀ a, rs_Code (f (Ok a)) ≠ StatusNotFound) → stated L B (answering (let! d := st in aret (g d)) f) w.
Proof. intros Hf. apply stated_still. intros rs w' [= <- <-]. by split. Qed.
Lemma stated_found {A} (g : db → option A) what ref (h : A → body) (w : world) :
  stated (g (c_st (w_c w)) = None) true
    (answering (let! d := st in aret (g d)) (found what ref h)) w.
Proof. intros rs w' [= <- <-]. split; [|done]. by destruct (g (c_st (w_c w))). Qed.
Lemma stated_list L o k h w : stated L true (list_connections o k h) w.
Proof.
  apply stated_still. intros rs w' [= <- <-]. split; [done|].
  destruct (ListConnections _ _ _ _) as [l|e] eqn:Hl; [done|]. cbn [rmap respond errRespFor writeJSON rs_Code].
  unfold ListConnections in Hl. destruct (object_filter _ _ _) as [fo|e'] eqn:Ho; cbn [rbind] in Hl;
    [by repeat case_match|]. injection Hl as <-. revert Ho. unfold object_filter.
  by repeat case_match; intros [= <-].
Qed.
Lemma stated_weaken (L L' : Prop) B m w : (L → L') → stated L B m w → stated L' B m w.
Proof. intros HL Hm rs w' Hr. destruct (Hm rs w' Hr). by split; auto. Qed.
Lemma below_400 B code : code < 400 → code ≠ StatusNotFound ∧ (B = true → ¬ 400 <= code < 500).
Proof. unfold StatusNotFound. intros. split; [lia|]. intros _. lia. Qed.
Lemma handle_states rt vs q text (w : world) : stated (lacks (c_st (w_c w)) rt vs text) (blames rt) (handle rt vs q text) w.
Proof.
  assert (Hop : ∀ A (m : App A) L (g : A → body), refuses_at (c_st (w_c w)) L m →
    stated L true (answering m (λ r, respond StatusOK (rmap g r))) w).
  { intros A m L g Hm. eapply stated_answering; [exact Hm | apply yields_any | done|].
    intros a _. by apply below_400. }
  assert (Hmk : ∀ A (m : App (A * bool)) L (g : A → body), refuses_at (c_st (w_c w)) L m →
    stated L true (answering m (respond_created g)) w).
  { intros A m L g Hm. eapply stated_answering; [exact Hm | apply yields_any | done|].
    intros [a []] _; by apply below_400. }
  assert (Hbind : ∀ ref replace add remove, stated (resolveHost (c_st (w_c w)) ref = None) true
    (set_bindings range mroot aptplRecords marshal ref replace add remove) w).
  { intros. eapply stated_answering; [apply SetBindings_refuses | apply SetBindings_yields | done |].
    intros [ws [h|e]] Hv; [by apply below_400|]. destruct (own_5xx e (Hv e eq_refl)). by split. }
  destruct rt; cbn [AppRest.handle blames]; try (apply stated_body; intros b Hb).
  - apply stated_still. intros rs w' [= <- <-]. split; [done|]. unfold health_response. cbv zeta. by case_match.
  - by apply stated_looks.
  - assert (Hps : ∀ ps f, (∀ r, rs_Code (f r) = match r with Ok _ => StatusOK | Err e => status e end) →
      stated (lacks (c_st (w_c w)) PutPortals vs text) false (answering (SetPortals range mroot aptplRecords marshal ps) f) w).
    { intros ps f Hf rs w'. pose proof (SetPortals_statuses (K := K) (F := F) range mroot aptplRecords marshal ps w) as Hs.
      unfold answering, abind, atry. destruct (SetPortals _ _ _ _ _ w) as [[a|e|] w1]; cbn; [| |done];
        intros [= <- <-]; rewrite Hf; (split; [|done]); [done|].
      destruct (Hs e w1 eq_refl) as [-> | ->]; discriminate. }
    unfold put_portals. cbv zeta. destruct (_ =? _)%nat; [by apply Hps; intros []|].
    destruct (ParsePortals _ _); [by apply Hps; intros []|]. apply stated_still. by intros rs w' [= <- <-].
  - eapply stated_weaken; [|apply Hmk, Create_refuses]. intros [Hs Hl]. right. by exists b.
  - by apply stated_looks_st.
  - eapply stated_weaken; [|apply (stated_found (λ d, resolveObject d kind (default "" (vs !! 0%nat))))]. by left.
  - eapply stated_weaken; [|apply Hop, Rename_refuses]. by left.
  - eapply stated_weaken; [|apply Hop, Delete_refuses]. by left.
  - eapply stated_weaken; [|apply Hop, Resize_refuses]. by left.
  - eapply stated_answering; [|apply ClearReservation_late|by intros []|].
    + eapply refuses_at_weaken; [|apply (ClearReservation_refuses range mroot aptplRecords pageSize marshal)].
      by left.
    + intros [out [e|]] Hv; [|done]. split; [|done]. by apply late_not_404, Hv.
  - eapply stated_weaken; [|apply Hmk, Connect_refuses]. intros [Hl|Hl]; [by left|]. right. by exists b.
  - eapply stated_weaken; [|eapply stated_answering; [apply Disconnect_refuses | apply Disconnect_yields | done |]].
    + by left.
    + intros [ws [h|e]] Hv; [by apply below_400|]. destruct (own_5xx e (Hv e eq_refl)). by split.
  - apply stated_list.
  - apply stated_list.
  - eapply stated_weaken; [|apply Hmk, CreateHost_refuses]. done.
  - by apply stated_looks_st.
  - eapply stated_weaken; [|apply (stated_found (λ d, resolveHost d (default "" (vs !! 0%nat))))]. by left.
  - eapply stated_weaken; [|apply Hop, RenameHost_refuses]. by left.
  - eapply stated_weaken; [|apply Hbind]. by left.
  - eapply stated_weaken; [|apply Hbind]. by left.
  - eapply stated_weaken; [|apply Hop, DeleteHost_refuses]. by left.
  - apply stated_list.
Qed.

(** And the converse, for what the path names. *)
Definition sent_away (m : App response) (w : world) : Prop := ∀ rs w', m w = (Done rs, w') →
  (rs_Code rs = StatusNotFound ∨ rs_Code rs = StatusBadRequest) ∧ w' = w.
Lemma sent_answering {A} (m : App A) f w : away m w → (∀ e, rs_Code (f (Err e)) = status e) →
  sent_away (answering m f) w.
Proof.
  intros (e & Hm & He) Hf rs w'. unfold answering, abind, atry. rewrite Hm. cbn. intros [= <- <-]. by rewrite Hf.
Qed.
Lemma sent_body {A} dec text (k : A → App response) w : (∀ a, sent_away (k a) w) → sent_away (with_body dec text k) w.
Proof.
  intros Hk. unfold with_body. destruct (readJSON dec text); [apply Hk|]. intros rs w' [= <- <-]. split; [by right | done].
Qed.
Lemma sent_found {A} (g : db → option A) what ref (h : A → body) (w : world) : g (c_st (w_c w)) = None →
  sent_away (answering (let! d := st in aret (g d)) (found what ref h)) w.
Proof. intros Hg rs w' [= <- <-]. rewrite Hg. split; [by left | done]. Qed.
Lemma handle_away rt vs q text (w : world) : turned_away (c_st (w_c w)) rt vs → sent_away (handle rt vs q text) w.
Proof.
  destruct rt; cbn [turned_away AppRest.handle]; intros Ht; try done; try (apply sent_body; intros b);
    try (by apply sent_found); apply sent_answering; try done; try (by intros []).
  - by apply Rename_away.
  - by apply Delete_away.
  - by apply Resize_away.
  - by apply ClearReservation_away.
  - by apply Connect_away.
  - by apply Disconnect_away.
  - by apply RenameHost_away.
  - by apply SetBindings_away.
  - by apply SetBindings_away.
  - by apply DeleteHost_away.
Qed.

End rest.
