(* ===== verification/AppDisk.v ===== *)
(** * The database file

    [Disk F] is the contract of a file system as far as the database relies on
    it: what a reader of a path sees ([content]), which paths an operation may
    touch, and that a rename puts the old file's content at the new path or
    changes nothing. From it: writing the database replaces its file whole or
    leaves it as it was. *)

From S2P Require Import Prelude GoStrings Errors Netip LioModel Configfs FsPaths AppModel AppDb.
From S2P Require Import AppPortals AppTranslate Storage AppCoordinator.

(** The paths whose content an operation may change. *)
Definition touches (o : fileop) (q : string) : Prop :=
  match o with
  | FMkdirAll _ | FOpenWrite _ | FOpen _ | FSync _ | FClose _ | FSyncDir _ => False
  | FRemove p | FCreateTrunc p | FCreate p | FWrite p _ | FTruncate p _ | FClone p _ | FLink _ p => q = p
  | FRemoveAll p => q = p ∨ HasPrefix q (p +:+ "/") = true
  | FRename old new =>
      q = old ∨ q = new ∨ HasPrefix q (old +:+ "/") = true ∨ HasPrefix q (new +:+ "/") = true
  end.

Class Disk (F : Type) `{Files F} := {
  content : string → F → option string;
  disk_stat p q f : content q (fl_stat p f).2 = content q f;
  disk_readdir p q f : content q (fl_readdir p f).2 = content q f;
  disk_readfile p q f : content q (fl_readfile p f).2 = content q f;
  disk_now q f : content q (fl_now f).2 = content q f;
  disk_random q f : content q (fl_random f).2 = content q f;
  disk_read p f d : (fl_readfile p f).1 = Ok d → content p f = Some d;
  disk_read_missing p f : (fl_readfile p f).1 = Err ENOENT → content p f = None;
  disk_names p f l : (fl_readdir p f).1 = Ok l → Forall (λ e : string * bool, free_of slash e.1) l;
  disk_op o q f : ¬ touches o q → content q (fl_op o f).2 = content q f;
  disk_create p f f' : fl_op (FCreateTrunc p) f = (Ok tt, f') → content p f' = Some "";
  disk_write p d f f' : fl_op (FWrite p d) f = (Ok tt, f') →
    content p f' = Some (default "" (content p f) +:+ d);
  disk_rename old new f f' : fl_op (FRename old new) f = (Ok tt, f') → content new f' = content old f;
  disk_rename_err old new q e f f' : fl_op (FRename old new) f = (Err e, f') → content q f' = content q f
}.

(** ** Computations that leave a path alone *)

Section leaves.
Context {F : Type} `{Disk F} (q : string).

Definition leaves {A} (m : ST F A) : Prop := ∀ f, content q (m f).2 = content q f.

Lemma leaves_ret {A} (a : A) : leaves (ret a).
Proof. done. Qed.
Lemma leaves_throw {A} e : leaves (throw e : ST F A).
Proof. done. Qed.
Lemma leaves_of_result {A} (r : result goerr A) : leaves (of_result r).
Proof. done. Qed.
(** In the continuation, the answer is one [m] gives. *)
Lemma leaves_bind {A B} (m : ST F A) (g : A → ST F B) :
  leaves m → (∀ a, answered m a → leaves (g a)) → leaves (bind m g).
Proof.
  intros Hm Hg f. unfold bind. specialize (Hm f). destruct (m f) as [[a|e] f'] eqn:Hf; [|done].
  rewrite (Hg a) by by exists f, f'. exact Hm.
Qed.
Lemma leaves_try {A} (m : ST F A) : leaves m → leaves (try m).
Proof. intros Hm f. unfold try. specialize (Hm f). by destruct (m f). Qed.
Lemma leaves_onerr {A} (m : ST F A) g : leaves m → leaves (onerr m g).
Proof. intros Hm f. unfold onerr. specialize (Hm f). by destruct (m f) as [[] ?]. Qed.
Lemma leaves_mfor {A} (g : A → ST F unit) l : (∀ x, x ∈ l → leaves (g x)) → leaves (mfor g l).
Proof.
  induction l as [|x l IH]; intros Hg; cbn [mfor]; [done|]. apply leaves_bind; [apply Hg; left|].
  intros _ _. apply IH. intros y ?. apply Hg. by right.
Qed.
Lemma leaves_sys {A} op p (call : F → result errno A * F) :
  (∀ f, content q (call f).2 = content q f) → leaves (sys op p call).
Proof. intros Hc f. unfold sys. specialize (Hc f). by destruct (call f) as [[] ?]. Qed.
Lemma leaves_fop op p o : ¬ touches o q → leaves (fop op p o).
Proof. intros Ht. apply leaves_sys. intros f. by apply disk_op. Qed.
Lemma leaves_now : leaves fs_now.
Proof. intros f. unfold fs_now. pose proof (disk_now q f) as Hn. by destruct (fl_now f). Qed.
Lemma leaves_ReadDir p : leaves (fs_ReadDir p).
Proof. apply leaves_bind; [|done]. apply leaves_sys, disk_readdir. Qed.
End leaves.

Create HintDb leaves.
#[export] Hint Resolve leaves_ret leaves_throw leaves_of_result leaves_now leaves_ReadDir : leaves.

(** ** Paths of the database and of its backups *)

Lemma length_app_str s t : String.length (s +:+ t) = (String.length s + String.length t)%nat.
Proof. induction s as [|c s IH]; [done|]. cbn. by rewrite <- IH. Qed.
Lemma of_chars_chars s : of_chars (chars s) = s.
Proof. induction s as [|c s IH]; [done|]. cbn. by rewrite IH. Qed.
Lemma HasPrefix_length s p : HasPrefix s p = true → (String.length p <= String.length s)%nat.
Proof.
  unfold HasPrefix. revert p. induction s as [|c s IH]; intros [|d p]; simpl; try lia; try done.
  destruct (ascii_dec d c); [|done]. intros Hp%IH. lia.
Qed.

Section path.
Context (segs : list string) (base : string) (Hne : segs ≠ []) (Hsegs : good_segs segs).
Context (Hbase : validSeg base = true).
(** The database is the file [base] of a clean absolute directory. *)
Notation path := (abs (segs ++ [base])).

Lemma path_split : path = abs segs +:+ String slash base.
Proof.
  unfold abs. rewrite Join_app by done. cbn [Join]. by rewrite !app_assoc_str.
Qed.
Lemma base_free : free_of slash base.
Proof. by apply validSeg_spec in Hbase as (_ & _ & _ & ?). Qed.
Lemma Dir_path : Dir path = abs segs.
Proof.
  unfold Dir. rewrite path_split, splitLastByte_app by apply base_free.
  unfold Clean. assert (Hn : String.eqb (abs segs +:+ "/") "" = false) by reflexivity. rewrite Hn.
  assert (Ha : IsAbs (abs segs +:+ "/") = true).
  { change (HasPrefix (String "/" (Join segs "/" +:+ "/")) "/" = true). simpl.
    by destruct (Join segs "/" +:+ "/"). }
  rewrite Ha. cbv zeta.
  assert (Hs : Split (abs segs +:+ "/") slash = "" :: segs ++ [""]).
  { assert (HJ : abs segs +:+ "/" = Join ([""] ++ segs ++ [""]) (str1 slash)).
    { rewrite (Join_app [""]) by (try done; by destruct segs). rewrite (Join_app segs) by done.
      unfold abs. by rewrite <- app_assoc_str. }
    rewrite HJ.
    apply Split_Join; [done|]. constructor; [by constructor|].
    apply Forall_app. split; [by apply good_segs_free | by repeat constructor]. }
  rewrite Hs. cbn [clean_go]. 
  assert (Hcg : ∀ stack, clean_go true stack (segs ++ [""]) = reverse stack ++ segs).
  { clear Hne Hn Ha Hs. induction segs as [|x l IH]; intros stack; cbn [app clean_go].
    - by rewrite app_nil_r.
    - apply Forall_cons in Hsegs as [(H1 & H2 & H3 & _)%validSeg_spec Hl].
      destruct (String.eqb_spec x ""), (String.eqb_spec x "."), (String.eqb_spec x ".."); try done.
      cbn [orb]. rewrite IH by done. by rewrite reverse_cons, <- (assoc_L (++)). }
  rewrite String.eqb_refl. cbn [orb]. by rewrite Hcg.
Qed.

Lemma Base_path : Base path = base.
Proof.
  unfold Base. assert (Hn : String.eqb path "" = false) by reflexivity. rewrite Hn.
  assert (Ht : trim_slashes (reverse (chars path)) = reverse (chars path)).
  { rewrite path_split, chars_app. change (chars (String slash base)) with (slash :: chars base).
    pose proof base_free as Hf. unfold free_of in Hf.
    destruct (exists_last (l := chars base)) as (l & a & Hc).
    { apply validSeg_spec in Hbase as (He & _). by destruct base. }
    rewrite Hc in Hf |- *. change (l ++ [a])%list with (l ++ [a]).
    rewrite app_comm_cons, (assoc_L (++)), reverse_snoc. apply Forall_app in Hf as [_ Hf].
    rewrite Forall_singleton in Hf. cbn [trim_slashes]. apply Ascii.eqb_neq in Hf. by rewrite Hf. }
  rewrite Ht, reverse_involutive, of_chars_chars, Hn. rewrite path_split, splitLastByte_app by apply base_free.
  done.
Qed.

(** A backup is never the database itself. *)
Lemma backup_elsewhere name : free_of slash name → HasPrefix name (Base path +:+ ".bak.") = true →
  path_Join [Dir path; name] ≠ path.
Proof.
  rewrite Base_path, Dir_path. intros Hf Hp%HasPrefix_length. rewrite length_app_str in Hp. cbn [String.length] in Hp.
  assert (Hname : validSeg name = true).
  { apply validSeg_spec. split_and!; try (intros ->; simpl in Hp; lia). done. }
  change (path_Join [abs segs; name]) with (Path (abs segs) [name]).
  rewrite (Path_abs _ segs) by (repeat split; try done; by repeat constructor).
  intros Heq. apply abs_inj in Heq; [|by destruct segs|by destruct segs|by apply Forall_app; repeat constructor..].
  apply app_inj_2 in Heq as [_ [= ->]]; [|done]. lia.
Qed.

Lemma longer_path t : t ≠ "" → path ≠ path +:+ t.
Proof.
  intros Ht Heq. apply (f_equal String.length) in Heq. rewrite length_app_str in Heq.
  destruct t; [done|]. simpl in Heq. lia.
Qed.
End path.

(** ** Writing the database *)

Section persist.
Context {K F : Type} `{Kernel K} `{Disk F}.
Context (marshal : db → string).
Context (segs : list string) (base : string) (Hne : segs ≠ []) (Hsegs : good_segs segs).
Context (Hbase : validSeg base = true).
Notation path := (abs (segs ++ [base])).
Notation world := (world K F).

Lemma ReadDir_names p l : answered (fs_ReadDir p) l → Forall (λ e : string * bool, free_of slash e.1) l.
Proof.
  intros (f & f' & Hr). unfold fs_ReadDir, bind, sys in Hr. pose proof (disk_names p f) as Hn.
  destruct (fl_readdir p f) as [[l0|e] f1]; [|done]. injection Hr as <- _.
  specialize (Hn l0 eq_refl). rewrite Forall_forall in Hn |- *. intros e He. apply Hn. by rewrite <- (sort_by_perm dirent_le).
Qed.
Lemma elem_backup_names l n : n ∈ backup_names path l →
  ∃ e, e ∈ l ∧ n = e.1 ∧ HasPrefix n (Base path +:+ ".bak.") = true.
Proof.
  intros (e & -> & [Hp He]%list_elem_of_filter)%list_elem_of_fmap. exists e.
  apply andb_true_iff in Hp as [_ Hp]. by split_and!.
Qed.

Lemma leaves_backup : leaves path (backup_db path).
Proof.
  unfold backup_db. apply leaves_bind; [|intros _ _].
  - unfold linkBackup. apply leaves_bind; [apply leaves_now|]. intros now _. cbv zeta.
    apply leaves_bind; [apply leaves_try, leaves_fop; cbn; by apply longer_path|].
    intros [[]|e] _; [done|]. destruct (IsNotExist e); [done|]. by destruct (IsExist e).
  - unfold pruneBackups. apply leaves_bind; [apply leaves_ReadDir|]. intros l Hl%ReadDir_names.
    cbv zeta. destruct (_ <=? _); [done|]. apply leaves_mfor. intros n Hn.
    assert (Hb : n ∈ backup_names path l).
    { rewrite <- (sort_by_perm str_leb). apply elem_of_take in Hn as (i & Hi & _). by eapply list_elem_of_lookup_2. }
    apply elem_backup_names in Hb as (e & He & -> & Hp). rewrite Forall_forall in Hl.
    apply leaves_bind; [apply leaves_try, leaves_fop; cbn|].
    + intros Heq. symmetry in Heq. revert Heq. apply backup_elsewhere; auto.
    + intros [[]|er] _; [done|]. by destruct (IsNotExist er).
Qed.

Lemma leaves_write_tmp tmp data q : q ≠ tmp → leaves q (write_tmp tmp data).
Proof.
  intros Hq. unfold write_tmp. apply leaves_bind; [by apply leaves_fop|]. intros _ _.
  apply leaves_bind.
  - apply leaves_try, leaves_bind; [by apply leaves_fop|]. intros _ _. apply leaves_fop. by intros [].
  - intros [[]|e] _; [apply leaves_fop; by intros []|].
    apply leaves_bind; [apply leaves_try, leaves_fop; by intros []|]. by intros _ _.
Qed.
Lemma fop_Ok {A} op p (call : F → result errno A * F) f a f' : sys op p call f = (Ok a, f') → call f = (Ok a, f').
Proof. unfold sys. destruct (call f) as [[] ?]; by intros [= -> ->]. Qed.

Lemma write_tmp_Ok tmp data f f' : write_tmp tmp data f = (Ok tt, f') → content tmp f' = Some data.
Proof.
  unfold write_tmp. intros ([] & f1 & Hopen%fop_Ok & Hr)%bind_Ok.
  apply bind_Ok in Hr as (r & f2 & Hw & Hr). unfold try in Hw.
  destruct (bind _ _ f1) as [r0 f2'] eqn:Hb. injection Hw as -> ->.
  destruct r as [[]|e].
  - apply bind_Ok in Hb as ([] & f3 & Hwr%fop_Ok & Hsync%fop_Ok). apply fop_Ok in Hr.
    assert (Hf2 : content tmp f2 = content tmp f3).
    { rewrite <- (disk_op (FSync tmp) tmp f3) by by intros []. by rewrite Hsync. }
    assert (Hf' : content tmp f' = content tmp f2).
    { rewrite <- (disk_op (FClose tmp) tmp f2) by by intros []. by rewrite Hr. }
    rewrite Hf', Hf2, (disk_write _ _ _ _ Hwr), (disk_create _ _ _ Hopen). done.
  - apply bind_Ok in Hr as (? & ? & _ & Hr). done.
Qed.

(** The file is replaced whole, or left as it was; which of the two, the error
    tells. *)
Definition stored (w : world) (o : outcome unit) (f' : F) : Prop :=
  match o with
  | Done _ => content path f' = Some (marshal (c_st (w_c w)) +:+ nl_str)
  | Fail e =>
      if is_not_durable e then content path f' = Some (marshal (c_st (w_c w)) +:+ nl_str)
      else content path f' = content path (w_f w)
  | Panic => False
  end.
Definition stores (w : world) (r : outcome unit * world) : Prop :=
  stored w r.1 (w_f r.2) ∧ w_k r.2 = w_k w.
Lemma persist_stored (w : world) : c_dbPath (w_c w) = path → stores w (persist marshal w).
Proof.
  intros Hpath. unfold persist. cbn [abind get]. rewrite Hpath.
  assert (Hn : String.eqb path "" = false) by reflexivity. rewrite Hn.
  unfold abind at 1. unfold atry, in_files at 1. pose proof (leaves_backup (w_f w)) as Hback.
  destruct (backup_db path (w_f w)) as [rb f1]. cbn [snd] in Hback.
  assert (Htmp : path ≠ path +:+ ".tmp") by by apply longer_path.
  set (tmp := path +:+ ".tmp") in *. set (data := marshal (c_st (w_c w)) +:+ nl_str).
  assert (Hrest : ∀ b : result aerr unit, stores w
    ((in_files (write_tmp tmp data) ;!; in_files (fs_Rename tmp path) ;!;
      publish (ph_backup (match b with Err (ALio e) => Some e | _ => None end)) ;!;
      let! r := atry (in_files (syncDir (Dir path))) in
      match r with Err e => afail (AWrap "%w: %v" [] APersistedNotDurable) | Ok _ => aret tt end)
     (mkWorld (w_c w) (w_k w) f1))).
  { intros b. unfold abind at 1, in_files at 1. cbn [w_f w_c w_k].
    pose proof (leaves_write_tmp tmp data path Htmp f1) as Hl. pose proof (write_tmp_Ok tmp data f1) as Hok.
    destruct (write_tmp tmp data f1) as [[[]|e] f2]; cbn [snd] in Hl; [|by split; [change (content path f2 = content path (w_f w)); by rewrite Hl, Hback|]].
    specialize (Hok f2 eq_refl). unfold abind at 1, in_files at 1, fs_Rename, fop, sys. cbn [w_f w_c w_k].
    destruct (fl_op (FRename tmp path) f2) as [[[]|en] f3] eqn:Hren.
    2:{ split; [|done]. change (content path f3 = content path (w_f w)).
        by rewrite (disk_rename_err _ _ _ _ _ _ Hren), Hl, Hback. }
    apply disk_rename in Hren. rewrite Hok in Hren.
    unfold abind at 1, publish, modify at 1. cbn [w_f w_c w_k].
    unfold abind at 1, atry, in_files, syncDir, fop, sys. cbn [w_f w_c w_k].
    pose proof (disk_op (FSyncDir (Dir path)) path f3 (λ x, x)) as Hsync.
    destruct (fl_op (FSyncDir (Dir path)) f3) as [[[]|en] f4]; cbn [snd] in Hsync; 
      (split; [change (content path f4 = Some data); by rewrite Hsync, Hren | done]). }
  destruct rb as [[]|e]; [exact (Hrest (Ok tt)) | exact (Hrest (Err (ALio e)))].
Qed.
End persist.
