(* ===== verification/AppAtomic.v ===== *)
(** * appliance: a commit is all or nothing

    What [commit] leaves in memory, on the disk and in the kernel, on every
    branch: a degraded coordinator first reconciles, and goes no further if
    that fails; a change that is refused after that leaves the file and the
    kernel alone and restores the snapshot of the records; a change that is
    accepted is, whole, in memory and in the database file, whether or not the
    kernel followed; and the next start on that disk loads it, or refuses it
    for an export index that is no LUN number. *)

From S2P Require Import Prelude GoStrings Errors Netip LioModel LioValid Configfs FsPaths LioAptpl LioApply LioSync.
From S2P Require Import LioDelta LioStranded AppModel AppDb AppWf AppPortals AppTranslate AppTranslateProofs Storage.
From S2P Require Import AppCoordinator AppIdentity AppEvents AppRun AppSteady AppDisk.

(** ** Allocating indexes a second time changes nothing *)

Lemma export_all_known root cfg d vols : ∀ b b', (∀ u, u ∈ vols → u ∈ dom (b_exports b)) →
  export_all root cfg d b vols = Some b' → b_exports b' = b_exports b.
Proof.
  induction vols as [|u vols IH]; intros b b' Hin; cbn [export_all]; [by intros [= <-]|].
  destruct (export_object root cfg d b u) as [b1|] eqn:H1; [|done]. intros H2.
  assert (Hb1 : b_exports b1 = b_exports b).
  { unfold export_object in H1. destruct (object d u) as [o|]; [|done].
    assert (Hu : u ∈ dom (b_exports b)) by (apply Hin; left). apply elem_of_dom in Hu as [i Hi].
    unfold exportIndex in H1. rewrite Hi in H1. destruct (_ =? _); [done|]. by injection H1 as <-. }
  rewrite <- Hb1. apply IH; [|done]. intros v Hv. rewrite Hb1. apply Hin. by right.
Qed.

Section atomic.
Context {K F : Type} `{Kernel K} `{Disk F}.
Context (range : ∀ A, list A → list A) (range_perm : ∀ A (l : list A), range A l ≡ₚ l).
Context (mroot : string) (aptplRecords : option (Backstore → ST K (list string))) (marshal : db → string).

Notation App := (App K F).
Notation world := (world K F).
Notation post := (post (K := K) (F := F)).
Notation reconcile := (reconcile (K := K) (F := F) range mroot aptplRecords).
Notation healIfDegraded := (healIfDegraded (K := K) (F := F) range mroot aptplRecords).
Notation commit := (commit (K := K) (F := F) range mroot aptplRecords marshal).

(** The desired configuration of a coordinator's settings and a database. *)
Definition desired_of (c : coord) (d : db) : option (Config * db) :=
  desiredLIO range (c_root c) (c_cfg c) (c_prClearing c) (c_withheld c) d.

Lemma desired_again c d cfg d1 : sound d → desired_of c d = Some (cfg, d1) →
  ∃ cfg', desired_of c d1 = Some (cfg', d1).
Proof.
  intros Hs Hd. unfold desired_of in *.
  destruct (desired_total range range_perm (c_root c) (c_cfg c) (c_prClearing c) (c_withheld c) d Hs)
    as (cfg0 & d0 & Hd0 & Hr). rewrite Hd in Hd0. injection Hd0 as <- <-.
  destruct (desired_total range range_perm (c_root c) (c_cfg c) (c_prClearing c) (c_withheld c) d1)
    as (cfg2 & d2 & Hd2 & _); [by apply Hr|].
  exists cfg2. rewrite Hd2. do 2 f_equal.
  apply (desired_shape range range_perm) in Hd as (_ & _ & _ & _ & _ & Hd1 & _ & _ & Hdom);
    [|by apply wf_exports_ok, Hs].
  unfold desiredLIO in Hd2. destruct (export_all _ _ _ _ _) as [b|] eqn:Hb; [|done]. injection Hd2 as _ <-.
  apply export_all_known in Hb; [rewrite Hb; by destruct d1|]. cbn [b_exports].
  intros u Hu. rewrite range_perm, elem_of_elements in Hu. rewrite Hd1 in Hu.
  change (u ∈ exported_of (c_prClearing c) (c_withheld c) d) in Hu. rewrite Hdom. set_solver.
Qed.

Lemma reconcile_st c cfg d : desired_of c (c_st c) = Some (cfg, d) → post reconcile c (λ o c', c_st c' = d).
Proof.
  intros Hd. unfold desired_of in Hd. unfold AppCoordinator.reconcile, desired. app_step. app_step. app_step.
  rewrite Hd. app_step. app_step. app_step. app_step. app_step.
  assert (Hfull : ∀ c2, c_st c2 = d → post (reconcileFull mroot aptplRecords cfg) c2 (λ o c', c_st c' = d)).
  { intros c2 Hc2. eapply post_mono; [apply reconcileFull_post|]. intros o c3 (_ & _ & Hst & _). by rewrite Hst. }
  cbn [c_applied set_st]. destruct (c_applied c) as [applied|]; [|by apply Hfull].
  destruct (Diff range applied cfg) as [delta|]; [|by apply Hfull].
  app_step. app_step. destruct a as [reports [err|]]; cbn [snd].
  - app_step. app_step. destruct (is_stale err); [by apply Hfull|]. unfold setReconcileErr. by app_steps.
  - unfold setReconcileOK. by app_steps.
Qed.

(** ** Reconcile does not touch the disk *)

Definition off_disk {A} (m : App A) : Prop := ∀ w, w_f (m w).2 = w_f w.
Lemma off_disk_bind {A B} (m : App A) (g : A → App B) :
  off_disk m → (∀ a, off_disk (g a)) → off_disk (abind m g).
Proof.
  intros Hm Hg w. unfold abind. specialize (Hm w). destruct (m w) as [[a|e|] w1]; [|done..].
  rewrite (Hg a w1). exact Hm.
Qed.
Lemma off_disk_try {A} (m : App A) : off_disk m → off_disk (atry m).
Proof. intros Hm w. unfold atry. specialize (Hm w). by destruct (m w) as [[] ?]. Qed.
Lemma off_disk_lio {A} (m : K → A * K) : off_disk (lio_call m).
Proof. intros w. unfold lio_call. by destruct (m (w_k w)). Qed.

Ltac off_disk :=
  repeat (intros; lazymatch goal with
  | |- off_disk (abind _ _) => apply off_disk_bind
  | |- off_disk (lio_call _) => apply off_disk_lio
  | |- off_disk (match ?x with _ => _ end) => destruct x
  | |- off_disk _ => done
  end).
Lemma off_disk_desired : off_disk (desired range).
Proof. unfold desired. off_disk. Qed.
Lemma off_disk_reconcileFull cfg : off_disk (reconcileFull mroot aptplRecords cfg).
Proof. unfold reconcileFull, setReconcileErr, setReconcileOK. off_disk. Qed.
Lemma off_disk_reconcile : off_disk reconcile.
Proof.
  unfold AppCoordinator.reconcile, setReconcileErr, setReconcileOK.
  apply off_disk_bind; [apply off_disk_desired|]. intros dcfg. apply off_disk_bind; [done|]. intros c.
  destruct (c_applied c) as [applied|]; [|apply off_disk_reconcileFull].
  destruct (Diff range applied dcfg) as [delta|]; [|apply off_disk_reconcileFull].
  apply off_disk_bind; [apply off_disk_lio|]. intros [reports [err|]]; cbn [snd].
  - apply off_disk_bind; [done|]. intros _. destruct (is_stale err); [apply off_disk_reconcileFull | off_disk].
  - off_disk.
Qed.

(** ** The theorem *)

Context (segs : list string) (base : string) (Hne : segs ≠ []) (Hsegs : good_segs segs).
Context (Hbase : validSeg base = true).
Notation path := (abs (segs ++ [base])).

(** The snapshot is back (objects, hosts, connections, indexes and portals as
    they were; [snapshotState] leaves out the target name and the machine id),
    and neither the belief about the kernel, nor the kernel, nor the database
    file is other than it was. *)
Record refused (w w' : world) : Prop := mkRefused {
  re_st : c_st (w_c w') = snapshotState (c_st (w_c w));
  re_belief : same_belief (w_c w) (w_c w');
  re_kernel : w_k w' = w_k w;
  re_disk : content path (w_f w') = content path (w_f w)
}.
(** The change, with the indexes it was given, is in memory and on disk; the
    outcome says whether the kernel took it. *)
Record accepted (mutate : db → result aerr db) (w : world) (o : outcome unit) (w' : world) : Prop := mkAccepted {
  ac_mutated : ∃ d' cfg, mutate (c_st (w_c w)) = Ok d' ∧ Config_Validate cfg = Ok tt ∧
                         desired_of (w_c w) d' = Some (cfg, c_st (w_c w'));
  ac_disk : content path (w_f w') = Some (marshal (c_st (w_c w')) +:+ nl_str);
  ac_outcome : match o with
               | Done _ => c_lastReconcileErr (w_c w') = None
               | Fail e => is_not_durable e = true ∨ c_lastReconcileErr (w_c w') ≠ None
               | Panic => False
               end
}.

(** What [healIfDegraded] leaves before the change is looked at: the disk and,
    but for export indexes, the records; nothing at all is done when the last
    reconcile succeeded. *)
Record healed (w w1 : world) : Prop := mkHealed {
  hd_kept : kept (w_c w) (w_c w1);
  hd_disk : w_f w1 = w_f w;
  hd_idle : c_lastReconcileErr (w_c w) = None → w1 = w
}.

Lemma reconcile_run w cfg d : sound (c_st (w_c w)) → desired_of (w_c w) (c_st (w_c w)) = Some (cfg, d) →
  let '(o, w') := reconcile w in
  o ≠ Panic ∧ c_st (w_c w') = d ∧ w_f w' = w_f w ∧ (c_lastReconcileErr (w_c w') = None ↔ is_done o = true).
Proof.
  intros Hs Hd.
  pose proof (post_runs reconcile w _ (reconcile_st (w_c w) cfg d Hd)) as Hr1.
  pose proof (post_runs reconcile w _
    (reconcile_post range range_perm mroot aptplRecords (w_c w) Hs)) as Hr2.
  pose proof (off_disk_reconcile w) as Hr3. unfold runs in Hr1, Hr2. cbv beta in Hr1, Hr2.
  destruct (reconcile w) as [o w']. cbn [fst snd] in *. destruct Hr2 as (Hp & _ & [_ Hok]). by split_and!.
Qed.

(** After the checks: storing, and the reconcile that follows. *)
Lemma store_and_reconcile mutate w d' cfg d1 k f : sound d' → mutate (c_st (w_c w)) = Ok d' →
  c_dbPath (w_c w) = path → desired_of (w_c w) d' = Some (cfg, d1) → Config_Validate cfg = Ok tt →
  k = w_k w → f = w_f w →
  let '(o, w') := (let! r := atry (persist marshal) in
     match r with
     | Err e => if is_not_durable e then atry reconcile ;!; afail e
                else restoreState (snapshotState (c_st (w_c w))) ;!; afail e
     | Ok _ => reconcile
     end) (mkWorld (set_st d1 (w_c w)) k f) in
  (∃ e, o = Fail e ∧ is_not_durable e = false ∧ refused w w') ∨ accepted mutate w o w'.
Proof.
  intros Hs Hm Hpath Hd Hv -> ->. set (w1 := mkWorld (set_st d1 (w_c w)) (w_k w) (w_f w)).
  assert (Hd1 : sound d1).
  { unfold desired_of in Hd.
    destruct (desired_total range range_perm (c_root (w_c w)) (c_cfg (w_c w)) (c_prClearing (w_c w))
                (c_withheld (w_c w)) d' Hs) as (cfg0 & d0 & Hd0 & _ & Hr).
    rewrite Hd in Hd0. injection Hd0 as <- <-. by apply Hr. }
  destruct (desired_again (w_c w) d' cfg d1 Hs Hd) as [cfg' Hagain].
  pose proof (persist_stored marshal segs base Hne Hsegs Hbase w1 Hpath) as [Hst Hk].
  pose proof (post_runs (persist marshal) w1 _ (persist_post marshal (w_c w1))) as Hpp. unfold runs in Hpp.
  unfold abind at 1, atry at 1. destruct (persist marshal w1) as [o w2]. cbn [fst snd] in *.
  destruct Hpp as (_ & Hf & Hb & Hst2). apply frame_set_st in Hf. apply same_set_st in Hb. cbn in Hst2.
  assert (Hagain2 : desired_of (w_c w2) (c_st (w_c w2)) = Some (cfg', d1)).
  { rewrite Hst2. unfold desired_of in *. destruct Hf. congruence. }
  destruct o as [[]|e|]; [| |done].
  - pose proof (reconcile_run w2 cfg' d1) as Hrec. rewrite Hst2 in Hrec.
    destruct (reconcile w2) as [o w3]. destruct Hrec as (Hp & Hst3 & Hf3 & Hok); [done | by rewrite Hst2 in Hagain2|].
    right. constructor.
    + exists d', cfg. by rewrite Hst3.
    + rewrite Hf3, Hst3. exact Hst.
    + destruct o as [[]|e|]; [by apply Hok | | done]. right. intros Hl. by apply Hok in Hl.
  - unfold stored in Hst. destruct (is_not_durable e) eqn:Hnd.
    + pose proof (reconcile_run w2 cfg' d1) as Hrec. rewrite Hst2 in Hrec.
      unfold abind, atry. revert Hrec. destruct (reconcile w2) as [o w3]. intros Hrec.
      destruct Hrec as (Hp & Hst3 & Hf3 & Hok); [done | by rewrite Hst2 in Hagain2|].
      destruct o as [[]|e'|]; [| |done]; right; constructor; cbn;
        first [by left | by rewrite Hf3, Hst3 | exists d', cfg; by rewrite Hst3].
    + left. exists e. split_and!; [done..|]. cbn. constructor; cbn; [done | by apply same_to_st | done | done].
Qed.

Lemma heal_run (w : world) : sound (c_st (w_c w)) →
  let '(h, w1) := healIfDegraded w in
  healed w w1 ∧
  match h with
  | Done _ => c_lastReconcileErr (w_c w1) = None
  | Fail e => status e = StatusServiceUnavailable ∧ c_lastReconcileErr (w_c w1) ≠ None
  | Panic => False
  end.
Proof.
  intros Hs. unfold AppCoordinator.healIfDegraded, abind at 1. cbn [get].
  destruct (c_lastReconcileErr (w_c w)) as [err|] eqn:Hl; cbn [aret].
  2:{ split; [constructor; [apply kept_refl | done..] | done]. }
  pose proof (post_runs reconcile w _ (reconcile_post range range_perm mroot aptplRecords (w_c w) Hs)) as Hr.
  pose proof (off_disk_reconcile w) as Hd. unfold runs in Hr. cbv beta in Hr.
  unfold abind, atry. destruct (reconcile w) as [o w1]. cbn [fst snd] in *. destruct Hr as (Hp & Hk & [_ Hok]).
  assert (Hh : healed w w1) by (constructor; [done..|congruence]).
  destruct o as [[]|e|]; [| |done]; (split; [done|]); [by apply Hok|].
  split; [done|]. intros Hn. by apply Hok in Hn.
Qed.

(** Every way a commit ends, once the coordinator has been brought to a world
    where the last reconcile succeeded. *)
Definition ends (mutate : db → result aerr db) (w : world) (o : outcome unit) (w' : world) : Prop :=
  (∃ e, o = Fail e ∧ refused w w' ∧
        (mutate (c_st (w_c w)) = Err e
         ∨ (∃ d' cfg d1 e', mutate (c_st (w_c w)) = Ok d' ∧ desired_of (w_c w) d' = Some (cfg, d1) ∧
              Config_Validate cfg = Err e' ∧ e = ALio e')
         ∨ is_not_durable e = false))
  ∨ accepted mutate w o w'.
(** The whole of a commit: the heal, then, if it succeeded, one of these ends. *)
Definition commit_ends (mutate : db → result aerr db) (w : world) (h : outcome unit) (w1 : world)
    (o : outcome unit) (w' : world) : Prop :=
  healed w w1 ∧
  match h with
  | Done _ => c_lastReconcileErr (w_c w1) = None ∧ ends mutate w1 o w'
  | Fail e => o = Fail e ∧ w' = w1 ∧ status e = StatusServiceUnavailable ∧ c_lastReconcileErr (w_c w1) ≠ None
  | Panic => False
  end.

Lemma commit_cases (mutate : db → result aerr db) (w : world)
    (Hs : sound (c_st (w_c w))) (Hpath : c_dbPath (w_c w) = path) (Hm : keeps sound (c_st (w_c w)) mutate) :
  let '(h, w1) := healIfDegraded w in
  let '(o, w') := commit mutate w in
  commit_ends mutate w h w1 o w'.
Proof.
  pose proof (heal_run w Hs) as Hh. unfold AppCoordinator.commit. unfold abind at 1.
  destruct (healIfDegraded w) as [h w1]. destruct Hh as [Hheal Hh]. pose proof Hheal as [[Hfr Hr] Hf _].
  assert (Hm1 : ∀ d', mutate (c_st (w_c w1)) = Ok d' → sound d').
  { intros d'. apply (Hm _ d' Hr). by apply Hr. }
  rewrite <- (fr_dbPath _ _ Hfr) in Hpath. clear Hm Hr Hfr Hf Hs. rename Hm1 into Hm.
  destruct h as [[]|e|]; [| |done].
  2:{ split; [done|]. by destruct Hh. }
  lazymatch goal with |- let '(_, _) := ?m in _ =>
    cut (let '(o, w') := m in ends mutate w1 o w'); [by destruct m|] end.
  clear Hheal. destruct w1 as [c k f]. cbn [w_c] in *.
  unfold abind at 1. cbn [st get abind aret w_c]. cbv zeta.
  destruct (mutate (c_st c)) as [d'|e] eqn:Hmut.
  2:{ left. exists e. split; [done|]. split; [|by left]. by constructor. }
  specialize (Hm d' eq_refl).
  destruct (desired_total range range_perm (c_root c) (c_cfg c) (c_prClearing c) (c_withheld c) d' Hm)
    as (cfg & d1 & Hd & _).
  unfold abind at 1. cbn [set_state modify w_c w_k w_f]. unfold abind at 1, desired. cbn [abind get w_c].
  cbn [c_root c_cfg c_prClearing c_withheld c_st set_st]. rewrite Hd. cbn [abind set_state modify aret w_c w_k w_f].
  destruct (Config_Validate cfg) as [[]|ev] eqn:Hv.
  2:{ left. exists (ALio ev). split; [done|]. split; [by constructor|].
      right. left. by exists d', cfg, d1, ev. }
  pose proof (store_and_reconcile mutate (mkWorld c k f) d' cfg d1 k f Hm Hmut Hpath Hd Hv eq_refl eq_refl) as Hsr.
  cbn [w_c] in Hsr. change (set_st d1 (set_st d' c)) with (set_st d1 c).
  destruct (abind _ _ _) as [o w']. destruct Hsr as [(e & -> & Hnd & Hre)|Ha]; [left | by right].
  exists e. split_and!; [done | done | by right; right].
Qed.

(** C3. A commit is all or nothing. When the last reconcile failed it first
    reconciles the records as they are: if that fails, the commit is answered
    503 and does no more, the disk and (but for export indexes) the records
    being as before; when the last reconcile had succeeded, nothing is done.
    From there the commit ends in one of two ways. Either it fails, only
    because the mutation, the validation or the writing did: then the kernel
    and the database file are not touched, and the records are the snapshot
    taken before the change, which has every object, host, connection, index
    and portal but neither target name nor machine id. Or the mutated
    database, with the export indexes it was given, is both what the
    coordinator holds and, whole, what the file contains, the configuration
    asked of lio was valid, and an error says either that the file may not
    survive a power cut or that the kernel did not follow, in which case the
    coordinator is marked degraded. *)
Theorem commit_atomic (mutate : db → result aerr db) (w : world)
    (Hs : sound (c_st (w_c w))) (Hpath : c_dbPath (w_c w) = path) (Hm : keeps sound (c_st (w_c w)) mutate) :
  let '(h, w1) := healIfDegraded w in
  let '(o, w') := commit mutate w in
  commit_ends mutate w h w1 o w'.
Proof using range_perm Hne Hsegs Hbase. by apply commit_cases. Qed.
End atomic.

(** ** What a commit left, the next start loads

    The records a successful commit leaves are the records a later start reads
    from the same disk: [commit], then [load] of [AppIdentity], through
    encoding/json. *)

Section restart.
Context {K F : Type} `{Kernel K} `{Disk F}.
Context (range : ∀ A, list A → list A) (range_perm : ∀ A (l : list A), range A l ≡ₚ l).
Context (mroot : string) (aptplRecords : option (Backstore → ST K (list string))).
Context (marshal : db → string) (unmarshal : string → option Loaded).
Context (segs : list string) (base : string) (Hne : segs ≠ []) (Hsegs : good_segs segs).
Context (Hbase : validSeg base = true).
Notation path := (abs (segs ++ [base])).
Notation world := (world K F).
Notation commit := (commit (K := K) (F := F) range mroot aptplRecords marshal).
Notation load := (load (K := K) (F := F) range unmarshal).

(** What a start makes of a file that holds [d]: the records, or an error that
    leaves the coordinator as it is, because the file cannot be read or because
    an export index is no LUN number. *)
Definition loads (d : db) (c : coord) (f : F) (o : outcome bool) (c' : coord) : Prop :=
  match o with
  | Done b => b = true ∧ c_st c' = d ∧ exports_bounded d
  | Fail e => c' = c ∧ ((∃ e' f', fs_ReadFile path f = (Err e', f') ∧ e = ALio e') ∨ ¬ exports_bounded d)
  | Panic => False
  end.
Lemma load_stored d (c : coord) (k : K) (f : F) : c_dbPath c = path →
  content path f = Some (marshal d +:+ nl_str) → unmarshal (marshal d +:+ nl_str) = Some (loaded_of d) →
  db_Version d = dbVersion → wf_db d →
  let '(o, w) := load (mkWorld c k f) in loads d c f o (w_c w).
Proof.
  intros Hpath Hc Hj Hv Hwf. unfold AppIdentity.load, loads. cbn [abind get w_c]. rewrite Hpath.
  unfold abind at 1, atry, in_files, fs_ReadFile, sys. cbn [w_c w_k w_f].
  pose proof (disk_read path f) as Hread. pose proof (disk_read_missing path f) as Hmiss.
  destruct (fl_readfile path f) as [[data|en] f1] eqn:Hf; cbn [fst] in *.
  - specialize (Hread data eq_refl). rewrite Hc in Hread. injection Hread as <-. rewrite Hj.
    unfold abind, of_res. destruct (load_document range path (loaded_of d)) as [d'|e] eqn:Hl; cbn.
    + pose proof (load_document_wf range range_perm path _ _ Hl) as [_ Hb].
      unfold load_document in Hl. apply rbind_Ok in Hl as ([] & _ & Hl). apply rbind_Ok in Hl as ([] & _ & [= <-]).
      by rewrite (proj2 (loaded_of_no_nulls d)) in *.
    + split; [done|]. right. intros Hb.
      assert (Hok : load_document range path (loaded_of d) = Ok d) by by apply load_document_iff. congruence.
  - cbv iota beta. assert (He : en ≠ ENOENT) by (intros ->; by rewrite Hmiss in Hc).
    destruct en; try done; cbn; (split; [done|]; left; by do 2 eexists).
Qed.

End restart.
