(* ===== verification/AppBytes.v ===== *)
(** * appliance: a request never touches another object's bytes

    Over the file-system contract [Disk] of [AppDisk]: the file of a recorded
    object is the same after any request as before, unless the request deletes
    or resizes that very object. [spares] is the rule of a computation of the
    coordinator that leaves a file alone; the store's operations are covered
    first, by where their paths can lead. *)

From S2P Require Import Prelude GoStrings Errors Netip LioModel Configfs FsPaths LioAptpl LioApply LioSync.
From S2P Require Import LioDelta LioStranded AppModel AppDb AppWf AppPortals AppTranslate AppTranslateProofs.
From S2P Require Import Storage AppAptpl AppCoordinator AppObjects AppHosts AppClear AppRun AppSteady AppMutations.
From S2P Require Import AppMutations AppRequests AppReach AppDisk.

(** ** Paths *)

Lemma HasPrefix_app_inv s p : HasPrefix s p = true → ∃ t, s = p +:+ t.
Proof.
  unfold HasPrefix. revert s. induction p as [|c p IH]; intros s; [by exists s|].
  destruct s as [|d s]; simpl; [done|]. destruct (ascii_dec c d) as [->|]; [|done].
  intros [t ->]%IH. by exists t.
Qed.
Lemma str_app_inv_head a b c : a +:+ b = a +:+ c → b = c.
Proof. induction a as [|k a IH]; intros Hbc; [done|]. injection Hbc as Hbc. by apply IH. Qed.
Lemma Split_Join_rest l t : l ≠ [] → Forall (free_of slash) l →
  Split (Join l "/" +:+ "/" +:+ t) slash = l ++ Split t slash.
Proof.
  induction l as [|x l IH]; [done|]. intros _ [Hx Hl]%Forall_cons. destruct l as [|y l].
  - cbn [Join app]. by apply (Split_sep x t slash).
  - rewrite Join_cons2, !app_assoc_str.
    etrans; [apply (Split_sep x (Join (y :: l) "/" +:+ "/" +:+ t) slash Hx)|]. by rewrite IH.
Qed.
Lemma under_prefix l1 l2 : l1 ≠ [] → l2 ≠ [] → good_segs l1 → good_segs l2 →
  HasPrefix (abs l1) (abs l2 +:+ "/") = true → l2 `prefix_of` l1.
Proof.
  intros H1 H2 Hg1%good_segs_free Hg2%good_segs_free [t Ht]%HasPrefix_app_inv. exists (Split t slash).
  rewrite <- (Split_Join l1 slash) by done. unfold abs in Ht. rewrite !app_assoc_str in Ht.
  assert (Join l1 "/" = Join l2 "/" +:+ "/" +:+ t) as HJ by (injection Ht; done).
  change (str1 slash) with "/". rewrite HJ. by apply Split_Join_rest.
Qed.

Lemma good_app l1 l2 : good_segs l1 → good_segs l2 → good_segs (l1 ++ l2).
Proof. apply Forall_app_2. Qed.
Lemma root_app l1 l2 : l1 ≠ [] → good_segs l1 → good_segs l2 → clean_root (abs (l1 ++ l2)) (l1 ++ l2).
Proof. intros. split_and!; [by destruct l1 | by apply good_app | done]. Qed.
(** Joining one more good segment. *)
Lemma Join_seg l x : l ≠ [] → good_segs l → validSeg x = true → path_Join [abs l; x] = abs (l ++ [x]).
Proof.
  intros Hne Hl Hx. change (path_Join [abs l; x]) with (Path (abs l) [x]).
  apply Path_abs; [done | by repeat constructor].
Qed.

Section bytes.
Context (segs : list string) (Hne : segs ≠ []) (Hsegs : good_segs segs).
Notation root := (abs segs).
Notation dbPath := (abs (segs ++ ["appliance.json"])).

(** Names of object directories that are not working names of the store. *)
Definition plain (u : string) : Prop := validSeg u = true ∧ HasPrefix u "." = false.
Lemma validUUID_plain u : validUUID u = true → plain u.
Proof.
  unfold validUUID. intros [Hlen Hu]%andb_true_iff.
  assert (Hfree : ∀ i l, uuid_chars_ok i l = true → Forall (λ c, c ≠ slash) l).
  { intros i l. revert i. induction l as [|c l IH]; intros i; cbn [uuid_chars_ok]; [constructor|].
    intros [Hc Hl]%andb_true_iff. constructor; [|by eapply IH]. intros ->.
    unfold uuid_char_ok in Hc. destruct (any _ _); by vm_compute in Hc. }
  destruct u as [|c u]; [done|]. pose proof (Hfree 0%nat _ Hu) as Hf.
  cbn [chars uuid_chars_ok] in Hu. apply andb_true_iff in Hu as [Hc _].
  assert (Hdot : c ≠ chr 46) by (intros ->; by vm_compute in Hc).
  split.
  - apply validSeg_spec. split_and!; [done|..|exact Hf]; intros Heq; injection Heq as Hd _; by destruct Hdot.
  - unfold HasPrefix. simpl. case_match; [|done]. by destruct Hdot.
Qed.

Lemma objs_abs : objsDir root = abs (segs ++ ["objects"]).
Proof. by apply Join_seg. Qed.
Lemma objs_good : good_segs (segs ++ ["objects"]) ∧ segs ++ ["objects"] ≠ [].
Proof. split; [apply good_app; [done | by repeat constructor] | by destruct segs]. Qed.
Lemma obj_abs u : validSeg u = true → path_Join [objsDir root; u] = abs (segs ++ ["objects"; u]).
Proof.
  intros Hu. destruct objs_good. rewrite objs_abs, Join_seg by done. by rewrite <- (assoc_L (++)).
Qed.
Lemma disk_abs u : validSeg u = true → path_Join [path_Join [objsDir root; u]; "disk"] = abs (segs ++ ["objects"; u; "disk"]).
Proof.
  intros Hu. rewrite obj_abs by done. rewrite Join_seg; [by rewrite <- (assoc_L (++)) | by destruct segs | | done].
  apply good_app; [done|]. by repeat constructor.
Qed.

(** ** What the store's operations leave alone

    [away w]: [q] is neither the directory [w] of the store, nor below it, nor
    its file. *)

Section store.
Context {F : Type} `{Disk F} (q : string).
Definition away (w : string) : Prop :=
  q ≠ path_Join [objsDir root; w] ∧ HasPrefix q (path_Join [objsDir root; w] +:+ "/") = false ∧
  q ≠ path_Join [path_Join [objsDir root; w]; "disk"].

Lemma leaves_deferred {A} (body : ST F A) cleanup : leaves q body → leaves q cleanup → leaves q (deferred body cleanup).
Proof.
  intros Hb Hc. unfold deferred. apply leaves_bind; [by apply leaves_try|]. intros r _.
  apply leaves_bind; [by apply leaves_try | done].
Qed.
Lemma HasPrefix_staging v : HasPrefix (stagingPrefix +:+ v) "." = true.
Proof. by destruct v. Qed.
Lemma validSeg_staging v : free_of slash v → validSeg (stagingPrefix +:+ v) = true.
Proof.
  intros Hv. apply validSeg_spec. split_and!; [done..|]. apply free_of_app; [by repeat constructor | done].
Qed.


(** The names the store works under for the object [v]. *)
Context (v : string) (Haway : ∀ w, validSeg w = true → w = v ∨ w = stagingPrefix +:+ v → away w).

Lemma leaves_stage fill :
  (∀ w, away w → leaves q (fill (path_Join [path_Join [objsDir root; w]; "disk"]))) →
  leaves q (stage root v fill).
Proof using Haway.
  intros Hfill. unfold stage. destruct (_ || _) eqn:Hbad; [done|].
  apply orb_false_iff in Hbad as [[[H1 H2]%orb_false_iff H3]%orb_false_iff H4].
  apply String.eqb_neq in H1, H3, H4. apply ContainsChar_false in H2.
  assert (Hval : validSeg v = true) by by apply validSeg_spec.
  set (staging := stagingPrefix +:+ v).
  assert (Hst : validSeg staging = true) by by apply validSeg_staging.
  pose proof (Haway v Hval (or_introl eq_refl)) as (Hv1 & Hv2 & _).
  pose proof (Haway staging Hst (or_intror eq_refl)) as (Hs1 & Hs2 & _).
  apply leaves_bind; [apply leaves_try, leaves_sys, disk_stat|]. intros [n|e] _; [done|].
  destruct (negb _); [done|]. cbv zeta. apply leaves_bind; [apply leaves_fop; by intros []|]. intros _ _.
  apply leaves_deferred.
  - apply leaves_bind; [by apply Hfill, Haway; [|right]|]. intros _ _.
    apply leaves_bind; [apply leaves_fop; by intros []|]. intros _ _.
    apply leaves_bind; [|intros _ _; apply leaves_fop; by intros []].
    apply leaves_fop. cbn [touches]. change (objDir root v) with (path_Join [objsDir root; v]).
    rewrite Hv2, Hs2. naive_solver.
  - apply leaves_fop. cbn [touches]. rewrite Hs2. naive_solver.
Qed.
Lemma leaves_Create size : leaves q (Store_Create root v size).
Proof using Haway.
  unfold Store_Create. destruct (size <=? 0); [done|]. apply leaves_stage. intros w (_ & _ & Hf).
  apply leaves_bind; [by apply leaves_fop|]. intros _ _. apply leaves_deferred; [|apply leaves_fop; by intros []].
  apply leaves_bind; [by apply leaves_fop|]. intros _ _. apply leaves_fop; by intros [].
Qed.
Lemma leaves_Clone src : leaves q (Store_Clone root src v).
Proof using Haway.
  unfold Store_Clone. cbv zeta. apply leaves_bind; [apply leaves_onerr, leaves_sys, disk_stat|]. intros _ _.
  apply leaves_stage. intros w (_ & _ & Hf). unfold reflink.
  apply leaves_bind; [apply leaves_fop; by intros []|]. intros _ _.
  apply leaves_deferred; [|apply leaves_fop; by intros []].
  apply leaves_bind; [by apply leaves_fop|]. intros _ _.
  apply leaves_deferred; [|apply leaves_fop; by intros []].
  apply leaves_bind; [by apply leaves_onerr, leaves_fop|]. intros _ _. apply leaves_fop; by intros [].
Qed.
Lemma leaves_Resize size : validSeg v = true → leaves q (Store_Resize root v size).
Proof using Haway.
  intros Hval. destruct (Haway v Hval (or_introl eq_refl)) as (_ & _ & Hf). unfold Store_Resize. cbv zeta.
  apply leaves_bind; [apply leaves_fop; by intros []|]. intros _ _.
  apply leaves_deferred; [|apply leaves_fop; by intros []].
  apply leaves_bind; [apply leaves_sys, disk_stat|]. intros sz _.
  destruct (_ <? _); [done|]. destruct (_ =? _); [done|].
  apply leaves_bind; [by apply leaves_fop|]. intros _ _. apply leaves_fop; by intros [].
Qed.
Lemma leaves_Delete : validSeg v = true → leaves q (Store_Delete root v).
Proof using Haway.
  intros Hval. destruct (Haway v Hval (or_introl eq_refl)) as (H1 & H2 & _). unfold Store_Delete.
  apply leaves_bind; [|intros _ _; apply leaves_fop; by intros []].
  apply leaves_fop. cbn [touches]. change (objDir root v) with (path_Join [objsDir root; v]). rewrite H2. naive_solver.
Qed.
End store.

(** ** The file of one object *)

Context {F : Type} `{Disk F} (u : string) (Hu : plain u).
(** The file of the object [u]. *)
Notation q := (abs (segs ++ ["objects"; u; "disk"])).

Lemma apart parts : good_segs parts → parts ≠ [] → ¬ parts `prefix_of` ["objects"; u; "disk"] →
  q ≠ abs (segs ++ parts) ∧ HasPrefix q (abs (segs ++ parts) +:+ "/") = false.
Proof using Hu Hne Hsegs.
  intros Hg Hp Hnot.
  assert (Hq : good_segs (segs ++ ["objects"; u; "disk"])).
  { destruct Hu. apply good_app; [done | by repeat constructor]. }
  assert (Hs : good_segs (segs ++ parts)) by by apply good_app.
  assert (Hnil : ∀ l, segs ++ l ≠ []) by by destruct segs.
  split.
  - intros Heq%abs_inj; [|done..]. apply (inj (segs ++.)) in Heq. by subst.
  - apply not_true_iff_false. intros [k Hk]%under_prefix; [|done..].
    rewrite <- (assoc_L (++)) in Hk. apply (inj (segs ++.)) in Hk. destruct Hnot. by exists k.
Qed.
Lemma other_dir v rest : v ≠ u → ¬ (["objects"; v] ++ rest) `prefix_of` ["objects"; u; "disk"].
Proof. intros Hv [k Hk]. by injection Hk as ->. Qed.

(** A working directory [w] beside the object directories. *)
Lemma dir_apart w : validSeg w = true → w ≠ u →
  q ≠ path_Join [objsDir root; w] ∧ HasPrefix q (path_Join [objsDir root; w] +:+ "/") = false.
Proof using Hu Hne Hsegs.
  intros Hw Hne'. rewrite obj_abs by done. apply apart; [by repeat constructor | done | by apply (other_dir w [])].
Qed.
Lemma file_apart w : validSeg w = true → w ≠ u → q ≠ path_Join [path_Join [objsDir root; w]; "disk"].
Proof using Hu Hne Hsegs.
  intros Hw Hne'. rewrite disk_abs by done.
  apply (apart ["objects"; w; "disk"]); [by repeat constructor | done | by apply (other_dir w ["disk"])].
Qed.

Lemma dotted_not_plain w : HasPrefix w "." = true → w ≠ u.
Proof using Hu. intros Hw ->. destruct Hu as [_ Hd]. by rewrite Hw in Hd. Qed.
Lemma away_other v : v ≠ u → ∀ w, validSeg w = true → w = v ∨ w = stagingPrefix +:+ v → away q w.
Proof using Hu Hne Hsegs.
  intros Hv w Hw Hor. assert (w ≠ u) as Hwu.
  { destruct Hor as [->| ->]; [done | apply dotted_not_plain, HasPrefix_staging]. }
  split_and!; [by apply dir_apart.. | by apply file_apart].
Qed.

(** The database and what is written beside it lie outside [objects]. *)
Lemma beside_apart t : q ≠ dbPath +:+ t.
Proof using Hne.
  intros Heq. unfold abs in Heq. rewrite !Join_app, !app_assoc_str in Heq by done.
  apply (str_app_inv_head "/"), (str_app_inv_head (Join segs "/")), (str_app_inv_head "/") in Heq. done.
Qed.
Lemma db_good : good_segs (segs ++ ["appliance.json"]).
Proof using Hsegs. apply good_app; [done | by repeat constructor]. Qed.

Lemma leaves_backups : leaves q (backup_db dbPath).
Proof using Hu Hne Hsegs.
  unfold backup_db. apply leaves_bind; [|intros _ _].
  - unfold linkBackup. apply leaves_bind; [apply leaves_now|]. intros now _. cbv zeta.
    apply leaves_bind; [apply leaves_try, leaves_fop; cbn; apply beside_apart|].
    intros [[]|e] _; [done|]. destruct (IsNotExist e); [done|]. by destruct (IsExist e).
  - unfold pruneBackups. apply leaves_bind; [apply leaves_ReadDir|]. intros l Hl%ReadDir_names.
    cbv zeta. destruct (_ <=? _); [done|]. apply leaves_mfor. intros n Hn.
    assert (Hb : n ∈ backup_names dbPath l).
    { rewrite <- (sort_by_perm str_leb). apply elem_of_take in Hn as (i & Hi & _). by eapply list_elem_of_lookup_2. }
    apply elem_backup_names in Hb as (e & He & -> & Hp). rewrite Forall_forall in Hl.
    rewrite (Dir_path segs "appliance.json"), (Base_path segs "appliance.json") in * by done.
    apply leaves_bind; [apply leaves_try, leaves_fop; cbn|].
    + apply HasPrefix_app_inv in Hp as [t Ht].
      assert (Hv : validSeg e.1 = true).
      { apply validSeg_spec. specialize (Hl e He). cbv beta in Hl. rewrite Ht in *. by split_and!. }
      rewrite Join_seg by done. apply (apart [e.1]); [by repeat constructor | done|].
      intros [k Hk]. injection Hk as Hk _. by rewrite Ht in Hk.
    + intros [[]|er] _; [done|]. by destruct (IsNotExist er).
Qed.

(** ** What the coordinator leaves alone *)

Context {K : Type} `{Kernel K}.
Context (range : ∀ A, list A → list A) (mroot : string).
Context (aptplRecords : option (Backstore → ST K (list string))) (pageSize : Z) (marshal : db → string).
Notation App := (App K F).
Notation world := (world K F).

(** The store and the database of the coordinator are under [root]. *)
Definition placed (c : coord) : Prop := c_root c = root ∧ c_dbPath c = dbPath.
Definition spared (w w' : world) : Prop := content q (w_f w') = content q (w_f w) ∧ placed (w_c w').
Definition spares {A} (m : App A) : Prop := ∀ w, placed (w_c w) → spared w (m w).2.

Lemma spared_refl w : placed (w_c w) → spared w w.
Proof. by split. Qed.
Lemma spares_ret {A} (a : A) : spares (aret a).
Proof. by intros w ?. Qed.
Lemma spares_fail {A} e : spares (afail e : App A).
Proof. by intros w ?. Qed.
Lemma spares_panic {A} : spares ((λ w, (Panic, w)) : App A).
Proof. by intros w ?. Qed.
Lemma spares_of_res {A} (r : result aerr A) : spares (of_res r).
Proof. intros w ?. by destruct r. Qed.
Lemma spares_modify g : (∀ c, placed c → placed (g c)) → spares (modify g).
Proof. intros Hg w Hp. split; [done | by apply Hg]. Qed.
(** The continuation, from the world [m] leaves. *)
Lemma spares_bind_at {A B} (m : App A) (g : A → App B) w : placed (w_c w) → spares m →
  (∀ a w', m w = (Done a, w') → placed (w_c w') → spared w' (g a w').2) → spared w (abind m g w).2.
Proof.
  intros Hp Hm Hg. specialize (Hm w Hp). unfold abind. destruct (m w) as [[a|e|] w1]; [|done..].
  destruct Hm as [Hc Hp1]. destruct (Hg a w1 eq_refl Hp1) as [Hc2 Hp2]. split; [by rewrite Hc2 | done].
Qed.
Lemma spares_bind {A B} (m : App A) (g : A → App B) : spares m → (∀ a, spares (g a)) → spares (abind m g).
Proof. intros Hm Hg w Hp. apply spares_bind_at; [done..|]. intros a w' _ Hp'. by apply Hg. Qed.
Lemma spares_get {B} (g : coord → App B) : (∀ c, placed c → spares (g c)) → spares (abind get g).
Proof. intros Hg w Hp. by apply Hg. Qed.
Lemma spares_try {A} (m : App A) : spares m → spares (atry m).
Proof. intros Hm w Hp. specialize (Hm w Hp). unfold atry. by destruct (m w) as [[] ?]. Qed.
Lemma spares_kernel {A} (m : ST K A) : spares (in_kernel m).
Proof. intros w Hp. unfold in_kernel. by destruct (m (w_k w)) as [[] ?]. Qed.
Lemma spares_lio {A} (m : K → A * K) : spares (lio_call m).
Proof. intros w Hp. unfold lio_call. by destruct (m (w_k w)). Qed.
Lemma spares_files {A} (m : ST F A) : leaves q m → spares (in_files m).
Proof. intros Hm w Hp. unfold in_files. specialize (Hm (w_f w)). by destruct (m (w_f w)) as [[] ?]. Qed.

Create HintDb spares.
Ltac spare :=
  repeat (intros; lazymatch goal with
  | |- spares (abind get _) => apply spares_get
  | |- spares (abind _ _) => apply spares_bind
  | |- spares (match ?x with _ => _ end) => destruct x
  | |- spares (aret _) => apply spares_ret
  | |- spares (afail _) => apply spares_fail
  | |- spares (λ w, (Panic, w)) => apply spares_panic
  | |- spares (of_res _) => apply spares_of_res
  | |- spares (modify _) => apply spares_modify; by intros ? []
  | |- spares st => apply (spares_get (λ c, aret (c_st c)))
  | |- spares (set_state _) => apply spares_modify; by intros ? []
  | |- spares (restoreState _) => apply spares_modify; by intros ? []
  | |- spares (publish _) => apply spares_modify; by intros ? []
  | |- spares (atry _) => apply spares_try
  | |- spares (in_kernel _) => apply spares_kernel
  | |- spares (lio_call _) => apply spares_lio
  | |- spares _ => solve [eauto with spares]
  end).

Lemma desired_spares : spares (desired range).
Proof. unfold desired. spare. Qed.
Lemma persist_spares : spares (persist marshal).
Proof using Hu Hne Hsegs.
  unfold persist. apply spares_get. intros c [_ Hpath]. destruct (String.eqb _ _); [apply spares_fail|].
  rewrite Hpath. apply spares_bind; [apply spares_try, spares_files, leaves_backups|]. intros r. cbv zeta.
  assert (Hq : ∀ t, q ≠ dbPath +:+ t) by apply beside_apart.
  assert (Hdb : q ≠ dbPath ∧ HasPrefix q (dbPath +:+ "/") = false).
  { apply (apart ["appliance.json"]); [by repeat constructor | done|]. by intros [k Hk]. }
  apply spares_bind; [by apply spares_files, leaves_write_tmp|]. intros _.
  apply spares_bind; [apply spares_files, leaves_fop; cbn [touches]|intros _].
  { destruct Hdb as [Hd1 Hd2]. rewrite Hd2, app_assoc_str. intros [Hx|[Hx|[[t Hx]%HasPrefix_app_inv|Hx]]]; try done; [by apply Hq in Hx|].
    rewrite app_assoc_str in Hx. by apply Hq in Hx. }
  apply spares_bind; [by apply spares_modify; intros ? []|]. intros _.
  apply spares_bind; [apply spares_try, spares_files, leaves_fop; by intros []|]. intros [a|e]; [apply spares_ret | apply spares_fail].
Qed.
Hint Resolve desired_spares persist_spares : spares.
Lemma reconcileFull_spares cfg : spares (reconcileFull mroot aptplRecords cfg).
Proof. unfold reconcileFull, setReconcileErr, setReconcileOK. spare. Qed.
Hint Resolve reconcileFull_spares : spares.
Lemma reconcile_spares : spares (reconcile range mroot aptplRecords).
Proof. unfold reconcile, setReconcileErr, setReconcileOK. spare. Qed.
Hint Resolve reconcile_spares : spares.
Lemma healIfDegraded_spares : spares (healIfDegraded range mroot aptplRecords).
Proof. unfold healIfDegraded. spare. Qed.
Hint Resolve healIfDegraded_spares : spares.
Lemma persistOnly_spares mutate : spares (persistOnly marshal mutate).
Proof using Hu Hne Hsegs. unfold persistOnly. spare. Qed.
Lemma commit_spares mutate : spares (commit range mroot aptplRecords marshal mutate).
Proof using Hu Hne Hsegs. unfold commit. spare. Qed.
Hint Resolve persistOnly_spares commit_spares : spares.

(** ** Requests *)

Lemma random16_spares : spares random16.
Proof. apply spares_files, leaves_sys, disk_random. Qed.
Lemma fs_now_spares : spares (in_files fs_now : App string).
Proof. apply spares_files, leaves_now. Qed.
Hint Resolve random16_spares fs_now_spares : spares.
Lemma holdBack_spares v name : spares (holdBack v name).
Proof. unfold holdBack. spare. Qed.
Lemma releaseHold_spares v : spares (releaseHold v).
Proof. unfold releaseHold. spare. Qed.
Lemma setClearing_spares name : spares (setClearing name).
Proof. unfold setClearing. spare. Qed.
Lemma discardSavedPR_spares wwn : spares (discardSavedPR wwn).
Proof. unfold discardSavedPR. spare. Qed.
Lemma backstoreOf_spares v : spares (backstoreOf range v).
Proof. unfold backstoreOf. spare. Qed.
Hint Resolve holdBack_spares releaseHold_spares setClearing_spares discardSavedPR_spares backstoreOf_spares : spares.
Lemma fenceLossWarningFor_spares v losing host action :
  spares (fenceLossWarningFor range mroot v losing host action).
Proof. unfold fenceLossWarningFor. spare. Qed.
Hint Resolve fenceLossWarningFor_spares : spares.
Lemma fenceLossWarning_spares v h : spares (fenceLossWarning range mroot v h).
Proof. unfold fenceLossWarning. spare. Qed.
Lemma collect_warnings_spares losing h l : spares (collect_warnings range mroot losing h l).
Proof. induction l; cbn [collect_warnings]; spare. Qed.
Hint Resolve fenceLossWarning_spares collect_warnings_spares : spares.
Lemma fenceStateOf_spares v : spares (fenceStateOf range mroot pageSize v).
Proof. unfold fenceStateOf. spare. Qed.
Hint Resolve fenceStateOf_spares : spares.
Lemma rebuild_spares out kind name v : spares (rebuild range mroot aptplRecords pageSize out kind name v).
Proof. unfold rebuild, verifyCleared. spare. Qed.
Lemma recover_spares out kind name v e :
  spares (recoverFromFailedPrune range mroot aptplRecords pageSize out kind name v e).
Proof. unfold recoverFromFailedPrune. spare. Qed.
Lemma discardChecked_spares wwn : spares (discardSavedPRChecked wwn).
Proof. unfold discardSavedPRChecked, confirm_gone. spare. Qed.
Hint Resolve rebuild_spares recover_spares discardChecked_spares : spares.
Lemma clear_spares out kind v : spares (clear_phases range mroot aptplRecords pageSize out kind v).
Proof. unfold clear_phases. spare. Qed.
Hint Resolve clear_spares : spares.

(** The requests that change no object's bytes. *)
Definition rewrites (r : request) : bool :=
  match r with RCreate _ _ | RDelete _ _ | RResize _ _ _ => true | _ => false end.
Lemma perform_spares r : rewrites r = false →
  spares (perform range mroot aptplRecords pageSize marshal r).
Proof using Hu Hne Hsegs.
  destruct r; intros [=]; cbn [perform];
    unfold Rename, CreateHost, newHostUUID, RenameHost, SetBindings, DeleteHost, Connect, Disconnect, SetPortals,
      ClearReservation, read_holder, RecheckPR; spare.
Qed.

(** The requests that change one object's bytes. *)
Lemma allocate_spares v source size : validSeg v = true → v ≠ u → spares (allocate root v source size).
Proof using Hu Hne Hsegs.
  intros Hval Hv. unfold allocate.
  assert (Hd : spares (in_files (Store_Delete root v) : App unit)) by (apply spares_files, leaves_Delete; [by apply away_other | done]).
  assert (Hr : spares (in_files (Store_Resize root v size) : App unit)) by (apply spares_files, leaves_Resize; [by apply away_other | done]).
  assert (Hc : spares (in_files (Store_Create root v size) : App unit)) by (apply spares_files, leaves_Create; by apply away_other).
  assert (Hk : ∀ s, spares (in_files (Store_Clone root s v) : App unit)) by (intros s; apply spares_files, leaves_Clone; by apply away_other).
  spare.
Qed.
Lemma spared_of_res {A B} (r : result aerr A) (g : A → App B) w : placed (w_c w) →
  (∀ a, spared w (g a w).2) → spared w (abind (of_res r) g w).2.
Proof. intros Hp Hg. unfold abind, of_res. destruct r; [apply Hg | by apply spared_refl]. Qed.
Lemma spared_st {B} (g : db → App B) w : spared w (g (c_st (w_c w)) w).2 → spared w (abind st g w).2.
Proof. done. Qed.
Lemma Create_spared kind req (w : world) : placed (w_c w) → fresh w → u ∈ o_UUID <$> db_Objects (c_st (w_c w)) →
  spared w (Create marshal kind req w).2.
Proof using Hu Hne Hsegs.
  intros Hp Hf Hin. unfold Create. apply spared_of_res; [done|]. intros _. cbv zeta.
  set (req' := if cr_BlockSize req =? 0 then _ else req). clearbody req'.
  destruct (negb _); [by apply spared_refl|]. apply spared_st.
  destruct (objectByName _ _ _); [apply spared_of_res; [done|]; intros o'; by apply spared_refl|].
  apply spared_of_res; [done|]. intros [[source size] bs]. apply spared_of_res; [done|]. intros _.
  apply spares_bind_at; [done | unfold newIdentity; spare|]. intros [v wwn] w1 Hid Hp1.
  assert (Hv : validSeg v = true ∧ v ≠ u).
  { unfold newIdentity, abind, random16, in_files, sys in Hid. specialize (Hf).
    destruct (fl_random (w_f w)) as [[b|e] f'] eqn:Hr; [|done].
    destruct (Hf b f' Hr) as (Hb & Ho & _). destruct (minted_uuid b Hb) as (Hval & _).
    destruct (newIdentity_of b) as [v' wwn']. injection Hid as -> _. cbn [fst] in Ho, Hval.
    split; [by apply validUUID_plain | by intros ->]. }
  destruct Hv as [Hval Hv]. apply (spares_get (λ c, _)); [|done]. intros c [Hroot _]. rewrite Hroot.
  assert (Hd : spares (in_files (Store_Delete root v) : App unit)) by (apply spares_files, leaves_Delete; [by apply away_other | done]).
  apply spares_bind; [by apply allocate_spares|]. intros _. spare.
Qed.
Lemma spares_at {A} (m : App A) w : placed (w_c w) → spares m → spared w (m w).2.
Proof. intros Hp Hm. by apply Hm. Qed.
Lemma resolved_good d kind ref o : wf_db d → resolveObject d kind ref = Some o → validSeg (o_UUID o) = true.
Proof.
  intros Hwf [Hin _]%resolveObject_elem. apply validUUID_plain.
  pose proof (wf_objects _ Hwf) as HF. rewrite Forall_forall in HF. apply (HF o Hin).
Qed.
Lemma Delete_spared kind ref (w : world) : placed (w_c w) → sound (c_st (w_c w)) →
  (∀ o, resolveObject (c_st (w_c w)) kind ref = Some o → o_UUID o ≠ u) →
  spared w (Delete range mroot aptplRecords marshal kind ref w).2.
Proof using Hu Hne Hsegs.
  intros Hp [Hwf _] Hother. unfold Delete. apply spared_st.
  destruct (resolveObject _ _ _) as [o|] eqn:Ho; [|by apply spared_refl]. specialize (Hother o eq_refl).
  assert (Hval : validSeg (o_UUID o) = true) by by eapply resolved_good.
  apply spares_at; [done|].
  assert (Hd : spares (in_files (Store_Delete root (o_UUID o)) : App unit)) by (apply spares_files, leaves_Delete; [by apply away_other | done]).
  destruct (_ <? _)%nat; [apply spares_fail|]. do 4 (apply spares_bind; [spare|]; intros _).
  apply spares_get. intros c [Hroot _]. by rewrite Hroot.
Qed.
Lemma Resize_spared kind ref size (w : world) : placed (w_c w) → sound (c_st (w_c w)) →
  (∀ o, resolveObject (c_st (w_c w)) kind ref = Some o → o_UUID o ≠ u) →
  spared w (Resize range mroot aptplRecords marshal kind ref size w).2.
Proof using Hu Hne Hsegs.
  intros Hp [Hwf _] Hother. unfold Resize. apply spared_st.
  destruct (resolveObject _ _ _) as [o|] eqn:Ho; [|by apply spared_refl]. specialize (Hother o eq_refl).
  assert (Hval : validSeg (o_UUID o) = true) by by eapply resolved_good.
  apply spares_at; [done|]. cbv zeta.
  assert (Hr : spares (in_files (Store_Resize root (o_UUID o) size) : App unit)) by (apply spares_files, leaves_Resize; [by apply away_other | done]).
  destruct (_ =? _); [apply spares_ret|]. destruct (_ <? _); [apply spares_fail|].
  do 2 (apply spares_bind; [spare|]; intros _).
  apply spares_get. intros c [Hroot _]. rewrite Hroot. spare.
Qed.
End bytes.

(** The object a request deletes or resizes. *)
Definition targets (r : request) (d : db) (o : Object) : Prop :=
  match r with
  | RDelete kind ref | RResize kind ref _ => resolveObject d kind ref = Some o
  | _ => False
  end.

Section requests.
Context {K F : Type} `{Kernel K} `{Disk F}.
Context (range : ∀ A, list A → list A) (range_perm : ∀ A (l : list A), range A l ≡ₚ l).
Context (mroot : string) (aptplRecords : option (Backstore → ST K (list string))) (pageSize : Z).
Context (marshal : db → string) (unmarshal : string → option Loaded).
Notation world := (world K F).
Notation perform := (perform (K := K) (F := F) range mroot aptplRecords pageSize marshal).
Notation reachable := (reachable (K := K) (F := F) range mroot aptplRecords pageSize marshal unmarshal).

(** C7. A request never touches another object's bytes: in a reachable world,
    the backing file of every recorded object is the same after a request as
    before, whatever the request is and whatever the kernel and the disk answer
    to it, unless the request deletes or resizes that very object. So no
    create, clone, snapshot, rename, connect, clear or portal change, and no
    write of the database or of its backups, ever alters a volume. The
    identifiers the request draws must be unused ([fresh]), and the start must
    have read no block size of zero ([reachable]). *)
Theorem request_spares_bytes (segs : list string) (r : request) (o : Object) (w : world)
    (Hne : segs ≠ []) (Hsegs : good_segs segs) (Hplaced : placed segs (w_c w))
    (Hr : reachable w) (Hf : fresh w) (Ho : o ∈ db_Objects (c_st (w_c w))) (Ht : ¬ targets r (c_st (w_c w)) o) :
  content (DiskPath (abs segs) (o_UUID o)) (w_f (perform r w).2) =
  content (DiskPath (abs segs) (o_UUID o)) (w_f w).
Proof using range_perm.
  apply (reachable_quiescent range range_perm mroot aptplRecords pageSize marshal unmarshal) in Hr as [[Hs _] _ _ _].
  pose proof (wf_objects _ (proj1 Hs)) as HF. rewrite Forall_forall in HF.
  pose proof (validUUID_plain _ (wo_uuid _ (HF o Ho))) as Hplain.
  change (DiskPath (abs segs) (o_UUID o)) with (path_Join [path_Join [objsDir (abs segs); o_UUID o]; "disk"]).
  rewrite (disk_abs segs Hne Hsegs) by apply Hplain.
  assert (Hother : ∀ kind ref, (∀ o', resolveObject (c_st (w_c w)) kind ref = Some o' → o' ≠ o) →
    ∀ o', resolveObject (c_st (w_c w)) kind ref = Some o' → o_UUID o' ≠ o_UUID o).
  { intros kind ref Hn o' Ho' Heq. apply (Hn o' Ho'). apply resolveObject_elem in Ho' as [Ho' _].
    by eapply (NoDup_key_inj _ _ _ _ (wf_object_uuids _ (proj1 Hs))). }
  assert (Hspared : ∀ A (m : App K F A), spared segs (o_UUID o) w (m w).2 → spared segs (o_UUID o) w ((m ;!; aret tt) w).2).
  { intros A m [Hc Hp]. unfold spared, abind. by destruct (m w) as [[a|e|] w']. }
  enough (Hall : spared segs (o_UUID o) w (perform r w).2) by apply Hall.
  destruct (rewrites r) eqn:Hrw; [|by apply perform_spares].
  destruct r as [kind req| |kind ref|kind ref size| | | | | | | | | ]; try discriminate; cbn [AppReach.perform].
  - apply Hspared. apply Create_spared; try done. apply list_elem_of_fmap. by exists o.
  - apply Delete_spared; try done. apply Hother. intros o' Ho' ->. by apply Ht.
  - apply Hspared. apply Resize_spared; try done. apply Hother. intros o' Ho' ->. by apply Ht.
Qed.
End requests.
