(* ===== verification/AppOpLog.v ===== *)
(** * appliance: the log of what was done

    The records of src/appliance/events.go, and the [opLog] that is threaded
    through [commit] and [persistOnly]. [Logged] adds to [App] the operation
    under way, the verdict last noted and the records emitted so far; each
    definition ending in [_op] is the one of [AppCoordinator] with its logging
    put back. A record has its event, level, message and attributes; an error or
    a report of drift or of an unbound reservation in an attribute is the value
    its text is made from, and one that stands already is told from a new one by
    that value; a stranded reservation is told by its text, as in the source. The request id, which
    applog takes from the context, and the two records that depend on the clock
    (a slow commit, a slow reconcile) are left out. *)

From S2P Require Import Prelude GoStrings Errors Netip LioModel Configfs LioAptpl LioApply LioSync.
From S2P Require Import LioDelta LioStranded AppModel AppDb AppPortals AppTranslate AppAptpl Storage.
From S2P Require Import AppCoordinator AppObjects AppHosts AppIdentity AppClear AppEvents.

#[global] Instance goerr_eq_dec : EqDecision goerr.
Proof. unfold EqDecision. fix IH 1. intros x y. unfold Decision. decide equality; solve [solve_decision]. Defined.
#[global] Instance aptpl_report_eq_dec : EqDecision aptpl_report.
Proof. solve_decision. Defined.
#[global] Instance AttrDrift_eq_dec : EqDecision AttrDrift.
Proof. solve_decision. Defined.

(** ** Records *)

Definition eventConnectionCreate : string := "connection.create".
Definition eventConnectionDelete : string := "connection.delete".
Definition eventHostCreate : string := "host.create".
Definition eventHostDelete : string := "host.delete".
Definition eventHostRename : string := "host.rename".
Definition eventHostBindings : string := "host.bindings".
Definition eventTargetPortals : string := "target.portals".
Definition eventTargetReinit : string := "target.reinit".
Definition eventPRClearing : string := "pr.clearing".
Definition eventPRCleared : string := "pr.cleared".
Definition eventPRReleased : string := "pr.released".
Definition eventReconcileFailed : string := "reconcile.failed".
Definition eventReconcileRecovered : string := "reconcile.recovered".
Definition eventReconcileApplied : string := "reconcile.applied".
Definition eventCommitNotDurable : string := "commit.persisted_not_durable".
Definition eventBackupFailed : string := "storage.backup_failed".
Definition eventBackupRecovered : string := "storage.backup_recovered".
Definition eventHealthChanged : string := "health.status_changed".
Definition eventPRStranded : string := "pr.stranded".
Definition eventPRStrandUndecided : string := "pr.strand_undecided".
Definition eventPRUnbound : string := "pr.unbound".
Definition eventPRDiscardFailed : string := "pr.discard_failed".
Definition eventAttributeDrift : string := "drift.attribute".
Definition eventReconcileFallback : string := "reconcile.fallback".
Definition objectEvent (kind verb : string) : string := kind +:+ "." +:+ verb.

Definition outcomeSucceeded : string := "succeeded".
Definition outcomeFailed : string := "failed".
Definition outcomePartial : string := "partial".
Definition reconcileNotRequired : string := "not-required".
Definition reconcileSucceeded : string := "succeeded".
Definition reconcileFailed : string := "failed".

(** What an attribute holds. *)
Inductive value :=
  | VStr (s : string)
  | VBool (b : bool)
  | VInt (n : Z)
  | VStrs (l : list string)
  | VErr (e : aerr)                           (* err.Error() *)
  | VFences (l : list fence_warning)          (* the warnings, joined *)
  | VUnbound (r : aptpl_report)
  | VDrift (d : AttrDrift).
Definition attrs : Type := list (string * value).
Record record := mkRecord { r_level : level; r_event : string; r_msg : value; r_attrs : attrs }.

(** [opLog]. *)
Record opLog := mkOpLog {
  op_event : string; op_attrs : attrs; op_persisted : bool; op_proven : bool; op_reconcile : string }.
Definition beginOp (event : string) (a : attrs) : opLog := mkOpLog event a false false reconcileNotRequired.
Definition opLog_set (a : attrs) (o : opLog) : opLog :=
  mkOpLog (op_event o) (op_attrs o ++ a) (op_persisted o) (op_proven o) (op_reconcile o).
Definition opLog_noteCommit (persisted proven : bool) (o : opLog) : opLog :=
  mkOpLog (op_event o) (op_attrs o) persisted proven (op_reconcile o).
Definition opLog_noteReconcile (outcome : string) (o : opLog) : opLog :=
  mkOpLog (op_event o) (op_attrs o) (op_persisted o) (op_proven o) outcome.
(** [finish]: how the operation ended, and the level of the record. *)
Definition outcome_level (o : opLog) (err : option aerr) : string * level :=
  match err with
  | None => (outcomeSucceeded, LevelInfo)
  | Some e =>
      if op_persisted o then (outcomePartial, LevelWarn)
      else (outcomeFailed, if StatusInternalServerError <=? status e then LevelError else LevelInfo)
  end.
Definition finish (o : opLog) (err : option aerr) : record :=
  let '(outcome, lvl) := outcome_level o err in
  mkRecord lvl (op_event o) (VStr (op_event o +:+ " " +:+ outcome))
    ([("outcome", VStr outcome); ("durable", VBool (op_persisted o)); ("durable_proven", VBool (op_proven o));
      ("reconciled", VBool (String.eqb (op_reconcile o) reconcileSucceeded));
      ("reconcile_outcome", VStr (op_reconcile o))]
     ++ op_attrs o
     ++ match err with Some e => [("error", VErr e); ("error_code", VStr (errorCode e))] | None => [] end).

(** [errors.As] for [*lio.Error]. *)
Fixpoint as_lio (err : goerr) : option (Kind * string * string) :=
  match err with
  | ErrLio k op obj _ => Some (k, op, obj)
  | ErrWrap _ _ c => as_lio c
  | _ => None
  end.
Definition lioFields (err : goerr) : attrs :=
  match as_lio err with
  | None => []
  | Some (k, op, obj) =>
      ("error_kind", VStr (Kind_String k))
      :: (if String.eqb op "" then [] else [("error_op", VStr op)])
      ++ (if String.eqb obj "" then [] else [("error_object", VStr obj)])
  end.

(** [logReconcileOutcome]: only an edge is a record. *)
Definition reconcile_edge (prev err : option goerr) (kind : string) (rep : Report) : list record :=
  let changes := ("changes_applied", VInt (Z.of_nat (length (rp_Changes rep)))) in
  match err, prev with
  | Some _, Some _ => []
  | Some e, None =>
      [mkRecord LevelError eventReconcileFailed (VStr "reconcile failed; the kernel may not match the durable database")
         (("kind", VStr kind) :: ("error", VErr (ALio e)) :: changes :: lioFields e)]
  | None, Some _ =>
      [mkRecord LevelInfo eventReconcileRecovered
         (VStr "reconcile succeeded; the kernel matches the durable database again") [("kind", VStr kind); changes]]
  | None, None => []
  end.
(** [logBackupPosture]. *)
Definition backup_edge (prev now : option goerr) : list record :=
  match now, prev with
  | Some e, None => [mkRecord LevelWarn eventBackupFailed (VStr "cannot keep a backup of the appliance database")
                       [("error", VErr (ALio e))]]
  | None, Some _ => [mkRecord LevelInfo eventBackupRecovered (VStr "database backups are being kept again") []]
  | _, _ => []
  end.
Definition not_durable_record (err : aerr) : record :=
  mkRecord LevelWarn eventCommitNotDurable (VStr "database written and in effect, but not proven durable")
    [("error", VErr err)].
Definition replay_record (rep : Report) : record :=
  mkRecord LevelInfo eventReconcileApplied (VStr "startup replay reconciled the kernel to the durable database")
    [("kind", VStr "startup"); ("changes_applied", VInt (Z.of_nat (length (rp_Changes rep))))].
Definition fence_record (w : list fence_warning) (kind name uuid : string) : record :=
  mkRecord LevelWarn eventPRReleased (VFences w)
    [("resource_kind", VStr kind); ("resource_name", VStr name); ("resource_id", VStr uuid)].
(** The record of a transition of [noteHealth]. *)
Definition health_record (t : transition) : record :=
  mkRecord (tr_level t) eventHealthChanged
    (VStr (if String.eqb (tr_to t) (tr_from t) then "health conditions changed, verdict still " +:+ tr_to t
           else "health changed from " +:+ tr_from t +:+ " to " +:+ tr_to t))
    ([("from", VStr (tr_from t)); ("to", VStr (tr_to t))]
     ++ (if nonempty (tr_added t) then [("fields_added", VStrs (tr_added t))] else [])
     ++ (if nonempty (tr_cleared t) then [("fields_cleared", VStrs (tr_cleared t))] else [])).

(** ** The monad *)

(** The operation under way ([None] is a nil [opLog]); what its deferred call
    reads of the named results; [lastStatus] and [lastConditions]; the records. *)
Record logst := mkLogst { lg_op : option opLog; lg_named : attrs; lg_noted : noted; lg_out : list record }.
Definition Logged (K F A : Type) : Type := world K F → logst → outcome A * world K F * logst.

Section logged.
Context {K F : Type}.

(** A computation that logs nothing. *)
Definition silently {A} (m : App K F A) : Logged K F A := λ w l, let '(o, w) := m w in (o, w, l).
Definition lret {A} (a : A) : Logged K F A := silently (aret a).
Definition lfail {A} (e : aerr) : Logged K F A := silently (afail e).
Definition lbind {A B} (m : Logged K F A) (f : A → Logged K F B) : Logged K F B :=
  λ w l, match m w l with
         | (Done a, w, l) => f a w l
         | (Fail e, w, l) => (Fail e, w, l)
         | (Panic, w, l) => (Panic, w, l)
         end.
Definition ltry {A} (m : Logged K F A) : Logged K F (result aerr A) :=
  λ w l, match m w l with
         | (Done a, w, l) => (Done (Ok a), w, l)
         | (Fail e, w, l) => (Done (Err e), w, l)
         | (Panic, w, l) => (Panic, w, l)
         end.
(** A step of the log alone. *)
Definition on_log (f : logst → logst) : Logged K F unit := λ w l, (Done tt, w, f l).
Definition emit (rs : list record) : Logged K F unit :=
  on_log (λ l, mkLogst (lg_op l) (lg_named l) (lg_noted l) (lg_out l ++ rs)).
Definition on_op (f : opLog → opLog) : Logged K F unit :=
  on_log (λ l, mkLogst (f <$> lg_op l) (lg_named l) (lg_noted l) (lg_out l)).
Definition set (a : attrs) : Logged K F unit := on_op (opLog_set a).
Definition noteCommit (persisted proven : bool) : Logged K F unit := on_op (opLog_noteCommit persisted proven).
Definition noteReconcile (outcome : string) : Logged K F unit := on_op (opLog_noteReconcile outcome).
(** An assignment to a named result that the deferred call reads. *)
Definition named (a : attrs) : Logged K F unit :=
  on_log (λ l, mkLogst (lg_op l) a (lg_noted l) (lg_out l)).

(** An operation: [beginOp], the body, and the deferred call, which runs at a
    panic too, when the named error is still nil. [err_of] is the error the
    body returns beside a value. *)
Definition with_op {A} (event : string) (a initially : attrs) (err_of : A → option aerr)
    (body : Logged K F A) : Logged K F A :=
  λ w l,
    let '(o, w, l) := body w (mkLogst (Some (beginOp event a)) initially (lg_noted l) (lg_out l)) in
    let err := match o with Done a => err_of a | Fail e => Some e | Panic => None end in
    let out := match lg_op l with Some op => [finish (opLog_set (lg_named l) op) err] | None => [] end in
    (o, w, mkLogst None [] (lg_noted l) (lg_out l ++ out)).
End logged.

Notation "'let#' x := m 'in' k" := (lbind m (fun x => k))
  (at level 200, x pattern, m at level 100, k at level 200, right associativity) : go_scope.
Notation "m ;#; k" := (lbind m (fun _ => k))
  (at level 100, k at level 200, right associativity) : go_scope.

(** What is said of the reports that are new: [storePRStrandedLocked],
    [storePRUnboundLocked] and [storeDriftLocked]. *)
Definition newly {A B} `{EqDecision B} (lvl : level) (event msg : string) (text : A → B) (v : B → value)
    (was now : list A) : list record :=
  (λ b, mkRecord lvl event (VStr msg) [("detail", v b)]) <$> filter (λ b, b ∉ text <$> was) (text <$> now).
Definition stranded_records (h : published) (stranded : list StrandedReservation) (undecided : list UndecidedStrand)
    : list record :=
  newly LevelNotice eventPRStranded "SCSI-3 PR reservation is in effect but its holder cannot release it"
    Stranded_String VStr (hl_prStranded h) stranded
  ++ newly LevelNotice eventPRStrandUndecided "cannot determine whether a reservation is stranded"
       Undecided_String VStr (hl_prStrandUndecided h) undecided.
Definition unbound_records (h : published) (unbound : list aptpl_report) : list record :=
  newly LevelWarn eventPRUnbound "SCSI-3 PR reservation NOT in effect after replay"
    id VUnbound (hl_prUnbound h) unbound.
Definition drift_records (h : published) (drift : list AttrDrift) : list record :=
  newly LevelWarn eventAttributeDrift "desired attribute could not be applied" id VDrift (hl_drift h) drift.

Definition reconcileOutcomeOf {A} (r : result aerr A) : string :=
  match r with Ok _ => reconcileSucceeded | Err _ => reconcileFailed end.

(** ** The coordinator's shared steps *)

Section Coordinator.
Context {K F : Type} `{Kernel K} `{Files F}.
Context (range : ∀ A, list A → list A) (mroot : string).
Context (aptplRecords : option (Backstore → ST K (list string))).
Context (marshal : db → string).

Notation Logged := (Logged K F).

Definition noteHealth_op : Logged unit := λ w l,
  let '(t, n) := noteHealth (lg_noted l) (HealthSnapshot (w_c w)) in
  (Done tt, w, mkLogst (lg_op l) (lg_named l) n
                 (lg_out l ++ match t with Some t => [health_record t] | None => [] end)).

Definition persist_op : Logged unit :=
  let# c := silently get in
  if String.eqb (c_dbPath c) "" then lfail (AMsg "appliance: no database path configured" [])
  else
    let# backupErr := silently (atry (in_files (backup_db (c_dbPath c)))) in
    let tmp := c_dbPath c +:+ ".tmp" in
    silently (in_files (write_tmp tmp (marshal (c_st c) +:+ nl_str))) ;#;
    silently (in_files (fs_Rename tmp (c_dbPath c))) ;#;
    let now := match backupErr with Err (ALio e) => Some e | _ => None end in
    silently (publish (ph_backup now)) ;#;
    emit (backup_edge (hl_backupErr (c_health c)) now) ;#;
    noteCommit true false ;#;
    let# r := silently (atry (in_files (syncDir (Dir (c_dbPath c))))) in
    match r with
    | Err e =>
        emit [not_durable_record e] ;#;
        lfail (AWrap "%w: %v" [] APersistedNotDurable)
    | Ok _ => noteCommit true true
    end.

Definition setReconcileErr_op (err : goerr) (kind : string) (rep : Report) : Logged unit :=
  let# c := silently get in
  silently (modify (set_lastReconcileErr (Some err))) ;#;
  silently (publish (ph_err (Some err))) ;#;
  noteHealth_op ;#;
  emit (reconcile_edge (c_lastReconcileErr c) (Some err) kind rep).
Definition setReconcileOK_op (kind : string) (rep : Report) (unbound : list aptpl_report) (s : StrandReport)
    (drift : list AttrDrift) : Logged unit :=
  let# c := silently get in
  silently (modify (set_lastReconcileErr None)) ;#;
  emit (unbound_records (c_health c) unbound) ;#;
  emit (stranded_records (c_health c) (Stranded s) (Undecided s)) ;#;
  emit (drift_records (c_health c) drift) ;#;
  silently (publish (ph_reconciled None unbound (Stranded s) (Undecided s) drift)) ;#;
  noteHealth_op ;#;
  emit (reconcile_edge (c_lastReconcileErr c) None kind rep).

Definition reconcileFull_op (desired : Config) : Logged Report :=
  let# re := silently (lio_call (Sync mroot aptplRecords desired)) in
  match re.2 with
  | Some err =>
      silently (modify (set_applied None)) ;#;
      setReconcileErr_op err "full" re.1 ;#;
      lfail (ALio err)
  | None =>
      silently (modify (set_applied (Some (appliedView desired (rp_Drift re.1))))) ;#;
      let# s := silently (lio_call (stranded_reports mroot desired)) in
      setReconcileOK_op "full" re.1 (rp_APTPLUnbound re.1) s (rp_Drift re.1) ;#;
      lret re.1
  end.

Definition reconcile_op : Logged Report :=
  let# dcfg := silently (desired range) in
  let# c := silently get in
  match c_applied c with
  | None => reconcileFull_op dcfg
  | Some applied =>
      match Diff range applied dcfg with
      | None => reconcileFull_op dcfg
      | Some delta =>
          let# re := silently (lio_call (ApplyDelta mroot aptplRecords dcfg delta)) in
          match re.2 with
          | Some err =>
              if is_stale err then
                emit [mkRecord LevelInfo eventReconcileFallback
                        (VStr "incremental reconcile refused; falling back to a full reconcile")
                        [("error", VErr (ALio err))]] ;#;
                silently (modify (set_applied None)) ;#;
                reconcileFull_op dcfg
              else
                silently (modify (set_applied None)) ;#;
                setReconcileErr_op err "incremental" re.1 ;#;
                lfail (ALio err)
          | None =>
              let# unbound := silently (lio_call (VerifyAPTPL mroot aptplRecords dcfg)) in
              let# s := silently (lio_call (stranded_reports mroot dcfg)) in
              let# drift := silently (lio_call (VerifyDrift mroot dcfg)) in
              silently (modify (set_applied (Some (appliedView dcfg drift)))) ;#;
              setReconcileOK_op "incremental" re.1 unbound s drift ;#;
              lret re.1
          end
      end
  end.

Definition healIfDegraded_op : Logged unit :=
  let# c := silently get in
  match c_lastReconcileErr c with
  | None => lret tt
  | Some _ =>
      let# r := ltry reconcile_op in
      match r with
      | Ok _ => lret tt
      | Err e =>
          lfail (statusErr StatusServiceUnavailable
            "appliance degraded: previous reconcile failed (%v); retry once the kernel LIO state is reachable"
            [] [e])
      end
  end.

Definition persistOnly_op (mutate : db → result aerr db) : Logged unit :=
  let# d := silently st in
  let backup := snapshotState d in
  match mutate d with
  | Err e => silently (restoreState backup) ;#; lfail e
  | Ok d' =>
      silently (set_state d') ;#;
      let# r := ltry persist_op in
      match r with
      | Ok _ => lret tt
      | Err e =>
          if is_not_durable e then lfail e
          else silently (restoreState backup) ;#; lfail e
      end
  end.

(** After the checks: storing, and the reconcile that follows. *)
Definition store_op (backup : db) : Logged unit :=
  let# r := ltry persist_op in
  match r with
  | Err e =>
      if is_not_durable e then
        let# r := ltry reconcile_op in
        noteReconcile (reconcileOutcomeOf r) ;#; lfail e
      else silently (restoreState backup) ;#; lfail e
  | Ok _ =>
      let# r := ltry reconcile_op in
      noteReconcile (reconcileOutcomeOf r) ;#;
      match r with Ok _ => lret tt | Err e => lfail e end
  end.
Definition commit_op (mutate : db → result aerr db) : Logged unit :=
  healIfDegraded_op ;#;
  let# d := silently st in
  let backup := snapshotState d in
  match mutate d with
  | Err e => silently (restoreState backup) ;#; lfail e
  | Ok d' =>
      silently (set_state d') ;#;
      let# dcfg := silently (desired range) in
      match Config_Validate dcfg with
      | Err e => silently (restoreState backup) ;#; lfail (ALio e)
      | Ok _ => store_op backup
      end
  end.

Definition RecheckPR_op : Logged unit :=
  let# dcfg := silently (desired range) in
  let# s := silently (lio_call (stranded_reports mroot dcfg)) in
  let# unbound := silently (lio_call (VerifyAPTPL mroot aptplRecords dcfg)) in
  let# c := silently get in
  emit (unbound_records (c_health c) unbound) ;#;
  emit (stranded_records (c_health c) (Stranded s) (Undecided s)) ;#;
  silently (publish (ph_pr unbound (Stranded s) (Undecided s))) ;#;
  noteHealth_op.

End Coordinator.

(** ** Logging changes nothing

    [erases f m m0]: without its log, [m] is [m0], up to [f] on the value. *)

Definition outcome_map {A B} (f : A → B) (o : outcome A) : outcome B :=
  match o with Done a => Done (f a) | Fail e => Fail e | Panic => Panic end.
Definition result_map {E A B} (f : A → B) (r : result E A) : result E B :=
  match r with Ok a => Ok (f a) | Err e => Err e end.

Section erasure.
Context {K F : Type}.
Notation App := (App K F).
Notation Logged := (Logged K F).

Definition erases {A B} (f : A → B) (m : Logged A) (m0 : App B) : Prop :=
  ∀ w l, m0 w = (outcome_map f (m w l).1.1, (m w l).1.2).

Lemma erases_silently {A} (m : App A) : erases (λ x, x) (silently m) m.
Proof. intros w l. unfold silently. by destruct (m w) as [[] ?]. Qed.
Lemma erases_ret {A B} (f : A → B) a : erases f (lret a) (aret (f a)).
Proof. done. Qed.
Lemma erases_fail {A B} (f : A → B) e : erases f (lfail e) (afail e).
Proof. done. Qed.
Lemma erases_bind {A A' B B'} (f : A → A') (g : B → B') m m0 (k : A → Logged B) k0 :
  erases f m m0 → (∀ a, erases g (k a) (k0 (f a))) → erases g (lbind m k) (abind m0 k0).
Proof.
  intros Hm Hk w l. specialize (Hm w l). unfold abind, lbind. rewrite Hm.
  destruct (m w l) as [[[a|e|] w1] l1]; cbn; [apply Hk | done..].
Qed.
Lemma erases_try {A B} (f : A → B) m m0 : erases f m m0 → erases (result_map f) (ltry m) (atry m0).
Proof.
  intros Hm w l. specialize (Hm w l). unfold atry, ltry. rewrite Hm. by destruct (m w l) as [[[a|e|] w1] l1].
Qed.

(** A step that is only logging. *)
Definition logs (m : Logged unit) : Prop := ∀ w l, (m w l).1 = (Done tt, w).
Lemma logs_on f : logs (on_log f).
Proof. done. Qed.
Lemma logs_emit rs : logs (emit rs).
Proof. done. Qed.
Lemma logs_noteHealth : logs noteHealth_op.
Proof. intros w l. unfold noteHealth_op. by destruct (noteHealth _ _). Qed.
Lemma logs_bind m k : logs m → (∀ u, logs (k u)) → logs (lbind m k).
Proof.
  intros Hm Hk w l. specialize (Hm w l). unfold lbind. destruct (m w l) as [[o w1] l1]. cbn in Hm.
  injection Hm as -> ->. apply Hk.
Qed.
Lemma erases_logs {A B} (f : A → B) (m : Logged unit) (k : unit → Logged A) m0 :
  logs m → erases f (k tt) m0 → erases f (lbind m k) m0.
Proof.
  intros Hm Hk w l. specialize (Hm w l). unfold lbind. destruct (m w l) as [[o w1] l1]. cbn in Hm.
  injection Hm as -> ->. apply Hk.
Qed.
(** The state read for the log. *)
Lemma erases_get {A B} (f : A → B) (k : coord → Logged A) m0 :
  (∀ c, erases f (k c) m0) → erases f (lbind (silently get) k) m0.
Proof. intros Hk w l. apply (Hk (w_c w) w l). Qed.
Lemma erases_last (m : Logged unit) : logs m → erases (λ x, x) m (aret tt).
Proof. intros Hm w l. by rewrite (Hm w l). Qed.
(** What follows only logs, or returns a value that is dropped. *)
Lemma erases_bind_last {A} (f : A → unit) (m : Logged unit) (m0 : App unit) (k : unit → Logged A) :
  erases (λ x, x) m m0 → (∀ w l, ∃ a, (k tt w l).1 = (Done a, w)) → erases f (lbind m k) m0.
Proof.
  intros Hm Hk w l. specialize (Hm w l). unfold lbind. rewrite Hm.
  destruct (m w l) as [[[[]|e|] w1] l1]; cbn; [|done..]. destruct (Hk w1 l1) as [a Ha]. rewrite Ha. cbn.
  by destruct (f a).
Qed.
Lemma logs_returns (m : Logged unit) w l : logs m → ∃ a, (m w l).1 = (Done a, w).
Proof. intros Hm. exists tt. apply Hm. Qed.
(** Tried, noted, and passed on. *)
Lemma erases_try_of {A B} (f : A → B) (m : Logged A) m0 (k : result aerr A → Logged B) :
  erases f m m0 → (∀ a w l, (k (Ok a) w l).1 = (Done (f a), w)) → (∀ e w l, (k (Err e) w l).1 = (Fail e, w)) →
  erases (λ x, x) (lbind (ltry m) k) m0.
Proof.
  intros Hm Ha He w l. specialize (Hm w l). unfold lbind, ltry. rewrite Hm.
  destruct (m w l) as [[[a|e|] w1] l1]; cbn; [by rewrite (Ha a w1 l1) | by rewrite (He e w1 l1) | done].
Qed.
Lemma erases_with_op {A} event a initially err_of (m : Logged A) m0 :
  erases (λ x, x) m m0 → erases (λ x, x) (with_op event a initially err_of m) m0.
Proof.
  intros Hm w l. unfold with_op. rewrite (Hm w (mkLogst (Some (beginOp event a)) initially (lg_noted l) (lg_out l))).
  by destruct (m w _) as [[o w1] l1].
Qed.
End erasure.

Create HintDb erases.
#[export] Hint Resolve logs_on logs_emit logs_noteHealth : erases.
(** Follows the two programs in step. A recursive call, or a definition with a
    lemma of its own, is found in the hints. *)
Ltac erasing_step :=
  lazymatch goal with
  | |- erases _ (silently ?m) ?m0 => apply erases_silently
  | |- erases _ (lret _) _ => apply (erases_ret (λ x, x))
  | |- erases _ (lfail _) _ => apply erases_fail
  | |- erases _ (lbind (on_log _) _) _ => apply erases_logs; [apply logs_on|]
  | |- erases _ (lbind (emit _) _) _ => apply erases_logs; [apply logs_on|]
  | |- erases _ (lbind (set _) _) _ => apply erases_logs; [apply logs_on|]
  | |- erases _ (lbind (named _) _) _ => apply erases_logs; [apply logs_on|]
  | |- erases _ (lbind (noteCommit _ _) _) _ => apply erases_logs; [apply logs_on|]
  | |- erases _ (lbind (noteReconcile _) _) _ => apply erases_logs; [apply logs_on|]
  | |- erases _ (lbind noteHealth_op _) _ => apply erases_logs; [apply logs_noteHealth|]
  | |- erases _ (emit _) (aret tt) => apply erases_last, logs_on
  | |- erases _ (noteCommit _ _) (aret tt) => apply erases_last, logs_on
  | |- erases _ (lbind (silently _) _) (abind _ _) =>
      eapply erases_bind; [apply erases_silently | intros ?; cbv beta]
  | |- erases _ (lbind (ltry _) _) (abind (atry _) _) =>
      eapply erases_bind; [apply erases_try; solve [eauto with erases] | intros [?|?]; cbn [result_map]]
  | |- erases _ (lbind _ _) (abind _ _) =>
      eapply erases_bind; [solve [eauto with erases] | intros ?; cbv beta]
  | |- erases _ (let '(_, _) := ?x in _) _ => destruct x
  | |- erases _ (match ?x with _ => _ end) _ => destruct x
  | |- erases _ _ _ => solve [eauto with erases]
  end.
Ltac erasing := intros; cbv zeta; repeat (erasing_step; cbv zeta).

Section erased.
Context {K F : Type} `{Kernel K} `{Files F}.
Context (range : ∀ A, list A → list A) (mroot : string).
Context (aptplRecords : option (Backstore → ST K (list string))).
Context (marshal : db → string).

Lemma erases_persist : erases (λ x, x) (persist_op (K := K) (F := F) marshal) (persist marshal).
Proof. unfold persist_op, persist. erasing. Qed.
Lemma erases_setReconcileErr err kind rep :
  erases (λ x, x) (setReconcileErr_op (K := K) (F := F) err kind rep) (setReconcileErr err).
Proof.
  unfold setReconcileErr_op, setReconcileErr. apply erases_get. intros c. erasing_step.
  apply erases_bind_last; [apply erases_silently|]. intros w l. apply logs_returns, logs_bind; auto with erases.
Qed.
Lemma erases_setReconcileOK kind rep unbound s drift :
  erases (λ x, x) (setReconcileOK_op (K := K) (F := F) kind rep unbound s drift) (setReconcileOK unbound s drift).
Proof.
  unfold setReconcileOK_op, setReconcileOK. apply erases_get. intros c. do 4 erasing_step.
  apply erases_bind_last; [apply erases_silently|]. intros w l. apply logs_returns, logs_bind; auto with erases.
Qed.
Hint Resolve erases_persist erases_setReconcileErr erases_setReconcileOK : erases.

Notation told m m0 := (erases (λ _ : Report, tt) m m0).
Lemma erases_reconcileFull dcfg :
  told (reconcileFull_op (K := K) (F := F) mroot aptplRecords dcfg) (reconcileFull mroot aptplRecords dcfg).
Proof.
  unfold reconcileFull_op, reconcileFull. erasing_step. destruct a as [rep [err|]]; cbn [fst snd]; [by erasing|].
  do 2 erasing_step. apply erases_bind_last; [apply erases_setReconcileOK | by eexists].
Qed.
Hint Resolve erases_reconcileFull : erases.
Lemma erases_reconcile :
  told (reconcile_op (K := K) (F := F) range mroot aptplRecords) (reconcile range mroot aptplRecords).
Proof.
  unfold reconcile_op, reconcile. do 2 erasing_step. destruct (c_applied _) as [applied|]; [|by erasing].
  destruct (Diff _ _ _) as [delta|]; [|by erasing]. erasing_step. destruct a1 as [rep [err|]]; cbn [fst snd].
  - destruct (is_stale err); [|by erasing].
    intros w l. unfold lbind, abind, emit, on_log, modify, silently. cbn. apply erases_reconcileFull.
  - do 4 erasing_step. apply erases_bind_last; [apply erases_setReconcileOK | by eexists].
Qed.
Hint Resolve erases_reconcile : erases.
Lemma erases_healIfDegraded :
  erases (λ x, x) (healIfDegraded_op (K := K) (F := F) range mroot aptplRecords)
    (healIfDegraded range mroot aptplRecords).
Proof. unfold healIfDegraded_op, healIfDegraded. erasing. Qed.
Lemma erases_persistOnly mutate :
  erases (λ x, x) (persistOnly_op (K := K) (F := F) marshal mutate) (persistOnly marshal mutate).
Proof. unfold persistOnly_op, persistOnly. erasing. Qed.
Hint Resolve erases_healIfDegraded erases_persistOnly : erases.
(** [reconcile], noted and passed on. *)
Lemma erases_reconcile_noted {B} (b : B) :
  erases (λ x, x)
    (let# r := ltry (reconcile_op (K := K) (F := F) range mroot aptplRecords) in
     noteReconcile (reconcileOutcomeOf r) ;#; match r with Ok _ => lret b | Err e => lfail e end)
    (reconcile range mroot aptplRecords ;!; aret b).
Proof.
  intros w l. pose proof (erases_reconcile w l) as Hr. unfold abind, lbind, ltry. rewrite Hr.
  by destruct (reconcile_op range mroot aptplRecords w l) as [[[a|e|] w1] l1].
Qed.
Lemma erases_commit mutate :
  erases (λ x, x) (commit_op (K := K) (F := F) range mroot aptplRecords marshal mutate)
    (commit range mroot aptplRecords marshal mutate).
Proof.
  unfold commit_op, commit, store_op. erasing. apply (erases_try_of _ _ _ _ erases_reconcile); by intros [].
Qed.
Hint Resolve erases_commit : erases.
Lemma erases_RecheckPR :
  erases (λ x, x) (RecheckPR_op (K := K) (F := F) range mroot aptplRecords) (RecheckPR range mroot aptplRecords).
Proof.
  unfold RecheckPR_op, RecheckPR. do 3 erasing_step. apply erases_get. intros c. do 2 erasing_step.
  apply erases_bind_last; [apply erases_silently|]. intros w l. apply logs_returns; auto with erases.
Qed.
End erased.
