(* ===== verification/AppLogged.v ===== *)
(** * appliance: the requests, with their log

    Each operation of [AppObjects], [AppHosts] and [AppClear], and the start and
    the re-initialisation of [AppIdentity], with the record it begins, fills in
    and emits when it returns, and the other records on its way. Erasing the
    log gives the operation back. *)

From S2P Require Import Prelude GoStrings Errors Netip LioModel Configfs LioAptpl LioApply LioSync.
From S2P Require Import LioDelta LioStranded AppModel AppDb AppPortals AppTranslate AppAptpl Storage.
From S2P Require Import AppCoordinator AppObjects AppHosts AppIdentity AppClear AppEvents AppReach AppOpLog.

Definition no_err {A} (a : A) : option aerr := None.
(** The error beside a value. *)
Definition beside {A B} (p : A * result aerr B) : option aerr := match p.2 with Ok _ => None | Err e => Some e end.
Definition created_attr (b : bool) : attrs := [("created", VBool b)].
Definition identity_attrs (o : Object) : attrs :=
  [("resource_id", VStr (o_UUID o)); ("wwn", VStr (o_WWN o)); ("size_bytes", VInt (o_Capacity o));
   ("block_size", VInt (o_BlockSize o))].
Definition rescan_attr (b : bool) : attrs := [("rescan_required", VBool b)].
Definition cleared_err (p : ClearedReservation * option aerr) : option aerr := p.2.
Definition clearing_record (kind : string) (v : Object) (out : ClearedReservation) : record :=
  mkRecord LevelWarn eventPRClearing
    (VStr "clearing a SCSI-3 reservation; initiators will see the device disappear and return")
    [("resource_kind", VStr kind); ("resource_name", VStr (o_Name v)); ("resource_id", VStr (o_UUID v));
     ("wwn", VStr (o_WWN v)); ("holder", VStr (cl_Holder out)); ("isid", VStr (cl_ISID out));
     ("reservation_type", VStr (cl_Type out))].
Definition eventConfigIgnored : string := "config.flag_ignored".
Definition eventIdentityAdopted : string := "identity.adopted".
Definition eventIdentityNoMachineID : string := "identity.no_machine_id".
Definition eventStorageQuarantined : string := "storage.quarantined".
Definition eventStorageMissing : string := "storage.missing".
Definition eventPROrphans : string := "pr.orphans".
Definition eventPROrphanCheckFailed : string := "pr.orphan_check_failed".
Definition ignored_record (msg setting flag recorded : string) : record :=
  mkRecord LevelNotice eventConfigIgnored (VStr msg)
    [("setting", VStr setting); ("flag_value", VStr flag); ("recorded_value", VStr recorded)].
Definition iqn_ignored_text (flag recorded : string) : string :=
  "the -iqn flag says " +:+ flag +:+ " but the recorded target IQN is " +:+ recorded
  +:+ "; the record wins. The IQN is set once, when the appliance is initialised: renaming a target "
  +:+ "destroys it and every reservation bound to it, so it is not something a restart is allowed to do".
Definition portals_ignored_text (flag recorded : string) : string :=
  "the -portals flag says " +:+ flag +:+ " but the recorded portals are " +:+ recorded
  +:+ "; the record wins. Change portals through the API, or clear "
  +:+ "the portals field in appliance.json to re-adopt the flag".
Definition missing_record (o : Object) : record :=
  mkRecord LevelWarn eventStorageMissing (VStr "object has a record but no backing file")
    [("resource_kind", VStr (o_Kind o)); ("resource_name", VStr (o_Name o)); ("resource_id", VStr (o_UUID o));
     ("state", VStr stateMissing)].

(** ** The requests *)

Section Requests.
Context {K F : Type} `{Kernel K} `{Files F}.
Context (range : ∀ A, list A → list A) (mroot : string).
Context (aptplRecords : option (Backstore → ST K (list string))).
Context (pageSize : Z) (marshal : db → string) (unmarshal : string → option Loaded).

Notation Logged := (Logged K F).
Notation persist_op := (persist_op marshal).
Notation reconcile_op := (reconcile_op range mroot aptplRecords).
Notation healIfDegraded_op := (healIfDegraded_op range mroot aptplRecords).
Notation persistOnly_op := (persistOnly_op marshal).
Notation commit_op := (commit_op range mroot aptplRecords marshal).

Definition discardSavedPR_op (wwn : string) : Logged unit :=
  let# c := silently get in
  if String.eqb (ac_DBRoot (c_cfg c)) "" || String.eqb wwn "" then lret tt
  else
    let path := APTPLPath (ac_DBRoot (c_cfg c)) wwn in
    let# r := silently (atry (in_kernel (os_Remove path))) in
    match r with
    | Err e =>
        if file_gone e then lret tt
        else emit [mkRecord LevelWarn eventPRDiscardFailed
                     (VStr "could not remove saved SCSI-3 PR state (harmless leftover; `applianced inspect` will list it)")
                     [("path", VStr path); ("error", VErr e)]]
    | Ok _ => lret tt
    end.

Definition Create_op (kind : string) (req : CreateRequest) : Logged (Object * bool) :=
  with_op (objectEvent kind "create")
    (("resource_name", VStr (cr_Name req))
     :: (if String.eqb (cr_Source req) "" then []
         else [("source_name", VStr (cr_Source req)); ("source_kind", VStr (cr_SourceKind req))]))
    (created_attr false) no_err
    (silently (of_res (checkName (cr_Name req))) ;#;
     let req := if cr_BlockSize req =? 0
                then mkCreateRequest (cr_Name req) (cr_Size req) DefaultBlockSize (cr_Source req)
                       (cr_SourceKind req)
                else req in
     if negb (ValidBlockSize (cr_BlockSize req))
     then lfail (statusErrCode StatusBadRequest CodeInvalidInput "block_size must be %d or %d"
                   [itoa DefaultBlockSize; itoa MaxBlockSize])
     else
       let# d := silently st in
       match objectByName d kind (cr_Name req) with
       | Some existing =>
           let# o := silently (of_res (matchExisting d existing req)) in
           set (identity_attrs o) ;#;
           lret (o, false)
       | None =>
           let# src := silently (of_res (resolve_source d req)) in
           let '(source, size, blockSize) := src in
           silently (of_res (checkSize size)) ;#;
           let# id := silently newIdentity in
           let '(uuid, wwn) := id in
           let# c := silently get in
           silently (allocate (c_root c) uuid source size) ;#;
           let# now := silently (in_files fs_now) in
           let obj := mkObject uuid (cr_Name req) kind wwn size blockSize now stateReady
                        (match source with Some s => o_UUID s | None => "" end) in
           set (match source with Some s => [("source_id", VStr (o_UUID s))] | None => [] end) ;#;
           set (identity_attrs obj) ;#;
           let# r := ltry (persistOnly_op (add_object obj)) in
           match r with
           | Ok _ => named (created_attr true) ;#; lret (obj, true)
           | Err e =>
               if dropBytes e then silently (atry (in_files (Store_Delete (c_root c) uuid))) ;#; lfail e
               else named (created_attr true) ;#; lfail e
           end
       end).

Definition Rename_op (kind ref newName : string) : Logged Object :=
  with_op (objectEvent kind "rename") [("new_name", VStr newName); ("ref", VStr ref)] [] no_err
    (silently (of_res (checkName newName)) ;#;
     let# d := silently st in
     match resolveObject d kind ref with
     | None => lfail (notFound kind ref)
     | Some o =>
         set [("resource_id", VStr (o_UUID o)); ("old_name", VStr (o_Name o))] ;#;
         if String.eqb (o_Name o) newName then lret o
         else
           match objectByName d kind newName with
           | Some _ => lfail (nameTaken kind newName)
           | None =>
               persistOnly_op (rename_object kind (o_Name o) newName) ;#;
               let# d := silently st in
               match objectByName d kind newName with
               | Some o => lret o
               | None => silently (λ w, (Panic, w))
               end
           end
     end).

Definition Delete_op (kind ref : string) : Logged unit :=
  with_op (objectEvent kind "delete") [("ref", VStr ref)] [] no_err
    (let# d := silently st in
     match resolveObject d kind ref with
     | None => lfail (notFound kind ref)
     | Some o =>
         set [("resource_name", VStr (o_Name o)); ("resource_id", VStr (o_UUID o)); ("wwn", VStr (o_WWN o))] ;#;
         if (0 <? length (connectionsOf d (o_UUID o)))%nat
         then lfail (statusErrCode StatusConflict CodeResourceConnected
                       "%s %q is connected; disconnect it first" [o_Kind o; o_Name o])
         else
           healIfDegraded_op ;#;
           persistOnly_op (delete_object (o_UUID o)) ;#;
           discardSavedPR_op (o_WWN o) ;#;
           silently (releaseHold (o_UUID o)) ;#;
           let# c := silently get in
           silently (in_files (Store_Delete (c_root c) (o_UUID o)))
     end).

Definition Resize_op (kind ref : string) (newSize : Z) : Logged bool :=
  with_op (objectEvent kind "resize") [("ref", VStr ref); ("size_bytes", VInt newSize)] (rescan_attr false) no_err
    (let# d := silently st in
     match resolveObject d kind ref with
     | None => lfail (notFound kind ref)
     | Some o =>
         set [("resource_name", VStr (o_Name o)); ("resource_id", VStr (o_UUID o)); ("wwn", VStr (o_WWN o));
              ("previous_size_bytes", VInt (o_Capacity o))] ;#;
         let exported := (0 <? length (connectionsOf d (o_UUID o)))%nat in
         if newSize =? o_Capacity o then named (rescan_attr exported) ;#; lret exported
         else if newSize <? o_Capacity o
         then lfail (statusErrCode StatusBadRequest CodeInvalidInput "shrink unsupported (%d < %d)"
                       [itoa newSize; itoa (o_Capacity o)])
         else
           silently (of_res (checkSize newSize)) ;#;
           healIfDegraded_op ;#;
           let# c := silently get in
           silently (in_files (Store_Resize (c_root c) (o_UUID o) newSize)) ;#;
           named (rescan_attr exported) ;#;
           persistOnly_op (resize_object (o_UUID o) newSize) ;#;
           let# r := ltry reconcile_op in
           noteReconcile (reconcileOutcomeOf r) ;#;
           match r with Ok _ => lret exported | Err e => lfail e end
     end).

Definition CreateHost_op (name : string) (iqns : list string) : Logged (Host * bool) :=
  with_op eventHostCreate [("resource_name", VStr name); ("iqn_count", VInt (Z.of_nat (length iqns)))]
    (created_attr false) no_err
    (silently (of_res (checkName name)) ;#;
     let# d := silently st in
     match hostByName d name with
     | Some existing =>
         if negb (bool_decide (sort_strings iqns = sort_strings (h_IQNs existing)))
         then lfail (statusErrCode StatusConflict CodeConfigurationMismatch
                       "host %q already exists with bindings %v, not %v" (name :: h_IQNs existing ++ iqns))
         else set [("resource_id", VStr (h_UUID existing))] ;#; lret (existing, false)
     | None =>
         silently (of_res (checkIQNs d iqns "")) ;#;
         let# uuid := silently newHostUUID in
         set [("resource_id", VStr uuid)] ;#;
         let h := mkHost uuid name iqns in
         commit_op (add_host h) ;#;
         named (created_attr true) ;#;
         lret (h, true)
     end).

Definition RenameHost_op (ref newName : string) : Logged Host :=
  with_op eventHostRename [("new_name", VStr newName); ("ref", VStr ref)] [] no_err
    (silently (of_res (checkName newName)) ;#;
     let# d := silently st in
     match resolveHost d ref with
     | None => lfail (notFound "host" ref)
     | Some target =>
         set [("resource_id", VStr (h_UUID target)); ("old_name", VStr (h_Name target))] ;#;
         if String.eqb (h_Name target) newName then lret target
         else
           match hostByName d newName with
           | Some _ => lfail (nameTaken "host" newName)
           | None =>
               persistOnly_op (rename_host (h_Name target) newName) ;#;
               let# d := silently st in
               match hostByName d newName with
               | Some h => lret h
               | None => silently (λ w, (Panic, w))
               end
           end
     end).

(** The record of a fence about to be released, and its text in the
    operation's own. *)
Definition warn_fences (w : list fence_warning) (kind name uuid : string) : Logged unit :=
  if (0 <? length w)%nat then emit [fence_record w kind name uuid] ;#; set [("warning", VFences w)] else lret tt.

Definition SetBindings_op (ref : string) (replace : option (list string)) (add remove : list string)
    : Logged (list fence_warning * result aerr Host) :=
  with_op eventHostBindings [("ref", VStr ref)] [] beside
    (let# d := silently st in
     match resolveHost d ref with
     | None => lfail (notFound "host" ref)
     | Some h =>
         set [("resource_name", VStr (h_Name h)); ("resource_id", VStr (h_UUID h))] ;#;
         let next := next_bindings (h_IQNs h) replace add remove in
         silently (of_res (checkIQNs d next (h_UUID h))) ;#;
         let dropped := filter (λ q, any (String.eqb q) next = false) (h_IQNs h) in
         let# warnings := silently (if (0 <? length dropped)%nat
                                    then collect_warnings range mroot dropped h (db_Connections d) else aret []) in
         warn_fences warnings "host" (h_Name h) (h_UUID h) ;#;
         let# r := ltry (commit_op (rebind_host (h_UUID h) next)) in
         lret (warnings, match r with Ok _ => Ok (set_IQNs next h) | Err e => Err e end)
     end).

Definition DeleteHost_op (ref : string) : Logged unit :=
  with_op eventHostDelete [("ref", VStr ref)] [] no_err
    (let# d := silently st in
     match resolveHost d ref with
     | None => lfail (notFound "host" ref)
     | Some h =>
         set [("resource_name", VStr (h_Name h)); ("resource_id", VStr (h_UUID h))] ;#;
         if (0 <? length (connectionsOfHost d (h_UUID h)))%nat
         then lfail (statusErrCode StatusConflict CodeResourceConnected
                       "host %q has connections; disconnect first" [h_Name h])
         else commit_op (delete_host (h_UUID h))
     end).

Definition Connect_op (kind objectRef hostRef : string) (lun : option Z) : Logged (ConnInfo * bool) :=
  with_op eventConnectionCreate
    ([("object_name", VStr objectRef); ("object_kind", VStr kind); ("host_name", VStr hostRef)]
     ++ match lun with Some lun => [("lun", VInt lun)] | None => [] end)
    (created_attr false) no_err
    (let# d := silently st in
     match resolveObject d kind objectRef with
     | None => lfail (notFound kind objectRef)
     | Some o =>
         if negb (String.eqb (o_State o) stateReady)
         then lfail (statusErrCode StatusConflict CodeUnsupportedState "%s %q is %s"
                       [o_Kind o; o_Name o; o_State o])
         else
           set [("object_id", VStr (o_UUID o)); ("wwn", VStr (o_WWN o))] ;#;
           match resolveHost d hostRef with
           | None => lfail (notFound "host" hostRef)
           | Some h =>
               set [("host_id", VStr (h_UUID h))] ;#;
               match lun with
               | None => lfail (statusErrCode StatusBadRequest CodeLUNRequired "a lun is required..." [])
               | Some lun =>
                   if (lun <? 0) || (maxLUN <? lun)
                   then lfail (statusErrCode StatusBadRequest CodeInvalidInput "invalid lun %d (must be 0..%d)"
                                 [itoa lun; itoa maxLUN])
                   else
                     let# found := silently (of_res (connect_scan o h lun (db_Connections d))) in
                     if found : bool then let# c := silently get in lret (connInfo c o lun, false)
                     else
                       commit_op (connect (o_UUID o) (h_UUID h) lun) ;#;
                       let# c := silently get in
                       named (created_attr true) ;#;
                       lret (connInfo c o lun, true)
               end
           end
     end).

Definition Disconnect_op (kind objectRef hostRef : string)
    : Logged (option fence_warning * result aerr unit) :=
  with_op eventConnectionDelete
    [("object_name", VStr objectRef); ("object_kind", VStr kind); ("host_name", VStr hostRef)] [] beside
    (let# d := silently st in
     match resolveObject d kind objectRef with
     | None => lfail (notFound kind objectRef)
     | Some o =>
         match resolveHost d hostRef with
         | None => lfail (notFound "host" hostRef)
         | Some h =>
             if negb (any (λ cn, String.eqb (cn_ObjectUUID cn) (o_UUID o)
                                 && String.eqb (cn_HostUUID cn) (h_UUID h)) (db_Connections d))
             then lret (None, Ok tt)
             else
               healIfDegraded_op ;#;
               let# warning := silently (fenceLossWarning range mroot (o_UUID o) (h_UUID h)) in
               warn_fences (option_list warning) (o_Kind o) (o_Name o) (o_UUID o) ;#;
               let# r := ltry (commit_op (disconnect (o_UUID o) (h_UUID h))) in
               lret (warning, r)
         end
     end).

Definition SetPortals_op (ps : list Portal) : Logged (list Portal) :=
  with_op eventTargetPortals [("portals", VStr (portalsText ps))] [] no_err
    (let# c := silently get in
     if (length ps =? 0)%nat
     then lfail (statusErr StatusBadRequest "refusing to remove every portal..." [] [])
     else
       let next := mkAppConfig (ac_TargetIQN (c_cfg c)) "" ps "" false false in
       match AppConfig_Validate range next with
       | Err e => lfail (statusErr StatusBadRequest "%v" [] [e])
       | Ok _ =>
           let prev := db_Portals (c_st c) in
           set [("previous_portals", VStr (portalsText prev))] ;#;
           if samePortalSet prev ps then lret (portals (c_st c) (c_cfg c))
           else
             let# r := ltry (commit_op (replace_portals ps)) in
             let# c := silently get in
             match r with
             | Err e =>
                 if samePortalSet (db_Portals (c_st c)) prev
                 then lfail (statusErr StatusConflict "portal change rejected, portals unchanged (%s): %v"
                               [portalsText prev] [e])
                 else lfail (statusErr StatusConflict
                               "portals are now recorded as %s but the kernel did not accept them (%v)..."
                               [portalsText ps] [e])
             | Ok _ =>
                 silently (publish (λ h, ph_flags None (hl_iqnFlagIgnored h) h)) ;#;
                 lret (portals (c_st c) (c_cfg c))
             end
       end).

(** ** Clearing a reservation

    Neither [noteCommit] nor [noteReconcile] is called: the record of a clear
    never says durable or reconciled. *)

Definition recoverFromFailedPrune_op (out : ClearedReservation) (kind name uuid : string) (pruneErr : aerr)
    : Logged (ClearedReservation * option aerr) :=
  silently (modify (set_prClearing "")) ;#;
  let# r := ltry reconcile_op in
  match r with
  | Err e =>
      lret (addWarning (WNotPresented name) out,
            Some (statusErrWrap StatusConflict CodeFenceUnknown pruneErr
              "could not clear the reservation on %s %q (%v) AND could not restore its export afterwards (%v)..."
              [kind; name] [pruneErr; e]))
  | Ok _ =>
      let# f := silently (fenceStateOf range mroot pageSize uuid) in
      match fe_verdict f with
      | fenceDown =>
          lret (addWarning (WAlreadyReleased pruneErr name
                  (Z.of_nat (length (st_Registrations (fe_state f))))) out,
                Some (statusErrWrap StatusConflict CodeFenceDropped pruneErr
                  "the clear of %[1]s %[2]q failed (%[3]v) AFTER its reservation had already been released..."
                  [kind; name] [pruneErr]))
      | fenceUp =>
          lret (out, Some (statusErrWrap StatusConflict CodeClearUnverified pruneErr
                  "could not clear the reservation on %s %q (%v); it is still held by %q, so fencing is unchanged"
                  [kind; name; st_Holder (fe_state f)] [pruneErr]))
      | fenceUnknown =>
          lret (addWarning (WFenceUnknown name) out,
                Some (statusErrWrap StatusConflict CodeFenceUnknown pruneErr
                  "could not clear the reservation on %[1]s %[2]q (%[3]v) AND the fence state could not be established..."
                  [kind; name] (pruneErr :: match fe_err f with Some e => [e] | None => [] end)))
      end
  end.

Definition rebuild_op (out : ClearedReservation) (kind name uuid : string)
    : Logged (ClearedReservation * option aerr) :=
  silently (modify (set_prClearing "")) ;#;
  let# r := ltry reconcile_op in
  match r with
  | Err e =>
      let# f := silently (fenceStateOf range mroot pageSize uuid) in
      if decide (fe_verdict f = fenceUnknown)
      then lret (addWarning (WFenceUnestablished name) out,
                 Some (statusErrWrap StatusServiceUnavailable CodeFenceUnknown e
                   "the reservation on %[1]s %[2]q was cleared, but the %[1]s could NOT be presented again afterwards (%[3]v) and its fence state could not be read (%[4]v) -- see /health"
                   [kind; name] (e :: match fe_err f with Some e => [e] | None => [] end)))
      else lret (addWarning (WPartlyPresented name) out,
                 Some (statusErrWrap StatusServiceUnavailable CodeReconcileFailed e
                   "the reservation on %[1]s %[2]q was cleared, but the %[1]s could NOT be presented again afterwards (%[3]v) -- see /health"
                   [kind; name] [e]))
  | Ok _ =>
      let# v := silently (verifyCleared range mroot pageSize uuid kind name) in
      match v with
      | Err e => lret (out, Some e)
      | Ok _ =>
          set [("saved_record_discarded", VBool (cl_SavedRecordDiscarded out)); ("held", VBool (cl_Held out));
               ("held_known", VBool (cl_HeldKnown out)); ("holder", VStr (cl_Holder out))] ;#;
          lret (addWarning WDisappeared out, None)
      end
  end.

Definition clear_phases_op (out : ClearedReservation) (kind : string) (v : Object)
    : Logged (ClearedReservation * option aerr) :=
  silently (modify (set_prClearing (o_UUID v))) ;#;
  let# r := ltry reconcile_op in
  match r with
  | Err pruneErr => recoverFromFailedPrune_op out kind (o_Name v) (o_UUID v) pruneErr
  | Ok _ =>
      let# d := silently (discardSavedPRChecked (o_WWN v)) in
      let '(discarded, err) := d in
      let out := set_discarded discarded out in
      match err with
      | None =>
          silently (releaseHold (o_UUID v)) ;#;
          rebuild_op out kind (o_Name v) (o_UUID v)
      | Some e =>
          silently (holdBack (o_UUID v) (o_Name v)) ;#;
          let# c := silently get in
          lret (addWarning (WWithheld (o_Name v)) out,
                Some (statusErrWrap StatusConflict CodeFenceDropped e
                  "the reservation on %[1]s %[2]q was released, but its saved APTPL record could NOT be discarded (%[3]v)... Delete the FILE %[4]s (NOT the %[1]s) and re-run the clear"
                  [kind; o_Name v; APTPLPath (ac_DBRoot (c_cfg c)) (o_WWN v)] [e]))
      end
  end.

Definition ClearReservation_op (kind ref confirm : string) : Logged (ClearedReservation * option aerr) :=
  with_op eventPRCleared [("resource_kind", VStr kind); ("ref", VStr ref)] [] cleared_err
    (let# d := silently st in
     match resolveObject d kind ref with
     | None => lfail (notFound kind ref)
     | Some v =>
         if negb (String.eqb confirm (o_Name v))
         then lfail (statusErrCode StatusBadRequest CodeInvalidInput
                "clearing a reservation drops fencing and interrupts every initiator using %s %q, so it must be confirmed by name: expected confirm=%q, got %q"
                [kind; o_Name v; o_Name v; confirm])
         else if negb (String.eqb (o_State v) stateReady)
         then lfail (statusErrCode StatusConflict CodeUnsupportedState
                "%s %q is %s, so it has no backstore to clear" [kind; o_Name v; o_State v])
         else
           healIfDegraded_op ;#;
           let# r := silently (read_holder range mroot (o_UUID v)) in
           let out := describe_holder (o_Name v) r in
           set [("resource_name", VStr (o_Name v)); ("resource_id", VStr (o_UUID v)); ("wwn", VStr (o_WWN v))] ;#;
           emit [clearing_record kind v out] ;#;
           silently (setClearing (o_Name v)) ;#;
           let# res := clear_phases_op out kind v in
           silently (setClearing "") ;#;
           lret res
     end).

(** One request, as [perform]. *)
Definition perform_op (r : request) : Logged unit :=
  match r with
  | RCreate kind req => Create_op kind req ;#; lret tt
  | RRename kind ref new => Rename_op kind ref new ;#; lret tt
  | RDelete kind ref => Delete_op kind ref
  | RResize kind ref size => Resize_op kind ref size ;#; lret tt
  | RCreateHost name iqns => CreateHost_op name iqns ;#; lret tt
  | RRenameHost ref new => RenameHost_op ref new ;#; lret tt
  | RSetBindings ref replace add remove => SetBindings_op ref replace add remove ;#; lret tt
  | RDeleteHost ref => DeleteHost_op ref
  | RConnect kind o h lun => Connect_op kind o h lun ;#; lret tt
  | RDisconnect kind o h => Disconnect_op kind o h ;#; lret tt
  | RSetPortals ps => SetPortals_op ps ;#; lret tt
  | RClearReservation kind ref confirm => ClearReservation_op kind ref confirm ;#; lret tt
  | RRecheckPR => RecheckPR_op range mroot aptplRecords
  end.

(** ** Starting and re-initialising

    The persists of a start have no operation: [op] is nil there. *)

Definition decide_iqn_op (d : db) (cfg : AppConfig) (actual : string) : Logged string :=
  if negb (String.eqb (db_TargetIQN d) "") then
    (if negb (String.eqb (ac_TargetIQN cfg) "") && negb (String.eqb (ac_TargetIQN cfg) (db_TargetIQN d))
     then
       silently (publish (λ h, ph_flags (hl_portalFlagIgnored h) (Some (ac_TargetIQN cfg, db_TargetIQN d)) h)) ;#;
       emit [ignored_record (iqn_ignored_text (ac_TargetIQN cfg) (db_TargetIQN d)) "target_iqn"
               (ac_TargetIQN cfg) (db_TargetIQN d)]
     else lret tt) ;#;
    lret (db_TargetIQN d)
  else if negb (String.eqb (ac_TargetIQN cfg) "") then lret (ac_TargetIQN cfg)
  else
    let# live := silently (liveTargetIQN mroot) in
    if negb (String.eqb live "") then
      let# iqn := silently (liveTargetIQN mroot) in
      emit [mkRecord LevelNotice eventIdentityAdopted
              (VStr "adopting the target already live in the kernel as this appliance's recorded identity")
              [("target_iqn", VStr iqn); ("source", VStr "kernel")]] ;#;
      lret iqn
    else if negb (String.eqb actual "") then lret (DeriveTargetIQN actual)
    else lfail (AMsg "appliance: no target IQN was given and none can be derived..." [machineIDPath cfg]).

Definition adoptIdentity_op : Logged unit :=
  let# c := silently get in
  let# actual := silently (let! r := atry (readMachineID (machineIDPath (c_cfg c))) in
                           match r with Ok a => aret a | Err e => afail (AWrap "appliance: %w" [] e) end) in
  let recorded := db_MachineID (c_st c) in
  if negb (String.eqb recorded "") && negb (String.eqb actual "") && negb (String.eqb recorded actual)
  then lfail (AIdentityConflict recorded actual (c_dbPath c))
  else
    let# iqn := decide_iqn_op (c_st c) (c_cfg c) actual in
    if String.eqb (db_TargetIQN (c_st c)) iqn && String.eqb recorded actual
    then silently (modify (λ c, set_cfg (with_TargetIQN iqn (c_cfg c)) c))
    else
      silently (modify (λ c, set_st (with_Identity iqn actual (c_st c)) c)) ;#;
      silently (modify (λ c, set_cfg (with_TargetIQN iqn (c_cfg c)) c)) ;#;
      let# r := ltry persist_op in
      match r with
      | Ok _ =>
          if String.eqb actual "" then
            emit [mkRecord LevelWarn eventIdentityNoMachineID
                    (VStr "no machine ID, so a cloned copy of this database cannot be detected")
                    [("machine_id_path", VStr (machineIDPath (c_cfg c))); ("target_iqn", VStr iqn)]]
          else lret tt
      | Err e => lfail (AWrap "appliance: recording the target identity: %w" [] e)
      end.

Definition adoptPortals_op : Logged unit :=
  let# c := silently get in
  if (length (db_Portals (c_st c)) =? 0)%nat then
    silently (modify (λ c, set_st (with_Portals (ac_Portals (c_cfg c)) (c_st c)) c)) ;#;
    let# r := ltry persist_op in
    match r with
    | Ok _ => lret tt
    | Err e => lfail (AWrap "recording the initial portal list: %w" [] e)
    end
  else if negb (samePortalSet (db_Portals (c_st c)) (ac_Portals (c_cfg c)))
  then
    let flag := portalsText (ac_Portals (c_cfg c)) in
    let recorded := portalsText (db_Portals (c_st c)) in
    silently (publish (λ h, ph_flags (Some (flag, recorded)) (hl_iqnFlagIgnored h) h)) ;#;
    emit [ignored_record (portals_ignored_text flag recorded) "portals" flag recorded]
  else lret tt.

Fixpoint quarantine_unknown_op (root : string) (known dirs : list string) : Logged unit :=
  match dirs with
  | [] => lret tt
  | d :: dirs =>
      if any (String.eqb d) known then quarantine_unknown_op root known dirs
      else
        let# q := silently (in_files (Quarantine root d)) in
        silently (modify (λ c, set_quarantined (sort_strings (c_quarantined c ++ [q])) c)) ;#;
        emit [mkRecord LevelWarn eventStorageQuarantined
                (VStr "object directory has no record; set aside with its data intact")
                [("directory", VStr d); ("quarantined_as", VStr q)]] ;#;
        quarantine_unknown_op root known dirs
  end.
Fixpoint mark_missing_op (root : string) (objs : list Object) : Logged (list Object) :=
  match objs with
  | [] => lret []
  | o :: objs =>
      let# ok := silently (in_files (Store_Exists root (o_UUID o))) in
      emit (if ok : bool then [] else [missing_record o]) ;#;
      let# rest := mark_missing_op root objs in
      lret ((if ok then o else set_State stateMissing o) :: rest)
  end.
Definition adoptStorage_op (dbExisted : bool) : Logged unit :=
  let# c := silently get in
  let# dirs := silently (in_files (ObjectDirs (c_root c))) in
  if negb dbExisted && (0 <? length dirs)%nat then
    silently (atry (in_files (latestBackup (c_dbPath c)))) ;#;
    lfail (AMsg "appliance: %s is missing but %d object director(ies) are present in %s; refusing to start..."
             [c_dbPath c; itoa (Z.of_nat (length dirs)); c_root c])
  else
    quarantine_unknown_op (c_root c) (o_UUID <$> db_Objects (c_st c)) dirs ;#;
    let# objs := mark_missing_op (c_root c) (db_Objects (c_st c)) in
    silently (modify (λ c, set_st (with_Objects objs (c_st c)) c)).

Definition logOrphanPRState : Logged unit :=
  let# c := silently get in
  let root := ac_DBRoot (c_cfg c) in
  if String.eqb root "" then lret tt
  else
    let# r := silently (atry (in_kernel (OrphanPRState root (o_WWN <$> db_Objects (c_st c))))) in
    match r with
    | Err e => emit [mkRecord LevelWarn eventPROrphanCheckFailed (VStr "cannot check for orphaned SCSI-3 PR state")
                       [("error", VErr e)]]
    | Ok [] => lret tt
    | Ok orphans =>
        emit [mkRecord LevelNotice eventPROrphans
                (VStr "saved SCSI-3 PR reservation files belong to no existing volume. They are inert (only read back for a backstore with the same WWN) and are NOT removed automatically, because a volume can be absent temporarily (a partially restored db, a backstore not yet replayed) and reaping would destroy live fencing state. Run `applianced inspect` for the list, and remove them if the volumes are really gone.")
                [("orphan_count", VInt (Z.of_nat (length orphans))); ("db_root", VStr root)]]
    end.

Definition Open_op (root : string) (quarantined : list string) (cfg : AppConfig) : Logged unit :=
  silently (of_res (AppConfig_Validate range cfg)) ;#;
  silently (modify (λ _, new_coord root cfg quarantined)) ;#;
  let# existed := silently (load range unmarshal) in
  adoptStorage_op existed ;#;
  adoptIdentity_op ;#;
  adoptPortals_op ;#;
  let# rep := reconcile_op in
  emit [replay_record rep] ;#;
  logOrphanPRState.

Definition Reinit_op (root targetIQN machineIDPath : string) (wipe : bool) : Logged unit :=
  if String.eqb root "" then lfail (AMsg "appliance: reinit needs a data root (-root)" [])
  else if negb (String.eqb targetIQN "") && negb (ValidTargetIQN targetIQN)
  then lfail (AMsg "appliance: target IQN %q is not usable (-iqn)" [targetIQN])
  else
    let path := if String.eqb machineIDPath "" then DefaultMachineIDPath else machineIDPath in
    let# machineID := silently (let! r := atry (readMachineID path) in
                                match r with Ok a => aret a | Err e => afail (AWrap "appliance: %w" [] e) end) in
    let# iqn := silently (if String.eqb targetIQN "" then
                            (if String.eqb machineID ""
                             then afail (AMsg "appliance: no target IQN was given and none can be derived: %s..." [path])
                             else aret (DeriveTargetIQN machineID))
                          else aret targetIQN) in
    let# quarantined := silently (in_files (Store_Open root)) in
    silently (modify (λ _, new_coord root (mkAppConfig "" "" [] "" false false) quarantined)) ;#;
    silently (load range unmarshal) ;#;
    with_op eventTargetReinit [("root", VStr root); ("wipe", VBool wipe)] [] no_err
      (silently (if wipe then wipeObjects else remintWWNs) ;#;
       silently (modify (λ c, set_st (with_Identity iqn machineID (with_Portals [] (c_st c))) c)) ;#;
       let# r := ltry persist_op in
       match r with
       | Ok _ => lret tt
       | Err e =>
           if is_not_durable e then lret tt
           else lfail (AWrap "appliance: writing the re-initialised database: %w" [] e)
       end).

(** ** Logging changes nothing *)

Notation erased m m0 := (erases (λ x, x) m m0).

Lemma erases_unit {A} (m : Logged A) m0 : erased m m0 → erased (m ;#; lret tt) (m0 ;!; aret tt).
Proof. intros Hm. eapply erases_bind; [exact Hm|]. by intros a. Qed.
Lemma erases_discardSavedPR wwn : erased (discardSavedPR_op wwn) (discardSavedPR (K := K) (F := F) wwn).
Proof.
  unfold discardSavedPR_op, discardSavedPR. erasing_step. case_match; [by erasing|].
  intros w l. unfold lbind, abind, silently, atry. destruct (in_kernel _ w) as [[[]|e|] w1]; cbn; [done | | done].
  by destruct (file_gone e).
Qed.
Lemma logs_warn_fences ws kind name uuid : logs (K := K) (F := F) (warn_fences ws kind name uuid).
Proof. unfold warn_fences. case_match; [|done]. apply logs_bind; [done|]. by intros. Qed.
Hint Resolve erases_persist erases_healIfDegraded erases_persistOnly erases_commit erases_reconcile erases_discardSavedPR : erases.

Lemma erases_Create kind req : erased (Create_op kind req) (Create marshal kind req).
Proof. unfold Create_op, Create. apply erases_with_op. erasing. Qed.
Lemma erases_Rename kind ref new : erased (Rename_op kind ref new) (Rename marshal kind ref new).
Proof. unfold Rename_op, Rename. apply erases_with_op. erasing. Qed.
Lemma erases_Delete kind ref : erased (Delete_op kind ref) (Delete range mroot aptplRecords marshal kind ref).
Proof. unfold Delete_op, Delete. apply erases_with_op. erasing. Qed.
Lemma erases_Resize kind ref size :
  erased (Resize_op kind ref size) (Resize range mroot aptplRecords marshal kind ref size).
Proof.
  unfold Resize_op, Resize. apply erases_with_op. erasing. apply erases_reconcile_noted.
Qed.
Lemma erases_CreateHost name iqns :
  erased (CreateHost_op name iqns) (CreateHost range mroot aptplRecords marshal name iqns).
Proof. unfold CreateHost_op, CreateHost. apply erases_with_op. erasing. Qed.
Lemma erases_RenameHost ref new : erased (RenameHost_op ref new) (RenameHost marshal ref new).
Proof. unfold RenameHost_op, RenameHost. apply erases_with_op. erasing. Qed.
Lemma erases_SetBindings ref replace add remove :
  erased (SetBindings_op ref replace add remove) (SetBindings range mroot aptplRecords marshal ref replace add remove).
Proof.
  unfold SetBindings_op, SetBindings. apply erases_with_op. erasing. apply erases_logs; [apply logs_warn_fences|]. erasing.
Qed.
Lemma erases_DeleteHost ref : erased (DeleteHost_op ref) (DeleteHost range mroot aptplRecords marshal ref).
Proof. unfold DeleteHost_op, DeleteHost. apply erases_with_op. erasing. Qed.
Lemma erases_Connect kind o h lun :
  erased (Connect_op kind o h lun) (Connect range mroot aptplRecords marshal kind o h lun).
Proof. unfold Connect_op, Connect. apply erases_with_op. erasing. Qed.
Lemma erases_Disconnect kind o h :
  erased (Disconnect_op kind o h) (Disconnect range mroot aptplRecords marshal kind o h).
Proof.
  unfold Disconnect_op, Disconnect. apply erases_with_op. erasing. apply erases_logs; [apply logs_warn_fences|]. erasing.
Qed.
Lemma erases_SetPortals ps : erased (SetPortals_op ps) (SetPortals range mroot aptplRecords marshal ps).
Proof. unfold SetPortals_op, SetPortals. apply erases_with_op. erasing. Qed.
Lemma erases_recoverFromFailedPrune out kind name uuid err :
  erased (recoverFromFailedPrune_op out kind name uuid err)
    (recoverFromFailedPrune range mroot aptplRecords pageSize out kind name uuid err).
Proof. unfold recoverFromFailedPrune_op, recoverFromFailedPrune. erasing. Qed.
Lemma erases_rebuild out kind name uuid :
  erased (rebuild_op out kind name uuid) (rebuild range mroot aptplRecords pageSize out kind name uuid).
Proof. unfold rebuild_op, rebuild. erasing. Qed.
Hint Resolve erases_recoverFromFailedPrune erases_rebuild : erases.
Lemma erases_clear_phases out kind v :
  erased (clear_phases_op out kind v) (clear_phases range mroot aptplRecords pageSize out kind v).
Proof. unfold clear_phases_op, clear_phases. erasing. Qed.
Hint Resolve erases_clear_phases : erases.
Lemma erases_ClearReservation kind ref confirm :
  erased (ClearReservation_op kind ref confirm) (ClearReservation range mroot aptplRecords pageSize kind ref confirm).
Proof. unfold ClearReservation_op, ClearReservation. apply erases_with_op. erasing. Qed.
Hint Resolve erases_Create erases_Rename erases_Delete erases_Resize erases_CreateHost erases_RenameHost
  erases_SetBindings erases_DeleteHost erases_Connect erases_Disconnect erases_SetPortals erases_ClearReservation
  erases_RecheckPR : erases.

Lemma erases_perform r : erased (perform_op r) (perform range mroot aptplRecords pageSize marshal r).
Proof. destruct r; cbn [perform_op perform]; try apply erases_unit; auto with erases. Qed.

Lemma erases_then_emit (m : App K F unit) rs : erased (silently m ;#; emit rs) m.
Proof. apply erases_bind_last; [apply erases_silently | by eexists]. Qed.
Hint Resolve erases_then_emit : erases.
Lemma erases_decide_iqn d cfg actual : erased (decide_iqn_op d cfg actual) (decide_iqn mroot d cfg actual).
Proof.
  unfold decide_iqn_op, decide_iqn. erasing.
  - eapply (erases_bind (λ x, x)); [|done]. case_match; [apply erases_then_emit | done].
  - intros w l. unfold lbind, silently. by destruct (liveTargetIQN mroot w) as [[] ?].
Qed.
Lemma erases_quarantine_unknown root known dirs :
  erased (quarantine_unknown_op root known dirs) (quarantine_unknown (K := K) root known dirs).
Proof. induction dirs; cbn [quarantine_unknown_op quarantine_unknown]; erasing. Qed.
Lemma erases_mark_missing root objs :
  erased (mark_missing_op root objs) (mark_missing (K := K) root objs).
Proof. induction objs; cbn [mark_missing_op mark_missing]; erasing. Qed.
Hint Resolve erases_decide_iqn erases_quarantine_unknown erases_mark_missing : erases.
Lemma erases_adoptIdentity : erased adoptIdentity_op (adoptIdentity mroot marshal).
Proof. unfold adoptIdentity_op, adoptIdentity. erasing. Qed.
Lemma erases_adoptPortals : erased adoptPortals_op (adoptPortals (K := K) marshal).
Proof. unfold adoptPortals_op, adoptPortals. erasing. Qed.
Lemma erases_adoptStorage b : erased (adoptStorage_op b) (adoptStorage (K := K) b).
Proof. unfold adoptStorage_op, adoptStorage. erasing. Qed.
Hint Resolve erases_adoptIdentity erases_adoptPortals erases_adoptStorage : erases.
Lemma erases_Open root quarantined cfg :
  erased (Open_op root quarantined cfg)
    (Open range mroot aptplRecords marshal unmarshal root quarantined cfg).
Proof.
  unfold Open_op, Open. do 6 erasing_step. eapply erases_bind; [apply erases_reconcile|]. intros rep. erasing_step.
  unfold logOrphanPRState. erasing_step. case_match; [by erasing|]. erasing_step.
  match goal with |- erases _ (match ?x with _ => _ end) _ => destruct x as [[|]|] end; by erasing.
Qed.
Lemma erases_Reinit root iqn path wipe :
  erased (Reinit_op root iqn path wipe) (Reinit (K := K) range marshal unmarshal root iqn path wipe).
Proof. unfold Reinit_op, Reinit. erasing. apply erases_with_op. erasing. Qed.
End Requests.
