(* ===== verification/AppLogEdges.v ===== *)
(** * appliance: the edges of the standing conditions

    The log says when a reconcile begins to fail and when it recovers, when
    backups stop being kept and when they are kept again; [edges] reads such
    records back. [faithful] is the rule of a logged computation that tells
    both conditions truly, within the operation under way; [tells] that of a
    whole one. *)

From S2P Require Import Prelude GoStrings Errors Netip LioModel Configfs FsPaths LioAptpl LioApply LioSync.
From S2P Require Import LioDelta LioStranded AppModel AppDb AppWf AppPortals AppTranslate AppAptpl Storage.
From S2P Require Import AppCoordinator AppObjects AppHosts AppIdentity AppClear AppEvents AppRun AppSteady.
From S2P Require Import AppReach AppDisk AppOpLog AppLogged.

(** ** Edges

    A condition that begins with a record [up] and ends with a record [down]:
    from whether it stands before, what the records make of it; [None] when a
    record repeats what the one before it said. *)

Definition edge (up down : string) (b : bool) (r : record) : option bool :=
  if String.eqb (r_event r) up then (if b then None else Some true)
  else if String.eqb (r_event r) down then (if b then Some false else None)
  else Some b.
Definition edges (up down : string) (b : bool) (rs : list record) : option bool :=
  foldl (λ ob r, ob ≫= λ b, edge up down b r) (Some b) rs.
Notation reconcile_edges := (edges eventReconcileFailed eventReconcileRecovered).
Notation backup_edges := (edges eventBackupFailed eventBackupRecovered).
(** A record of neither condition. *)
Definition neutral_event (e : string) : bool :=
  negb (any (String.eqb e) [eventReconcileFailed; eventReconcileRecovered; eventBackupFailed; eventBackupRecovered]).
Definition neutral (rs : list record) : Prop := Forall (λ r, neutral_event (r_event r) = true) rs.

Lemma edges_None up down rs : foldl (λ ob r, ob ≫= λ b, edge up down b r) None rs = None.
Proof. by induction rs. Qed.
Lemma edges_app up down b rs rs' : edges up down b (rs ++ rs') = edges up down b rs ≫= λ b, edges up down b rs'.
Proof.
  unfold edges. rewrite foldl_app. destruct (foldl _ (Some b) rs); [done|]. apply edges_None.
Qed.
Lemma neutral_edges b rs : neutral rs → reconcile_edges b rs = Some b ∧ backup_edges b rs = Some b.
Proof.
  induction 1 as [|r rs Hr _ IH]; [done|]. apply negb_true_iff in Hr. rewrite any_false in Hr.
  assert (He : edge eventReconcileFailed eventReconcileRecovered b r = Some b ∧
               edge eventBackupFailed eventBackupRecovered b r = Some b).
  { unfold edge. by rewrite !Hr by set_solver +. }
  destruct He as [He1 He2]. unfold edges in *. cbn [foldl mbind option_bind]. by rewrite He1, He2.
Qed.
Lemma newly_neutral {A B} `{EqDecision B} lvl event msg (text : A → B) v was now :
  neutral_event event = true → neutral (newly lvl event msg text v was now).
Proof. intros He. apply Forall_fmap, Forall_forall. by intros x _. Qed.

Section edges.
Context {K F : Type} `{Kernel K} `{Files F}.
Context (range : ∀ A, list A → list A) (mroot : string).
Context (aptplRecords : option (Backstore → ST K (list string))) (pageSize : Z).
Context (marshal : db → string) (unmarshal : string → option Loaded).
Notation App := (App K F).
Notation Logged := (Logged K F).
Notation world := (world K F).

Definition broken (w : world) : bool := present (c_lastReconcileErr (w_c w)).
Definition unbacked (w : world) : bool := present (hl_backupErr (c_health (w_c w))).

(** The records emitted tell both conditions, and the operation under way is
    the same one. *)
Record faithful_from (w : world) (l : logst) (w' : world) (l' : logst) (new : list record) : Prop := mkFaithful {
  fa_out : lg_out l' = lg_out l ++ new;
  fa_broken : reconcile_edges (broken w) new = Some (broken w');
  fa_unbacked : backup_edges (unbacked w) new = Some (unbacked w');
  fa_event : op_event <$> lg_op l' = op_event <$> lg_op l }.
Definition faithful_at {A} (w : world) (l : logst) (r : outcome A * world * logst) : Prop :=
  ∃ new, faithful_from w l r.1.2 r.2 new.
Definition faithful {A} (m : Logged A) : Prop := ∀ w l, faithful_at w l (m w l).

Lemma faithful_trans {A} w1 l1 w2 l2 new (r : outcome A * world * logst) :
  faithful_from w1 l1 w2 l2 new → faithful_at w2 l2 r → faithful_at w1 l1 r.
Proof.
  intros [Ho Hb Hu He] (new' & [Ho' Hb' Hu' He']). exists (new ++ new'). constructor.
  - by rewrite Ho', Ho, <- (assoc_L (++)).
  - by rewrite edges_app, Hb.
  - by rewrite edges_app, Hu.
  - congruence.
Qed.
Lemma faithful_silent {A} (o : outcome A) (w w' : world) l :
  broken w' = broken w → unbacked w' = unbacked w → faithful_at w l (o, w', l).
Proof. intros Hb Hu. exists []. constructor; cbn [fst snd]; [by rewrite app_nil_r | by rewrite Hb | by rewrite Hu | done]. Qed.
Lemma faithful_bind {A B} (m : Logged A) (k : A → Logged B) : faithful m → (∀ a, faithful (k a)) → faithful (lbind m k).
Proof.
  intros Hm Hk w l. destruct (Hm w l) as [new Hn]. unfold lbind. destruct (m w l) as [[[a|e|] w1] l1];
    [eapply faithful_trans; [exact Hn | apply Hk] | by exists new..].
Qed.
Lemma faithful_try {A} (m : Logged A) : faithful m → faithful (ltry m).
Proof. intros Hm w l. destruct (Hm w l) as [new Hn]. unfold ltry. destruct (m w l) as [[[a|e|] w1] l1]; by exists new. Qed.
Lemma faithful_emit rs : neutral rs → faithful (emit rs).
Proof.
  intros Hrs w l. exists rs. constructor; cbn; [done | by apply neutral_edges.. | done].
Qed.
Lemma faithful_on_op f : (∀ o, op_event (f o) = op_event o) → faithful (on_op f).
Proof.
  intros Hf w l. exists []. constructor; cbn; [by rewrite app_nil_r | done..|]. destruct (lg_op l) as [o|]; [|done].
  cbn. by rewrite Hf.
Qed.
Lemma faithful_named a : faithful (named a).
Proof. intros w l. exists []. constructor; cbn; [by rewrite app_nil_r | done..]. Qed.
Lemma faithful_noteHealth : faithful noteHealth_op.
Proof.
  intros w l. unfold noteHealth_op. destruct (noteHealth _ _) as [t n]. eexists. constructor; cbn; [done| | |done];
    (apply neutral_edges; destruct t; by repeat constructor).
Qed.

(** Of a whole computation, whose operations are its own. *)
Definition tells {A} (m : Logged A) : Prop := ∀ w l, ∃ new,
  lg_out (m w l).2 = lg_out l ++ new ∧ reconcile_edges (broken w) new = Some (broken (m w l).1.2) ∧
  backup_edges (unbacked w) new = Some (unbacked (m w l).1.2).
Lemma faithful_tells {A} (m : Logged A) : faithful m → tells m.
Proof. intros Hm w l. destruct (Hm w l) as (new & []). by exists new. Qed.
Lemma tells_bind {A B} (m : Logged A) (k : A → Logged B) : tells m → (∀ a, tells (k a)) → tells (lbind m k).
Proof.
  intros Hm Hk w l. destruct (Hm w l) as (new & Ho & Hb & Hu). unfold lbind.
  destruct (m w l) as [[[a|e|] w1] l1]; cbn [fst snd] in *; [|by exists new..].
  destruct (Hk a w1 l1) as (new' & Ho' & Hb' & Hu'). exists (new ++ new').
  by rewrite Ho', Ho, <- (assoc_L (++)), !edges_app, Hb, Hu.
Qed.
Lemma tells_with_op {A} event a n f (body : Logged A) : neutral_event event = true → faithful body →
  tells (with_op event a n f body).
Proof.
  intros He Hb w l. unfold with_op.
  destruct (Hb w (mkLogst (Some (beginOp event a)) n (lg_noted l) (lg_out l))) as (new & [Ho Hbr Hu Hev]).
  destruct (body w _) as [[o w'] l']. cbn [fst snd lg_op lg_out] in *.
  set (err := match o with Done _ => _ | _ => _ end). clearbody err.
  destruct (lg_op l') as [op|]; [|done]. injection Hev as Hev.
  assert (Hn : neutral [finish (opLog_set (lg_named l') op) err]).
  { constructor; [|done]. unfold finish. destruct (outcome_level _ _). cbn. by rewrite Hev. }
  exists (new ++ [finish (opLog_set (lg_named l') op) err]). rewrite Ho, <- (assoc_L (++)), !edges_app, Hbr, Hu.
  split; [done|]. split; by apply neutral_edges.
Qed.

(** ** Steps that change neither condition *)

Definition calm {A} (m : App A) : Prop :=
  ∀ w, broken (m w).2 = broken w ∧ unbacked (m w).2 = unbacked w.
Lemma faithful_silently {A} (m : App A) : calm m → faithful (silently m).
Proof. intros Hm w l. destruct (Hm w). unfold silently. destruct (m w). by apply faithful_silent. Qed.
Lemma calm_bind {A B} (m : App A) (g : A → App B) : calm m → (∀ a, calm (g a)) → calm (abind m g).
Proof.
  intros Hm Hg w. destruct (Hm w) as [Hb Hu]. unfold abind. destruct (m w) as [[a|e|] w1]; [|done..].
  destruct (Hg a w1) as [Hb' Hu']. cbn in *. split; congruence.
Qed.
Lemma calm_try {A} (m : App A) : calm m → calm (atry m).
Proof. intros Hm w. specialize (Hm w). unfold atry. by destruct (m w) as [[] ?]. Qed.
Lemma calm_kernel {A} (m : ST K A) : calm (in_kernel m).
Proof. intros w. unfold in_kernel. by destruct (m (w_k w)) as [[] ?]. Qed.
Lemma calm_files {A} (m : ST F A) : calm (in_files m).
Proof. intros w. unfold in_files. by destruct (m (w_f w)) as [[] ?]. Qed.
Lemma calm_lio {A} (m : K → A * K) : calm (lio_call m).
Proof. intros w. unfold lio_call. by destruct (m (w_k w)). Qed.
Lemma calm_of_res {A} (r : result aerr A) : calm (of_res r).
Proof. intros w. by destruct r. Qed.

Create HintDb calm.
Ltac calm :=
  repeat (intros; lazymatch goal with
  | |- calm (abind _ _) => apply calm_bind
  | |- calm (match ?x with _ => _ end) => destruct x
  | |- calm (atry _) => apply calm_try
  | |- calm (in_kernel _) => apply calm_kernel
  | |- calm (in_files _) => apply calm_files
  | |- calm (lio_call _) => apply calm_lio
  | |- calm (of_res _) => apply calm_of_res
  | |- calm (aret _) => done
  | |- calm (afail _) => done
  | |- calm get => done
  | |- calm st => done
  | |- calm (modify _) => done
  | |- calm (publish _) => done
  | |- calm (set_state _) => done
  | |- calm (restoreState _) => done
  | |- calm (λ w, (Panic, w)) => done
  | |- calm _ => solve [eauto with calm]
  end).
Lemma calm_desired : calm (desired range).
Proof. unfold desired. calm. Qed.
Lemma calm_releaseHold v : calm (releaseHold v).
Proof. unfold releaseHold. calm. Qed.
Lemma calm_holdBack v n : calm (holdBack v n).
Proof. unfold holdBack. calm. Qed.
Lemma calm_newIdentity : calm newIdentity.
Proof. unfold newIdentity, random16. calm. Qed.
Lemma calm_newHostUUID : calm newHostUUID.
Proof. unfold newHostUUID, random16. calm. Qed.
Lemma calm_allocate root v source size : calm (allocate root v source size).
Proof. unfold allocate. calm. Qed.
Lemma calm_backstoreOf v : calm (backstoreOf range v).
Proof. unfold backstoreOf, desired. calm. Qed.
Hint Resolve calm_desired calm_releaseHold calm_holdBack calm_newIdentity calm_newHostUUID calm_allocate
  calm_backstoreOf : calm.
Lemma calm_fenceLossWarningFor v losing host action : calm (fenceLossWarningFor range mroot v losing host action).
Proof. unfold fenceLossWarningFor. calm. Qed.
Hint Resolve calm_fenceLossWarningFor : calm.
Lemma calm_collect losing h l : calm (collect_warnings range mroot losing h l).
Proof. induction l; cbn [collect_warnings]; calm. Qed.
Lemma calm_fenceStateOf v : calm (fenceStateOf range mroot pageSize v).
Proof. unfold fenceStateOf. calm. Qed.
Hint Resolve calm_collect calm_fenceStateOf : calm.

(** ** The shared steps *)

Create HintDb faithful.
Hint Resolve faithful_noteHealth faithful_named : faithful.
Ltac faithful :=
  repeat (intros; cbv zeta; lazymatch goal with
  | |- faithful (lbind _ _) => apply faithful_bind
  | |- faithful (ltry _) => apply faithful_try
  | |- faithful (lret _) => apply faithful_silently; done
  | |- faithful (lfail _) => apply faithful_silently; done
  | |- faithful (set _) => by apply faithful_on_op
  | |- faithful (noteReconcile _) => by apply faithful_on_op
  | |- faithful (noteCommit _ _) => by apply faithful_on_op
  | |- faithful (named _) => apply faithful_named
  | |- faithful (emit _) => apply faithful_emit; solve [by repeat constructor | by case_match; repeat constructor]
  | |- faithful (match ?x with _ => _ end) => destruct x
  | |- faithful (silently _) => apply faithful_silently; solve [calm | unfold fenceLossWarning, setClearing, verifyCleared, read_holder, discardSavedPRChecked, confirm_gone; calm]
  | |- faithful _ => solve [eauto with faithful]
  end).

(** A step on the files alone, from a known coordinator. *)
Lemma faithful_at_files {A B} (m : ST F A) (k : A → Logged B) w l :
  (∀ a f, faithful_at (mkWorld (w_c w) (w_k w) f) l (k a (mkWorld (w_c w) (w_k w) f) l)) →
  faithful_at w l (lbind (silently (in_files m)) k w l).
Proof.
  intros Hk. unfold lbind, silently, in_files. destruct (m (w_f w)) as [[a|e] f]; [|by apply faithful_silent].
  destruct (Hk a f) as [new []]. by exists new.
Qed.
Lemma faithful_at_try_files {A B} (m : ST F A) (k : result aerr A → Logged B) w l :
  (∀ a f, faithful_at (mkWorld (w_c w) (w_k w) f) l (k a (mkWorld (w_c w) (w_k w) f) l)) →
  faithful_at w l (lbind (silently (atry (in_files m))) k w l).
Proof.
  intros Hk. unfold lbind, silently, atry, in_files. destruct (m (w_f w)) as [[a|e] f].
  - destruct (Hk (Ok a) f) as [new []]. by exists new.
  - destruct (Hk (Err (ALio e)) f) as [new []]. by exists new.
Qed.
Lemma faithful_persist : faithful (persist_op marshal).
Proof.
  intros w l. unfold persist_op. unfold lbind at 1, silently at 1. cbn [get].
  destruct (String.eqb _ _); [by apply faithful_silent|].
  apply faithful_at_try_files. intros rb f. cbv zeta. set (now := match rb with Err (ALio e) => Some e | _ => None end).
  apply faithful_at_files. intros _ f2. apply faithful_at_files. intros _ f3. cbn [w_c w_k].
  set (w3 := mkWorld _ _ f3).
  eapply (faithful_trans w3 l (mkWorld (set_health (ph_backup now (c_health (w_c w))) (w_c w)) (w_k w) f3)
    (mkLogst (lg_op l) (lg_named l) (lg_noted l) (lg_out l ++ backup_edge (hl_backupErr (c_health (w_c w))) now))).
  - constructor; cbn [lg_out lg_op]; [done| | |done]; unfold broken, unbacked, backup_edge; cbn;
      by destruct now, (hl_backupErr (c_health (w_c w))).
  - change (faithful_at (mkWorld (set_health (ph_backup now (c_health (w_c w))) (w_c w)) (w_k w) f3)
      (mkLogst (lg_op l) (lg_named l) (lg_noted l) (lg_out l ++ backup_edge (hl_backupErr (c_health (w_c w))) now))
      ((noteCommit true false ;#;
        let# r := silently (atry (in_files (syncDir (Dir (c_dbPath (w_c w)))))) in
        match r with
        | Err e => emit [not_durable_record e] ;#; lfail (AWrap "%w: %v" [] APersistedNotDurable)
        | Ok _ => noteCommit true true
        end) (mkWorld (set_health (ph_backup now (c_health (w_c w))) (w_c w)) (w_k w) f3)
        (mkLogst (lg_op l) (lg_named l) (lg_noted l) (lg_out l ++ backup_edge (hl_backupErr (c_health (w_c w))) now)))).
    match goal with |- faithful_at _ _ (?m _ _) => assert (faithful m) as Hf; [faithful | apply Hf] end.
Qed.
Hint Resolve faithful_persist : faithful.

(** The verdict set, its edge logged last; [between] is what comes between. *)
Lemma faithful_verdict (v : option goerr) (kind : string) (rep : Report) (w w' : world) l l' mid :
  lg_out l' = lg_out l ++ mid → neutral mid → lg_op l' = lg_op l →
  c_lastReconcileErr (w_c w') = v → hl_backupErr (c_health (w_c w')) = hl_backupErr (c_health (w_c w)) →
  faithful_at w l (emit (K := K) (F := F) (reconcile_edge (c_lastReconcileErr (w_c w)) v kind rep) w' l').
Proof.
  intros Ho Hm Hop Hv Hu. exists (mid ++ reconcile_edge (c_lastReconcileErr (w_c w)) v kind rep).
  destruct (neutral_edges (broken w) mid Hm) as [Hb _]. destruct (neutral_edges (unbacked w) mid Hm) as [_ Hub].
  constructor; cbn [emit on_log fst snd lg_out lg_op].
  - by rewrite Ho, <- (assoc_L (++)).
  - rewrite edges_app, Hb. cbn [mbind option_bind]. unfold broken. rewrite Hv.
    by destruct v, (c_lastReconcileErr (w_c w)).
  - rewrite edges_app, Hub. cbn [mbind option_bind]. unfold unbacked. rewrite Hu.
    by destruct v, (c_lastReconcileErr (w_c w)).
  - by rewrite Hop.
Qed.
Lemma faithful_setReconcileErr err kind rep : faithful (setReconcileErr_op err kind rep).
Proof.
  intros w l. unfold setReconcileErr_op, lbind, silently, noteHealth_op. cbn [get modify publish w_c w_k w_f].
  destruct (noteHealth _ _) as [t n]. eapply faithful_verdict; [reflexivity | | done..].
  destruct t; by repeat constructor.
Qed.
Lemma neutral_app l1 l2 : neutral l1 → neutral l2 → neutral (l1 ++ l2).
Proof. apply Forall_app_2. Qed.
Lemma faithful_setReconcileOK kind rep unbound s drift : faithful (setReconcileOK_op kind rep unbound s drift).
Proof.
  intros w l. unfold setReconcileOK_op, lbind, silently, noteHealth_op. cbn [get modify publish emit on_log w_c w_k w_f].
  destruct (noteHealth _ _) as [t n]. eapply faithful_verdict.
  - cbn [lg_out]. rewrite <- !(assoc_L (++)). reflexivity.
  - repeat apply neutral_app; try (by apply newly_neutral). destruct t; by repeat constructor.
  - done.
  - done.
  - done.
Qed.
Hint Resolve faithful_setReconcileErr faithful_setReconcileOK : faithful.
Lemma faithful_reconcileFull dcfg : faithful (reconcileFull_op mroot aptplRecords dcfg).
Proof. unfold reconcileFull_op. faithful. Qed.
Hint Resolve faithful_reconcileFull : faithful.
Lemma faithful_reconcile : faithful (reconcile_op range mroot aptplRecords).
Proof. unfold reconcile_op. faithful. Qed.
Hint Resolve faithful_reconcile : faithful.
Lemma faithful_heal : faithful (healIfDegraded_op range mroot aptplRecords).
Proof. unfold healIfDegraded_op. faithful. Qed.
Lemma faithful_persistOnly mutate : faithful (persistOnly_op marshal mutate).
Proof. unfold persistOnly_op. faithful. Qed.
Hint Resolve faithful_heal faithful_persistOnly : faithful.
Lemma faithful_commit mutate : faithful (commit_op range mroot aptplRecords marshal mutate).
Proof. unfold commit_op, store_op. faithful. Qed.
Hint Resolve faithful_commit : faithful.
Lemma faithful_records (h : published) unbound stranded undecided drift :
  neutral (unbound_records h unbound) ∧ neutral (stranded_records h stranded undecided) ∧ neutral (drift_records h drift).
Proof. split_and!; [|apply neutral_app|]; by apply newly_neutral. Qed.
Lemma faithful_RecheckPR : faithful (RecheckPR_op range mroot aptplRecords).
Proof.
  unfold RecheckPR_op. do 4 (apply faithful_bind; [faithful|]; intros ?).
  do 2 (apply faithful_bind; [apply faithful_emit, faithful_records; exact []|]; intros ?). faithful.
Qed.
Lemma faithful_warn_fences ws kind name v : faithful (warn_fences ws kind name v).
Proof. unfold warn_fences. faithful. Qed.
Lemma faithful_discardSavedPR wwn : faithful (discardSavedPR_op wwn).
Proof. unfold discardSavedPR_op. faithful. Qed.
Hint Resolve faithful_RecheckPR faithful_warn_fences faithful_discardSavedPR : faithful.
Lemma faithful_clear_phases out kind v : faithful (clear_phases_op range mroot aptplRecords pageSize out kind v).
Proof. unfold clear_phases_op, recoverFromFailedPrune_op, rebuild_op. faithful. Qed.
Hint Resolve faithful_clear_phases : faithful.

(** ** The requests *)

Lemma drop_str_app s t : drop_str (String.length s) (s +:+ t) = t.
Proof. by induction s. Qed.
Lemma HasSuffix_app s t : HasSuffix (s +:+ t) t = true.
Proof.
  unfold HasSuffix. rewrite length_app_str. apply andb_true_iff. split; [apply Nat.leb_le; lia|].
  replace (String.length s + String.length t - String.length t)%nat with (String.length s) by lia.
  rewrite drop_str_app. apply String.eqb_refl.
Qed.
Lemma objectEvent_neutral kind verb :
  any (λ e, HasSuffix e ("." +:+ verb))
    [eventReconcileFailed; eventReconcileRecovered; eventBackupFailed; eventBackupRecovered] = false →
  neutral_event (objectEvent kind verb) = true.
Proof.
  rewrite any_false. intros He. apply negb_true_iff, any_false. intros e Hin. apply String.eqb_neq. intros Heq.
  specialize (He e Hin). rewrite <- Heq in He. unfold objectEvent in He. by rewrite HasSuffix_app in He.
Qed.
Lemma tells_lret {A} (a : A) : tells (lret a).
Proof. by apply faithful_tells, faithful_silently. Qed.
Lemma tells_perform r : tells (perform_op range mroot aptplRecords pageSize marshal r).
Proof.
  destruct r; cbn [perform_op];
    try (apply tells_bind; [|intros; apply tells_lret]);
    try (apply tells_with_op; [first [done | by apply objectEvent_neutral] | by faithful]).
  apply faithful_tells, faithful_RecheckPR.
Qed.


(** An operation's own record comes last. *)
Definition ends {A} (m : Logged A) : Prop := ∀ w l, ∃ new r, lg_out (m w l).2 = lg_out l ++ new ++ [r].
Lemma ends_with_op {A} event a n f (body : Logged A) : faithful body → ends (with_op event a n f body).
Proof.
  intros Hb w l. unfold with_op.
  destruct (Hb w (mkLogst (Some (beginOp event a)) n (lg_noted l) (lg_out l))) as (new & [Ho _ _ Hev]).
  destruct (body w _) as [[o w'] l']. cbn [fst snd lg_op lg_out] in *.
  set (err := match o with Done _ => _ | _ => _ end). clearbody err.
  destruct (lg_op l') as [op|]; [|done]. rewrite Ho, <- (assoc_L (++)). by do 2 eexists.
Qed.
Lemma ends_lret {A B} (m : Logged A) (b : B) w l : (lbind m (λ _, lret b) w l).2 = (m w l).2.
Proof. unfold lbind. by destruct (m w l) as [[[]]]. Qed.
Lemma ends_perform r : r ≠ RRecheckPR → ends (perform_op range mroot aptplRecords pageSize marshal r).
Proof.
  intros Hr. destruct r; cbn [perform_op]; try (intros w l; rewrite ends_lret; revert w l); [..|done];
    (apply ends_with_op; by faithful).
Qed.

(** ** A start, and a history of requests *)

Lemma faithful_quarantine root known dirs : faithful (quarantine_unknown_op root known dirs).
Proof. induction dirs; cbn [quarantine_unknown_op]; faithful. Qed.
Lemma faithful_mark_missing root objs : faithful (mark_missing_op root objs).
Proof.
  induction objs; cbn [mark_missing_op]; faithful.
Qed.
Hint Resolve faithful_quarantine faithful_mark_missing : faithful.
Lemma faithful_adoptStorage b : faithful (adoptStorage_op b).
Proof. unfold adoptStorage_op. faithful. Qed.
Lemma calm_load : calm (load range unmarshal).
Proof. unfold load. calm. Qed.
Lemma calm_live : calm (liveTargetIQN mroot).
Proof. unfold liveTargetIQN. calm. Qed.
Lemma calm_machine path : calm (readMachineID path).
Proof. unfold readMachineID. calm. Qed.
Hint Resolve calm_load calm_live calm_machine : calm.
Lemma faithful_decide_iqn d cfg actual : faithful (decide_iqn_op mroot d cfg actual).
Proof. unfold decide_iqn_op. faithful. Qed.
Hint Resolve faithful_adoptStorage faithful_decide_iqn : faithful.
Lemma faithful_adoptIdentity : faithful (adoptIdentity_op mroot marshal).
Proof. unfold adoptIdentity_op. faithful. Qed.
Lemma faithful_adoptPortals : faithful (adoptPortals_op marshal).
Proof. unfold adoptPortals_op. faithful. Qed.
Lemma faithful_orphans : faithful logOrphanPRState.
Proof. unfold logOrphanPRState. faithful. Qed.
Hint Resolve faithful_adoptIdentity faithful_adoptPortals faithful_orphans : faithful.

(** Requests one after another, whatever each is answered. *)
Fixpoint serve_all (rs : list request) : Logged unit :=
  match rs with
  | [] => lret tt
  | r :: rs => ltry (perform_op range mroot aptplRecords pageSize marshal r) ;#; serve_all rs
  end.
Definition run_op (root : string) (quarantined : list string) (cfg : AppConfig) (rs : list request) : Logged unit :=
  Open_op range mroot aptplRecords marshal unmarshal root quarantined cfg ;#; serve_all rs.

Lemma tells_try {A} (m : Logged A) : tells m → tells (ltry m).
Proof. intros Hm w l. specialize (Hm w l). unfold ltry. by destruct (m w l) as [[[] ?] ?]. Qed.
Lemma tells_serve rs : tells (serve_all rs).
Proof.
  induction rs as [|r rs IH]; cbn [serve_all]; [apply tells_lret|].
  apply tells_bind; [apply tells_try, tells_perform | done].
Qed.

Lemma open_tells root quarantined cfg w l :
  let '(o, w', l') := Open_op range mroot aptplRecords marshal unmarshal root quarantined cfg w l in
  o = Done tt → ∃ new, lg_out l' = lg_out l ++ new ∧
    reconcile_edges false new = Some (broken w') ∧ backup_edges false new = Some (unbacked w').
Proof.
  unfold Open_op. unfold lbind at 1, silently at 1, of_res. destruct (AppConfig_Validate range cfg) as [[]|e]; [|done].
  unfold lbind at 1, silently at 1. cbn [modify aret].
  match goal with |- context [lbind ?m ?k ?w1 l] => assert (Ht : tells (lbind m k)) by (apply faithful_tells; faithful);
    destruct (Ht w1 l) as (new & Ho & Hb & Hu); destruct (lbind m k w1 l) as [[o w'] l'] end.
  intros _. by exists new.
Qed.

(** C9. The log alone tells the appliance's standing conditions: from a start and
    through any requests, whatever the kernel and the disk answer, a
    reconcile.failed record and a reconcile.recovered one alternate, the first
    being a failure, and the last word is the verdict of the last reconcile;
    the same of storage.backup_failed and storage.backup_recovered and of the
    last attempt to keep a backup. So no failure goes unannounced, no recovery
    is forgotten, and a condition that stands is not repeated. *)
Theorem log_tells_conditions (root : string) (quarantined : list string) (cfg : AppConfig) (rs : list request)
    (w : world) (l : logst) :
  let '(o, w', l') := run_op root quarantined cfg rs w l in
  o = Done tt →
  ∃ new, lg_out l' = lg_out l ++ new ∧
    edges eventReconcileFailed eventReconcileRecovered false new = Some (present (c_lastReconcileErr (w_c w'))) ∧
    edges eventBackupFailed eventBackupRecovered false new = Some (present (he_BackupErr (HealthSnapshot (w_c w')))).
Proof.
  unfold run_op. unfold lbind at 1. pose proof (open_tells root quarantined cfg w l) as Ho.
  destruct (Open_op _ _ _ _ _ _ _ _ w l) as [[[[]|e|] w1] l1]; [|done..].
  destruct (Ho eq_refl) as (new1 & Ho1 & Hb1 & Hu1). destruct (tells_serve rs w1 l1) as (new2 & Ho2 & Hb2 & Hu2).
  destruct (serve_all rs w1 l1) as [[o w'] l']. intros _. cbn [fst snd] in *. exists (new1 ++ new2).
  split; [by rewrite Ho2, Ho1, <- (assoc_L (++))|]. rewrite !edges_app, Hb1, Hu1. by split.
Qed.
End edges.
