(* ===== verification/AppLoggedProofs.v ===== *)
(** * appliance: the log tells the truth

    Every request but the periodic check emits one record of its own, last. The
    file contract [Disk] lets its attributes be read against the disk: durable
    is true exactly of a change that is in the database file, the outcome is
    that of the error returned and the reconcile verdict, where one is noted,
    the standing one. [hon] is the rule: from a log whose
    operation is so far described truly ([told]) to one that still is. *)

From S2P Require Import Prelude GoStrings Errors Netip LioModel Configfs FsPaths LioAptpl LioApply LioSync.
From S2P Require Import LioDelta LioStranded AppModel AppDb AppWf AppPortals AppTranslate AppTranslateProofs AppAptpl Storage.
From S2P Require Import AppCoordinator AppObjects AppHosts AppIdentity AppClear AppEvents AppRun AppSteady.
From S2P Require Import AppMutations AppRequests AppReach AppDisk AppAtomic AppBytes AppOpLog AppLogged AppLogEdges.

(** ** Reading a record *)

Definition attr (r : record) (key : string) : option value :=
  snd <$> first (λ kv, String.eqb kv.1 key) (r_attrs r).

(** The event of a request's record; the periodic check has none. *)
Definition event_of (r : request) : option string :=
  match r with
  | RCreate kind _ => Some (objectEvent kind "create")
  | RRename kind _ _ => Some (objectEvent kind "rename")
  | RDelete kind _ => Some (objectEvent kind "delete")
  | RResize kind _ _ => Some (objectEvent kind "resize")
  | RCreateHost _ _ => Some eventHostCreate
  | RRenameHost _ _ => Some eventHostRename
  | RSetBindings _ _ _ _ => Some eventHostBindings
  | RDeleteHost _ => Some eventHostDelete
  | RConnect _ _ _ _ => Some eventConnectionCreate
  | RDisconnect _ _ _ => Some eventConnectionDelete
  | RSetPortals _ => Some eventTargetPortals
  | RClearReservation _ _ _ => Some eventPRCleared
  | RRecheckPR => None
  end.

(** The same records, whatever their export indexes. *)
Record same_records (d d' : db) : Prop := mkSameRecords {
  sr_version : db_Version d' = db_Version d;
  sr_objects : db_Objects d' = db_Objects d;
  sr_hosts : db_Hosts d' = db_Hosts d;
  sr_connections : db_Connections d' = db_Connections d;
  sr_portals : db_Portals d' = db_Portals d }.
#[global] Instance same_records_equiv : Equivalence same_records.
Proof. split; [by constructor | by intros ? ? []; constructor | intros ? ? ? [] []; constructor; congruence]. Qed.
Lemma same_snapshot d : same_records d (snapshotState d).
Proof. by constructor. Qed.
Lemma desired_records range root cfg pc wh d cfg' d' :
  desiredLIO range root cfg pc wh d = Some (cfg', d') → same_records d d'.
Proof. unfold desiredLIO. case_match; [|done]. intros [= _ <-]. by constructor. Qed.

Section logged.
Context {K F : Type} `{Kernel K} `{Disk F}.
Context (range : ∀ A, list A → list A) (mroot : string).
Context (aptplRecords : option (Backstore → ST K (list string))) (pageSize : Z) (marshal : db → string).
Context (segs : list string) (Hne : segs ≠ []) (Hsegs : good_segs segs).
Notation root := (abs segs).
Notation dbPath := (abs (segs ++ ["appliance.json"])).
Notation App := (App K F).
Notation Logged := (Logged K F).
Notation world := (world K F).
Notation placed := (placed segs).

(** ** Steps that leave the database alone *)

(** In memory and on disk, and the verdict of the last reconcile. *)
Record held (w w' : world) : Prop := mkHeld {
  he_placed : placed (w_c w');
  he_content : content dbPath (w_f w') = content dbPath (w_f w);
  he_records : same_records (c_st (w_c w)) (c_st (w_c w'));
  he_err : c_lastReconcileErr (w_c w') = c_lastReconcileErr (w_c w) }.
Definition still {A} (m : App A) : Prop := ∀ w, placed (w_c w) → held w (m w).2.

Lemma held_refl w : placed (w_c w) → held w w.
Proof. by constructor. Qed.
Lemma held_trans w1 w2 w3 : held w1 w2 → held w2 w3 → held w1 w3.
Proof. intros [] []. constructor; [done | congruence | by etrans | congruence]. Qed.
Lemma still_ret {A} (a : A) : still (aret a).
Proof. intros w Hp. by apply held_refl. Qed.
Lemma still_fail {A} e : still (afail e : App A).
Proof. intros w Hp. by apply held_refl. Qed.
Lemma still_panic {A} : still ((λ w, (Panic, w)) : App A).
Proof. intros w Hp. by apply held_refl. Qed.
Lemma still_of_res {A} (r : result aerr A) : still (of_res r).
Proof. intros w Hp. destruct r; by apply held_refl. Qed.
Lemma still_modify g : (∀ c, placed c → placed (g c) ∧ same_records (c_st c) (c_st (g c)) ∧
  c_lastReconcileErr (g c) = c_lastReconcileErr c) → still (modify g).
Proof. intros Hg w Hp. destruct (Hg _ Hp) as (? & ? & ?). by constructor. Qed.
Lemma still_bind {A B} (m : App A) (g : A → App B) : still m → (∀ a, still (g a)) → still (abind m g).
Proof.
  intros Hm Hg w Hp. specialize (Hm w Hp). unfold abind. destruct (m w) as [[a|e|] w1]; [|done..].
  eapply held_trans; [exact Hm|]. apply Hg, Hm.
Qed.
Lemma still_get {B} (g : coord → App B) : (∀ c, placed c → still (g c)) → still (abind get g).
Proof. intros Hg w Hp. by apply Hg. Qed.
Lemma still_try {A} (m : App A) : still m → still (atry m).
Proof. intros Hm w Hp. specialize (Hm w Hp). unfold atry. by destruct (m w) as [[] ?]. Qed.
Lemma still_kernel {A} (m : ST K A) : still (in_kernel m).
Proof. intros w Hp. unfold in_kernel. by destruct (m (w_k w)) as [[] ?]. Qed.
Lemma still_lio {A} (m : K → A * K) : still (lio_call m).
Proof. intros w Hp. unfold lio_call. by destruct (m (w_k w)). Qed.
Lemma still_files {A} (m : ST F A) : leaves dbPath m → still (in_files m).
Proof.
  intros Hm w Hp. unfold in_files. specialize (Hm (w_f w)). destruct (m (w_f w)) as [[] f]; by constructor.
Qed.

Create HintDb still.
Ltac still :=
  repeat (intros; lazymatch goal with
  | |- still (abind get _) => apply still_get
  | |- still (abind _ _) => apply still_bind
  | |- still (match ?x with _ => _ end) => destruct x
  | |- still (aret _) => apply still_ret
  | |- still (afail _) => apply still_fail
  | |- still (λ w, (Panic, w)) => apply still_panic
  | |- still (of_res _) => apply still_of_res
  | |- still st => apply (still_get (λ c, aret (c_st c)))
  | |- still get => apply (still_get aret)
  | |- still (modify _) => apply still_modify; by intros ? []
  | |- still (publish _) => apply still_modify; by intros ? []
  | |- still (atry _) => apply still_try
  | |- still (in_kernel _) => apply still_kernel
  | |- still (lio_call _) => apply still_lio
  | |- still _ => solve [eauto with still]
  end).

Lemma desired_still : still (desired range).
Proof.
  unfold desired. intros w Hp. unfold abind, get.
  destruct (desiredLIO _ _ _ _ _ _) as [[cfg d']|] eqn:Hd; [|by apply held_refl].
  apply desired_records in Hd. by constructor.
Qed.
Hint Resolve desired_still : still.
Lemma releaseHold_still v : still (releaseHold v).
Proof. unfold releaseHold. still. Qed.
Lemma holdBack_still v n : still (holdBack v n).
Proof. unfold holdBack. still. Qed.
Lemma setClearing_still n : still (setClearing n).
Proof. unfold setClearing. still. Qed.
Lemma backstoreOf_still v : still (backstoreOf range v).
Proof. unfold backstoreOf. still. Qed.
Hint Resolve releaseHold_still holdBack_still setClearing_still backstoreOf_still : still.
Lemma fenceLossWarningFor_still v losing host action : still (fenceLossWarningFor range mroot v losing host action).
Proof. unfold fenceLossWarningFor. still. Qed.
Hint Resolve fenceLossWarningFor_still : still.
Lemma fenceLossWarning_still v h : still (fenceLossWarning range mroot v h).
Proof. unfold fenceLossWarning. still. Qed.
Lemma collect_warnings_still losing h l : still (collect_warnings range mroot losing h l).
Proof. induction l; cbn [collect_warnings]; still. Qed.
Lemma fenceStateOf_still v : still (fenceStateOf range mroot pageSize v).
Proof. unfold fenceStateOf. still. Qed.
Hint Resolve fenceLossWarning_still collect_warnings_still fenceStateOf_still : still.
Lemma verifyCleared_still v kind name : still (verifyCleared range mroot pageSize v kind name).
Proof. unfold verifyCleared. still. Qed.
Lemma read_holder_still v : still (read_holder range mroot v).
Proof. unfold read_holder. still. Qed.
Lemma discardChecked_still wwn : still (discardSavedPRChecked wwn).
Proof. unfold discardSavedPRChecked, confirm_gone. still. Qed.
Lemma random16_still : still random16.
Proof. apply still_files, leaves_sys, disk_random. Qed.
Lemma fs_now_still : still (in_files fs_now : App string).
Proof. apply still_files, leaves_now. Qed.
Hint Resolve verifyCleared_still read_holder_still discardChecked_still random16_still fs_now_still : still.
Lemma newIdentity_still : still newIdentity.
Proof. unfold newIdentity. still. Qed.
Lemma newHostUUID_still : still newHostUUID.
Proof. unfold newHostUUID. still. Qed.
Hint Resolve newIdentity_still newHostUUID_still : still.

(** The store works below [objects], never on the database. *)
Lemma away_db w : validSeg w = true → away segs dbPath w.
Proof using Hne Hsegs.
  intros Hw. assert (Hq : good_segs (segs ++ ["appliance.json"])) by by apply db_good.
  assert (Hn : ∀ l, segs ++ l ≠ []) by by destruct segs.
  assert (Hg : ∀ l, good_segs (["objects"; w] ++ l) → good_segs (segs ++ ["objects"; w] ++ l)).
  { intros l Hl. by apply good_app. }
  assert (Hap : ∀ l, good_segs (["objects"; w] ++ l) → dbPath ≠ abs (segs ++ ["objects"; w] ++ l) ∧
    HasPrefix dbPath (abs (segs ++ ["objects"; w] ++ l) +:+ "/") = false).
  { intros l Hl. split.
    - intros Heq%abs_inj; [|by apply Hn | by apply Hn | done | by apply Hg]. apply (inj (segs ++.)) in Heq. done.
    - apply not_true_iff_false. intros [k Hk]%under_prefix; [|by apply Hn | by apply Hn | done | by apply Hg].
      rewrite <- (assoc_L (++)) in Hk. apply (inj (segs ++.)) in Hk. done. }
  unfold away. rewrite disk_abs, obj_abs by done.
  destruct (Hap []) as [Hd Hx]; [by repeat constructor|]. rewrite app_nil_r in Hd, Hx.
  split_and!; [done..|]. apply (Hap ["disk"]). by repeat constructor.
Qed.
Lemma allocate_still v source size : validSeg v = true → still (allocate root v source size).
Proof using Hne Hsegs.
  intros Hv. unfold allocate.
  assert (Haw : ∀ w, validSeg w = true → w = v ∨ w = stagingPrefix +:+ v → away segs dbPath w) by (intros; by apply away_db).
  assert (Hd : still (in_files (Store_Delete root v) : App unit)) by by eapply still_files, leaves_Delete.
  assert (Hr : still (in_files (Store_Resize root v size) : App unit)) by by eapply still_files, leaves_Resize.
  assert (Hc : still (in_files (Store_Create root v size) : App unit)) by by eapply still_files, leaves_Create.
  assert (Hk : ∀ s, still (in_files (Store_Clone root s v) : App unit)) by (intros s; by eapply still_files, leaves_Clone).
  still.
Qed.
Lemma delete_still v : validSeg v = true → still (in_files (Store_Delete root v) : App unit).
Proof using Hne Hsegs. intros Hv. eapply still_files, leaves_Delete; [|done]. intros; by apply away_db. Qed.
Lemma resize_still v size : validSeg v = true → still (in_files (Store_Resize root v size) : App unit).
Proof using Hne Hsegs. intros Hv. eapply still_files, leaves_Resize; [|done]. intros; by apply away_db. Qed.

(** ** An operation truly described *)

(** From the world [w0] the request found. *)
Context (w0 : world) (ev : string).

Definition stored_in (w : world) : Prop :=
  ∃ d, content dbPath (w_f w) = Some (marshal d +:+ nl_str) ∧ same_records d (c_st (w_c w)).
Definition untouched (w : world) : Prop :=
  content dbPath (w_f w) = content dbPath (w_f w0) ∧ same_records (c_st (w_c w0)) (c_st (w_c w)).
Definition verdict_true (outcome : string) (w : world) : Prop :=
  (outcome = reconcileSucceeded → c_lastReconcileErr (w_c w) = None) ∧
  (outcome = reconcileFailed → c_lastReconcileErr (w_c w) ≠ None).
(** [fresh]: no reconcile has been noted yet. *)
Record told_op (fresh : bool) (w : world) (op : opLog) : Prop := mkTold {
  to_event : op_event op = ev;
  to_proven : op_proven op = true → op_persisted op = true;
  to_durable : if op_persisted op then stored_in w else untouched w;
  to_verdict : if fresh then op_reconcile op = reconcileNotRequired else verdict_true (op_reconcile op) w }.
Definition told (fresh : bool) (w : world) (l : logst) : Prop :=
  placed (w_c w) ∧ ∃ op, lg_op l = Some op ∧ told_op fresh w op.
(** Where a run leads, a panic excepted. *)
Definition leads {A} (q : bool) (r : outcome A * world * logst) : Prop :=
  match r.1.1 with Panic => True | _ => told q r.1.2 r.2 end.
Definition hon {A} (p : bool) (m : Logged A) (q : bool) : Prop := ∀ w l, told p w l → leads q (m w l).

Lemma told_weaken p q w l : (q = true → p = true) → told p w l → told q w l.
Proof.
  intros Hpq (Hp & op & Hop & [He Hpr Hd Hv]). split; [done|]. exists op. split; [done|]. constructor; [done..|].
  destruct p, q; try done; [|by specialize (Hpq eq_refl)]. rewrite Hv. by split.
Qed.
Lemma told_held p w w' l : held w w' → told p w l → told p w' l.
Proof.
  intros [Hp Hc Hr Hl] (_ & op & Hop & [He Hpr Hd Hv]). split; [done|]. exists op. split; [done|].
  constructor; [done..| |].
  - destruct (op_persisted op); [destruct Hd as (d & Hd1 & Hd2); exists d | destruct Hd as [Hd1 Hd2]];
      (split; [congruence | by etrans]).
  - destruct p; [done|]. unfold verdict_true. by rewrite Hl.
Qed.

Lemma hon_ret {A} p (a : A) q : (q = true → p = true) → hon p (lret a) q.
Proof. intros Hpq w l Ht. by eapply told_weaken. Qed.
Lemma hon_fail {A} p e q : (q = true → p = true) → hon p (lfail e : Logged A) q.
Proof. intros Hpq w l Ht. by eapply told_weaken. Qed.
(** The continuation, from where [m] leads. *)
Lemma hon_bind_at {A B} p (m : Logged A) q (k : A → Logged B) r w l : (r = true → q = true) →
  told p w l → hon p m q →
  (∀ a w' l', m w l = (Done a, w', l') → told q w' l' → leads r (k a w' l')) →
  leads r (lbind m k w l).
Proof.
  intros Hqr Ht Hm Hk. specialize (Hm w l Ht). unfold lbind, leads in *.
  destruct (m w l) as [[[a|e|] w1] l1]; [by apply (Hk a w1 l1) | by eapply told_weaken | done].
Qed.
Lemma hon_bind {A B} p (m : Logged A) q (k : A → Logged B) r : (r = true → q = true) →
  hon p m q → (∀ a, hon q (k a) r) → hon p (lbind m k) r.
Proof. intros Hqr Hm Hk w l Ht. eapply hon_bind_at; [done..|]. intros a w' l' _ Ht'. by apply Hk. Qed.
Lemma hon_try {A} p (m : Logged A) q : hon p m q → hon p (ltry m) q.
Proof. intros Hm w l Ht. specialize (Hm w l Ht). unfold ltry. by destruct (m w l) as [[[] ?] ?]. Qed.
Lemma hon_silently {A} p (m : App A) : still m → hon p (silently m) p.
Proof.
  intros Hm w l Ht. specialize (Hm w (proj1 Ht)). unfold leads, silently. destruct (m w) as [[] w']; [by eapply told_held..|done].
Qed.
Lemma hon_get {B} p (k : coord → Logged B) q :
  (∀ c, placed c → hon p (k c) q) → hon p (lbind (silently get) k) q.
Proof. intros Hk w l Ht. apply Hk; [apply Ht | done]. Qed.
(** What keeps the facts of the operation keeps its description. *)
Lemma hon_on_log p f :
  (∀ l op, lg_op l = Some op → ∃ op', lg_op (f l) = Some op' ∧ op_event op' = op_event op ∧
    op_persisted op' = op_persisted op ∧ op_proven op' = op_proven op ∧ op_reconcile op' = op_reconcile op) →
  hon p (on_log f) p.
Proof.
  intros Hf w l (Hp & op & Hop & [He Hpr Hd Hv]). destruct (Hf l op Hop) as (op' & Hop' & E1 & E2 & E3 & E4).
  split; [done|]. exists op'. split; [done|]. constructor; [congruence | by rewrite E2, E3 | by rewrite E2 | by rewrite E4].
Qed.
Lemma hon_emit p rs : hon p (emit rs) p.
Proof. apply hon_on_log. intros l op Hop. by exists op. Qed.
Lemma hon_named p a : hon p (named a) p.
Proof. apply hon_on_log. intros l op Hop. by exists op. Qed.
Lemma hon_set p a : hon p (set a) p.
Proof. apply hon_on_log. intros l op Hop. exists (opLog_set a op). cbn. by rewrite Hop. Qed.

(** ** The shared steps *)

(** A step that says nothing of the operation. *)
Definition quiet {A} (m : Logged A) : Prop := ∀ w l, lg_op (m w l).2 = lg_op l.
Lemma quiet_silently {A} (m : App A) : quiet (silently m).
Proof. intros w l. unfold silently. by destruct (m w). Qed.
Lemma quiet_bind {A B} (m : Logged A) (k : A → Logged B) : quiet m → (∀ a, quiet (k a)) → quiet (lbind m k).
Proof.
  intros Hm Hk w l. specialize (Hm w l). unfold lbind. destruct (m w l) as [[[a|e|] w1] l1]; [|done..].
  by rewrite (Hk a w1 l1).
Qed.
Lemma quiet_try {A} (m : Logged A) : quiet m → quiet (ltry m).
Proof. intros Hm w l. specialize (Hm w l). unfold ltry. by destruct (m w l) as [[[] ?] ?]. Qed.
Lemma quiet_noteHealth : quiet noteHealth_op.
Proof. intros w l. unfold noteHealth_op. by destruct (noteHealth _ _). Qed.
Create HintDb quiet.
Hint Resolve quiet_noteHealth : quiet.
Ltac quiet :=
  repeat (intros; lazymatch goal with
  | |- quiet (lbind _ _) => apply quiet_bind
  | |- quiet (silently _) => apply quiet_silently
  | |- quiet (lret _) => done
  | |- quiet (lfail _) => done
  | |- quiet (emit _) => done
  | |- quiet (match ?x with _ => _ end) => destruct x
  | |- quiet _ => solve [eauto with quiet]
  end).
Lemma quiet_reconcileFull dcfg : quiet (reconcileFull_op mroot aptplRecords dcfg).
Proof. unfold reconcileFull_op, setReconcileErr_op, setReconcileOK_op. quiet. Qed.
Hint Resolve quiet_reconcileFull : quiet.
Lemma quiet_reconcile : quiet (reconcile_op range mroot aptplRecords).
Proof. unfold reconcile_op, setReconcileErr_op, setReconcileOK_op. quiet. Qed.

(** What reconcile does to the database, and to the verdict. *)
Definition reconciled (w : world) (ow : outcome unit * world) : Prop :=
  let '(o, w') := ow in
  placed (w_c w') ∧ content dbPath (w_f w') = content dbPath (w_f w) ∧ same_records (c_st (w_c w)) (c_st (w_c w')) ∧
  match o with
  | Done _ => c_lastReconcileErr (w_c w') = None
  | Fail _ => c_lastReconcileErr (w_c w') ≠ None
  | Panic => True
  end.
Lemma reconcileFull_does cfg c : placed c →
  post (K := K) (F := F) (reconcileFull mroot aptplRecords cfg) c (λ o c', placed c' ∧ c_st c' = c_st c ∧
    match o with Done _ => c_lastReconcileErr c' = None | Fail _ => c_lastReconcileErr c' ≠ None | Panic => True end).
Proof. intros []. unfold reconcileFull, setReconcileErr, setReconcileOK. by app_steps. Qed.
Lemma reconcile_does w : placed (w_c w) → reconciled w (reconcile range mroot aptplRecords w).
Proof using Type.
  intros Hp. pose proof (off_disk_reconcile (K := K) (F := F) range mroot aptplRecords w) as Hf.
  assert (Hpost : post (K := K) (F := F) (reconcile range mroot aptplRecords) (w_c w)
    (λ o c', placed c' ∧ same_records (c_st (w_c w)) (c_st c') ∧
      match o with Done _ => c_lastReconcileErr c' = None | Fail _ => c_lastReconcileErr c' ≠ None | Panic => True end)).
  { assert (Hfull : ∀ cfg c2, placed c2 → same_records (c_st (w_c w)) (c_st c2) →
      post (K := K) (F := F) (reconcileFull mroot aptplRecords cfg) c2
       (λ o c', placed c' ∧ same_records (c_st (w_c w)) (c_st c') ∧
         match o with Done _ => c_lastReconcileErr c' = None | Fail _ => c_lastReconcileErr c' ≠ None | Panic => True end)).
    { intros cfg c2 Hp2 Hr2. eapply post_mono; [by apply reconcileFull_does|]. intros o c3 (? & -> & ?). done. }
    destruct Hp as [Hroot Hpath]. unfold reconcile, desired. app_step. app_step. app_step.
    destruct (desiredLIO _ _ _ _ _ _) as [[cfg d']|] eqn:Hd; [|by app_step]. apply desired_records in Hd.
    app_step. app_step. app_step. app_step. app_step. cbn [c_applied set_st].
    destruct (c_applied _) as [applied|]; [|by apply Hfull].
    destruct (Diff range applied cfg) as [delta|]; [|by apply Hfull].
    app_step. app_step. destruct a as [reports [err|]]; cbn [snd].
    - app_step. app_step. destruct (is_stale err); [by apply Hfull|]. unfold setReconcileErr. by app_steps.
    - unfold setReconcileOK. by app_steps. }
  apply post_runs in Hpost. unfold runs in Hpost. destruct (reconcile range mroot aptplRecords w) as [o w']. cbn in *.
  destruct Hpost as (? & ? & ?). split_and!; [done | congruence | done..].
Qed.
Lemma reconcile_logged w l : placed (w_c w) →
  let '(o, w', l') := reconcile_op range mroot aptplRecords w l in
  reconciled w (outcome_map (λ _, tt) o, w') ∧ lg_op l' = lg_op l.
Proof using Type.
  intros Hp%reconcile_does. pose proof (quiet_reconcile w l) as Hq.
  rewrite (erases_reconcile range mroot aptplRecords w l) in Hp.
  by destruct (reconcile_op range mroot aptplRecords w l) as [[o w'] l'].
Qed.
Lemma hon_reconcile : hon true (reconcile_op range mroot aptplRecords) true.
Proof using Type.
  intros w l (Hp & op & Hop & [He Hpr Hd Hv]). pose proof (reconcile_logged w l Hp) as Hr.
  destruct (reconcile_op range mroot aptplRecords w l) as [[o w'] l']. destruct Hr as [(Hp' & Hc & Hr & _) Hl].
  unfold leads. cbn [fst snd]. destruct o; [| |done].
  all: split; [done|]; exists op; split; [by rewrite Hl|]; constructor; [done..| |done].
  all: destruct (op_persisted op); [destruct Hd as (d & Hd1 & Hd2); exists d | destruct Hd as [Hd1 Hd2]];
    (split; cbn; [congruence | by etrans]).
Qed.
(** A reconcile whose verdict is noted. *)
Lemma hon_noted {B} (k : result aerr Report → Logged B) : (∀ r, hon false (k r) false) →
  hon true (let# r := ltry (reconcile_op range mroot aptplRecords) in noteReconcile (reconcileOutcomeOf r) ;#; k r) false.
Proof using Type.
  intros Hk w l (Hp & op & Hop & [He Hpr Hd Hv]). pose proof (reconcile_logged w l Hp) as Hr.
  unfold lbind, ltry. cbv beta. revert Hr. destruct (reconcile_op range mroot aptplRecords w l) as [[o w'] l'].
  intros [(Hp' & Hc & Hr & Ho) Hl].
  assert (Hd' : if op_persisted op then stored_in w' else untouched w').
  { destruct (op_persisted op); [destruct Hd as (d & Hd1 & Hd2); exists d | destruct Hd as [Hd1 Hd2]];
      (split; cbn; [congruence | by etrans]). }
  assert (Hnote : ∀ r : result aerr Report, verdict_true (reconcileOutcomeOf r) w' →
    leads false (noteReconcile (reconcileOutcomeOf r) (w' : world) l')).
  { intros r Hr'. split; [done|]. exists (opLog_noteReconcile (reconcileOutcomeOf r) op).
    split; [cbn; by rewrite Hl, Hop | by constructor]. }
  destruct o as [a|e|]; cbn in Ho.
  - refine (Hk (Ok a) w' _ (Hnote (Ok a) _)). by split.
  - refine (Hk (Err e) w' _ (Hnote (Err e) _)). by split.
  - done.
Qed.
Lemma hon_heal : hon true (healIfDegraded_op range mroot aptplRecords) true.
Proof using Type.
  unfold healIfDegraded_op. apply hon_get. intros c _. destruct (c_lastReconcileErr c); [|by apply hon_ret].
  eapply hon_bind; [done | apply hon_try, hon_reconcile|]. intros [r|e]; [by apply hon_ret | by apply hon_fail].
Qed.

(** What persist notes, by how it ends. *)
Definition says (l : logst) (r : outcome unit * world * logst) : Prop :=
  match r.1.1 with
  | Done _ => lg_op r.2 = opLog_noteCommit true true <$> lg_op l
  | Fail e => lg_op r.2 = if is_not_durable e then opLog_noteCommit true false <$> lg_op l else lg_op l
  | Panic => True
  end.
Lemma says_files {A} (m : ST F A) (k : A → Logged unit) w l :
  (∀ a w, says l (k a w l)) → says l (lbind (silently (in_files m)) k w l).
Proof. intros Hk. unfold lbind, silently, in_files. destruct (m (w_f w)) as [[a|e] f]; [apply Hk | done]. Qed.
Lemma says_try_files {A} (m : ST F A) (k : result aerr A → Logged unit) w l :
  (∀ a w, says l (k a w l)) → says l (lbind (silently (atry (in_files m))) k w l).
Proof.
  intros Hk. unfold lbind, silently, atry, in_files. destruct (m (w_f w)) as [[a|e] f]; apply Hk.
Qed.
Lemma says_get (k : coord → Logged unit) w l :
  says l (k (w_c w) w l) → says l (lbind (silently get) k w l).
Proof. done. Qed.
Lemma persist_says w l : says l (persist_op marshal w l).
Proof.
  unfold persist_op. apply says_get.
  cbv beta. destruct (String.eqb _ _); [done|]. apply says_try_files. intros rb w1. cbv zeta.
  apply says_files. intros _ w2. apply says_files. intros _ w3.
  unfold lbind, silently, publish, modify, emit, noteCommit, on_op, on_log, atry, in_files, lfail, says.
  destruct (syncDir _ _) as [[[]|e] f]; cbn; by destruct (lg_op l).
Qed.
(** What persist says of itself is what it did. *)
Lemma persist_logged (w : world) l : placed (w_c w) →
  let '(o, w', l') := persist_op marshal w l in
  placed (w_c w') ∧ c_st (w_c w') = c_st (w_c w) ∧ c_lastReconcileErr (w_c w') = c_lastReconcileErr (w_c w) ∧
  let wrote := content dbPath (w_f w') = Some (marshal (c_st (w_c w)) +:+ nl_str) in
  match o with
  | Done _ => wrote ∧ lg_op l' = opLog_noteCommit true true <$> lg_op l
  | Fail e => if is_not_durable e then wrote ∧ lg_op l' = opLog_noteCommit true false <$> lg_op l
              else content dbPath (w_f w') = content dbPath (w_f w) ∧ lg_op l' = lg_op l
  | Panic => False
  end.
Proof using Hne Hsegs.
  intros [Hroot Hpath].
  pose proof (persist_stored marshal segs "appliance.json" Hne Hsegs eq_refl w Hpath) as [Hst _].
  pose proof (post_runs (persist marshal) w _ (persist_post marshal (w_c w))) as Hpp. unfold runs in Hpp.
  pose proof (erases_persist marshal w l) as He. rewrite He in Hst, Hpp.
  pose proof (persist_says w l) as Hlog. unfold says in Hlog.
  destruct (persist_op marshal w l) as [[o w'] l']. cbn [fst snd outcome_map] in *.
  destruct Hpp as (Hnp & Hf & Hb & Hst'). split; [by destruct Hf; split; congruence|].
  split; [done|]. split; [apply Hb|]. cbv zeta.
  destruct o as [[]|e|]; cbn [outcome_map] in *; [done | | done].
  unfold stored in Hst. rewrite Hlog. by destruct (is_not_durable e).
Qed.

(** Persisting a mutated database: it is stored and said to be, or the records
    before the mutation are put back and nothing is said. *)
Definition put_back (d : db) (w : world) : world := mkWorld (set_st (snapshotState d) (w_c w)) (w_k w) (w_f w).
Lemma told_put_back p w l : told p w l → told p (put_back (c_st (w_c w)) w) l.
Proof. intros Ht. eapply told_held; [|exact Ht]. destruct Ht as [[] _]. by constructor. Qed.
Lemma told_persist p (w : world) l d1 : told p w l →
  let '(o, w', l') := persist_op marshal (mkWorld (set_st d1 (w_c w)) (w_k w) (w_f w)) l in
  match o with
  | Done _ => told p w' l'
  | Fail e => if is_not_durable e then told p w' l' else told p (put_back (c_st (w_c w)) w') l'
  | Panic => False
  end.
Proof using Hne Hsegs.
  intros ([Hroot Hpath] & op & Hop & [He Hpr Hd Hv]).
  pose proof (persist_logged (mkWorld (set_st d1 (w_c w)) (w_k w) (w_f w)) l (conj Hroot Hpath)) as Hp.
  destruct (persist_op marshal _ l) as [[o w'] l']. destruct Hp as (Hp & Hst & Hl & Ho). cbv zeta in Ho.
  cbn [w_c w_f c_st set_st] in *.
  assert (Hwrote : ∀ b, content dbPath (w_f w') = Some (marshal d1 +:+ nl_str) →
    lg_op l' = opLog_noteCommit true b <$> lg_op l → told p w' l').
  { intros b Hc Hlg. split; [done|]. exists (opLog_noteCommit true b op). split; [by rewrite Hlg, Hop|].
    constructor; [done..| |]; cbn.
    - exists d1. by rewrite Hst.
    - destruct p; [done|]. unfold verdict_true. by rewrite Hl. }
  destruct o as [[]|e|]; [by eapply (Hwrote true); apply Ho | | done].
  destruct (is_not_durable e); [by eapply (Hwrote false); apply Ho|].
  destruct Ho as [Hc Hlg]. split; [by destruct Hp|]. exists op. split; [by rewrite Hlg|]. constructor; [done..| |].
  - pose proof (same_snapshot (c_st (w_c w))) as Hs.
    destruct (op_persisted op); [destruct Hd as (d & Hd1 & Hd2); exists d | destruct Hd as [Hd1 Hd2]];
      (split; cbn; [congruence | by etrans]).
  - destruct p; [done|]. unfold verdict_true. cbn. by rewrite Hl.
Qed.
Lemma hon_persistOnly p mutate : hon p (persistOnly_op marshal mutate) p.
Proof using Hne Hsegs.
  intros w l Ht. unfold persistOnly_op, lbind at 1, silently at 1. cbn [st abind get aret].
  destruct (mutate (c_st (w_c w))) as [d1|e]; [|by apply (told_put_back p w l)].
  unfold lbind, silently, ltry. cbn [set_state modify].
  pose proof (told_persist p w l d1 Ht) as Hp. destruct (persist_op marshal _ l) as [[o w'] l'].
  destruct o as [[]|e|]; [done | | done]. by destruct (is_not_durable e).
Qed.

(** The rest of a commit, from a coordinator that holds the mutated database:
    [d] is the one to put back. *)
Lemma hon_store (w : world) l d1 : told true w l →
  leads false (store_op range mroot aptplRecords marshal (snapshotState (c_st (w_c w)))
                 (mkWorld (set_st d1 (w_c w)) (w_k w) (w_f w)) l).
Proof using Hne Hsegs.
  intros Ht. unfold store_op. unfold lbind at 1, ltry at 1.
  pose proof (told_persist true w l d1 Ht) as Hp. destruct (persist_op marshal _ l) as [[o w'] l'].
  destruct o as [[]|e|]; [| |done].
  - apply (hon_noted (λ r, match r with Ok _ => lret tt | Err e => lfail e end)); [|done].
    intros [a|e]; [by apply hon_ret | by apply hon_fail].
  - destruct (is_not_durable e); [|by eapply told_weaken].
    apply (hon_noted (λ _, lfail e)); [|done]. intros _. by apply hon_fail.
Qed.
Lemma hon_commit mutate : hon true (commit_op range mroot aptplRecords marshal mutate) false.
Proof using Hne Hsegs.
  unfold commit_op. eapply hon_bind; [done | apply hon_heal|]. intros _ w l Ht.
  unfold lbind at 1, silently at 1. cbn [st abind get aret].
  destruct (mutate (c_st (w_c w))) as [d1|e]; [|by apply (told_weaken true), (told_put_back true w l)].
  unfold lbind at 1, silently at 1. cbn [set_state modify]. unfold lbind at 1, silently at 1, desired.
  cbn [abind get w_c c_root c_cfg c_prClearing c_withheld c_st set_st].
  destruct (desiredLIO _ _ _ _ _ _) as [[cfg d2]|]; [|done]. cbn [set_state modify abind aret w_c w_k w_f].
  destruct (Config_Validate cfg) as [[]|ev']; [by apply (hon_store w l d2)|].
  by apply (told_weaken true), (told_put_back true w l).
Qed.

(** ** The requests *)

Lemma hon_warn_fences p ws kind name v : hon p (warn_fences ws kind name v) p.
Proof.
  unfold warn_fences. case_match; [|by apply hon_ret]. apply (hon_bind _ _ p); [done | apply hon_emit|]. intros _. apply hon_set.
Qed.
Lemma hon_discardSavedPR p wwn : hon p (discardSavedPR_op wwn) p.
Proof.
  unfold discardSavedPR_op. apply hon_get. intros c _. case_match; [by apply hon_ret|]. cbv zeta.
  apply (hon_bind _ _ p); [done | apply hon_silently; still|]. intros [a|e]; [by apply hon_ret|].
  case_match; [by apply hon_ret | apply hon_emit].
Qed.

(** Steps; the flag after each is the one before, but after a commit. *)
Create HintDb hon.
Hint Resolve hon_persistOnly hon_heal hon_reconcile hon_warn_fences hon_discardSavedPR hon_emit hon_set hon_named : hon.
Ltac hon :=
  repeat (intros; cbv zeta; lazymatch goal with
  | |- hon _ (lbind (silently get) _) _ => apply hon_get
  | |- hon _ (lbind (commit_op _ _ _ _ _) _) _ => eapply (hon_bind _ _ false); [done | apply hon_commit|]
  | |- hon _ (lbind (ltry (commit_op _ _ _ _ _)) _) _ =>
      eapply (hon_bind _ _ false); [done | apply hon_try, hon_commit|]
  | |- hon true (lbind (ltry (reconcile_op _ _ _)) (λ r, noteReconcile _ ;#; @?k r)) false => apply (hon_noted k)
  | |- hon ?p (lbind (silently _) _) _ => eapply (hon_bind _ _ p); [done | apply hon_silently; solve [still]|]
  | |- hon ?p (lbind (ltry _) _) _ => eapply (hon_bind _ _ p); [done | apply hon_try; solve [eauto with hon]|]
  | |- hon ?p (lbind _ _) _ => eapply (hon_bind _ _ p); [done | solve [eauto with hon]|]
  | |- hon _ (lret _) _ => by apply hon_ret
  | |- hon _ (lfail _) _ => by apply hon_fail
  | |- hon _ (commit_op _ _ _ _ _) _ => apply hon_commit
  | |- hon _ (match ?x with _ => _ end) _ => destruct x
  end).

(** At one world, for a request whose object or identifier must be good. *)
Definition body_of {A} (f : A → option aerr) (m : Logged A) (w : world) : Prop :=
  ∃ a n b, m = with_op ev a n f b ∧ ∀ l, told true w l → leads false (b w l).
Lemma body_hon {A} e (a n : attrs) f (b : Logged A) w : ev = e → hon true b false → body_of f (with_op e a n f b) w.
Proof. intros <- Hb. do 3 eexists. split; [done|]. intros l. apply Hb. Qed.
Lemma hon_weaken {A} p (m : Logged A) : hon p m p → hon p m false.
Proof.
  intros Hm w l Ht. specialize (Hm w l Ht). unfold leads in *.
  destruct (m w l) as [[[a|e|] w'] l']; cbn [fst snd] in *; [| |done];
    (eapply told_weaken; [|exact Hm]; intros [=]).
Qed.
Lemma hon_panic {A} p q : hon p (silently (λ w, (Panic, w)) : Logged A) q.
Proof. done. Qed.
Lemma leads_of_res {A B} p (r : result aerr A) (k : A → Logged B) q w l : (q = true → p = true) → told p w l →
  (∀ a, leads q (k a w l)) → leads q (lbind (silently (of_res r)) k w l).
Proof. intros Hpq Ht Hk. destruct r; [apply Hk | by eapply told_weaken]. Qed.
Lemma leads_st {B} (k : db → Logged B) q w l : leads q (k (c_st (w_c w)) w l) → leads q (lbind (silently st) k w l).
Proof. done. Qed.

Lemma told_Rename kind ref new w : ev = objectEvent kind "rename" → body_of no_err (Rename_op marshal kind ref new) w.
Proof using Hne Hsegs. intros Hev. unfold Rename_op. apply body_hon; [done|]. hon. apply hon_panic. Qed.
Lemma told_CreateHost name iqns w : ev = eventHostCreate →
  body_of no_err (CreateHost_op range mroot aptplRecords marshal name iqns) w.
Proof using Hne Hsegs. intros Hev. unfold CreateHost_op. apply body_hon; [done|]. hon. Qed.
Lemma told_RenameHost ref new w : ev = eventHostRename → body_of no_err (RenameHost_op marshal ref new) w.
Proof using Hne Hsegs. intros Hev. unfold RenameHost_op. apply body_hon; [done|]. hon. apply hon_panic. Qed.
Lemma told_SetBindings ref replace add remove w : ev = eventHostBindings →
  body_of beside (SetBindings_op range mroot aptplRecords marshal ref replace add remove) w.
Proof using Hne Hsegs. intros Hev. unfold SetBindings_op. apply body_hon; [done|]. hon. Qed.
Lemma told_DeleteHost ref w : ev = eventHostDelete → body_of no_err (DeleteHost_op range mroot aptplRecords marshal ref) w.
Proof using Hne Hsegs. intros Hev. unfold DeleteHost_op. apply body_hon; [done|]. hon. Qed.
Lemma told_Connect kind o h lun w : ev = eventConnectionCreate →
  body_of no_err (Connect_op range mroot aptplRecords marshal kind o h lun) w.
Proof using Hne Hsegs. intros Hev. unfold Connect_op. apply body_hon; [done|]. hon. Qed.
Lemma told_Disconnect kind o h w : ev = eventConnectionDelete →
  body_of beside (Disconnect_op range mroot aptplRecords marshal kind o h) w.
Proof using Hne Hsegs. intros Hev. unfold Disconnect_op. apply body_hon; [done|]. hon. Qed.
Lemma told_SetPortals ps w : ev = eventTargetPortals → body_of no_err (SetPortals_op range mroot aptplRecords marshal ps) w.
Proof using Hne Hsegs. intros Hev. unfold SetPortals_op. apply body_hon; [done|]. hon. Qed.
Lemma hon_clear_phases out kind v : hon true (clear_phases_op range mroot aptplRecords pageSize out kind v) true.
Proof using Type. unfold clear_phases_op, recoverFromFailedPrune_op, rebuild_op. hon. Qed.
Hint Resolve hon_clear_phases : hon.
Lemma told_Clear kind ref confirm w : ev = eventPRCleared →
  body_of cleared_err (ClearReservation_op range mroot aptplRecords pageSize kind ref confirm) w.
Proof using Hne Hsegs. intros Hev. unfold ClearReservation_op. apply body_hon; [done|]. hon. Qed.

(** The rest of a request that begins by looking its object up. *)
Ltac honestly Ht :=
  match goal with |- leads ?q (?m ?w ?l) => let Hr := fresh in assert (hon true m q) as Hr; [|exact (Hr w l Ht)] end.
Lemma told_Delete kind ref w : sound (c_st (w_c w)) → ev = objectEvent kind "delete" →
  body_of no_err (Delete_op range mroot aptplRecords marshal kind ref) w.
Proof using Hne Hsegs.
  intros [Hwf _] Hev. unfold Delete_op. rewrite <- Hev. do 3 eexists. split; [done|]. intros l Ht. apply leads_st.
  destruct (resolveObject _ _ _) as [o|] eqn:Ho; [|by eapply told_weaken].
  pose proof (delete_still (o_UUID o) (resolved_good _ _ _ _ Hwf Ho)) as Hdel. honestly Ht. hon.
  intros c [Hroot _]. rewrite Hroot. by apply hon_weaken, hon_silently.
Qed.
Lemma told_Resize kind ref size w : sound (c_st (w_c w)) → ev = objectEvent kind "resize" →
  body_of no_err (Resize_op range mroot aptplRecords marshal kind ref size) w.
Proof using Hne Hsegs.
  intros [Hwf _] Hev. unfold Resize_op. rewrite <- Hev. do 3 eexists. split; [done|]. intros l Ht. apply leads_st.
  destruct (resolveObject _ _ _) as [o|] eqn:Ho; [|by eapply told_weaken].
  pose proof (resize_still (o_UUID o) size (resolved_good _ _ _ _ Hwf Ho)) as Hres. honestly Ht. hon.
  intros c [Hroot _]. rewrite Hroot. hon.
Qed.
Lemma told_Create kind req (w : world) : fresh w → ev = objectEvent kind "create" →
  body_of no_err (Create_op marshal kind req) w.
Proof using Hne Hsegs.
  intros Hf Hev. unfold Create_op. rewrite <- Hev. do 3 eexists. split; [done|]. intros l Ht.
  apply (leads_of_res true); [done..|]. intros _. cbv zeta.
  set (req' := if cr_BlockSize req =? 0 then _ else req). clearbody req'.
  destruct (negb _); [by eapply told_weaken|]. apply leads_st.
  destruct (objectByName _ _ _) as [o|]; [by honestly Ht; hon|].
  apply (leads_of_res true); [done..|]. intros [[source size] bs]. apply (leads_of_res true); [done..|]. intros _.
  eapply (hon_bind_at true _ true); [done..| |]; [apply hon_silently; still|]. intros [v wwn] w1 l1 Hid Ht1.
  assert (Hval : validSeg v = true).
  { unfold silently, newIdentity, abind, random16, in_files, sys in Hid.
    destruct (fl_random (w_f w)) as [[b|e] f'] eqn:Hr; [|done].
    destruct (Hf b f' Hr) as (Hb & _). destruct (minted_uuid b Hb) as (Hv & _).
    destruct (newIdentity_of b) as [v' wwn']. injection Hid as -> _ _ _. by apply validUUID_plain. }
  pose proof (allocate_still v source size Hval) as Ha. pose proof (delete_still v Hval) as Hd.
  honestly Ht1. apply hon_get. intros c [Hroot _]. rewrite Hroot. hon.
Qed.
End logged.

(** ** The record of a request *)

Section requests.
Context {K F : Type} `{Kernel K} `{Disk F}.
Context (range : ∀ A, list A → list A) (range_perm : ∀ A (l : list A), range A l ≡ₚ l).
Context (mroot : string) (aptplRecords : option (Backstore → ST K (list string))) (pageSize : Z).
Context (marshal : db → string) (unmarshal : string → option Loaded).
Context (segs : list string) (Hne : segs ≠ []) (Hsegs : good_segs segs).
Notation world := (world K F).
Notation Logged := (Logged K F).
Notation dbPath := (abs (segs ++ ["appliance.json"])).
Notation perform := (perform (K := K) (F := F) range mroot aptplRecords pageSize marshal).
Notation perform_op := (perform_op (K := K) (F := F) range mroot aptplRecords pageSize marshal).
Notation reachable := (reachable (K := K) (F := F) range mroot aptplRecords pageSize marshal unmarshal).

(** The error an operation returns to its deferred [finish], beside its value or
    instead of it. *)
Definition error_of {A} (f : A → option aerr) (o : outcome A) : option aerr :=
  match o with Done a => f a | Fail e => Some e | Panic => None end.
Definition returned (r : request) (w : world) : option aerr :=
  match r with
  | RSetBindings ref replace add remove =>
      error_of beside (SetBindings range mroot aptplRecords marshal ref replace add remove w).1
  | RDisconnect kind o h => error_of beside (Disconnect range mroot aptplRecords marshal kind o h w).1
  | RClearReservation kind ref confirm =>
      error_of cleared_err (ClearReservation range mroot aptplRecords pageSize kind ref confirm w).1
  | _ => error_of no_err (perform r w).1
  end.

(** A record that says what a request did, from [w] to [w'], whose operation
    returned [err]. *)
Record true_record (ev : string) (err : option aerr) (w w' : world) (r : record) : Prop := mkTrue {
  tr_event : r_event r = ev;
  tr_durable : ∃ durable, attr r "durable" = Some (VBool durable) ∧
    (if durable
     then ∃ d, content dbPath (w_f w') = Some (marshal d +:+ nl_str) ∧ same_records d (c_st (w_c w'))
     else content dbPath (w_f w') = content dbPath (w_f w) ∧ same_records (c_st (w_c w)) (c_st (w_c w'))) ∧
    match err with
    | None => attr r "outcome" = Some (VStr outcomeSucceeded) ∧ r_level r = LevelInfo
    | Some e =>
        [("error", VErr e); ("error_code", VStr (errorCode e))] `suffix_of` r_attrs r ∧
        attr r "outcome" = Some (VStr (if durable then outcomePartial else outcomeFailed)) ∧
        r_level r = if durable then LevelWarn
                    else if StatusInternalServerError <=? status e then LevelError else LevelInfo
    end;
  tr_proven : attr r "durable_proven" = Some (VBool true) → attr r "durable" = Some (VBool true);
  tr_reconcile : ∃ v, attr r "reconcile_outcome" = Some (VStr v) ∧
    attr r "reconciled" = Some (VBool (String.eqb v reconcileSucceeded)) ∧
    (v = reconcileSucceeded → c_lastReconcileErr (w_c w') = None) ∧
    (v = reconcileFailed → c_lastReconcileErr (w_c w') ≠ None) }.

Lemma finish_attrs op err : let r := finish op err in
  r_event r = op_event op ∧ attr r "durable" = Some (VBool (op_persisted op)) ∧
  attr r "durable_proven" = Some (VBool (op_proven op)) ∧
  attr r "reconcile_outcome" = Some (VStr (op_reconcile op)) ∧
  attr r "reconciled" = Some (VBool (String.eqb (op_reconcile op) reconcileSucceeded)) ∧
  attr r "outcome" = Some (VStr (outcome_level op err).1) ∧ r_level r = (outcome_level op err).2 ∧
  ∀ e, err = Some e → [("error", VErr e); ("error_code", VStr (errorCode e))] `suffix_of` r_attrs r.
Proof.
  unfold finish. destruct (outcome_level op err) as [out lvl]. split_and!; try done. intros e ->. cbn [r_attrs].
  rewrite (assoc_L (++)). by apply suffix_app_r.
Qed.

Lemma with_op_recorded {A} ev f (m : Logged A) (w : world) l : placed segs (w_c w) →
  body_of marshal segs w ev f m w → (∃ new r, lg_out (m w l).2 = lg_out l ++ new ++ [r]) →
  let '(o, w', l') := m w l in
  o ≠ Panic → ∃ rs r, lg_out l' = lg_out l ++ rs ++ [r] ∧ true_record ev (error_of f o) w w' r.
Proof.
  intros Hp (a & n & b & -> & Hb) (new & last & Hends). unfold with_op in *.
  set (l0 := mkLogst (Some (beginOp ev a)) n (lg_noted l) (lg_out l)) in *.
  assert (Ht0 : told marshal segs w ev true w l0).
  { split; [done|]. exists (beginOp ev a). split; [done|]. by constructor. }
  specialize (Hb l0 Ht0). unfold leads in Hb.
  destruct (b w l0) as [[o w'] l']. cbn [fst snd lg_out] in *. intros Hnp.
  assert (Htold : told marshal segs w ev false w' l') by by destruct o.
  destruct Htold as (_ & op & Hop & [He Hpr Hd Hv]). rewrite Hop in Hends |- *. clear Hb.
  change (match o with Done x => f x | Fail e => Some e | Panic => None end) with (error_of f o) in *.
  set (err := error_of f o) in *. clearbody err.
  exists new, last. split; [done|]. rewrite (assoc_L (++)) in Hends.
  apply app_inj_tail in Hends as [_ <-].
  destruct (finish_attrs (opLog_set (lg_named l') op) err) as (E1 & E2 & E3 & E4 & E5 & E6 & E7 & E8).
  cbn [op_event op_persisted op_proven op_reconcile opLog_set] in *.
  constructor.
  - by rewrite E1.
  - exists (op_persisted op). split_and!; [done..|]. destruct err as [e|]; [|by rewrite E6, E7].
    split; [by apply E8|]. rewrite E6, E7. unfold outcome_level. cbn [op_persisted opLog_set]. by destruct (op_persisted op).
  - rewrite E3, E2. intros [= Hpv]. by rewrite Hpr.
  - exists (op_reconcile op). rewrite E4, E5. by destruct Hv.
Qed.

(** A request that returns a value, which the log does not see. *)
Lemma value_recorded {A} ev f (m : Logged A) (w : world) l : placed segs (w_c w) →
  body_of marshal segs w ev f m w →
  (∃ new r, lg_out (lbind m (λ _, lret tt) w l).2 = lg_out l ++ new ++ [r]) →
  let '(o, w', l') := lbind m (λ _, lret tt) w l in
  o ≠ Panic → ∃ rs r, lg_out l' = lg_out l ++ rs ++ [r] ∧ true_record ev (error_of f (m w l).1.1) w w' r.
Proof.
  intros Hp Hb Hends. rewrite ends_lret in Hends. pose proof (with_op_recorded ev f m w l Hp Hb Hends) as Hr.
  unfold lbind. destruct (m w l) as [[o w'] l']. destruct o as [a|e|]; [| |done]; intros Ho; by apply Hr.
Qed.
(** No error stands beside the value. *)
Lemma plain_recorded {A} ev (m : Logged A) (w : world) l : placed segs (w_c w) →
  body_of marshal segs w ev no_err m w →
  (∃ new r, lg_out (lbind m (λ _, lret tt) w l).2 = lg_out l ++ new ++ [r]) →
  let '(o, w', l') := lbind m (λ _, lret tt) w l in
  o ≠ Panic → ∃ rs r, lg_out l' = lg_out l ++ rs ++ [r] ∧
    true_record ev (error_of no_err (lbind m (λ _, lret tt) w l).1.1) w w' r.
Proof.
  intros Hp Hb Hends. pose proof (value_recorded ev no_err m w l Hp Hb Hends) as Hr.
  unfold lbind in *. by destruct (m w l) as [[[a|e|] w'] l'].
Qed.
Lemma unit_recorded ev (m : Logged unit) (w : world) l : placed segs (w_c w) →
  body_of marshal segs w ev no_err m w → (∃ new r, lg_out (m w l).2 = lg_out l ++ new ++ [r]) →
  let '(o, w', l') := m w l in
  o ≠ Panic → ∃ rs r, lg_out l' = lg_out l ++ rs ++ [r] ∧ true_record ev (error_of no_err (m w l).1.1) w w' r.
Proof.
  intros Hp Hb Hends. pose proof (with_op_recorded ev no_err m w l Hp Hb Hends) as Hr.
  by destruct (m w l) as [[o w'] l'].
Qed.
Lemma error_erased {A} (f : A → option aerr) (m : Logged A) m0 w l : erases (λ x, x) m m0 →
  error_of f (m0 w).1 = error_of f (m w l).1.1.
Proof. intros Hm. rewrite (Hm w l). by destruct (m w l) as [[[a|e|] w'] l']. Qed.
Lemma body_recorded r ev (w : world) l : sound (c_st (w_c w)) → fresh w → placed segs (w_c w) →
  event_of r = Some ev →
  let '(o, w', l') := perform_op r w l in
  o ≠ Panic → ∃ rs rec, lg_out l' = lg_out l ++ rs ++ [rec] ∧ true_record ev (returned r w) w w' rec.
Proof using Hne Hsegs.
  intros Hs Hf Hp Hev. assert (Hends : r ≠ RRecheckPR) by by intros ->.
  apply (ends_perform range mroot aptplRecords pageSize marshal) in Hends. specialize (Hends w l).
  pose proof (error_erased no_err _ _ w l (erases_perform range mroot aptplRecords pageSize marshal r)) as Hret.
  destruct r; cbn [event_of] in Hev; [..|done]; injection Hev as Hev; symmetry in Hev; cbn [perform_op returned] in *;
    first
      [ rewrite (error_erased _ _ _ w l (erases_SetBindings range mroot aptplRecords marshal _ _ _ _));
        apply value_recorded; [done | by apply told_SetBindings | done]
      | rewrite (error_erased _ _ _ w l (erases_Disconnect range mroot aptplRecords marshal _ _ _));
        apply value_recorded; [done | by apply told_Disconnect | done]
      | rewrite (error_erased _ _ _ w l (erases_ClearReservation range mroot aptplRecords pageSize _ _ _));
        apply value_recorded; [done | by apply told_Clear | done]
      | rewrite Hret; first [apply plain_recorded | apply unit_recorded]; try done;
        first [ by apply told_Create | by apply told_Rename | by apply told_Delete | by apply told_Resize
              | by apply told_CreateHost | by apply told_RenameHost | by apply told_DeleteHost
              | by apply told_Connect | by apply told_SetPortals ] ].
Qed.

(** C8. In a world a start on a usable document ([reachable]) and any requests
    led to, every request but the periodic re-check (its identifiers fresh,
    [fresh]) leaves one record of its own, last, whose event names the
    operation. What it says of the database is true: durable exactly when the
    database file holds the coordinator's records as they are now, and when it
    says false neither the file nor the records changed; durable_proven never
    without durable. Its outcome and level are those of the error the operation
    returned ([returned], the error beside a value included): none is succeeded
    at info; an error is in the record with its code, partial at warn when the
    change is durable, else failed, at error level exactly when its status is
    500 or more. A reconcile verdict of succeeded or failed agrees with the
    standing one /health publishes. Nothing is claimed of the kernel by the
    other words: ClearReservation tells its record of no reconcile, so a clear
    that dropped the fence and then failed is recorded failed and not-required,
    and SetPortals returns 409 for the appliance's own failures, recorded at
    info (both are findings). Logging changes nothing the request does. *)
Theorem request_recorded (r : request) (ev : string) (w : world) (l : logst) :
  reachable w → good_request r → fresh w → placed segs (w_c w) → event_of r = Some ev →
  let '(o, w', l') := perform_op r w l in
  perform r w = (o, w') ∧ ∃ rs rec, lg_out l' = lg_out l ++ rs ++ [rec] ∧ true_record ev (returned r w) w w' rec.
Proof using Hne Hsegs range_perm.
  intros Hr Hg Hf Hp Hev.
  pose proof (reachable_quiescent range range_perm mroot aptplRecords pageSize marshal unmarshal w Hr) as Hq.
  pose proof (perform_safe range range_perm mroot aptplRecords pageSize marshal r w Hq Hg Hf) as [Hnp _].
  pose proof (body_recorded r ev w l (proj1 (qu_admissible _ Hq)) Hf Hp Hev) as Hrec.
  rewrite (erases_perform range mroot aptplRecords pageSize marshal r w l) in Hnp |- *.
  destruct (perform_op r w l) as [[o w'] l']. cbn [fst snd] in *. split; [by destruct o as [[]|?|]|].
  apply Hrec. by intros ->.
Qed.
End requests.
