(* ===== verification/GoUrl.v ===== *)
(** * net/url, as far as the client and the server use it

    Percent-encoding of a path segment, of a whole path and of a query, and
    their decoders. A [URL] keeps the two forms of its path the way the
    package does: [u_Path] decoded, [u_RawPath] the encoding asked for, used
    only when it is a valid encoding of [u_Path]. *)

From S2P Require Import Prelude GoStrings Errors Netip LioModel LioValid Configfs FsPaths.

(** How a text is used: [url.encodePath], [encodePathSegment] and
    [encodeQueryComponent]. *)
Inductive encoding := encodePath | encodePathSegment | encodeQueryComponent.

Definition in_range (lo hi : Z) (c : ascii) : bool := (lo <=? byte_of c) && (byte_of c <=? hi).
Definition unreserved (c : ascii) : bool :=
  in_range 97 122 c || in_range 65 90 c || in_range 48 57 c
  || any (Ascii.eqb c) (chars "-_.~").
Definition shouldEscape (c : ascii) (mode : encoding) : bool :=
  if unreserved c then false
  else if any (Ascii.eqb c) (chars "$&+,/:;=?@")
  then match mode with
       | encodePath => Ascii.eqb c "?"%char
       | encodePathSegment => any (Ascii.eqb c) (chars "/;,?")
       | encodeQueryComponent => true
       end
  else true.

Definition upper_hex (d : Z) : ascii := if d <? 10 then chr (48 + d) else chr (55 + d).
Definition space : ascii := chr 32.
Definition escape_char (mode : encoding) (c : ascii) : string :=
  if Ascii.eqb c space && match mode with encodeQueryComponent => true | _ => false end then "+"
  else if shouldEscape c mode
  then String "%" (String (upper_hex (byte_of c / 16)) (str1 (upper_hex (byte_of c mod 16))))
  else str1 c.
Fixpoint escape (mode : encoding) (s : string) : string :=
  match s with
  | EmptyString => EmptyString
  | String c s => escape_char mode c +:+ escape mode s
  end.
Definition PathEscape : string → string := escape encodePathSegment.
Definition QueryEscape : string → string := escape encodeQueryComponent.

(** A percent sign takes two hex digits, or the text is refused; a plus is a
    space in a query only. *)
Fixpoint unescape (mode : encoding) (s : string) : option string :=
  match s with
  | EmptyString => Some EmptyString
  | String c s1 =>
      if Ascii.eqb c "%"%char then
        match s1 with
        | String a (String b s2) =>
            x ← hex_digit a; y ← hex_digit b; String (chr (16 * x + y)) <$> unescape mode s2
        | _ => None
        end
      else
        let c' := match mode with
                  | encodeQueryComponent => if Ascii.eqb c "+"%char then space else c
                  | _ => c
                  end in
        String c' <$> unescape mode s1
  end.

Definition validEncoded (s : string) : bool :=
  str_all (λ c, any (Ascii.eqb c) (chars "!$&'()*+,;=:@[]%") || negb (shouldEscape c encodePath)) s.

Record URL := mkURL { u_Scheme : string; u_Host : string; u_Path : string; u_RawPath : string; u_RawQuery : string }.
Definition EscapedPath (u : URL) : string :=
  if negb (String.eqb (u_RawPath u) "") && validEncoded (u_RawPath u)
     && bool_decide (unescape encodePath (u_RawPath u) = Some (u_Path u))
  then u_RawPath u
  else if String.eqb (u_Path u) "*" then "*"
  else escape encodePath (u_Path u).

(** A query, as the pairs it has: [Values.Encode] and [ParseQuery]. *)
Definition pair_le (a b : string * string) : bool := str_leb a.1 b.1.
Definition Values_Encode (q : list (string * string)) : string :=
  Join ((λ e : string * string, QueryEscape e.1 +:+ "=" +:+ QueryEscape e.2) <$> sort_by pair_le q) "&".
Definition parse_pair (s : string) : list (string * string) :=
  if String.eqb s "" || ContainsChar s ";"%char then []
  else
    let '(k, v) := default (s, "") (Cut s "=") in
    match unescape encodeQueryComponent k, unescape encodeQueryComponent v with
    | Some k, Some v => [(k, v)]
    | _, _ => []
    end.
Definition ParseQuery (s : string) : list (string * string) := mjoin (parse_pair <$> Split s "&"%char).

(** ** Decoding undoes encoding *)

Lemma unescape_char mode c s : unescape mode (escape_char mode c +:+ s) = String c <$> unescape mode s.
Proof.
  destruct c as [[] [] [] [] [] [] [] []], mode; reflexivity.
Qed.
Lemma unescape_escape mode s : unescape mode (escape mode s) = Some s.
Proof. induction s as [|c s IH]; [done|]. cbn [escape]. by rewrite unescape_char, IH. Qed.
(** A fact of each of the 256 characters. *)
Lemma every_char (f : ascii → bool) : forallb (λ z, f (chr z)) (seqZ 0 256) = true → ∀ c, f c = true.
Proof.
  intros Hf c. rewrite forallb_forall in Hf. rewrite <- (chr_byte c). apply Hf.
  pose proof (byte_range c). apply list_elem_of_In, elem_of_seqZ. lia.
Qed.
Lemma escape_char_ok : ∀ c,
  str_all (λ d, negb (any (Ascii.eqb d) (chars "&=;"))) (escape_char encodeQueryComponent c)
  && str_all (λ d, negb (Ascii.eqb d "/"%char)) (escape_char encodePathSegment c)
  && validEncoded (escape_char encodePathSegment c) = true.
Proof. apply every_char. vm_compute. reflexivity. Qed.
Lemma escape_char_free c : Forall (λ d, d ∉ chars "&=;") (chars (escape_char encodeQueryComponent c))
  ∧ Forall (λ d, d ≠ "/"%char) (chars (escape_char encodePathSegment c))
  ∧ validEncoded (escape_char encodePathSegment c) = true.
Proof.
  pose proof (escape_char_ok c) as Hc. apply andb_true_iff in Hc as [[H1 H2]%andb_true_iff H3].
  rewrite str_all_Forall in H1, H2. split_and!; [| |done]; eapply Forall_impl; try eassumption; intros d Hd.
  - apply negb_true_iff in Hd. rewrite any_false in Hd. intros Hin. apply Hd in Hin. by rewrite Ascii.eqb_refl in Hin.
  - by apply negb_true_iff, Ascii.eqb_neq in Hd.
Qed.

Lemma query_free s : Forall (λ d, d ∉ chars "&=;") (chars (QueryEscape s)).
Proof.
  induction s as [|c s IH]; [constructor|]. unfold QueryEscape. cbn [escape]. rewrite chars_app.
  apply Forall_app. split; [apply escape_char_free | exact IH].
Qed.
Lemma segment_free s : Forall (λ d, d ≠ "/"%char) (chars (PathEscape s)).
Proof.
  induction s as [|c s IH]; [constructor|]. unfold PathEscape. cbn [escape]. rewrite chars_app.
  apply Forall_app. split; [apply escape_char_free | exact IH].
Qed.
Lemma validEncoded_app s t : validEncoded (s +:+ t) = validEncoded s && validEncoded t.
Proof.
  unfold validEncoded. induction s as [|c s IH]; [done|].
  change (String c s +:+ t) with (String c (s +:+ t)). cbn [str_all]. by rewrite IH, andb_assoc.
Qed.
Lemma segment_valid s : validEncoded (PathEscape s) = true.
Proof.
  induction s as [|c s IH]; [done|]. unfold PathEscape. cbn [escape]. rewrite validEncoded_app.
  apply andb_true_iff. split; [apply escape_char_free | exact IH].
Qed.

(** A text without percent signs stands for itself, whatever follows. *)
Lemma unescape_plain s t : ContainsChar s "%"%char = false →
  unescape encodePath (s +:+ t) = (λ r, s +:+ r) <$> unescape encodePath t.
Proof.
  unfold ContainsChar. induction s as [|c s IH]; cbn [str_any]; [change ("" +:+ t) with t; by destruct (unescape encodePath t)|].
  intros [Hc Hs]%orb_false_iff. change (String c s +:+ t) with (String c (s +:+ t)). cbn [unescape].
  rewrite Ascii.eqb_sym, Hc, (IH Hs). by destruct (unescape encodePath t).
Qed.
Lemma unescape_segment s t : unescape encodePath (PathEscape s +:+ t) = (λ r, s +:+ r) <$> unescape encodePath t.
Proof.
  induction s as [|c s IH]; [change (PathEscape "" +:+ t) with t; by destruct (unescape encodePath t)|].
  assert (Hc : ∀ r, unescape encodePath (escape_char encodePathSegment c +:+ r) = String c <$> unescape encodePath r).
  { intros r. destruct c as [[] [] [] [] [] [] [] []]; reflexivity. }
  unfold PathEscape in *. cbn [escape]. rewrite app_assoc_str, Hc, IH. by destruct (unescape encodePath t).
Qed.

(** ** The path of a request *)

(** The segments a server's mux sees: the encoded path split, each segment
    decoded; [None] when one does not decode. *)
Definition mux_segments (path : string) : option (list string) :=
  match Split path slash with
  | "" :: segs => mapM (unescape encodePathSegment) segs
  | _ => None
  end.

Lemma PathEscape_free s : free_of slash (PathEscape s).
Proof. apply segment_free. Qed.
Lemma mapM_unescape segs : mapM (unescape encodePathSegment) (PathEscape <$> segs) = Some segs.
Proof. apply mapM_Some, Forall2_fmap_l, Forall_Forall2_diag, Forall_true. intros s. apply unescape_escape. Qed.
Lemma mux_segments_escaped segs : segs ≠ [] → mux_segments ("/" +:+ Join (PathEscape <$> segs) "/") = Some segs.
Proof.
  intros Hne. unfold mux_segments.
  assert (Hs : Split ("/" +:+ Join (PathEscape <$> segs) "/") slash = "" :: (PathEscape <$> segs)).
  { etrans; [apply (Split_sep "" _ slash); constructor|]. f_equal. apply Split_Join; [by destruct segs|].
    apply Forall_fmap, Forall_true. intros s. apply PathEscape_free. }
  rewrite Hs. apply mapM_unescape.
Qed.
Lemma validEncoded_Join segs : validEncoded (Join (PathEscape <$> segs) "/") = true.
Proof.
  induction segs as [|s segs IH]; [done|]. destruct segs as [|s' segs]; [apply segment_valid|].
  change (Join (PathEscape <$> (s :: s' :: segs)) "/") with (PathEscape s +:+ "/" +:+ Join (PathEscape <$> (s' :: segs)) "/").
  by rewrite !validEncoded_app, segment_valid, IH.
Qed.
Lemma unescape_Join segs : unescape encodePath (Join (PathEscape <$> segs) "/") = Some (Join segs "/").
Proof.
  induction segs as [|s segs IH]; [done|]. destruct segs as [|s' segs].
  - cbn [fmap list_fmap Join]. pose proof (unescape_segment s "") as Hs. cbn in Hs.
    assert (Hnil : ∀ t, t +:+ "" = t) .
    { induction t as [|c t IHt]; [done|]. change (String c t +:+ "") with (String c (t +:+ "")). by rewrite IHt. }
    by rewrite !Hnil in Hs.
  - change (Join (PathEscape <$> (s :: s' :: segs)) "/") with (PathEscape s +:+ "/" +:+ Join (PathEscape <$> (s' :: segs)) "/").
    rewrite unescape_segment, (unescape_plain "/") by done. by rewrite IH.
Qed.
