(* ===== verification/Client.v ===== *)
(** * applianceclient

    src/applianceclient/client.go: the requests each method builds, and what it
    makes of an answer. The transport is [http_Do], a parameter over any state;
    encoding/json is a parameter too: [marshal_body] for requests, a [Codec]
    per result type with what a decoder leaves in the value also when it fails.
    The types of the package are its own; an object and a host have the fields
    of the appliance's records. *)

From S2P Require Import Prelude GoStrings Errors Netip LioModel Configfs AppModel AppTranslate Storage.
From S2P Require Import AppCoordinator AppObjects AppHosts AppClear AppEvents AppRest GoUrl.

Definition clientPrefix : string := "/v1".
Definition maxErrorBody : Z := Z.shiftl 64 10.

(** ** Types *)

Record ClPortal := mkClPortal { clp_IP : string; clp_Port : Z }.
Record ClConnInfo := mkClConnInfo {
  cli_TargetIQN : string; cli_Portals : list ClPortal; cli_LUN : Z; cli_Wwid : string }.
Record ClConnection := mkClConnection {
  clc_Object : string; clc_ObjectKind : string; clc_ObjectUUID : string; clc_Host : string;
  clc_HostUUID : string; clc_LUN : Z; clc_TargetIQN : string; clc_Wwid : string }.
Record ClHealth := mkClHealth {
  clh_Status : string; clh_Error : string; clh_QuarantinedVolumeDirs : list string;
  clh_PRUnbound : list string; clh_PRStranded : list string; clh_PRStrandUndecided : list string;
  clh_ClearInProgress : string; clh_Withheld : list string; clh_DBBackupFailing : string;
  clh_AttributeDrift : list string; clh_PortalFlagIgnored : string; clh_IQNFlagIgnored : string }.
Definition noHealth : ClHealth := mkClHealth "" "" [] [] [] [] "" [] "" [] "" "".
Record ClTarget := mkClTarget { clt_TargetIQN : string; clt_Portals : list ClPortal }.
Record ClCreateRequest := mkClCreateRequest {
  clr_Name : string; clr_Size : Z; clr_BlockSize : Z; clr_Source : string; clr_SourceKind : string }.
Record ClCleared := mkClCleared {
  cld_Object : string; cld_Held : bool; cld_HeldKnown : bool; cld_Holder : string; cld_ISID : string;
  cld_Type : string; cld_SavedRecordDiscarded : bool; cld_Warning : string }.
Record HostResponse := mkHostResponse { hrp_Host : Host; hrp_Warning : string }.
Record DisconnectResponse := mkDisconnectResponse { drp_Disconnected : string; drp_Warning : string }.

(** [Error], a failure the appliance reported; any other error is not one. *)
Record ApiError := mkApiError { ae_StatusCode : Z; ae_Code : string; ae_Message : string; ae_Warning : string }.
Inductive clerr :=
  | CApi (e : ApiError)
  | CTransport (e : goerr)
  | COther (fmt : string) (args : list string).
Definition Error_text (e : ApiError) : string :=
  let s := if negb (String.eqb (ae_Code e) "")
           then "appliance: " +:+ ae_Message e +:+ " (" +:+ ae_Code e +:+ ", HTTP " +:+ itoa (ae_StatusCode e) +:+ ")"
           else "appliance: " +:+ ae_Message e +:+ " (HTTP " +:+ itoa (ae_StatusCode e) +:+ ")" in
  if String.eqb (ae_Warning e) "" then s else s +:+ " [WARNING: " +:+ ae_Warning e +:+ "]".
Definition IsCode (err : option clerr) (code : string) : bool :=
  match err with Some (CApi e) => String.eqb (ae_Code e) code | _ => false end.

(** ** Requests *)

Inductive cbody :=
  | JCreate (r : ClCreateRequest)
  | JName (name : string)
  | JSize (size : Z)
  | JConfirm (confirm : string)
  | JHost (name : string) (iqns : list string)
  | JIQNs (iqns : list string)
  | JAdd (iqns : list string)
  | JRemove (iqns : list string)
  | JConnect (host : string) (lun : Z).

(** What a decoder leaves in a value, and whether it reports no error: for one
    value of a stream, and for a whole text. *)
Record Codec (A : Type) := mkCodec { cd_zero : A; cd_decode : string → A * bool; cd_unmarshal : string → A * bool }.
Arguments mkCodec {A} _ _ _.
Arguments cd_zero {A} _.
Arguments cd_decode {A} _.
Arguments cd_unmarshal {A} _.
(** [out any]: a value to decode into, or nil. *)
Inductive into (A : Type) := Into (c : Codec A) | Nothing (a : A).
Arguments Into {A} _.
Arguments Nothing {A} _.
Definition zero_of {A} (o : into A) : A := match o with Into c => cd_zero c | Nothing a => a end.

Record creq := mkCreq { cq_Method : string; cq_URL : URL; cq_Body : option string }.
Record cresp := mkCresp { cp_StatusCode : Z; cp_Status : string; cp_Body : string; cp_ReadErr : option goerr }.

(** [strings.TrimRight s "/"]. *)
Fixpoint trim_right (s : string) : string :=
  match s with
  | EmptyString => EmptyString
  | String c s =>
      let t := trim_right s in
      if String.eqb t "" && Ascii.eqb c slash then "" else String c t
  end.
(** [New], of the parsed endpoint: the URL the client keeps. *)
Definition New (url_Parse : string → result string URL) (endpoint : string) : result clerr URL :=
  if String.eqb endpoint "" then Err (COther "applianceclient: empty endpoint" [])
  else
    match url_Parse endpoint with
    | Err msg => Err (COther "applianceclient: bad endpoint %q: %w" [endpoint; msg])
    | Ok u =>
        if negb (String.eqb (u_Scheme u) "http" || String.eqb (u_Scheme u) "https")
        then Err (COther "applianceclient: endpoint %q needs an http or https scheme" [endpoint])
        else if String.eqb (u_Host u) ""
        then Err (COther "applianceclient: endpoint %q has no host" [endpoint])
        else Ok (mkURL (u_Scheme u) (u_Host u) (trim_right (u_Path u)) (u_RawPath u) (u_RawQuery u))
    end.

Definition client_url (endpoint : URL) (query : list (string * string)) (segments : list string) : URL :=
  let base := u_Path endpoint +:+ clientPrefix in
  mkURL (u_Scheme endpoint) (u_Host endpoint)
    (base +:+ "/" +:+ Join segments "/") (base +:+ "/" +:+ Join (PathEscape <$> segments) "/")
    (match query with [] => u_RawQuery endpoint | _ => Values_Encode query end).

(** The results a method decodes. *)
Record Codecs := mkCodecs {
  j_object : Codec Object; j_objects : Codec (list Object); j_host : Codec Host; j_hosts : Codec (list Host);
  j_target : Codec ClTarget; j_resize : Codec bool; j_cleared : Codec ClCleared; j_bindings : Codec HostResponse;
  j_conninfo : Codec ClConnInfo; j_disconnect : Codec DisconnectResponse; j_connections : Codec (list ClConnection);
  j_health : Codec ClHealth;
  (* the error, its code and its warning *)
  j_error : string → option (string * string * string) }.

Section Client.
Context {T : Type} (http_Do : creq → ST T cresp).
Context (marshal_body : cbody → result string string) (json : Codecs) (endpoint : URL).

(** A call: its value, which is there also when it fails, and its error. *)
Definition Call (A : Type) : Type := T → A * option clerr * T.

Definition send (meth : string) (segments : list string) (query : list (string * string)) (body : option cbody)
    (w : T) : result clerr cresp * T :=
  let u := client_url endpoint query segments in
  let go (text : option string) :=
    match http_Do (mkCreq meth u text) w with
    | (Ok r, w) => (Ok r, w)
    | (Err e, w) => (Err (CTransport e), w)
    end in
  match body with
  | None => go None
  | Some b =>
      match marshal_body b with
      | Err msg => (Err (COther "applianceclient: encoding request: %w" [msg]), w)
      | Ok text => go (Some text)
      end
  end.

Definition errorFromBody (status : Z) (statusText raw : string) : ApiError :=
  let plain :=
    let m := TrimSpace raw in mkApiError status "" (if String.eqb m "" then statusText else m) "" in
  match j_error json raw with
  | Some (msg, code, warning) =>
      if negb (String.eqb msg "") then mkApiError status code msg warning else plain
  | None => plain
  end.

(** The status, the value and the error. *)
Definition doStatus {A} (meth : string) (segments : list string) (query : list (string * string))
    (body : option cbody) (out : into A) (w : T) : Z * A * option clerr * T :=
  match send meth segments query body w with
  | (Err e, w) => (0, zero_of out, Some e, w)
  | (Ok resp, w) =>
      let code := cp_StatusCode resp in
      if 300 <=? code then
        let raw := limit maxErrorBody (cp_Body resp) in
        let v := match out with Into c => (cd_unmarshal c raw).1 | Nothing a => a end in
        (code, v, Some (CApi (errorFromBody code (cp_Status resp) raw)), w)
      else
        match out with
        | Nothing a => (code, a, None, w)
        | Into c =>
            let '(v, ok) := cd_decode c (cp_Body resp) in
            (code, v, if ok then None
                      else Some (COther "applianceclient: decoding %s %s: %w" [meth; Join segments "/"]), w)
        end
  end.
Definition do_ {A} (meth : string) (segments : list string) (query : list (string * string))
    (body : option cbody) (out : into A) : Call A := λ w,
  let '(_, v, err, w) := doStatus meth segments query body out w in (v, err, w).
(** The calls that make something or find it there. *)
Definition do_created {A} (segments : list string) (body : cbody) (out : Codec A) : Call (A * bool) := λ w,
  let '(code, v, err, w) := doStatus "POST" segments [] (Some body) (Into out) w in
  ((v, code =? StatusCreated), err, w).

Definition Client_Health : Call ClHealth := λ w,
  match send "GET" ["health"] [] None w with
  | (Err e, w) => (noHealth, Some e, w)
  | (Ok resp, w) =>
      match cp_ReadErr resp with
      | Some e => (noHealth, Some (COther "applianceclient: reading health: %w" []), w)
      | None =>
          let raw := limit maxErrorBody (cp_Body resp) in
          let '(h, ok) := cd_unmarshal (j_health json) raw in
          if ok && negb (String.eqb (clh_Status h) "") then (h, None, w)
          else (noHealth, Some (CApi (errorFromBody (cp_StatusCode resp) (cp_Status resp) raw)), w)
      end
  end.
Definition Client_Target : Call ClTarget := do_ "GET" ["target"] [] None (Into (j_target json)).

Definition collection (k : string) : string := if String.eqb k KindSnapshot then "snapshots" else "volumes".
Definition create_ (kind : string) (req : ClCreateRequest) : Call (Object * bool) :=
  do_created [collection kind] (JCreate req) (j_object json).
Definition CreateVolume : ClCreateRequest → Call (Object * bool) := create_ KindVolume.
Definition CreateSnapshot : ClCreateRequest → Call (Object * bool) := create_ KindSnapshot.
Definition Client_List (kind : string) : Call (list Object) :=
  do_ "GET" [collection kind] [] None (Into (j_objects json)).
Definition Client_Get (kind ref : string) : Call Object :=
  do_ "GET" [collection kind; ref] [] None (Into (j_object json)).
Definition Client_Rename (kind ref newName : string) : Call Object :=
  do_ "PATCH" [collection kind; ref] [] (Some (JName newName)) (Into (j_object json)).
Definition Client_Delete (kind ref : string) : Call unit :=
  do_ "DELETE" [collection kind; ref] [] None (Nothing tt).
Definition Client_Resize (kind ref : string) (size : Z) : Call bool :=
  do_ "POST" [collection kind; ref; "resize"] [] (Some (JSize size)) (Into (j_resize json)).
Definition Client_ClearReservation (kind ref confirm : string) : Call ClCleared :=
  do_ "POST" [collection kind; ref; "clear-reservation"] [] (Some (JConfirm confirm)) (Into (j_cleared json)).
(** A nil list is sent as an empty one, so a list is enough. *)
Definition Client_CreateHost (name : string) (iqns : list string) : Call (Host * bool) :=
  do_created ["hosts"] (JHost name iqns) (j_host json).
Definition Client_ListHosts : Call (list Host) := do_ "GET" ["hosts"] [] None (Into (j_hosts json)).
Definition Client_GetHost (ref : string) : Call Host := do_ "GET" ["hosts"; ref] [] None (Into (j_host json)).
Definition Client_RenameHost (ref newName : string) : Call Host :=
  do_ "PATCH" ["hosts"; ref] [] (Some (JName newName)) (Into (j_host json)).
Definition Client_SetBindings (ref : string) (iqns : list string) : Call HostResponse :=
  do_ "PUT" ["hosts"; ref; "iqns"] [] (Some (JIQNs iqns)) (Into (j_bindings json)).
Definition AddBindings (ref : string) (iqns : list string) : Call HostResponse :=
  do_ "PATCH" ["hosts"; ref; "iqns"] [] (Some (JAdd iqns)) (Into (j_bindings json)).
Definition RemoveBindings (ref : string) (iqns : list string) : Call HostResponse :=
  do_ "PATCH" ["hosts"; ref; "iqns"] [] (Some (JRemove iqns)) (Into (j_bindings json)).
Definition Client_DeleteHost (ref : string) : Call unit := do_ "DELETE" ["hosts"; ref] [] None (Nothing tt).
Definition Client_Connect (kind objectRef hostRef : string) (lun : Z) : Call (ClConnInfo * bool) :=
  do_created [collection kind; objectRef; "connections"] (JConnect hostRef lun) (j_conninfo json).
Definition Client_Disconnect (kind objectRef hostRef : string) : Call DisconnectResponse :=
  do_ "DELETE" [collection kind; objectRef; "connections"; hostRef] [] None (Into (j_disconnect json)).
Definition given (k v : string) : list (string * string) := if String.eqb v "" then [] else [(k, v)].
Definition Client_ListConnections (objectRef objectKind hostRef : string) : Call (list ClConnection) :=
  do_ "GET" ["connections"] (given "object" objectRef ++ given "object_kind" objectKind ++ given "host" hostRef) None
    (Into (j_connections json)).
End Client.
