(* ===== verification/ClientProofs.v ===== *)
(** * applianceclient against the appliance's own routes

    Every call of the client, as a value ([call]): what it sends, and which
    route of the server it means. The server's view of a request is what
    net/http makes of its URL. *)

From S2P Require Import Prelude GoStrings Errors Netip LioModel LioValid Configfs FsPaths AppModel AppDb AppWf AppTranslate.
From S2P Require Import Storage AppCoordinator AppObjects AppHosts AppClear AppEvents AppRest GoUrl Client.

(** ** The query *)

Lemma chars_free_app c s t : free_of c (s +:+ t) ↔ free_of c s ∧ free_of c t.
Proof. unfold free_of. rewrite chars_app. apply Forall_app. Qed.
Lemma QueryEscape_free c s : c ∈ chars "&=;" → free_of c (QueryEscape s).
Proof. intros Hc. eapply Forall_impl; [apply query_free|]. by intros d Hd ->. Qed.
Lemma Cut_cons x s c : x ≠ c →
  Cut (String x s) (str1 c) = (λ p : string * string, (String x p.1, p.2)) <$> Cut s (str1 c).
Proof.
  intros Hx. unfold str1. cbn [Cut]. unfold CutPrefix, HasPrefix. cbn [String.prefix].
  destruct (ascii_dec c x) as [->|]; [done|]. by destruct (Cut s _) as [[]|].
Qed.
Lemma Cut_free a b c : free_of c a → Cut (a +:+ String c b) (str1 c) = Some (a, b).
Proof.
  unfold free_of. induction a as [|x a IH]; cbn [chars].
  - intros _. change ("" +:+ String c b) with (String c b). unfold str1. cbn [Cut]. unfold CutPrefix, HasPrefix. cbn.
    destruct (ascii_dec c c); [|done]. by destruct b.
  - intros [Hx Ha]%Forall_cons. change (String x a +:+ String c b) with (String x (a +:+ String c b)).
    by rewrite Cut_cons, IH.
Qed.
Lemma parse_pair_encoded k v : parse_pair (QueryEscape k +:+ "=" +:+ QueryEscape v) = [(k, v)].
Proof.
  unfold parse_pair.
  assert (Hne : String.eqb (QueryEscape k +:+ "=" +:+ QueryEscape v) "" = false) by by destruct (QueryEscape k).
  assert (Hsemi : ContainsChar (QueryEscape k +:+ "=" +:+ QueryEscape v) ";"%char = false).
  { apply ContainsChar_false. rewrite !chars_free_app. split_and!; [apply QueryEscape_free; set_solver | by repeat constructor |].
    apply QueryEscape_free; set_solver. }
  rewrite Hne, Hsemi. cbn [orb]. change ("=" +:+ QueryEscape v) with (String "=" (QueryEscape v)).
  change "=" with (str1 "="%char). rewrite (Cut_free _ _ "="%char) by (apply QueryEscape_free; set_solver). cbn [from_option id].
  rewrite !(unescape_escape encodeQueryComponent : ∀ s, unescape encodeQueryComponent (QueryEscape s) = Some s). done.
Qed.
Lemma ParseQuery_Encode q : q ≠ [] → ParseQuery (Values_Encode q) = sort_by pair_le q.
Proof.
  intros Hq. unfold ParseQuery, Values_Encode. change "&" with (str1 "&"%char) at 1. rewrite Split_Join.
  - generalize (sort_by pair_le q). intros l. induction l as [|[k v] l IH]; [done|]. cbn [fmap list_fmap].
    change (parse_pair (QueryEscape k +:+ "=" +:+ QueryEscape v) ++ mjoin (parse_pair <$>
      ((λ e : string * string, QueryEscape e.1 +:+ "=" +:+ QueryEscape e.2) <$> l)) = (k, v) :: l).
    by rewrite parse_pair_encoded, IH.
  - intros Hn. apply fmap_nil_inv in Hn. pose proof (sort_by_perm pair_le q) as Hp. rewrite Hn in Hp.
    by apply Permutation_nil_l in Hp.
  - apply Forall_fmap, Forall_true. intros e. cbn. rewrite !chars_free_app.
    split_and!; [apply QueryEscape_free; set_solver | by repeat constructor | apply QueryEscape_free; set_solver].
Qed.

(** ** Calls *)

Inductive call :=
  | KHealth | KTarget
  | KCreate (kind : string) (req : ClCreateRequest)
  | KList (kind : string) | KGet (kind ref : string) | KRename (kind ref newName : string)
  | KDelete (kind ref : string) | KResize (kind ref : string) (size : Z) | KClear (kind ref confirm : string)
  | KCreateHost (name : string) (iqns : list string) | KListHosts | KGetHost (ref : string)
  | KRenameHost (ref newName : string) | KSetBindings (ref : string) (iqns : list string)
  | KAddBindings (ref : string) (iqns : list string) | KRemoveBindings (ref : string) (iqns : list string)
  | KDeleteHost (ref : string) | KConnect (kind objectRef hostRef : string) (lun : Z)
  | KDisconnect (kind objectRef hostRef : string) | KConnections (objectRef objectKind hostRef : string).

(** What the caller means: the route of the server, the objects the path names
    in their order, the query, and the body. *)
Definition kind_of (k : string) : string := if String.eqb k KindSnapshot then KindSnapshot else KindVolume.
Definition means (c : call) : string * route * list string * option cbody :=
  match c with
  | KHealth => ("GET", GetHealth, [], None)
  | KTarget => ("GET", GetTarget, [], None)
  | KCreate k req => ("POST", PostObject (kind_of k), [], Some (JCreate req))
  | KList k => ("GET", ListObjects (kind_of k), [], None)
  | KGet k ref => ("GET", GetObject (kind_of k), [ref], None)
  | KRename k ref new => ("PATCH", PatchObject (kind_of k), [ref], Some (JName new))
  | KDelete k ref => ("DELETE", DeleteObject (kind_of k), [ref], None)
  | KResize k ref size => ("POST", PostResize (kind_of k), [ref], Some (JSize size))
  | KClear k ref confirm => ("POST", PostClear (kind_of k), [ref], Some (JConfirm confirm))
  | KCreateHost name iqns => ("POST", PostHost, [], Some (JHost name iqns))
  | KListHosts => ("GET", ListHosts_, [], None)
  | KGetHost ref => ("GET", GetHost_, [ref], None)
  | KRenameHost ref new => ("PATCH", PatchHost, [ref], Some (JName new))
  | KSetBindings ref iqns => ("PUT", PutIQNs, [ref], Some (JIQNs iqns))
  | KAddBindings ref iqns => ("PATCH", PatchIQNs, [ref], Some (JAdd iqns))
  | KRemoveBindings ref iqns => ("PATCH", PatchIQNs, [ref], Some (JRemove iqns))
  | KDeleteHost ref => ("DELETE", DeleteHost_, [ref], None)
  | KConnect k o h lun => ("POST", PostConnection (kind_of k), [o], Some (JConnect h lun))
  | KDisconnect k o h => ("DELETE", DeleteConnection (kind_of k), [o; h], None)
  | KConnections _ _ _ => ("GET", AllConnections, [], None)
  end.
Definition asked_query (c : call) (key : string) : string :=
  match c with
  | KConnections o k h =>
      if String.eqb key "object" then o else if String.eqb key "object_kind" then k
      else if String.eqb key "host" then h else ""
  | _ => ""
  end.

(** ** The request of a call *)

Section calls.
Context {T : Type} (http_Do : creq → ST T cresp).
Context (marshal_body : cbody → result string string) (json : Codecs) (endpoint : URL).

Definition after {A} (m : Call (T := T) A) (w : T) : T := (m w).2.
(** The method of the client, its value dropped. *)
Definition issue (c : call) : T → T :=
  match c with
  | KHealth => after (Client_Health http_Do marshal_body json endpoint)
  | KTarget => after (Client_Target http_Do marshal_body json endpoint)
  | KCreate k req => after (create_ http_Do marshal_body json endpoint k req)
  | KList k => after (Client_List http_Do marshal_body json endpoint k)
  | KGet k ref => after (Client_Get http_Do marshal_body json endpoint k ref)
  | KRename k ref new => after (Client_Rename http_Do marshal_body json endpoint k ref new)
  | KDelete k ref => after (Client_Delete http_Do marshal_body json endpoint k ref)
  | KResize k ref size => after (Client_Resize http_Do marshal_body json endpoint k ref size)
  | KClear k ref confirm => after (Client_ClearReservation http_Do marshal_body json endpoint k ref confirm)
  | KCreateHost name iqns => after (Client_CreateHost http_Do marshal_body json endpoint name iqns)
  | KListHosts => after (Client_ListHosts http_Do marshal_body json endpoint)
  | KGetHost ref => after (Client_GetHost http_Do marshal_body json endpoint ref)
  | KRenameHost ref new => after (Client_RenameHost http_Do marshal_body json endpoint ref new)
  | KSetBindings ref iqns => after (Client_SetBindings http_Do marshal_body json endpoint ref iqns)
  | KAddBindings ref iqns => after (AddBindings http_Do marshal_body json endpoint ref iqns)
  | KRemoveBindings ref iqns => after (RemoveBindings http_Do marshal_body json endpoint ref iqns)
  | KDeleteHost ref => after (Client_DeleteHost http_Do marshal_body json endpoint ref)
  | KConnect k o h lun => after (Client_Connect http_Do marshal_body json endpoint k o h lun)
  | KDisconnect k o h => after (Client_Disconnect http_Do marshal_body json endpoint k o h)
  | KConnections o k h => after (Client_ListConnections http_Do marshal_body json endpoint o k h)
  end.

Lemma after_do {A} meth segs q b (out : into A) w :
  after (do_ http_Do marshal_body json endpoint meth segs q b out) w = (send http_Do marshal_body endpoint meth segs q b w).2.
Proof.
  unfold after, do_, doStatus. destruct (send _ _ _ _ _ _ _ w) as [[r|e] w']; [|done].
  destruct (300 <=? _); [done|]. destruct out as [c|a]; [|done]. by destruct (cd_decode c _).
Qed.
Lemma after_created {A} segs b (out : Codec A) w :
  after (do_created http_Do marshal_body json endpoint segs b out) w
  = (send http_Do marshal_body endpoint "POST" segs [] (Some b) w).2.
Proof.
  unfold after, do_created. rewrite <- (after_do "POST" segs [] (Some b) (Into out) w). unfold after, do_.
  by destruct (doStatus _ _ _ _ _ _ _ _ _ w) as [[[code v] err] w'].
Qed.
Lemma after_health w :
  after (Client_Health http_Do marshal_body json endpoint) w = (send http_Do marshal_body endpoint "GET" ["health"] [] None w).2.
Proof.
  unfold after, Client_Health. destruct (send _ _ _ _ _ _ _ w) as [[r|e] w']; [|done].
  destruct (cp_ReadErr r); [done|]. cbv zeta. destruct (cd_unmarshal _ _) as [h ok]. by destruct (_ && _).
Qed.

(** The path and query of a call. *)
Definition path_of (c : call) : list string :=
  let kind k := collection k in
  match c with
  | KHealth => ["health"]
  | KTarget => ["target"]
  | KCreate k _ | KList k => [kind k]
  | KGet k ref | KRename k ref _ | KDelete k ref => [kind k; ref]
  | KResize k ref _ => [kind k; ref; "resize"]
  | KClear k ref _ => [kind k; ref; "clear-reservation"]
  | KCreateHost _ _ | KListHosts => ["hosts"]
  | KGetHost ref | KRenameHost ref _ | KDeleteHost ref => ["hosts"; ref]
  | KSetBindings ref _ | KAddBindings ref _ | KRemoveBindings ref _ => ["hosts"; ref; "iqns"]
  | KConnect k o _ _ => [kind k; o; "connections"]
  | KDisconnect k o h => [kind k; o; "connections"; h]
  | KConnections _ _ _ => ["connections"]
  end.
Definition query_of (c : call) : list (string * string) :=
  match c with
  | KConnections o k h => given "object" o ++ given "object_kind" k ++ given "host" h
  | _ => []
  end.
Lemma issue_sends c w :
  issue c w = (send http_Do marshal_body endpoint (means c).1.1.1 (path_of c) (query_of c) (means c).2 w).2.
Proof.
  destruct c; first [apply after_health | apply (after_created _ _ _ w) | apply (after_do _ _ _ _ _ w)].
Qed.
End calls.

(** ** What the server makes of it *)

(** A name that no cleaning of the path removes. *)
Definition addressable (ref : string) : Prop := ref ≠ "" ∧ ref ≠ "." ∧ ref ≠ "..".
(** net/http's reading of the URL: the segments, when the path needs no
    cleaning, and the query. The server is reached below [mount], the segments a
    proxy in front of it strips; none, when the daemon is addressed itself. *)
Fixpoint strip (mount segs : list string) : option (list string) :=
  match mount, segs with
  | [], _ => Some segs
  | m :: mount, s :: segs => if String.eqb m s then strip mount segs else None
  | _, [] => None
  end.
Lemma strip_app mount l : strip mount (mount ++ l) = Some l.
Proof. induction mount as [|m ms IH]; [done|]. cbn. by rewrite String.eqb_refl. Qed.
Definition server_view (mount : list string) (r : creq) : option http :=
  segs ← mux_segments (EscapedPath (cq_URL r));
  if bool_decide (Forall addressable segs)
  then segs ← strip mount segs;
       Some (mkHttp (cq_Method r) segs (ParseQuery (u_RawQuery (cq_URL r))) (default "" (cq_Body r)))
  else None.

(** The path of the endpoint is this mount, of segments that need no escaping. *)
Definition plain_segment (s : string) : Prop := addressable s ∧ PathEscape s = s.
Definition path_text (segs : list string) : string := foldr (λ s t, "/" +:+ s +:+ t) "" segs.
Definition mounted_at (endpoint : URL) (mount : list string) : Prop :=
  Forall plain_segment mount ∧ u_Path endpoint = path_text mount.

Lemma path_text_app l l' : path_text (l ++ l') = path_text l +:+ path_text l'.
Proof.
  induction l as [|s l IH]; [done|].
  change (path_text ((s :: l) ++ l')) with ("/" +:+ s +:+ path_text (l ++ l')).
  change (path_text (s :: l)) with ("/" +:+ s +:+ path_text l). by rewrite IH, !app_assoc_str.
Qed.
Lemma path_text_Join l : l ≠ [] → path_text l = "/" +:+ Join l "/".
Proof.
  induction l as [|s l IH]; [done|]. intros _. destruct l as [|s' l].
  - assert (Hnil : ∀ t : string, t +:+ "" = t).
    { induction t as [|c t IHt]; [done|]. change (String c t +:+ "") with (String c (t +:+ "")). by rewrite IHt. }
    cbn [path_text foldr Join]. by rewrite Hnil.
  - change (path_text (s :: s' :: l)) with ("/" +:+ s +:+ path_text (s' :: l)). rewrite IH by done.
    by change (Join (s :: s' :: l) "/") with (s +:+ "/" +:+ Join (s' :: l) "/").
Qed.

Section view.
Context (endpoint : URL) (mount : list string) (Hbase : mounted_at endpoint mount).

Lemma client_path q segs : segs ≠ [] →
  mux_segments (EscapedPath (client_url endpoint q segs)) = Some (mount ++ APIPrefix :: segs).
Proof using Hbase.
  intros Hne. destruct Hbase as [Hplain Hpath]. unfold client_url, EscapedPath. rewrite Hpath. cbv zeta.
  cbn [u_Path u_RawPath].
  assert (Hall : ∀ l, l ≠ [] → (path_text mount +:+ clientPrefix) +:+ "/" +:+ Join l "/"
                 = "/" +:+ Join (mount ++ APIPrefix :: l) "/").
  { intros l Hl. rewrite <- (path_text_Join (mount ++ APIPrefix :: l)) by by destruct mount.
    rewrite path_text_app, app_assoc_str. f_equal. rewrite path_text_Join by done. by destruct l. }
  rewrite !Hall by (done || by destruct segs).
  assert (Hesc : mount ++ APIPrefix :: (PathEscape <$> segs) = PathEscape <$> (mount ++ APIPrefix :: segs)).
  { assert (Hm : PathEscape <$> mount = mount).
    { clear -Hplain. induction Hplain as [|s l [_ Hs] _ IH]; [done|]. by rewrite fmap_cons, Hs, IH. }
    by rewrite fmap_app, fmap_cons, Hm. }
  rewrite Hesc. set (all := mount ++ APIPrefix :: segs). assert (Hne' : all ≠ []) by by destruct mount.
  assert (Hv : validEncoded ("/" +:+ Join (PathEscape <$> all) "/") = true) by by rewrite validEncoded_app, validEncoded_Join.
  rewrite Hv. rewrite bool_decide_true; [|by rewrite (unescape_plain "/") by done; rewrite unescape_Join].
  cbn [negb String.eqb andb]. by apply mux_segments_escaped.
Qed.
(** What the server makes of a request of the client. *)
Lemma client_view meth q segs text : segs ≠ [] → Forall addressable segs →
  server_view mount (mkCreq meth (client_url endpoint q segs) text)
  = Some (mkHttp meth (APIPrefix :: segs) (ParseQuery (u_RawQuery (client_url endpoint q segs))) (default "" text)).
Proof using Hbase.
  intros Hne Hsegs. unfold server_view. cbn [cq_URL cq_Method cq_Body]. rewrite client_path by done.
  cbn [mbind option_bind]. rewrite bool_decide_true; [by rewrite strip_app|]. apply Forall_app. split.
  - eapply Forall_impl; [apply Hbase|]. by intros s [? _].
  - by constructor.
Qed.
End view.
(** The query is the call's; when it has none, the endpoint's is left. *)
Lemma client_query endpoint q segs : q ≠ [] ∨ u_RawQuery endpoint = "" →
  ParseQuery (u_RawQuery (client_url endpoint q segs)) = sort_by pair_le q.
Proof.
  unfold client_url. cbv zeta. cbn [u_RawQuery].
  destruct q as [|e q]; [intros [?| ->]; done|]. intros _. by apply ParseQuery_Encode.
Qed.

(** ** Every call arrives where it is meant to *)

Definition call_refs (c : call) : list string := (means c).1.2.
Lemma dispatch_call c : Forall addressable (call_refs c) →
  dispatch (means c).1.1.1 (path_of c) = Ok ((means c).1.1.2, call_refs c).
Proof.
  unfold call_refs, addressable.
  destruct c; cbn [means fst snd path_of]; rewrite ?Forall_cons; intros Hr; destruct_and?;
    unfold kind_of, collection;
    repeat match goal with |- context [String.eqb ?k KindSnapshot] => destruct (String.eqb k KindSnapshot) end;
    repeat match goal with H : ?r ≠ "" |- _ => destruct r; [done|]; clear H end; reflexivity.
Qed.
Lemma path_addressable c : Forall addressable (call_refs c) → Forall addressable (path_of c).
Proof.
  assert (Hk : ∀ k, addressable (collection k)) by (intros k; unfold collection; by destruct (String.eqb k KindSnapshot)).
  unfold call_refs. destruct c; cbn [means fst snd path_of]; rewrite ?Forall_cons; intros Hr; destruct_and?;
    repeat (constructor; [first [apply Hk | assumption | by split_and!]|]); constructor.
Qed.
Lemma path_nonempty c : path_of c ≠ [].
Proof. by destruct c. Qed.
Lemma query_Get_cons k v l key : query_Get ((k, v) :: l) key = if String.eqb k key then v else query_Get l key.
Proof.
  unfold query_Get, first. rewrite filter_cons. cbn [fst]. by destruct (String.eqb k key); case_decide.
Qed.
Lemma query_call c key : query_Get (sort_by pair_le (query_of c)) key = asked_query c key.
Proof.
  destruct c; try done. cbn [query_of asked_query]. unfold given.
  destruct (String.eqb_spec objectRef "") as [->|], (String.eqb_spec objectKind "") as [->|], (String.eqb_spec hostRef "") as [->|];
    match goal with |- context [sort_by ?f ?q] => let x := eval vm_compute in (sort_by f q) in change (sort_by f q) with x end;
    rewrite ?query_Get_cons, ?(String.eqb_sym _ key);
    destruct (String.eqb_spec key "object") as [H1|], (String.eqb_spec key "object_kind") as [H2|],
      (String.eqb_spec key "host") as [H3|]; congruence || done.
Qed.

(** A transport that remembers what it was given. *)
Definition recording (reply : creq → result goerr cresp) : creq → ST (list creq) cresp := λ r l, (reply r, l ++ [r]).
Definition marshalled (marshal_body : cbody → result string string) (c : call) : result string (option string) :=
  match (means c).2 with
  | None => Ok None
  | Some b => match marshal_body b with Ok text => Ok (Some text) | Err msg => Err msg end
  end.

Section arrive.
Context (marshal_body : cbody → result string string) (json : Codecs).

(** C16. Every call of the client arrives at the route it means, naming exactly
    what the caller named, when the path of its endpoint (if it has one) needs
    no escaping and is what a proxy in front of the server strips ([mounted_at];
    with a base path that needs escaping a slash in a reference adds segments,
    [DaemonWitnesses.ClientWitnesses.escaped_base_splits_reference]). Whatever
    the transport answers, a call makes one request (none when its body does
    not encode), and the server that reads it finds the path under /v1 in as
    many segments as were meant, and dispatches it to the route of the call
    with the caller's references — spaces, slashes, percent signs and all — as
    the values of its wildcards. In the query it finds what the caller asked,
    under each key; a query of the endpoint itself is sent with the calls that
    have none, and may then be what is read. The references must not be empty,
    "." or "..", which no name the appliance accepts is. *)
Theorem calls_arrive (endpoint : URL) (mount : list string) (reply : creq → result goerr cresp) (c : call)
    (l : list creq) (Hbase : mounted_at endpoint mount) (Hrefs : Forall addressable (call_refs c)) :
  (∀ name, validName name = Ok tt → addressable name) ∧
  match marshalled marshal_body c with
  | Err _ => issue (recording reply) marshal_body json endpoint c l = l
  | Ok text =>
      ∃ r rq segs, issue (recording reply) marshal_body json endpoint c l = l ++ [r] ∧ cq_Body r = text ∧
        server_view mount r = Some rq ∧ ht_Path rq = APIPrefix :: segs ∧
        dispatch (ht_Method rq) segs = Ok ((means c).1.1.2, call_refs c) ∧
        (query_of c ≠ [] ∨ u_RawQuery endpoint = "" → ∀ key, query_Get (ht_Query rq) key = asked_query c key)
  end.
Proof.
  split; [intros name (Hn & _ & _ & Hd & Hdd & _)%validName_spec; by split_and!|].
  rewrite issue_sends. unfold marshalled, send.
  set (u := client_url endpoint (query_of c) (path_of c)).
  assert (Hgo : ∀ text, ∃ r rq segs,
    (match recording reply (mkCreq (means c).1.1.1 u text) l with
     | (Ok r, w) => (Ok r, w) | (Err e, w) => (Err (CTransport e), w) end).2 = l ++ [r] ∧ cq_Body r = text ∧
    server_view mount r = Some rq ∧ ht_Path rq = APIPrefix :: segs ∧
    dispatch (ht_Method rq) segs = Ok ((means c).1.1.2, call_refs c) ∧
    (query_of c ≠ [] ∨ u_RawQuery endpoint = "" → ∀ key, query_Get (ht_Query rq) key = asked_query c key)).
  { intros text. eexists (mkCreq (means c).1.1.1 u text), _, (path_of c).
    split_and!; [unfold recording; by destruct (reply (mkCreq (means c).1.1.1 u text)) | done | | | |].
    - apply client_view; [done | apply path_nonempty | by apply path_addressable].
    - done.
    - by apply dispatch_call.
    - intros Hq key. cbn [ht_Query]. rewrite client_query by done. apply query_call. }
  destruct (means c).2 as [b|]; [|apply Hgo]. destruct (marshal_body b); [apply Hgo | done].
Qed.
End arrive.
