(* ===== verification/ClientServer.v ===== *)
(** * applianceclient and the appliance, put together

    The transport of the client is the handler of the server: a request is
    read by [server_view], served in a world of the appliance, and its answer
    sent back as text. What the client then tells its caller is compared with
    what happened to the world. *)

From S2P Require Import Prelude GoStrings Errors Netip LioModel Configfs LioAptpl LioApply LioSync.
From S2P Require Import LioDelta LioStranded AppModel AppDb AppWf AppPortals AppTranslate AppTranslateProofs.
From S2P Require Import Storage AppAptpl AppCoordinator AppObjects AppHosts AppIdentity AppClear AppEvents AppRest.
From S2P Require Import AppRun AppAnswers AppSteady AppMutations AppRequests AppClearProofs AppReach AppRestProofs.
From S2P Require Import GoUrl Client ClientProofs.

Section served.
Context {K F : Type} `{Kernel K} `{Files F}.
Context (range : ∀ A, list A → list A) (range_perm : ∀ A (l : list A), range A l ≡ₚ l).
Context (mroot : string) (aptplRecords : option (Backstore → ST K (list string))) (pageSize : Z).
Context (marshal : db → string) (unmarshal : string → option Loaded).
Context (decoders : Decoders) (statusText : Z → string) (render : response → string).
Context (marshal_body : cbody → result string string) (json : Codecs) (endpoint : URL) (mount : list string).

Notation world := (world K F).
Notation reachable := (reachable (K := K) (F := F) range mroot aptplRecords pageSize marshal unmarshal).
Notation Handler := (Handler (K := K) (F := F) range mroot aptplRecords pageSize marshal decoders).
Notation handle := (handle (K := K) (F := F) range mroot aptplRecords pageSize marshal decoders).

(** A request that is redirected, that a proxy does not know or whose handler
    panics, is a failed transport. *)
Definition served : creq → ST world cresp := λ r w,
  match server_view mount r with
  | None => (Err (wrapf "redirected" []), w)
  | Some rq =>
      match Handler rq w with
      | (Done rs, w) => (Ok (mkCresp (rs_Code rs) (statusText (rs_Code rs)) (render rs) None), w)
      | (_, w) => (Err (wrapf "EOF" []), w)
      end
  end.

(** The client reads what the server wrote: the record, or the code and the
    message of an error, which fits into what the client reads of it. *)
Definition read_back {A} (c : Codec A) (is_value : body → A → Prop) (rs : response) : Prop :=
  match rs_Body rs with
  | BError code _ => ∃ msg warning, msg ≠ "" ∧ j_error json (limit maxErrorBody (render rs)) = Some (msg, code, warning)
  | b => ∃ v, cd_decode c (render rs) = (v, true) ∧ is_value b v
  end.

(** The request a call makes, and what the server answers in a world. *)
Definition request_of (c : call) : option creq :=
  match marshalled marshal_body c with
  | Ok text => Some (mkCreq (means c).1.1.1 (client_url endpoint (query_of c) (path_of c)) text)
  | Err _ => None
  end.
Definition answer_to (c : call) (w : world) : option response :=
  rq ← (r ← request_of c; server_view mount r);
  match Handler rq w with (Done rs, _) => Some rs | _ => None end.

(** What a creating call tells its caller, against what happened. *)
Definition truthful_answer {A} (is_value : body → A → Prop) (w : world) (r : (A * bool) * option clerr * world) : Prop :=
  let '((v, made), err, w') := r in
  reachable w' ∧
  match err with
  | Some e => ∃ code, e = CApi code ∧ ae_StatusCode code ∈ error_statuses ∧ ae_Code code ≠ ""
  | None =>
      if made then ∃ b, is_value b v ∧ created (w_c w) (w_c w') b
      else w' = w
  end.

(** A creating route answers with a record or with an error. *)
Definition record_or_error (b : body) : Prop := is_record b ∨ ∃ code e, b = BError code e.
Lemma creation_body {A} (m : App K F (A * bool)) (g : A → body) : (∀ a, is_record (g a)) →
  ∀ w rs w', answering m (respond_created g) w = (Done rs, w') → record_or_error (rs_Body rs).
Proof.
  intros Hg w rs w'. unfold answering, abind, atry. destruct (m w) as [[[a made]|e|] w1]; cbn; [| |done]; intros [= <- _].
  - left. apply Hg.
  - right. by eexists _, _.
Qed.
Lemma creating_body rt vs q text w rs w' : creating rt = true →
  handle rt vs q text w = (Done rs, w') → record_or_error (rs_Body rs).
Proof.
  intros Hc. destruct rt; try discriminate; cbn [AppRest.handle]; unfold with_body;
    (destruct (readJSON _ text) as [b|e]; [|intros [= <- _]; right; by eexists _, _]); by apply creation_body.
Qed.

Lemma served_creates {A} (c : call) (segs : list string) (b : cbody) (out : Codec A) (is_value : body → A → Prop) (w : world) :
  mounted_at endpoint mount → means c = ("POST", (means c).1.1.2, call_refs c, Some b) → path_of c = segs → query_of c = [] →
  creating (means c).1.1.2 = true → kind_ok (means c).1.1.2 →
  Forall addressable (call_refs c) → (∃ text, marshal_body b = Ok text) → reachable w → fresh w →
  (∀ rs, answer_to c w = Some rs → read_back out is_value rs) →
  truthful_answer is_value w (do_created served marshal_body json endpoint segs b out w).
Proof using range_perm.
  intros Hbase Hm <- Hq Hc Hk Hrefs [text Htext] Hr Hf Hread.
  pose proof (dispatch_call c Hrefs) as Hd. rewrite Hm in Hd. cbn [fst snd] in Hd.
  unfold do_created, doStatus, send. rewrite Htext.
  pose proof (client_view endpoint mount Hbase "POST" [] (path_of c) (Some text) (path_nonempty c)
    (path_addressable c Hrefs)) as Hview. change (default "" (Some text)) with text in Hview.
  set (q := ParseQuery (u_RawQuery (client_url endpoint [] (path_of c)))) in Hview. clearbody q.
  set (rq := mkHttp "POST" (APIPrefix :: path_of c) q text) in Hview.
  unfold served. rewrite Hview.
  assert (HH : Handler rq = handle (means c).1.1.2 (call_refs c) q text).
  { unfold AppRest.Handler. cbn [ht_Path ht_Method ht_Query ht_Body rq]. rewrite String.eqb_refl. by rewrite Hd. }
  destruct (handle_lives range range_perm mroot aptplRecords pageSize marshal unmarshal decoders
    (means c).1.1.2 (call_refs c) q text w Hk Hr Hf) as (rs & w' & Hrun & Hreach).
  pose proof (reachable_quiescent range range_perm mroot aptplRecords pageSize marshal unmarshal w Hr) as Hqu.
  destruct (handle_explains range range_perm mroot aptplRecords pageSize marshal decoders (means c).1.1.2 (call_refs c) q
    text w Hc Hk Hqu Hf rs w' Hrun) as (Hok & Hmade & Hsame).
  pose proof (creating_body _ _ _ _ _ _ _ Hc Hrun) as Hbody. rewrite HH, Hrun. cbn [cp_StatusCode cp_Body cp_Status].
  assert (Hans : answer_to c w = Some rs).
  { unfold answer_to, request_of, marshalled. rewrite Hm. cbn [fst snd]. rewrite Htext, Hq. cbn [mbind option_bind].
    rewrite Hview. cbn [mbind option_bind]. by rewrite HH, Hrun. }
  clear Hrun. apply Hread in Hans as Hrun. unfold read_back in Hrun. unfold answer_ok in Hok.
  destruct Hbody as [Hrec|(code & e & Hb)].
  - assert (Hcode : rs_Code rs = StatusOK ∨ rs_Code rs = StatusCreated) by by destruct (rs_Body rs).
    assert (Hval : ∃ v, cd_decode out (render rs) = (v, true) ∧ is_value (rs_Body rs) v) by by destruct (rs_Body rs).
    destruct Hval as (v & Hv & Hisv).
    assert (Hlt : (300 <=? rs_Code rs) = false) by by destruct Hcode as [-> | ->].
    rewrite Hlt, Hv. cbn. split; [done|]. destruct Hcode as [Hcode|Hcode]; rewrite Hcode in *; cbn.
    + by apply Hsame.
    + exists (rs_Body rs). split; [done | by apply Hmade].
  - rewrite Hb in Hok, Hrun. destruct Hok as (Hst & Hne & _). destruct Hrun as (msg & warning & Hmsg & Hj).
    assert (Hge : (300 <=? rs_Code rs) = true).
    { assert (HF : Forall (λ s, (300 <=? s) = true) error_statuses) by repeat constructor.
      rewrite Forall_forall in HF. by apply HF. }
    rewrite Hge. cbn. split; [done|]. eexists. split; [done|]. unfold errorFromBody. rewrite Hj.
    apply String.eqb_neq in Hmsg. rewrite Hmsg. by split.
Qed.

Definition is_object (b : body) (o : Object) : Prop := b = BObject o.
Definition is_host (b : body) (h : Host) : Prop := b = BHost h.
Definition is_conninfo (b : body) (i : ClConnInfo) : Prop :=
  ∃ info, b = BConn info ∧ cli_TargetIQN i = ci_TargetIQN info ∧ cli_LUN i = ci_LUN info ∧ cli_Wwid i = ci_Wwid info.
Definition readable (c : call) (rs : response) : Prop :=
  match c with
  | KCreate _ _ => read_back (j_object json) is_object rs
  | KCreateHost _ _ => read_back (j_host json) is_host rs
  | KConnect _ _ _ _ => read_back (j_conninfo json) is_conninfo rs
  | _ => True
  end.

(** C15. What the client says of a create is what happened. Put together with
    the server over a reachable appliance, each call that can make something —
    a volume or a snapshot, a host, a connection — leaves the appliance
    reachable, and: when it says the thing was created, the value it returns
    is that of the record the appliance has just appended; when it says it was
    already there, nothing at all has changed, so a retry is safe; when it
    returns an error, that is the appliance's, with one of its error statuses
    and a machine code to branch on. The conditions: the document the appliance
    was started on records no block size of zero (with one, a connect can
    panic, and the client is told of a broken transport instead); the drawn
    identifiers are not in use; the path of the endpoint, if any, needs no
    escaping and is what a proxy strips ([mounted_at]); no reference is empty, "."
    or ".."; request bodies encode, and the client decodes what the server
    rendered. *)
Theorem creates_told (c : call) (w : world) (Hbase : mounted_at endpoint mount) (Hr : reachable w) (Hf : fresh w)
    (Hbody : ∀ b, (means c).2 = Some b → ∃ text, marshal_body b = Ok text)
    (Hread : ∀ rs, answer_to c w = Some rs → readable c rs)
    (Hrefs : Forall addressable (call_refs c)) :
  match c with
  | KCreate kind req => truthful_answer is_object w (create_ served marshal_body json endpoint kind req w)
  | KCreateHost name iqns => truthful_answer is_host w (Client_CreateHost served marshal_body json endpoint name iqns w)
  | KConnect kind o h lun => truthful_answer is_conninfo w (Client_Connect served marshal_body json endpoint kind o h lun w)
  | _ => True
  end.
Proof using range_perm.
  destruct c; try exact I.
  - apply (served_creates (KCreate kind req)); try done; [cbn; unfold kind_of; destruct (String.eqb kind KindSnapshot); auto | by apply Hbody].
  - apply (served_creates (KCreateHost name iqns)); try done. by apply Hbody.
  - apply (served_creates (KConnect kind objectRef hostRef lun)); try done. by apply Hbody.
Qed.
End served.
