(* ===== verification/Saveconfig.v ===== *)
(** * saveconfig and hostlock: the configuration as a file, the writer's lock

    src/saveconfig and src/hostlock, over a [machine]: the kernel and the file
    system. [HostFiles] adds to [Files] what these two packages ask of the
    operating system. encoding/json is a parameter: [encode] is
    json.MarshalIndent of a [Config]; [decode] is one strict Decode of a
    stream, with the text it leaves unread. *)

From S2P Require Import Prelude GoStrings Errors LioModel Configfs LioAptpl LioApply Trace LioSync Storage.

Record machine (K F : Type) := mkMachine { m_k : K; m_f : F }.
Arguments mkMachine {K F} _ _.
Arguments m_k {K F} _.
Arguments m_f {K F} _.
#[global] Instance machine_trace {K F} `{HasTrace K} : HasTrace (machine K F) := λ w, trace (m_k w).

(** os.CreateTemp (the path made), the opening of a lock file (a descriptor),
    and flock. *)
Class HostFiles (F : Type) `{Files F} := {
  fl_createtemp : string → string → string → F → result errno string * F;  (* dir, prefix, suffix *)
  fl_openlock : string → F → result errno Z * F;
  fl_flock : Z → F → result errno unit * F;                                 (* LOCK_EX|LOCK_NB *)
  fl_funlock : Z → F → F;
  fl_fclose : Z → F → F
}.

Section machine.
Context {K F : Type}.
Definition on_kernel {A} (m : ST K A) : ST (machine K F) A :=
  λ w, let '(r, k) := m (m_k w) in (r, mkMachine k (m_f w)).
Definition on_files {A} (m : ST F A) : ST (machine K F) A :=
  λ w, let '(r, f) := m (m_f w) in (r, mkMachine (m_k w) f).
End machine.

(** ** hostlock.go *)

Definition DefaultLockPath : string := "/run/lock/glitr-lio.lock".
Definition EWOULDBLOCK : errno := EOTHER 11.

(** The open file, while the lock is held. *)
Record Lock := mkLock { lk_path : string; lk_f : option Z }.
Definition Lock_New (path : string) : Lock :=
  mkLock (if String.eqb path "" then DefaultLockPath else path) None.

Section Lock.
Context {F : Type} `{HostFiles F}.

(** The lock a method changes beside its answer. *)
Definition TryLock (l : Lock) (f : F) : result goerr bool * Lock * F :=
  match lk_f l with
  | Some _ => (Err (wrapf "hostlock: %s is already held by this Lock" [lk_path l]), l, f)
  | None =>
      match fs_MkdirAll (Dir (lk_path l)) f with
      | (Err e, f) => (Err (ErrWrap "lock dir: %w" [] e), l, f)
      | (Ok _, f) =>
          match sys "open" (lk_path l) (fl_openlock (lk_path l)) f with
          | (Err e, f) => (Err (ErrWrap "open lock %s: %w" [lk_path l] e), l, f)
          | (Ok fd, f) =>
              match fl_flock fd f with
              | (Err e, f) =>
                  let f := fl_fclose fd f in
                  if decide (e = EWOULDBLOCK) then (Ok false, l, f)
                  else (Err (ErrWrap "flock %s: %w" [lk_path l] (ErrSys "flock" (lk_path l) e)), l, f)
              | (Ok _, f) => (Ok true, mkLock (lk_path l) (Some fd), f)
              end
          end
      end
  end.
Definition Unlock (l : Lock) (f : F) : Lock * F :=
  match lk_f l with
  | None => (l, f)
  | Some fd => (mkLock (lk_path l) None, fl_fclose fd (fl_funlock fd f))
  end.
End Lock.

(** ** saveconfig.go *)

Definition DefaultPath : string := "/etc/glitr/lio-config.json".

(** What a JSON decoder skips before it finds the end of its input. *)
Definition json_blank (s : string) : bool := str_all (λ c, any (Ascii.eqb c) [chr 32; chr 9; chr 13; nl]) s.

Section saveconfig.
Context {K F : Type} `{Kernel K} `{HostFiles F} (root : string).
Context (aptplRecords : option (Backstore → ST K (list string))).
Context (encode : Config → result string string) (decode : string → result string (Config * string)).
Notation machine := (machine K F).

(** [if err := m(); err != nil { tmp.Close(); return err }]. *)
Definition or_close (tmp : string) (m : ST F unit) : ST F unit :=
  do r <- try m;
  match r with
  | Ok _ => ret tt
  | Err e => try (fs_Close tmp);; throw e
  end.
Definition save_file (path data : string) : ST F unit :=
  let dir := Dir path in
  fs_MkdirAll dir;;
  do tmp <- sys "open" dir (fl_createtemp dir ".lio-config-" ".tmp");
  deferred
    (or_close tmp (fop "write" tmp (FWrite tmp data));;
     or_close tmp (fs_Sync tmp);;
     fs_Close tmp;;
     fs_Rename tmp path;;
     syncDir dir)
    (fs_Remove tmp).
Definition Save (path : string) : ST machine unit :=
  do cfg <- on_kernel (Discover root);
  match encode cfg with
  | Err msg => throw (wrapf msg [])
  | Ok data => on_files (save_file path (data +:+ nl_str))
  end.

(** The opening of the file and its reading are one call; either error is
    returned. *)
Definition Load (path : string) : ST F Config :=
  do data <- fs_ReadFile path;
  match decode data with
  | Err msg => throw (ErrWrap "saveconfig: %s: %w" [path] (wrapf msg []))
  | Ok (cfg, rest) =>
      if json_blank rest
      then do _ <- of_result (Config_Validate cfg); ret cfg
      else throw (wrapf "saveconfig: %s: trailing content after the configuration object" [path])
  end.

Definition Restore (path : string) (w : machine) : Report * option goerr * machine :=
  match Load path (m_f w) with
  | (Err e, f) => (emptyReport, if IsNotExist e then None else Some e, mkMachine (m_k w) f)
  | (Ok cfg, f) =>
      let '(rep, err, k) := Sync root aptplRecords cfg (m_k w) in (rep, err, mkMachine k f)
  end.
End saveconfig.
