(* ===== verification/SaveconfigProofs.v ===== *)
(** * saveconfig: what a saved file is worth

    [HostDisk] is what the saving of a file relies on: [Disk], and that a
    temporary file is a new one. Saving replaces the file whole or leaves it;
    restoring changes the kernel only for a file that was understood to its
    last byte. *)

From S2P Require Import Prelude GoStrings Errors Netip LioModel LioValid Configfs FsPaths LioAptpl LioApply Trace.
From S2P Require Import LioEffects LioSync LioSafety AppTranslate Storage AppDisk Saveconfig.

Class HostDisk (F : Type) `{Disk F} `{!HostFiles F} := {
  temp_made d pre suf f t f' : fl_createtemp d pre suf f = (Ok t, f') →
    HasPrefix t (d +:+ "/" +:+ pre) = true ∧ content t f' = Some "" ∧ ∀ q, q ≠ t → content q f' = content q f;
  temp_failed d pre suf f e f' q : fl_createtemp d pre suf f = (Err e, f') → content q f' = content q f
}.

Section proofs.
Context {K F : Type} `{HL : LoggedKernel K} `{HD : HostDisk F} (root : string) (segs : list string).
Context (aptplRecords : option (Backstore → ST K (list string))).
Context (encode : Config → result string string) (decode : string → result string (Config * string)).
Notation machine := (machine K F).
Notation Save := (Save (K := K) (F := F) root encode).
Notation Restore := (Restore (K := K) (F := F) root aptplRecords decode).

(** A computation over the files, and what it leaves at [path]: as it was, or
    [data]. *)
Definition replaces (path data : string) (f : F) (r : result goerr unit * F) : Prop :=
  match r with
  | (Ok _, f') => content path f' = Some data
  | (Err _, f') => content path f' = content path f ∨ content path f' = Some data
  end.

Lemma leaves_close q t (m : ST F unit) : leaves q m → leaves q (or_close t m).
Proof using.
  intros Hm. unfold or_close. apply leaves_bind; [by apply leaves_try|]. intros [u|e] _; [done|].
  apply leaves_bind; [apply leaves_try, leaves_fop; by intros []|]. done.
Qed.
Lemma or_close_Ok t (m : ST F unit) f f' : or_close t m f = (Ok tt, f') → m f = (Ok tt, f').
Proof using.
  unfold or_close, bind, try. destruct (m f) as [[[]|e] f1]; [by intros [= <-]|].
  destruct (fs_Close t f1) as [r f2]. done.
Qed.

(** The part of a save after the temporary file was made. *)
Lemma save_body_replaces path t data f : path ≠ t → content t f = Some "" →
  replaces path data f
    ((or_close t (fop "write" t (FWrite t data));; or_close t (fs_Sync t);; fs_Close t;; fs_Rename t path;;
      syncDir (Dir path)) f).
Proof using.
  intros Hpt Ht.
  assert (Hw : leaves path (or_close t (fop "write" t (FWrite t data)))) by (apply leaves_close, leaves_fop; cbn; done).
  assert (Hs : ∀ q, leaves q (or_close t (fs_Sync t))) by (intros q; apply leaves_close, leaves_fop; by intros []).
  assert (Hc : ∀ q, leaves q (fs_Close t)) by (intros q; apply leaves_fop; by intros []).
  assert (Hd : ∀ q, leaves q (syncDir (Dir path))) by (intros q; apply leaves_fop; by intros []).
  unfold bind at 1. specialize (Hw f). destruct (or_close t (fop _ _ _) f) as [[[]|e] f1] eqn:E1; [|by left].
  apply or_close_Ok, fop_Ok in E1. pose proof (disk_write _ _ _ _ E1) as Hdata. rewrite Ht in Hdata. cbn in Hdata, Hw.
  unfold bind at 1. pose proof (Hs path f1) as Hp2. pose proof (Hs t f1) as Ht2.
  destruct (or_close t (fs_Sync t) f1) as [[[]|e] f2]; cbn in Hp2, Ht2; [|left; by rewrite Hp2].
  unfold bind at 1. pose proof (Hc path f2) as Hp3. pose proof (Hc t f2) as Ht3.
  destruct (fs_Close t f2) as [[[]|e] f3]; cbn in Hp3, Ht3; [|left; by rewrite Hp3, Hp2].
  unfold bind. destruct (fs_Rename t path f3) as [[[]|e] f4] eqn:E4.
  - apply fop_Ok in E4. pose proof (disk_rename _ _ _ _ E4) as Hr.
    assert (Hfin : content path f4 = Some data) by by rewrite Hr, Ht3, Ht2.
    pose proof (Hd path f4) as Hp5. destruct (syncDir (Dir path) f4) as [[[]|e] f5]; cbn in Hp5; cbn; rewrite Hp5; auto.
  - left. unfold fs_Rename, fop, sys in E4. destruct (fl_op (FRename t path) f3) as [[[]|e0] f4'] eqn:Hop; [done|].
    injection E4 as _ <-. rewrite (disk_rename_err _ _ _ _ _ _ Hop). by rewrite Hp3, Hp2.
Qed.

Lemma save_file_replaces path data f : HasPrefix path (Dir path +:+ "/" +:+ ".lio-config-") = false →
  replaces path data f (save_file path data f).
Proof using HD.
  intros Hpre. unfold save_file. unfold bind at 1.
  assert (Hm : leaves path (fs_MkdirAll (Dir path))) by (apply leaves_fop; by intros []).
  specialize (Hm f). destruct (fs_MkdirAll (Dir path) f) as [[[]|e] f1]; cbn in Hm; [|by left].
  unfold bind at 1, sys. destruct (fl_createtemp _ _ _ f1) as [[t|e] f2] eqn:Ht.
  2:{ left. by rewrite (temp_failed _ _ _ _ _ _ path Ht). }
  destruct (temp_made _ _ _ _ _ _ Ht) as (Htp & Htc & Hto).
  assert (Hpt : path ≠ t) by (intros ->; by rewrite Htp in Hpre).
  pose proof (save_body_replaces path t data f2 Hpt Htc) as Hb. unfold deferred, bind at 1, try at 1.
  assert (Hrm : leaves path (fs_Remove t)) by (apply leaves_fop; cbn; done).
  destruct ((or_close t _;; _) f2) as [r f3]. unfold bind, try, of_result. specialize (Hrm f3).
  destruct (fs_Remove t f3) as [r4 f4]. cbn in Hrm.
  assert (Hf2 : content path f2 = content path f) by by rewrite Hto, Hm.
  destruct r as [u|e]; cbn in Hb |- *; rewrite Hrm; [done|]. by rewrite <- Hf2.
Qed.

(** C25. A saved configuration is whole, and restoring it asks for exactly the
    state that was discovered. When Save succeeds, the file holds, whole, the
    encoding of the configuration read from the kernel, and a later Restore of
    it — where the decoder inverts the encoder, the configuration validates,
    and the file can be read — is the Sync of that configuration; when Save
    fails, the file is what it was, or already the new one whole. Save asks
    the kernel for no change. *)
Theorem Save_restores (path : string) (w : machine)
    (Hpath : HasPrefix path (Dir path +:+ "/" +:+ ".lio-config-") = false) :
  let '(r, w') := Save path w in
  trace w' = trace w ∧
  match r with
  | Err _ =>
      content path (m_f w') = content path (m_f w) ∨
      ∃ cfg data, (Discover root (m_k w)).1 = Ok cfg ∧ encode cfg = Ok data ∧ content path (m_f w') = Some (data +:+ nl_str)
  | Ok _ =>
      ∃ cfg data, (Discover root (m_k w)).1 = Ok cfg ∧ encode cfg = Ok data ∧
      content path (m_f w') = Some (data +:+ nl_str) ∧
      ∀ rest k2, decode (data +:+ nl_str) = Ok (cfg, rest) → json_blank rest = true → Config_Validate cfg = Ok tt →
        let '(rep, err, w2) := Restore path (mkMachine k2 (m_f w')) in
        (rep, err, m_k w2) = Sync root aptplRecords cfg k2 ∨ (is_Some err ∧ m_k w2 = k2)
  end.
Proof using HL HD.
  unfold Saveconfig.Save, bind, on_kernel.
  assert (Hq : trace (Discover root (m_k w)).2 = trace (m_k w)).
  { destruct (Discover root (m_k w)) as [r k] eqn:Hd.
    exact (quiet_run (Discover root) (m_k w) r k (emits_Discover root _) Hd). }
  destruct (Discover root (m_k w)) as [[cfg|e] k]; cbn in Hq; [|split; [done | by left]].
  destruct (encode cfg) as [data|msg] eqn:He; [|split; [done | by left]]. unfold on_files. cbn [m_f m_k].
  pose proof (save_file_replaces path (data +:+ nl_str) (m_f w) Hpath) as Hrep.
  destruct (save_file path _ (m_f w)) as [[u|e] f']; cbn in Hrep.
  - split; [done|]. exists cfg, data. split_and!; [done..|]. intros rest k2 Hdec Hblank Hval.
    unfold Saveconfig.Restore, Load. cbn [m_f m_k]. unfold bind at 1, fs_ReadFile, sys.
    pose proof (disk_read path f') as Hr. pose proof (disk_read_missing path f') as Hm.
    destruct (fl_readfile path f') as [[d|en] f2]; cbn [fst] in *.
    + specialize (Hr d eq_refl). rewrite Hrep in Hr. injection Hr as <-. rewrite Hdec, Hblank.
      unfold bind, of_result. rewrite Hval. cbn. destruct (Sync _ _ _ _) as [[rep err] k3]. by left.
    + assert (Hen : en ≠ ENOENT) by (intros ->; by rewrite Hm in Hrep). cbn. right.
      rewrite bool_decide_false by done. by split; [eexists|].
  - split; [done|]. destruct Hrep as [Hrep|Hrep]; [by left|]. right. by exists cfg, data.
Qed.

(** C26. Restore never acts on a file it did not understand. Either the kernel
    is exactly as it was — because there is no such file, which is no error, or
    with an error, because the file could not be read, is not one JSON value of
    the strict shape, goes on after it, or is not a valid configuration — or
    the whole file is one valid configuration, Restore is its Sync, and the
    only directories the kernel is asked to remove are those the configuration
    of the file does not describe and those of live portals in the way of its
    portals. *)
Theorem Restore_understands (path : string) (w : machine) (Hroot : clean_root root segs)
    (Hprovider : quiet_provider aptplRecords) :
  let '(rep, err, w') := Restore path w in
  (m_k w' = m_k w ∧ rep = emptyReport ∧ (err = None → content path (m_f w) = None)) ∨
  ∃ data cfg rest l, content path (m_f w) = Some data ∧ decode data = Ok (cfg, rest) ∧ json_blank rest = true ∧
    valid_config cfg ∧ (rep, err, m_k w') = Sync root aptplRecords cfg (m_k w) ∧
    trace w' = trace w ++ l ∧ Forall (prunes_only root cfg (Discover root (m_k w)).1) l.
Proof using HL HD.
  unfold Saveconfig.Restore, Load. unfold bind at 1, fs_ReadFile, sys.
  pose proof (disk_read path (m_f w)) as Hr. pose proof (disk_read_missing path (m_f w)) as Hm.
  destruct (fl_readfile path (m_f w)) as [[d|en] f2]; cbn [fst] in *.
  2:{ left. cbn. split_and!; [done..|]. destruct (bool_decide_reflect (en = ENOENT)) as [->|]; [|done].
      intros _. by apply Hm. }
  specialize (Hr d eq_refl). destruct (decode d) as [[cfg rest]|msg] eqn:Hdec; [|by left].
  destruct (json_blank rest) eqn:Hb; [|by left]. unfold bind, of_result.
  destruct (Config_Validate cfg) as [[]|e] eqn:V.
  2:{ left. assert (Hlio : IsNotExist e = false).
      { destruct e; try done. by destruct (Config_Validate_kinds _ _ V). }
      rewrite Hlio. by split_and!. }
  cbn [ret]. destruct (Sync_prunes_only root segs aptplRecords cfg (m_k w) Hroot Hprovider) as (l & Hl & Hp).
  apply Config_Validate_spec in V. unfold ret.
  destruct (Sync root aptplRecords cfg (m_k w)) as [[rep err] k3] eqn:Hs. right.
  exists d, cfg, rest, l. by split_and!.
Qed.
End proofs.
