(* ===== verification/Lish.v ===== *)
(** * lish: a shell over the configuration

    src/lish and src/cmd/lish. A [Shell] is the source's struct with the
    machine it runs on and the text it has printed. A node of the navigable
    tree is a record of the fields its kind uses; a command reads the tree
    through the configuration cached for it, edits a discovered configuration
    and hands it to the Manager. The edits are functions of a [Config]: the
    bodies of the closures the source passes to mutate. *)

From S2P Require Import Prelude GoStrings Errors Netip LioModel Configfs LioAptpl LioApply Trace LioSync.
From S2P Require Import AppModel AppTranslate Storage Saveconfig.

(** ** node.go *)

Inductive kind :=
  | kRoot | kBackstores | kBSType | kBackstore | kISCSI | kTarget | kTPG | kLUNs | kLUN
  | kACLs | kACL | kMappedLUN | kPortals | kPortal.
#[global] Instance kind_eq_dec : EqDecision kind.
Proof. solve_decision. Defined.

Record Node := mkNode {
  n_kind : kind; n_name : string; n_btype : string; n_iqn : string; n_tag : Z; n_initiator : string;
  n_index : Z; n_portal : Portal }.
#[global] Instance Node_eq_dec : EqDecision Node.
Proof. solve_decision. Defined.

Definition noPortal : Portal := mkPortal AddrZero 0.
Definition rootNode : Node := mkNode kRoot "" "" "" 0 "" 0 noPortal.
Definition backstoresNode : Node := mkNode kBackstores "backstores" "" "" 0 "" 0 noPortal.
Definition iscsiNode : Node := mkNode kISCSI "iscsi" "" "" 0 "" 0 noPortal.
Definition bsTypeNode (bt : string) : Node := mkNode kBSType bt bt "" 0 "" 0 noPortal.
Definition backstoreNode (b : Backstore) : Node := mkNode kBackstore (bs_Name b) (bs_Type b) "" 0 "" 0 noPortal.
Definition targetNode (iqn : string) : Node := mkNode kTarget iqn "" iqn 0 "" 0 noPortal.
Definition tpgNode (iqn : string) (tag : Z) : Node := mkNode kTPG ("tpg" +:+ itoa tag) "" iqn tag "" 0 noPortal.
(** luns, acls and portals of a TPG. *)
Definition groupNode (k : kind) (name iqn : string) (tag : Z) : Node := mkNode k name "" iqn tag "" 0 noPortal.
Definition lunNode (iqn : string) (tag i : Z) : Node :=
  mkNode kLUN ("lun" +:+ itoa i) "" iqn tag "" i noPortal.
Definition aclNode (iqn : string) (tag : Z) (initiator : string) : Node :=
  mkNode kACL initiator "" iqn tag initiator 0 noPortal.
Definition mappedNode (iqn : string) (tag : Z) (initiator : string) (i : Z) : Node :=
  mkNode kMappedLUN ("mapped_lun" +:+ itoa i) "" iqn tag initiator i noPortal.
Definition portalLabel (p : Portal) : string := Portal_String p.
Definition portalNode (iqn : string) (tag : Z) (p : Portal) : Node :=
  mkNode kPortal (portalLabel p) "" iqn tag "" 0 p.

Definition parsePortalLabel (s : string) : option Portal :=
  match ParsePortal s with
  | Some p => Some (if p_Port p =? 0 then mkPortal (p_IP p) DefaultPortalPort else p)
  | None => None
  end.

(** The first TPG that matches, over all targets of that name. *)
Definition tpgOf (cfg : Config) (iqn : string) (tag : Z) : option TPG :=
  first (λ g, g_Tag g =? tag)
    (mjoin (t_TPGs <$> filter (λ t, String.eqb (t_IQN t) iqn = true) (c_Targets cfg))).
Definition aclsOf (g : TPG) (initiator : string) : list ACL :=
  filter (λ a, String.eqb (acl_InitiatorIQN a) initiator = true) (g_ACLs g).

(** [children], of the configuration [sh.config()] gave. *)
Definition children_of (cfg : Config) (n : Node) : list Node :=
  let iqn := n_iqn n in
  let tag := n_tag n in
  let of_tpg (f : TPG → list Node) : list Node :=
    match tpgOf cfg iqn tag with Some g => f g | None => [] end in
  match n_kind n with
  | kRoot => [backstoresNode; iscsiNode]
  | kBackstores => [bsTypeNode FileIO; bsTypeNode IBlock]
  | kBSType => backstoreNode <$> filter (λ b, String.eqb (bs_Type b) (n_btype n) = true) (c_Backstores cfg)
  | kISCSI => (λ t, targetNode (t_IQN t)) <$> c_Targets cfg
  | kTarget =>
      (λ g, tpgNode iqn (g_Tag g)) <$>
        mjoin (t_TPGs <$> filter (λ t, String.eqb (t_IQN t) iqn = true) (c_Targets cfg))
  | kTPG => [groupNode kLUNs "luns" iqn tag; groupNode kACLs "acls" iqn tag; groupNode kPortals "portals" iqn tag]
  | kLUNs => of_tpg (λ g, (λ l, lunNode iqn tag (l_Index l)) <$> g_LUNs g)
  | kACLs => of_tpg (λ g, (λ a, aclNode iqn tag (acl_InitiatorIQN a)) <$> g_ACLs g)
  | kACL => of_tpg (λ g,
      (λ m, mappedNode iqn tag (n_initiator n) (ml_Index m)) <$> mjoin (acl_MappedLUNs <$> aclsOf g (n_initiator n)))
  | kPortals => of_tpg (λ g, portalNode iqn tag <$> g_Portals g)
  | _ => []
  end.

Definition bracket (s : string) : string := "[" +:+ s +:+ "]".
Definition itoa_len {A} (l : list A) : string := itoa (Z.of_nat (length l)).
Definition or_empty (o : option string) : string := default "" o.
Definition summary_of (cfg : Config) (n : Node) : string :=
  let g := tpgOf cfg (n_iqn n) (n_tag n) in
  match n_kind n with
  | kBackstore =>
      or_empty ((λ b, bracket (bs_Dev b +:+ if String.eqb (bs_WWN b) "" then "" else " wwid=" +:+ bs_WWN b)) <$>
        first (λ b, String.eqb (bs_Type b) (n_btype n) && String.eqb (bs_Name b) (n_name n)) (c_Backstores cfg))
  | kTarget =>
      or_empty ((λ t, bracket ("TPGs: " +:+ itoa_len (t_TPGs t))) <$>
        first (λ t, String.eqb (t_IQN t) (n_iqn n)) (c_Targets cfg))
  | kTPG => or_empty ((λ g : TPG, if g_Enable g then "[enabled]" else "[disabled]") <$> g)
  | kLUN =>
      or_empty (g ≫= λ g, (λ l, bracket ("-> " +:+ l_Backstore l)) <$>
        first (λ l, l_Index l =? n_index n) (g_LUNs g))
  | kACL =>
      or_empty (g ≫= λ g, (λ a, bracket ("Mapped LUNs: " +:+ itoa_len (acl_MappedLUNs a))) <$>
        head (aclsOf g (n_initiator n)))
  | kMappedLUN =>
      or_empty (g ≫= λ g, (λ m, bracket ("-> lun" +:+ itoa (ml_TPGLUN m) +:+ if ml_WriteProtect m then " ro" else "")) <$>
        first (λ m, ml_Index m =? n_index n) (mjoin (acl_MappedLUNs <$> aclsOf g (n_initiator n))))
  | _ => ""
  end.

(** [parentOf]: from the fields alone. *)
Definition parentOf (n : Node) : Node :=
  match n_kind n with
  | kRoot | kBackstores | kISCSI => rootNode
  | kBSType => backstoresNode
  | kBackstore => bsTypeNode (n_btype n)
  | kTarget => iscsiNode
  | kTPG => targetNode (n_iqn n)
  | kLUNs | kACLs | kPortals => tpgNode (n_iqn n) (n_tag n)
  | kLUN => groupNode kLUNs "luns" (n_iqn n) (n_tag n)
  | kACL => groupNode kACLs "acls" (n_iqn n) (n_tag n)
  | kMappedLUN => aclNode (n_iqn n) (n_tag n) (n_initiator n)
  | kPortal => groupNode kPortals "portals" (n_iqn n) (n_tag n)
  end.
(** How far a kind is below the root. *)
Definition depth (k : kind) : nat :=
  match k with
  | kRoot => 0 | kBackstores | kISCSI => 1 | kBSType | kTarget => 2 | kBackstore | kTPG => 3
  | kLUNs | kACLs | kPortals => 4 | kLUN | kACL | kPortal => 5 | kMappedLUN => 6
  end.
(** The loop of [pathOf]; one step goes one level up. *)
Fixpoint segs_of (fuel : nat) (n : Node) (segs : list string) : list string :=
  match fuel with
  | O => segs
  | S fuel => if decide (n_kind n = kRoot) then segs else segs_of fuel (parentOf n) (n_name n :: segs)
  end.
Definition pathOf (n : Node) : string :=
  if decide (n_kind n = kRoot) then "/" else "/" +:+ Join (segs_of (depth (n_kind n)) n []) "/".

(** ** commands.go: the edits *)

Definition Edit : Type := Config → result goerr Config.
Definition with_Backstores (bs : list Backstore) (c : Config) : Config := mkConfig bs (c_Targets c).
Definition with_Targets (ts : list Target) (c : Config) : Config := mkConfig (c_Backstores c) ts.
Definition with_TPGs (gs : list TPG) (t : Target) : Target := mkTarget (t_IQN t) gs.
Definition with_LUNs (v : list LUN) (g : TPG) : TPG :=
  mkTPG (g_Tag g) (g_Enable g) (g_Portals g) v (g_ACLs g) (g_Attributes g).
Definition with_ACLs (v : list ACL) (g : TPG) : TPG :=
  mkTPG (g_Tag g) (g_Enable g) (g_Portals g) (g_LUNs g) v (g_Attributes g).
Definition with_Portals (v : list Portal) (g : TPG) : TPG :=
  mkTPG (g_Tag g) (g_Enable g) v (g_LUNs g) (g_ACLs g) (g_Attributes g).
Definition with_Enable (v : bool) (g : TPG) : TPG :=
  mkTPG (g_Tag g) v (g_Portals g) (g_LUNs g) (g_ACLs g) (g_Attributes g).
Definition with_TPGAttribute (k v : string) (g : TPG) : TPG :=
  mkTPG (g_Tag g) (g_Enable g) (g_Portals g) (g_LUNs g) (g_ACLs g) (<[k := v]> (g_Attributes g)).
Definition with_MappedLUNs (v : list MappedLUN) (a : ACL) : ACL := mkACL (acl_InitiatorIQN a) v.

(** The first match taken out, or changed in place: [None] when there is none. *)
Fixpoint drop_first {A} (f : A → bool) (l : list A) : option (list A) :=
  match l with
  | [] => None
  | x :: l => if f x then Some l else cons x <$> drop_first f l
  end.
Fixpoint edit_first {A} (f : A → bool) (e : A → result goerr A) (missing : goerr) (l : list A)
    : result goerr (list A) :=
  match l with
  | [] => Err missing
  | x :: l =>
      if f x then let? x := e x in Ok (x :: l)
      else let? l := edit_first f e missing l in Ok (x :: l)
  end.
Definition or_missing {A B} (e : goerr) (f : A → B) (o : option A) : result goerr B :=
  match o with Some a => Ok (f a) | None => Err e end.

(** [freeHBA]: as [lowest_free] of the appliance, the search ends within one
    more step than there are used numbers. *)
Definition freeHBA (cfg : Config) : Z :=
  let used : gset Z := list_to_set (bs_HBA <$> c_Backstores cfg) in lowest_free (S (size used)) used 0.
Definition findBackstore (cfg : Config) (bt name : string) : option Backstore :=
  first (λ b, String.eqb (bs_Type b) bt && String.eqb (bs_Name b) name) (c_Backstores cfg).

Definition add_backstore (bt name dev : string) (size : Z) : Edit := λ cfg,
  if any (λ b, String.eqb (bs_Name b) name) (c_Backstores cfg)
  then Err (wrapf "backstore %q already exists" [name])
  else Ok (with_Backstores
             (c_Backstores cfg ++ [mkBackstore bt (freeHBA cfg) name dev false size "" "" "" "" ∅]) cfg).
Definition deleteBackstore (bt name : string) : Edit := λ cfg,
  or_missing (wrapf "no such %s backstore %q" [bt; name]) (λ l, with_Backstores l cfg)
    (drop_first (λ b, String.eqb (bs_Type b) bt && String.eqb (bs_Name b) name) (c_Backstores cfg)).
Definition add_target (iqn : string) : Edit := λ cfg,
  if any (λ t, String.eqb (t_IQN t) iqn) (c_Targets cfg)
  then Err (wrapf "target %q already exists" [iqn])
  else Ok (with_Targets (c_Targets cfg ++ [mkTarget iqn [mkTPG 1 true [] [] [] ∅]]) cfg).
Definition delete_target (iqn : string) : Edit := λ cfg,
  or_missing (wrapf "no such target %q" [iqn]) (λ l, with_Targets l cfg)
    (drop_first (λ t, String.eqb (t_IQN t) iqn) (c_Targets cfg)).

(** [editTPG]: the first target of that name, its first TPG of that tag. *)
Definition editTPG (iqn : string) (tag : Z) (fn : TPG → result goerr TPG) : Edit := λ cfg,
  let? ts := edit_first (λ t, String.eqb (t_IQN t) iqn)
    (λ t, let? gs := edit_first (λ g, g_Tag g =? tag) fn (wrapf "no such tpg%d" [itoa tag]) (t_TPGs t) in
          Ok (with_TPGs gs t))
    (wrapf "no such target %q" [iqn]) (c_Targets cfg) in
  Ok (with_Targets ts cfg).
Definition editACL (initiator : string) (fn : ACL → result goerr ACL) (g : TPG) : result goerr TPG :=
  let? l := edit_first (λ a, String.eqb (acl_InitiatorIQN a) initiator) fn
              (wrapf "no such acl %q" [initiator]) (g_ACLs g) in
  Ok (with_ACLs l g).

Definition add_lun (idx : Z) (bs : string) (g : TPG) : result goerr TPG :=
  if any (λ l, l_Index l =? idx) (g_LUNs g) then Err (wrapf "lun%d already exists" [itoa idx])
  else Ok (with_LUNs (g_LUNs g ++ [mkLUN idx bs]) g).
Definition delete_lun (idx : Z) (g : TPG) : result goerr TPG :=
  or_missing (wrapf "no such lun%d" [itoa idx]) (λ l, with_LUNs l g)
    (drop_first (λ l, l_Index l =? idx) (g_LUNs g)).
Definition add_acl (iqn : string) (g : TPG) : result goerr TPG :=
  if any (λ a, String.eqb (acl_InitiatorIQN a) iqn) (g_ACLs g)
  then Err (wrapf "acl %q already exists" [iqn])
  else Ok (with_ACLs (g_ACLs g ++ [mkACL iqn []]) g).
Definition deleteACL (iqn : string) (g : TPG) : result goerr TPG :=
  or_missing (wrapf "no such acl %q" [iqn]) (λ l, with_ACLs l g)
    (drop_first (λ a, String.eqb (acl_InitiatorIQN a) iqn) (g_ACLs g)).
Definition add_portal (np : Portal) (g : TPG) : result goerr TPG :=
  if any (λ p, bool_decide (p_IP p = p_IP np) && (p_Port p =? p_Port np)) (g_Portals g)
  then Err (wrapf "portal %s already exists" [Portal_String np])
  else Ok (with_Portals (g_Portals g ++ [np]) g).
Definition deletePortal (p : Portal) (g : TPG) : result goerr TPG :=
  or_missing (wrapf "no such portal %s:%d" [Addr_String (p_IP p); itoa (p_Port p)]) (λ l, with_Portals l g)
    (drop_first (λ q, bool_decide (p_IP q = p_IP p)
       && ((p_Port q =? p_Port p) || ((p_Port q =? 0) && (p_Port p =? DefaultPortalPort)))) (g_Portals g)).
Definition map_lun (ml tl : Z) (ro : bool) (a : ACL) : result goerr ACL :=
  if any (λ m, ml_Index m =? ml) (acl_MappedLUNs a) then Err (wrapf "mapped_lun%d already exists" [itoa ml])
  else Ok (with_MappedLUNs (acl_MappedLUNs a ++ [mkMappedLUN ml tl ro]) a).
Definition unmap_lun (ml : Z) (a : ACL) : result goerr ACL :=
  or_missing (wrapf "no such mapped_lun%d" [itoa ml]) (λ l, with_MappedLUNs l a)
    (drop_first (λ m, ml_Index m =? ml) (acl_MappedLUNs a)).

Definition set_backstore (attr val : string) (b : Backstore) : result goerr Backstore :=
  let set wwn vendor product revision attrs :=
    Ok (mkBackstore (bs_Type b) (bs_HBA b) (bs_Name b) (bs_Dev b) (bs_BufferedIO b) (bs_Size b)
          wwn vendor product revision attrs) in
  let '(wwn, vendor, product, revision, attrs) :=
    (bs_WWN b, bs_VendorID b, bs_ProductID b, bs_Revision b, bs_Attributes b) in
  if String.eqb attr "wwn" then set val vendor product revision attrs
  else if String.eqb attr "vendor_id" then set wwn val product revision attrs
  else if String.eqb attr "product_id" then set wwn vendor val revision attrs
  else if String.eqb attr "revision" then set wwn vendor product val attrs
  else if String.eqb attr "block_size" then set wwn vendor product revision (<[attr := val]> attrs)
  else Err (wrapf "unknown backstore attr %q (wwn|vendor_id|product_id|revision|block_size)" [attr]).
Definition edit_backstore (bt name attr val : string) : Edit := λ cfg,
  let? l := edit_first (λ b, String.eqb (bs_Type b) bt && String.eqb (bs_Name b) name) (set_backstore attr val)
              (wrapf "no such backstore %q" [name]) (c_Backstores cfg) in
  Ok (with_Backstores l cfg).
