(* ===== verification/LishShell.v ===== *)
(** * lish: the session and the command line

    The commands of src/lish over the state of a session, and the modes of
    src/cmd/lish. What is printed is kept, piece by piece, in [sh_out]. *)

From S2P Require Import Prelude GoStrings Errors Netip LioModel Configfs LioAptpl LioApply Trace LioSync.
From S2P Require Import AppModel AppTranslate Storage Saveconfig Lish.

(** [Shell], on its machine. *)
Record Shell (K F : Type) := mkShell {
  sh_m : machine K F; sh_out : list string; sh_lock : option Lock; sh_cwd : Node;
  sh_cached : option Config; sh_done : bool }.
Arguments mkShell {K F} _ _ _ _ _ _.
Arguments sh_m {K F} _.
Arguments sh_out {K F} _.
Arguments sh_lock {K F} _.
Arguments sh_cwd {K F} _.
Arguments sh_cached {K F} _.
Arguments sh_done {K F} _.
#[global] Instance Shell_trace {K F} `{HasTrace K} : HasTrace (Shell K F) := λ s, trace (sh_m s).

Definition VerbMutates (verb : string) : bool :=
  negb (any (String.eqb verb)
    ["ls"; "tree"; "cd"; "pwd"; "help"; "?"; "exit"; "quit"; "info"; "get"; "save"; "saveconfig";
     "discover"; "validate"]).

(** Sixteen hex digits, or nothing. *)
Definition wwidOf (wwn : string) : string :=
  if (String.length wwn =? 16)%nat then "0x6001405" +:+ wwn +:+ "000000000" else "".
Definition summarySuffix (s : string) : string := if String.eqb s "" then "" else " " +:+ s.
Definition parsePort (s : string) : result goerr Z :=
  match ParseUint_dec s 16 with
  | Some n => Ok n
  | None => Err (wrapf "bad port %q: must be 0-65535" [s])
  end.
Definition parse_int (what s : string) : result goerr Z :=
  match Atoi s with Some n => Ok n | None => Err (ErrMsg what [s]) end.
Definition node_le (a b : Node) : bool := str_leb (n_name a) (n_name b).

Section Shell.
Context {K F : Type} `{Kernel K} `{HostFiles F} (root : string).
Context (aptplRecords : option (Backstore → ST K (list string))).
Context (encode : Config → result string string) (decode : string → result string (Config * string)).

Notation Shell := (Shell K F).
Notation Sh := (ST Shell).

Definition gets {A} (f : Shell → A) : Sh A := λ s, (Ok (f s), s).
Definition on_machine {A} (m : ST (machine K F) A) : Sh A := λ s,
  let '(r, w) := m (sh_m s) in (r, mkShell w (sh_out s) (sh_lock s) (sh_cwd s) (sh_cached s) (sh_done s)).
Definition printf (text : string) : Sh unit := λ s,
  (Ok tt, mkShell (sh_m s) (sh_out s ++ [text]) (sh_lock s) (sh_cwd s) (sh_cached s) (sh_done s)).
Definition set_cwd (n : Node) : Sh unit := λ s,
  (Ok tt, mkShell (sh_m s) (sh_out s) (sh_lock s) n (sh_cached s) (sh_done s)).
Definition set_cached (c : option Config) : Sh unit := λ s,
  (Ok tt, mkShell (sh_m s) (sh_out s) (sh_lock s) (sh_cwd s) c (sh_done s)).
Definition set_done : Sh unit := λ s,
  (Ok tt, mkShell (sh_m s) (sh_out s) (sh_lock s) (sh_cwd s) (sh_cached s) true).
(** A method of the Manager whose report the caller drops on an error. *)
Definition reported (m : K → Report * option goerr * K) : Sh Report := λ s,
  let '(rep, err, k) := m (m_k (sh_m s)) in
  (match err with Some e => Err e | None => Ok rep end,
   mkShell (mkMachine k (m_f (sh_m s))) (sh_out s) (sh_lock s) (sh_cwd s) (sh_cached s) (sh_done s)).

Definition NewShell (w : machine K F) (lock : option Lock) : Shell := mkShell w [] lock rootNode None false.
Definition config : Sh Config :=
  do c <- gets sh_cached;
  match c with
  | Some cfg => ret cfg
  | None => do cfg <- on_machine (on_kernel (Discover root)); set_cached (Some cfg);; ret cfg
  end.
Definition invalidate : Sh unit := set_cached None.

Definition children (n : Node) : Sh (list Node) := do cfg <- config; ret (children_of cfg n).
Definition summary (n : Node) : Sh string :=
  do r <- try config; ret (match r with Ok cfg => summary_of cfg n | Err _ => "" end).

(** ** Navigation *)

Fixpoint walk (cur : Node) (segs : list string) : Sh Node :=
  match segs with
  | [] => ret cur
  | seg :: segs =>
      if String.eqb seg "" || String.eqb seg "." then walk cur segs
      else if String.eqb seg ".." then walk (parentOf cur) segs
      else
        do kids <- children cur;
        match first (λ k, String.eqb (n_name k) seg) kids with
        | Some next => walk next segs
        | None => throw (wrapf "no such path element: %q" [seg])
        end
  end.
Definition resolve (path : string) : Sh Node :=
  do cwd <- gets sh_cwd;
  walk (if HasPrefix path "/" then rootNode else cwd) (Split path slash).
(** The node an optional argument names. *)
Definition arg_node (args : list string) : Sh Node :=
  match args with a :: _ => resolve a | [] => gets sh_cwd end.

Definition cmdLs (args : list string) : Sh unit :=
  do base <- arg_node args;
  do kids <- children base;
  mfor (λ k, do sum <- summary k;
             printf (n_name k +:+ summarySuffix sum +:+ nl_str)) (sort_by node_le kids).
Definition cmdCd (args : list string) : Sh unit :=
  match args with
  | [] => set_cwd rootNode
  | a :: _ => do n <- resolve a; set_cwd n
  end.
(** The last child gets another branch, and another indentation below it. *)
Fixpoint treeChildren (fuel : nat) (n : Node) (indent : string) : Sh unit :=
  match fuel with
  | O => ret tt
  | S fuel =>
      do kids <- children n;
      (fix go (kids : list Node) : Sh unit :=
         match kids with
         | [] => ret tt
         | k :: rest =>
             let '(branch, cont) := match rest with [] => ("└─ ", "   ") | _ => ("├─ ", "│  ") end in
             do sum <- summary k;
             printf (indent +:+ branch +:+ n_name k +:+ summarySuffix sum +:+ nl_str);;
             treeChildren fuel k (indent +:+ cont);;
             go rest
         end) (sort_by node_le kids)
  end.
Definition tree_fuel : nat := 8.
Definition cmdTree (args : list string) : Sh unit :=
  do base <- arg_node args;
  do sum <- summary base;
  printf ((if decide (n_kind base = kRoot) then "/" else n_name base) +:+ summarySuffix sum +:+ nl_str);;
  treeChildren tree_fuel base "".

(** ** The mutation core *)

Definition mutate (edit : Edit) : Sh unit :=
  do cfg <- on_machine (on_kernel (Discover root));
  do cfg <- of_result (edit cfg);
  do _ <- reported (Sync root aptplRecords cfg);
  invalidate.
(** At the TPG of the current node. *)
Definition edit_tpg (fn : TPG → result goerr TPG) : Sh unit :=
  do n <- gets sh_cwd; mutate (editTPG (n_iqn n) (n_tag n) fn).
Definition edit_acl (initiator : string) (fn : ACL → result goerr ACL) : Sh unit :=
  edit_tpg (editACL initiator fn).
(** [s.cwd, _ = s.parentOf(s.cwd)]. *)
Definition cd_up : Sh unit := do n <- gets sh_cwd; set_cwd (parentOf n).

Definition usage (text : string) : Sh unit := throw (wrapf text []).
Definition cannot (verb : string) : Sh unit :=
  do n <- gets sh_cwd; throw (wrapf verb [pathOf n]).

Definition create_portal (ip : string) (port : Z) : Sh unit :=
  match ParsePortal ip with
  | None => throw (wrapf "bad portal address %q" [ip])
  | Some np => edit_tpg (add_portal (mkPortal (p_IP np) port))
  end.
Definition cmdCreate (args : list string) : Sh unit :=
  do cwd <- gets sh_cwd;
  match n_kind cwd, args with
  | kBSType, name :: dev :: opt =>
      do size <- match opt with
                 | s :: _ => of_result (parse_int "bad size %q: %w" s)
                 | [] => ret 0
                 end;
      mutate (add_backstore (n_btype cwd) name dev size)
  | kBSType, _ => usage "usage: create <name> <dev> [size-bytes]"
  | kISCSI, [iqn] => mutate (add_target iqn)
  | kISCSI, _ => usage "usage: create <iqn>"
  | kLUNs, [i; bs] =>
      do idx <- of_result (parse_int "bad LUN index %q: %w" i); edit_tpg (add_lun idx bs)
  | kLUNs, _ => usage "usage: create <index> <backstore>"
  | kACLs, [iqn] => edit_tpg (add_acl iqn)
  | kACLs, _ => usage "usage: create <initiator-iqn>"
  | kPortals, [ip] => create_portal ip DefaultPortalPort
  | kPortals, ip :: p :: _ => do port <- of_result (parsePort p); create_portal ip port
  | kPortals, [] => usage "usage: create <ip> [port]"
  | _, _ => cannot "cannot create under %s"
  end.

Definition cmdUnmapIndex (iqn : string) (ml : Z) (cdUp : bool) : Sh unit :=
  edit_acl iqn (unmap_lun ml);; if cdUp then cd_up else ret tt.
Definition bad_portal {A} (args : list string) : Sh A := throw (wrapf "bad portal %v" args).
Definition cmdDelete (args : list string) : Sh unit :=
  do cwd <- gets sh_cwd;
  match n_kind cwd, args with
  | kBSType, [name] => mutate (deleteBackstore (n_btype cwd) name)
  | kBSType, _ => usage "usage: delete <name>"
  | kBackstore, _ => mutate (deleteBackstore (n_btype cwd) (n_name cwd))
  | kTarget, _ => mutate (delete_target (n_iqn cwd));; cd_up
  | kLUNs, [i] => do idx <- of_result (parse_int "bad index %q: %w" i); edit_tpg (delete_lun idx)
  | kLUNs, _ => usage "usage: delete <index>"
  | kLUN, _ => edit_tpg (delete_lun (n_index cwd));; cd_up
  | kACLs, [iqn] => edit_tpg (deleteACL iqn)
  | kACLs, _ => usage "usage: delete <initiator-iqn>"
  | kACL, _ => edit_tpg (deleteACL (n_initiator cwd));; cd_up
  | kMappedLUN, _ => cmdUnmapIndex (n_initiator cwd) (n_index cwd) true
  | kPortals, [] => usage "usage: delete <ip> [port]"
  | kPortals, [a] =>
      match parsePortalLabel a with Some p => edit_tpg (deletePortal p) | None => bad_portal args end
  | kPortals, ip :: p :: _ =>
      do pt <- of_result (parsePort p);
      match ParsePortal ip with
      | Some q => edit_tpg (deletePortal (mkPortal (p_IP q) pt))
      | None => bad_portal args
      end
  | kPortal, _ => edit_tpg (deletePortal (n_portal cwd));; cd_up
  | _, _ => cannot "cannot delete at %s"
  end.

Definition unmanaged_warning (attr : string) : string :=
  "WARNING: " +:+ attr +:+ " is not in the set this appliance saves and restores, so it applies now but `save` will omit it and it will be gone at the next boot" +:+ nl_str.
Definition cmdSet (args : list string) : Sh unit :=
  match args with
  | [attr; val] =>
      do cwd <- gets sh_cwd;
      match n_kind cwd with
      | kBackstore => mutate (edit_backstore (n_btype cwd) (n_name cwd) attr val)
      | kTPG =>
          (if any (String.eqb attr) discoveredTPGAttrs then ret tt else printf (unmanaged_warning attr));;
          edit_tpg (λ g, Ok (with_TPGAttribute attr val g))
      | _ => cannot "cannot set at %s"
      end
  | _ => usage "usage: set <attr> <value>"
  end.
Definition cmdEnable (on : bool) : Sh unit :=
  do cwd <- gets sh_cwd;
  match n_kind cwd with
  | kTPG => edit_tpg (λ g, Ok (with_Enable on g))
  | _ => usage "enable/disable only apply to a tpg"
  end.
Definition cmdMap (args : list string) : Sh unit :=
  do cwd <- gets sh_cwd;
  match n_kind cwd, args with
  | kACL, m :: t :: opt =>
      do ml <- of_result (parse_int "bad mapped-lun %q: %w" m);
      do tl <- of_result (parse_int "bad tpg-lun %q: %w" t);
      let ro := match opt with o :: _ => any (String.eqb o) ["ro"; "1"; "true"] | [] => false end in
      edit_acl (n_initiator cwd) (map_lun ml tl ro)
  | kACL, _ => usage "usage: map <mapped-lun> <tpg-lun> [ro]"
  | _, _ => usage "map only applies to an acl"
  end.
Definition cmdUnmap (args : list string) : Sh unit :=
  do cwd <- gets sh_cwd;
  match n_kind cwd, args with
  | kACL, [m] =>
      do ml <- of_result (parse_int "bad mapped-lun %q: %w" m); cmdUnmapIndex (n_initiator cwd) ml false
  | kACL, _ => usage "usage: unmap <mapped-lun>"
  | _, _ => usage "unmap only applies to an acl"
  end.

(** ** Reading and persistence *)

Definition field (label value : string) : Sh unit := printf (label +:+ value +:+ nl_str).
Definition optional_field (label value : string) : Sh unit :=
  if String.eqb value "" then ret tt else field label value.
Definition print_attrs (m : gmap string string) : Sh unit :=
  mfor (λ k, printf ("attr " +:+ k +:+ ": " +:+ default "" (m !! k) +:+ nl_str)) (sortedKeys m).
Definition info_backstore (b : Backstore) : Sh unit :=
  field "name:       " (bs_Name b);; field "type:       " (bs_Type b);;
  field "dev:        " (bs_Dev b);; field "size:       " (itoa (bs_Size b));;
  field "wwn:        " (bs_WWN b);; field "wwid:       " (wwidOf (bs_WWN b));;
  optional_field "vendor_id:  " (bs_VendorID b);; optional_field "product_id: " (bs_ProductID b);;
  optional_field "revision:   " (bs_Revision b);; print_attrs (bs_Attributes b).
Definition info_tpg (g : TPG) : Sh unit :=
  field "tpg:      " (itoa (g_Tag g));; field "enabled:  " (if g_Enable g then "true" else "false");;
  field "portals:  " (itoa_len (g_Portals g));; field "luns:     " (itoa_len (g_LUNs g));;
  field "acls:     " (itoa_len (g_ACLs g));; print_attrs (g_Attributes g).
Definition cmdInfo (args : list string) : Sh unit :=
  do n <- arg_node args;
  do cfg <- config;
  match n_kind n with
  | kBackstore =>
      match findBackstore cfg (n_btype n) (n_name n) with
      | Some b => info_backstore b
      | None => throw (wrapf "no such backstore %q" [n_name n])
      end
  | kTPG => match tpgOf cfg (n_iqn n) (n_tag n) with Some g => info_tpg g | None => ret tt end
  | _ => do sum <- summary n; printf (n_name n +:+ summarySuffix sum +:+ nl_str)
  end.

Definition printMap (m : gmap string string) (want : list string) : Sh unit :=
  mfor (λ k, printf (k +:+ "=" +:+ default "" (m !! k) +:+ nl_str))
    (match want with [] => sortedKeys m | _ => want end).
Definition identity_of (b : Backstore) : gmap string string :=
  list_to_map [("wwn", bs_WWN b); ("vendor_id", bs_VendorID b); ("product_id", bs_ProductID b);
               ("revision", bs_Revision b)].
Definition cmdGet (args : list string) : Sh unit :=
  do cfg <- config;
  do n <- gets sh_cwd;
  match n_kind n with
  | kBackstore =>
      match findBackstore cfg (n_btype n) (n_name n) with
      | Some b => printMap (bs_Attributes b ∪ identity_of b) args
      | None => throw (wrapf "no such backstore %q" [n_name n])
      end
  | kTPG =>
      match tpgOf cfg (n_iqn n) (n_tag n) with
      | Some g => printMap (g_Attributes g) args
      | None => cannot "cannot get at %s"
      end
  | _ => cannot "cannot get at %s"
  end.

Definition arg_path (args : list string) : string := match args with a :: _ => a | [] => DefaultPath end.
Definition changes_of (rep : Report) : string := " (" +:+ itoa_len (rp_Changes rep) +:+ " changes)" +:+ nl_str.
(** [Restore] as a method whose report is dropped on an error. *)
Definition restored (path : string) : Sh Report := λ s,
  let '(rep, err, w) := Restore root aptplRecords decode path (sh_m s) in
  (match err with Some e => Err e | None => Ok rep end,
   mkShell w (sh_out s) (sh_lock s) (sh_cwd s) (sh_cached s) (sh_done s)).
Definition save_to (args : list string) : Sh unit :=
  on_machine (Save root encode (arg_path args));; printf ("saved to " +:+ arg_path args +:+ nl_str).
Definition restore_from (args : list string) : Sh unit :=
  do rep <- restored (arg_path args); printf ("restored from " +:+ arg_path args +:+ changes_of rep).
Definition clear_all : Sh unit :=
  do rep <- reported (Clear root aptplRecords); printf ("cleared" +:+ changes_of rep).
Definition cmdSave (args : list string) : Sh unit := save_to args.
Definition cmdRestore (args : list string) : Sh unit := restore_from args;; invalidate.
Definition cmdClear : Sh unit := clear_all;; set_cwd rootNode;; invalidate.

(** ** One command *)

Definition cmdContextual (cmd : string) (args : list string) : Sh unit :=
  if String.eqb cmd "create" then cmdCreate args
  else if String.eqb cmd "delete" then cmdDelete args
  else if String.eqb cmd "set" then cmdSet args
  else if String.eqb cmd "enable" then cmdEnable true
  else if String.eqb cmd "disable" then cmdEnable false
  else if String.eqb cmd "map" then cmdMap args
  else if String.eqb cmd "unmap" then cmdUnmap args
  else throw (wrapf "unknown command %q (try 'help')" [cmd]).
(** The text of [help] is a parameter of no consequence. *)
Context (helpText : string).
Definition among (cmd : string) (l : list string) : bool := any (String.eqb cmd) l.
Definition dispatch_verb (cmd : string) (args : list string) : Sh unit :=
  if among cmd ["ls"] then cmdLs args
  else if among cmd ["tree"] then cmdTree args
  else if among cmd ["cd"] then cmdCd args
  else if among cmd ["pwd"] then do n <- gets sh_cwd; printf (pathOf n +:+ nl_str)
  else if among cmd ["help"; "?"] then printf helpText
  else if among cmd ["exit"; "quit"] then set_done
  else if among cmd ["info"] then cmdInfo args
  else if among cmd ["get"] then cmdGet args
  else if among cmd ["saveconfig"; "save"] then cmdSave args
  else if among cmd ["restoreconfig"; "restore"] then cmdRestore args
  else if among cmd ["clearconfig"; "clear"] then cmdClear
  else cmdContextual cmd args.

Definition Acquire (l : Lock) : Sh unit := λ s,
  let '(r, l, f) := TryLock l (m_f (sh_m s)) in
  (match r with
   | Err e => Err e
   | Ok false => Err (wrapf "another LIO writer holds %s (is applianced running?); refusing to mutate" [lk_path l])
   | Ok true => Ok tt
   end,
   mkShell (mkMachine (m_k (sh_m s)) f) (sh_out s) (Some l) (sh_cwd s) (sh_cached s) (sh_done s)).
Definition Release : Sh unit := λ s,
  match sh_lock s with
  | None => (Ok tt, s)
  | Some l =>
      let '(l, f) := Unlock l (m_f (sh_m s)) in
      (Ok tt, mkShell (mkMachine (m_k (sh_m s)) f) (sh_out s) (Some l) (sh_cwd s) (sh_cached s) (sh_done s))
  end.
(** [defer s.lock.Release()]: it runs whatever [fn] returned. *)
Definition withLock (fn : Sh unit) : Sh unit :=
  do l <- gets sh_lock;
  match l with
  | None => fn
  | Some l => Acquire l;; deferred fn Release
  end.
(** [guard] of the command line; [Exec] makes the same choice. *)
Definition guard (verb : string) (fn : Sh unit) : Sh unit :=
  if VerbMutates verb then withLock fn else fn.
Definition Exec (line : string) : Sh unit :=
  invalidate;;
  match Fields line with
  | [] => ret tt
  | cmd :: args => guard cmd (dispatch_verb cmd args)
  end.

(** ** cmd/lish *)

(** One JSON value from standard input, not strictly; [emit] prints one. *)
Context (decode_stdin : string → result string Config) (emit : Config → string).

Definition from_stdin (text : string) : Sh Config :=
  match decode_stdin text with
  | Ok cfg => ret cfg
  | Err msg => throw (ErrWrap "decode stdin: %w" [] (wrapf msg []))
  end.
Definition applyJSON (text : string) : Sh unit :=
  do cfg <- from_stdin text;
  do rep <- reported (Sync root aptplRecords cfg);
  printf ("applied" +:+ changes_of rep).
(** Every line of the input until the session is over; an error is printed and
    the session goes on. *)
Fixpoint repl (lines : list string) : Sh unit :=
  match lines with
  | [] => ret tt
  | l :: lines =>
      let line := TrimSpace l in
      (if String.eqb line "" then ret tt else (do _ <- try (Exec line); ret tt));;
      do over <- gets sh_done;
      if over then ret tt else repl lines
  end.
Definition oneShot (path : string) (verb_args : list string) : Sh unit :=
  Exec ("cd " +:+ path);;
  Exec (Join (match verb_args with [] => ["ls"] | _ => verb_args end) " ").

(** [run]: the arguments, and what standard input holds. *)
Definition run (args : list string) (stdin : string) : Sh unit :=
  match args with
  | [] => repl (Split stdin nl)
  | verb :: rest =>
      if among verb ["save"] then guard verb (save_to rest)
      else if among verb ["restore"] then guard verb (restore_from rest)
      else if among verb ["clear"] then guard verb clear_all
      else if among verb ["discover"] then
        do cfg <- on_machine (on_kernel (Discover root)); printf (emit cfg)
      else if among verb ["tree"; "ls"; "info"; "get"] then Exec (Join args " ")
      else if among verb ["apply"] then guard verb (applyJSON stdin)
      else if among verb ["validate"] then
        do cfg <- from_stdin stdin; of_result (Config_Validate cfg);; printf ("ok" +:+ nl_str)
      else oneShot verb rest
  end.
End Shell.
