(* ===== verification/LishLocking.v ===== *)
(** * lish: what changes the kernel, and under which lock

    [same p m] says that a computation of a session leaves [p] of it alone,
    whatever it answers; a reading command leaves the lock and the kernel's
    trace alone, and every command leaves the lock alone. [guarded] is then a
    history of a session in which the kernel changes only in locked
    sections. *)

From S2P Require Import Prelude GoStrings Errors Netip LioModel Configfs LioAptpl LioApply Trace LioEffects LioSync.
From S2P Require Import AppModel AppTranslate Storage Saveconfig Lish LishShell.

Section same.
Context {S X : Type} (p : S → X).
Definition same {A} (m : ST S A) : Prop := ∀ s, p (m s).2 = p s.

Lemma same_ret {A} (a : A) : same (ret a).
Proof. done. Qed.
Lemma same_throw {A} e : same (throw (A := A) e).
Proof. done. Qed.
Lemma same_of_result {A} (r : result goerr A) : same (of_result r).
Proof. done. Qed.
Lemma same_bind {A B} (m : ST S A) (f : A → ST S B) : same m → (∀ a, same (f a)) → same (bind m f).
Proof.
  intros Hm Hf s. unfold bind. specialize (Hm s). destruct (m s) as [[a|e] s']; [|done]. by rewrite Hf.
Qed.
Lemma same_try {A} (m : ST S A) : same m → same (try m).
Proof. intros Hm s. unfold try. specialize (Hm s). by destruct (m s). Qed.
Lemma same_mfor {A} (f : A → ST S unit) l : (∀ x, same (f x)) → same (mfor f l).
Proof. intros Hf. induction l; cbn [mfor]; [done|]. by apply same_bind. Qed.
End same.

Section locking.
Context {K F : Type} `{LoggedKernel K} `{HostFiles F} (root : string).
Context (aptplRecords : option (Backstore → ST K (list string))).
Context (encode : Config → result string string) (decode : string → result string (Config * string)).
Context (helpText : string) (decode_stdin : string → result string Config) (emit : Config → string).

Notation Shell := (Shell K F).
Notation Sh := (ST Shell).
Notation Exec := (Exec (K := K) (F := F) root aptplRecords encode decode helpText).
Notation dispatch_verb := (dispatch_verb (K := K) (F := F) root aptplRecords encode decode helpText).
Notation run := (run (K := K) (F := F) root aptplRecords encode decode helpText decode_stdin emit).

(** ** Commands that read *)

Section reading.
Context {X : Type} (p : Shell → X).
(** [p] does not look at the output, the node, the cache or the end, and a
    discovery leaves it. *)
Context (Hp : ∀ w o o' l c c' a a' d d', p (mkShell w o l c a d) = p (mkShell w o' l c' a' d')).
Context (Hdiscover : same p (on_machine (on_kernel (Discover root)))).
Context (Hfiles : ∀ (m : ST F unit), same p (on_machine (on_files m))).

Lemma same_gets {A} (f : Shell → A) : same p (gets f).
Proof using. done. Qed.
Lemma same_printf t : same p (printf t).
Proof using Hp. intros []. apply Hp. Qed.
Lemma same_set_cwd n : same p (set_cwd n).
Proof using Hp. intros []. apply Hp. Qed.
Lemma same_set_cached c : same p (set_cached c).
Proof using Hp. intros []. apply Hp. Qed.
Lemma same_set_done : same p set_done.
Proof using Hp. intros []. apply Hp. Qed.

Ltac stay :=
  repeat (intros; lazymatch goal with
  | |- same _ (bind _ _) => apply same_bind
  | |- same _ (match ?x with _ => _ end) => destruct x
  | |- same _ (if ?x then _ else _) => destruct x
  | |- same _ (ret _) => apply same_ret
  | |- same _ (throw _) => apply same_throw
  | |- same _ (of_result _) => apply same_of_result
  | |- same _ (try _) => apply same_try
  | |- same _ (mfor _ _) => apply same_mfor
  | |- same _ (gets _) => apply same_gets
  | |- same _ (printf _) => apply same_printf
  | |- same _ (set_cwd _) => apply same_set_cwd
  | |- same _ (set_cached _) => apply same_set_cached
  | |- same _ set_done => apply same_set_done
  | |- same _ _ => solve [eauto]
  end).

Lemma same_config : same p (config root).
Proof using Hp Hdiscover. unfold config. stay. Qed.
Lemma same_children n : same p (children root n).
Proof using Hp Hdiscover. pose proof same_config. unfold children. stay. Qed.
Lemma same_summary n : same p (summary root n).
Proof using Hp Hdiscover. pose proof same_config. unfold summary. stay. Qed.
Lemma same_walk segs : ∀ cur, same p (walk root cur segs).
Proof using Hp Hdiscover. pose proof same_children. induction segs; intros cur; cbn [walk]; stay. Qed.
Lemma same_arg_node args : same p (arg_node root args).
Proof using Hp Hdiscover. pose proof same_walk. unfold arg_node, resolve. stay. Qed.
Lemma same_treeChildren fuel : ∀ n indent, same p (treeChildren root fuel n indent).
Proof using Hp Hdiscover.
  pose proof same_children. pose proof same_summary. induction fuel; intros n indent; cbn [treeChildren]; [stay|].
  apply same_bind; [done|]. intros kids. induction (sort_by node_le kids); stay.
Qed.
Lemma same_save args : same p (save_to root encode args).
Proof using Hp Hdiscover Hfiles.
  unfold save_to. apply same_bind; [|stay]. intros s. unfold on_machine, Save, bind.
  specialize (Hdiscover s). unfold on_machine in Hdiscover.
  destruct (on_kernel (Discover root) (sh_m s)) as [[cfg|e] w] eqn:Hd; [|done]. cbn [snd] in Hdiscover.
  destruct (encode cfg) as [data|msg]; [|done]. rewrite <- Hdiscover.
  specialize (Hfiles (save_file (arg_path args) (data +:+ nl_str)) (mkShell w (sh_out s) (sh_lock s) (sh_cwd s) (sh_cached s) (sh_done s))).
  exact Hfiles.
Qed.
Lemma same_info args : same p (cmdInfo root args).
Proof using Hp Hdiscover.
  pose proof same_config. pose proof same_arg_node. pose proof same_summary.
  unfold cmdInfo, info_backstore, info_tpg, print_attrs, optional_field, field. stay.
Qed.
Lemma same_get args : same p (cmdGet root args).
Proof using Hp Hdiscover. pose proof same_config. unfold cmdGet, printMap, cannot. stay. Qed.
Lemma same_navigation args : same p (cmdLs root args) ∧ same p (cmdTree root args) ∧ same p (cmdCd root args).
Proof using Hp Hdiscover.
  pose proof same_arg_node. pose proof same_children. pose proof same_summary. pose proof same_treeChildren.
  split_and!; unfold cmdLs, cmdTree, cmdCd; [stay..|]. destruct args; [stay|].
  apply same_bind; [exact (same_arg_node [_])|]. stay.
Qed.

(** A verb that does not mutate. *)
Lemma same_reading cmd args : VerbMutates cmd = false → same p (dispatch_verb cmd args).
Proof using Hp Hdiscover Hfiles.
  intros Hv%negb_false_iff%any_true. destruct Hv as (v & Hin & ->%String.eqb_eq).
  destruct (same_navigation args) as (? & ? & ?). pose proof same_info. pose proof same_get. pose proof same_save.
  assert (Hc : same p (throw (A := unit) (wrapf "unknown command %q (try 'help')" [v]))) by stay.
  repeat (apply elem_of_cons in Hin as [->|Hin]; [cbn; unfold cmdSave; stay|]). inversion Hin.
Qed.

(** ** Every command *)

Context (Hreport : ∀ m, same p (reported m)) (Hrestore : ∀ path, same p (restored root aptplRecords decode path)).

Lemma same_mutate edit : same p (mutate root aptplRecords edit).
Proof using Hp Hdiscover Hreport. unfold mutate, invalidate. stay. Qed.
Lemma same_edit_tpg fn : same p (edit_tpg root aptplRecords fn).
Proof using Hp Hdiscover Hreport. pose proof same_mutate. unfold edit_tpg. stay. Qed.
Lemma same_contextual cmd args : same p (cmdContextual root aptplRecords cmd args).
Proof using Hp Hdiscover Hreport.
  pose proof same_mutate. pose proof same_edit_tpg.
  unfold cmdContextual, cmdCreate, cmdDelete, cmdSet, cmdEnable, cmdMap, cmdUnmap, cmdUnmapIndex, create_portal,
    edit_acl, cd_up, usage, cannot, bad_portal. stay.
Qed.
Lemma same_dispatch cmd args : same p (dispatch_verb cmd args).
Proof using Hp Hdiscover Hfiles Hreport Hrestore.
  destruct (same_navigation args) as (? & ? & ?). pose proof same_info. pose proof same_get. pose proof same_save.
  pose proof same_contextual.
  unfold LishShell.dispatch_verb, cmdSave, cmdRestore, restore_from, cmdClear, clear_all, invalidate. stay.
Qed.
End reading.

(** ** Locked sections *)

Definition idle (s : Shell) : Prop := ∃ l, sh_lock s = Some l ∧ lk_f l = None.
(** The lock of a session, and what the kernel was asked for. *)
Definition held (s : Shell) : option Lock * list sysop := (sh_lock s, trace s).

(** A history: either nothing is asked of the kernel and the lock is not
    touched for long, or the lock is taken, some command that leaves it alone
    runs, and the lock is given back. *)
Inductive guarded : Shell → Shell → Prop :=
  | guarded_reads s s' : held s' = held s → guarded s s'
  | guarded_writes s l s1 (fn : Sh unit) :
      sh_lock s = Some l → Acquire l s = (Ok tt, s1) → is_Some (sh_lock s1 ≫= lk_f) → trace s1 = trace s →
      same sh_lock fn → guarded s (Release (fn s1).2).2
  | guarded_then s1 s2 s3 : guarded s1 s2 → guarded s2 s3 → guarded s1 s3.
Definition guards (s s' : Shell) : Prop := guarded s s' ∧ idle s'.
Definition guarding {A} (m : Sh A) : Prop := ∀ s, idle s → guards s (m s).2.

Lemma guards_refl s : idle s → guards s s.
Proof using. intros Hi. split; [by apply guarded_reads | done]. Qed.
Lemma guarding_same {A} (m : Sh A) : same held m → guarding m.
Proof using.
  intros Hm s (l & Hl & Hf). specialize (Hm s). split; [by apply guarded_reads|]. exists l. split; [|done].
  injection Hm as Hlock _. by rewrite Hlock.
Qed.
Lemma guarding_bind {A B} (m : Sh A) (f : A → Sh B) : guarding m → (∀ a, guarding (f a)) → guarding (bind m f).
Proof using.
  intros Hm Hf s Hi. specialize (Hm s Hi) as [Hg Hi']. unfold bind. destruct (m s) as [[a|e] s1]; [|done].
  destruct (Hf a s1 Hi') as [Hg2 Hi2]. split; [by eapply guarded_then | done].
Qed.
Lemma guarding_try {A} (m : Sh A) : guarding m → guarding (try m).
Proof using. intros Hm s Hi. specialize (Hm s Hi). unfold try. by destruct (m s). Qed.

(** The state after taking the lock. *)
Lemma Acquire_spec l s : lk_f l = None →
  let '(r, s') := Acquire l s in
  trace s' = trace s ∧
  match r with
  | Ok _ => ∃ fd, sh_lock s' = Some (mkLock (lk_path l) (Some fd))
  | Err _ => sh_lock s' = Some l
  end.
Proof using.
  intros Hl. unfold Acquire, TryLock. rewrite Hl.
  destruct (fs_MkdirAll _ _) as [[u|e] f]; [|done]. destruct (sys _ _ _ f) as [[fd|e] f1]; [|done].
  destruct (fl_flock fd f1) as [[u1|e] f2]; [by split; [|exists fd]|]. by destruct (decide _).
Qed.
Lemma guarding_lock (fn : Sh unit) : same sh_lock fn → guarding (withLock fn).
Proof using.
  intros Hfn s (l & Hl & Hf). unfold withLock, bind at 1, gets. rewrite Hl.
  pose proof (Acquire_spec l s Hf) as Hacq. unfold bind at 1. destruct (Acquire l s) as [[[]|e] s1] eqn:Ha.
  - destruct Hacq as [Ht (fd & Hfd)]. unfold deferred, bind, try.
    pose proof (guarded_writes s l s1 fn Hl Ha) as Hg. rewrite Hfd in Hg.
    specialize (Hg ltac:(by eexists) Ht Hfn). specialize (Hfn s1). rewrite Hfd in Hfn.
    destruct (fn s1) as [r s2]. cbn [snd] in *. revert Hg. unfold Release. rewrite Hfn. cbn.
    intros Hg. split; [exact Hg | by eexists].
  - destruct Hacq as [Ht Hk]. split; [|by exists l]. apply guarded_reads. unfold held. cbn. by rewrite Hk, Hl, Ht.
Qed.

Lemma discover_held : same held (on_machine (on_kernel (Discover root))).
Proof using H1.
  intros s. unfold held, on_machine, on_kernel.
  destruct (Discover root (m_k (sh_m s))) as [r k] eqn:Hd. cbn. f_equal.
  exact (quiet_run (Discover root) (m_k (sh_m s)) r k (emits_Discover root _) Hd).
Qed.
Lemma files_same {X} (p : Shell → X) :
  (∀ k f f' o l c a d, p (mkShell (mkMachine k f) o l c a d) = p (mkShell (mkMachine k f') o l c a d)) →
  ∀ m : ST F unit, same p (on_machine (on_files m)).
Proof using.
  intros Hp m [[k f] o l c a d]. unfold on_machine, on_files. cbn. destruct (m f). apply Hp.
Qed.
Lemma reported_same m : same (sh_lock (K := K) (F := F)) (reported m).
Proof using. intros s. unfold reported. by destruct (m _) as [[rep err] k]. Qed.
Lemma restored_same path : same sh_lock (restored root aptplRecords decode path).
Proof using. intros s. unfold restored. by destruct (Restore _ _ _ _ _) as [[rep err] w]. Qed.
Lemma discover_same : same sh_lock (on_machine (K := K) (F := F) (on_kernel (Discover root))).
Proof using. intros s. unfold on_machine, on_kernel. by destruct (Discover _ _). Qed.

Lemma reading_held cmd args : VerbMutates cmd = false → same held (dispatch_verb cmd args).
Proof using H1.
  apply same_reading; [done | apply discover_held | by apply files_same].
Qed.
Lemma dispatch_lock cmd args : same sh_lock (dispatch_verb cmd args).
Proof using.
  apply same_dispatch; [done | apply discover_same | by apply files_same | apply reported_same | apply restored_same].
Qed.

Lemma guarding_guard verb fn : (VerbMutates verb = false → same held fn) → same sh_lock fn →
  guarding (guard verb fn).
Proof using.
  intros Hr Hl. unfold guard. destruct (VerbMutates verb) eqn:Hv; [by apply guarding_lock|].
  by apply guarding_same, Hr.
Qed.
Lemma Exec_guarding line : guarding (Exec line).
Proof using H1.
  unfold LishShell.Exec. apply guarding_bind; [by apply guarding_same; intros []|]. intros _.
  destruct (Fields line) as [|cmd args]; [by apply guarding_same|].
  apply guarding_guard; [apply reading_held | apply dispatch_lock].
Qed.
Lemma repl_guarding lines : guarding (repl root aptplRecords encode decode helpText lines).
Proof using H1.
  induction lines as [|l lines IH]; cbn [repl]; [by apply guarding_same|]. apply guarding_bind.
  - destruct (String.eqb _ _); [by apply guarding_same|].
    apply guarding_bind; [apply guarding_try, Exec_guarding | by intros; apply guarding_same].
  - intros _. apply guarding_bind; [by apply guarding_same|]. intros []; [by apply guarding_same | done].
Qed.

(** C18. lish changes the kernel only under the host's lock, and never keeps
    the lock. Whatever the command line and whatever is on its standard input
    — an interactive session of any length included — the run is a sequence of
    stretches in which the kernel is asked for nothing and of sections that
    begin with a lock taken on the host's lock file and end with the lock given
    back, failed commands too; at the end the lock is not held. *)
Theorem run_guarded (args : list string) (stdin : string) (s : Shell) (Hidle : idle s) :
  guarded s (run args stdin s).2 ∧ idle (run args stdin s).2.
Proof using H1.
  revert s Hidle. change (guarding (run args stdin)). unfold LishShell.run.
  destruct args as [|verb rest]; [apply repl_guarding|].
  assert (Hfrom : ∀ t, same held (from_stdin (K := K) (F := F) decode_stdin t)).
  { intros t. unfold from_stdin. by destruct (decode_stdin t). }
  assert (Hsave : same held (save_to root encode rest)).
  { apply same_save; [done | apply discover_held | by apply files_same]. }
  assert (Hone : ∀ v, among verb [v] = true → verb = v).
  { intros v (? & ->%list_elem_of_singleton & ->%String.eqb_eq)%any_true. done. }
  destruct (among verb ["save"]).
  { apply guarding_guard; [done|]. apply same_save; [done | apply discover_same | by apply files_same]. }
  destruct (among verb ["restore"]) eqn:Hv.
  { rewrite (Hone _ Hv). apply guarding_guard; [done|].
    unfold restore_from. apply same_bind; [apply restored_same | by intros ? []]. }
  clear Hv. destruct (among verb ["clear"]) eqn:Hv.
  { rewrite (Hone _ Hv). apply guarding_guard; [done|].
    unfold clear_all. apply same_bind; [apply reported_same | by intros ? []]. }
  clear Hv. destruct (among verb ["discover"]).
  { apply guarding_same, same_bind; [apply discover_held | by intros ? []]. }
  destruct (among verb ["tree"; "ls"; "info"; "get"]); [apply Exec_guarding|].
  destruct (among verb ["apply"]) eqn:Hv.
  { rewrite (Hone _ Hv). apply guarding_guard; [done|]. unfold applyJSON.
    apply same_bind; [intros s; unfold from_stdin; by destruct (decode_stdin stdin)|].
    intros cfg. apply same_bind; [apply reported_same | by intros ? []]. }
  destruct (among verb ["validate"]).
  { apply guarding_same, same_bind; [done|]. intros cfg. apply same_bind; [done | by intros ? []]. }
  unfold oneShot. apply guarding_bind; [apply Exec_guarding | intros _; apply Exec_guarding].
Qed.
End locking.
