(* ===== verification/LishTree.v ===== *)
(** * lish: paths of the tree, and edits that undo each other

    A node is rebuilt from nothing but the names on its path, and its parent
    from nothing but its own fields: [resolve_pathOf] says that the two agree
    over a valid configuration. [delete_undoes_create] says that the edit of
    each create verb is undone by the edit of the delete verb. *)

From S2P Require Import Prelude GoStrings Errors Netip LioModel LioValid Configfs FsPaths LioAptpl LioApply Trace.
From S2P Require Import LioSync LioSafety AppModel AppTranslate AppTranslateProofs Storage Saveconfig Lish LishShell.

(** ** The shape of a node *)

(** A node has the fields its kind gives it, and no others. *)
Definition canonical (n : Node) : Prop :=
  match n_kind n with
  | kRoot => n = rootNode
  | kBackstores => n = backstoresNode
  | kISCSI => n = iscsiNode
  | kBSType => n = bsTypeNode (n_btype n) ∧ (n_btype n = FileIO ∨ n_btype n = IBlock)
  | kBackstore => ∃ b, n = backstoreNode b ∧ (n_btype n = FileIO ∨ n_btype n = IBlock)
  | kTarget => n = targetNode (n_iqn n)
  | kTPG => n = tpgNode (n_iqn n) (n_tag n)
  | kLUNs => n = groupNode kLUNs "luns" (n_iqn n) (n_tag n)
  | kACLs => n = groupNode kACLs "acls" (n_iqn n) (n_tag n)
  | kPortals => n = groupNode kPortals "portals" (n_iqn n) (n_tag n)
  | kLUN => n = lunNode (n_iqn n) (n_tag n) (n_index n)
  | kACL => n = aclNode (n_iqn n) (n_tag n) (n_initiator n)
  | kMappedLUN => n = mappedNode (n_iqn n) (n_tag n) (n_initiator n) (n_index n)
  | kPortal => n = portalNode (n_iqn n) (n_tag n) (n_portal n)
  end.

(** The nodes one gets to by descending from the root. *)
Inductive in_tree (cfg : Config) : Node → Prop :=
  | in_root : in_tree cfg rootNode
  | in_child n c : in_tree cfg n → c ∈ children_of cfg n → in_tree cfg c.

Lemma child_of cfg n c : canonical n → c ∈ children_of cfg n →
  canonical c ∧ parentOf c = n ∧ n_kind c ≠ kRoot ∧ depth (n_kind c) = S (depth (n_kind n)).
Proof.
  unfold canonical at 1, children_of. destruct (n_kind n) eqn:Hk; intros Hn Hc; try (by inversion Hc).
  - subst n. apply elem_of_cons in Hc as [->|Hc]; [|apply list_elem_of_singleton in Hc as ->]; by split_and!.
  - subst n. apply elem_of_cons in Hc as [->|Hc]; [|apply list_elem_of_singleton in Hc as ->]; split_and!; try done; cbn; auto.
  - destruct Hn as [Hn Ht]. apply list_elem_of_fmap in Hc as (b & -> & [Hb%String.eqb_eq _]%list_elem_of_filter).
    split_and!; [exists b; cbn; by rewrite Hb | cbn; by rewrite Hb, <- Hn | done | done].
  - subst n. by apply list_elem_of_fmap in Hc as (t & -> & _).
  - apply list_elem_of_fmap in Hc as (g & -> & _). by split_and!.
  - repeat (apply elem_of_cons in Hc as [->|Hc]; [by split_and!|]). inversion Hc.
  - destruct (tpgOf _ _ _); [|inversion Hc]. apply list_elem_of_fmap in Hc as (l & -> & _).
    by split_and!.
  - destruct (tpgOf _ _ _); [|inversion Hc]. apply list_elem_of_fmap in Hc as (l & -> & _).
    by split_and!.
  - destruct (tpgOf _ _ _); [|inversion Hc]. apply list_elem_of_fmap in Hc as (l & -> & _).
    by split_and!.
  - destruct (tpgOf _ _ _); [|inversion Hc]. apply list_elem_of_fmap in Hc as (l & -> & _).
    by split_and!.
Qed.
Lemma in_tree_canonical cfg n : in_tree cfg n → canonical n.
Proof. induction 1 as [|n c _ IH Hc]; [done|]. by eapply child_of in Hc as [? _]. Qed.

(** ** Names of siblings *)

(** The directory names of the live portals of a TPG. *)
Definition portals_named (cfg : Config) : Prop :=
  ∀ t g, t ∈ c_Targets cfg → g ∈ t_TPGs t →
    NoDup (portalLabel <$> g_Portals g) ∧ good_segs (portalLabel <$> g_Portals g).

Lemma tpgOf_elem cfg iqn tag g : tpgOf cfg iqn tag = Some g → ∃ t, t ∈ c_Targets cfg ∧ g ∈ t_TPGs t.
Proof.
  intros [Hg _]%first_Some. apply list_elem_of_join in Hg as (l & Hg & (t & -> & [_ Ht]%list_elem_of_filter)%list_elem_of_fmap).
  by exists t.
Qed.
Lemma numbered_names {A} (p : string) (f : A → Z) (l : list A) : free_of slash p → (2 < String.length p)%nat →
  NoDup (f <$> l) → NoDup ((λ x, p +:+ itoa (f x)) <$> l) ∧ good_segs ((λ x, p +:+ itoa (f x)) <$> l).
Proof.
  intros Hp Hl Hn. split.
  - rewrite (list_fmap_compose f (λ z, p +:+ itoa z)). apply NoDup_fmap_2; [|done].
    intros a b. apply numbered_inj.
  - apply Forall_fmap, Forall_true. intros x. cbn. by apply numbered_good.
Qed.
(** Of a list without duplicates, a filter on the key keeps at most one. *)
Lemma filter_key_one {A} (key : A → string) (l : list A) k : NoDup (key <$> l) →
  filter (λ x, String.eqb (key x) k = true) l = [] ∨
  ∃ x, x ∈ l ∧ filter (λ x, String.eqb (key x) k = true) l = [x].
Proof.
  induction l as [|x l IH]; [by left|]. cbn [fmap list_fmap]. intros [Hx Hn]%NoDup_cons.
  destruct (decide (key x = k)) as [Hk|Hk].
  - right. exists x. split; [left|]. rewrite filter_cons_True by by apply String.eqb_eq. f_equal.
    destruct (IH Hn) as [->|(y & Hy & Hf)]; [done|]. exfalso. apply Hx.
    assert (Hin : y ∈ filter (λ x, String.eqb (key x) k = true) l) by (rewrite Hf; left).
    apply list_elem_of_filter in Hin as [Hky%String.eqb_eq _]. rewrite Hk, <- Hky. by apply list_elem_of_fmap_2.
  - rewrite filter_cons_False by by rewrite String.eqb_eq. destruct (IH Hn) as [->|(y & Hy & ->)]; [by left|].
    right. exists y. split; [by right | done].
Qed.
Lemma NoDup_filter_fmap {A B} (f : A → B) (P : A → Prop) `{∀ x, Decision (P x)} (l : list A) :
  NoDup (f <$> l) → NoDup (f <$> filter P l).
Proof. intros Hn. eapply sublist_NoDup; [exact Hn|]. by apply fmap_sublist, sublist_filter. Qed.

(** Over a valid configuration, siblings have distinct names, and each name
    stands for itself as a segment of a path. *)
Lemma sibling_names cfg n : valid_config cfg → portals_named cfg → canonical n →
  NoDup (n_name <$> children_of cfg n) ∧ good_segs (n_name <$> children_of cfg n).
Proof.
  intros V Hp Hn. unfold children_of.
  assert (Hnil : NoDup (n_name <$> []) ∧ good_segs (n_name <$> [])) by by repeat constructor.
  assert (Hg : ∀ g, tpgOf cfg (n_iqn n) (n_tag n) = Some g → ∃ t, valid_tpg (bs_Name <$> c_Backstores cfg) g ∧
    t ∈ c_Targets cfg ∧ g ∈ t_TPGs t).
  { intros g (t & Ht & Hgt)%tpgOf_elem. exists t. split_and!; try done. pose proof (vc_targets _ V) as HF.
    rewrite Forall_forall in HF. pose proof (vt_tpgs _ _ (HF t Ht)) as HG. rewrite Forall_forall in HG. by apply HG. }
  destruct (n_kind n); try exact Hnil.
  - by split; [apply (bool_decide_unpack _) | repeat constructor].
  - by split; [apply (bool_decide_unpack _) | repeat constructor].
  - rewrite <- list_fmap_compose. change (n_name ∘ backstoreNode) with bs_Name. split.
    + apply NoDup_filter_fmap, V.
    + apply Forall_fmap, Forall_forall. intros b [_ Hb]%list_elem_of_filter. pose proof (vc_backstores _ V) as HF.
      rewrite Forall_forall in HF. destruct (HF b Hb) as (_ & ? & ? & ? & Hc & _). apply validSeg_spec.
      split_and!; try done. eapply Forall_impl; [exact Hc|]. by intros c [? _].
  - rewrite <- list_fmap_compose. change (n_name ∘ (λ t, targetNode (t_IQN t))) with t_IQN. split; [apply V|].
    apply Forall_fmap, Forall_forall. intros t Ht. pose proof (vc_targets _ V) as HF. rewrite Forall_forall in HF.
    apply good_iqn_validSeg, (HF t Ht).
  - destruct (filter_key_one t_IQN (c_Targets cfg) (n_iqn n) (vc_iqns _ V)) as [->|(t & Ht & ->)]; [done|].
    cbn [fmap list_fmap mjoin list_join]. rewrite app_nil_r, <- list_fmap_compose.
    pose proof (vc_targets _ V) as HF. rewrite Forall_forall in HF.
    apply (numbered_names "tpg" g_Tag); [by repeat constructor | cbn; lia | apply (HF t Ht)].
  - by split; [apply (bool_decide_unpack _) | repeat constructor].
  - destruct (tpgOf _ _ _) as [g|]; [|done]. destruct (Hg g eq_refl) as (t & Vg & _). rewrite <- list_fmap_compose.
    apply (numbered_names "lun" l_Index); [by repeat constructor | cbn; lia | apply Vg].
  - destruct (tpgOf _ _ _) as [g|]; [|done]. destruct (Hg g eq_refl) as (t & Vg & _). rewrite <- list_fmap_compose.
    change (n_name ∘ _) with acl_InitiatorIQN. split; [apply Vg|]. apply Forall_fmap. eapply Forall_impl; [apply Vg|].
    intros a Va. apply good_iqn_validSeg, Va.
  - destruct (tpgOf _ _ _) as [g|]; [|done]. destruct (Hg g eq_refl) as (t & Vg & _). unfold aclsOf.
    destruct (filter_key_one acl_InitiatorIQN (g_ACLs g) (n_initiator n) (vg_acls_distinct _ _ Vg)) as [->|(a & Ha & ->)]; [done|].
    cbn [fmap list_fmap mjoin list_join]. rewrite app_nil_r, <- list_fmap_compose.
    pose proof (vg_acls _ _ Vg) as HF. rewrite Forall_forall in HF.
    apply (numbered_names "mapped_lun" ml_Index); [by repeat constructor | cbn; lia | apply (HF a Ha)].
  - destruct (tpgOf _ _ _) as [g|]; [|done]. destruct (Hg g eq_refl) as (t & _ & Ht & Hgt). rewrite <- list_fmap_compose.
    change (n_name ∘ _) with portalLabel. by apply (Hp t g).
Qed.

(** ** Paths *)

Lemma first_name (l : list Node) c : NoDup (n_name <$> l) → c ∈ l →
  first (λ k, String.eqb (n_name k) (n_name c)) l = Some c.
Proof.
  intros Hn Hc. destruct (first _ l) as [k|] eqn:Hf.
  - apply first_Some in Hf as [Hk Heq%String.eqb_eq]. f_equal. by eapply NoDup_key_inj.
  - rewrite first_None in Hf. specialize (Hf c Hc). by rewrite String.eqb_refl in Hf.
Qed.

Section paths.
Context {K F : Type} `{Kernel K} (root : string).
Notation Shell := (Shell K F).

Lemma children_cached cfg n (s : Shell) : sh_cached s = Some cfg → children root n s = (Ok (children_of cfg n), s).
Proof. intros Hs. unfold children, config, bind, gets. by rewrite Hs. Qed.

Lemma walk_segs cfg n (s : Shell) : valid_config cfg → portals_named cfg → sh_cached s = Some cfg → in_tree cfg n →
  ∀ acc, walk root rootNode (segs_of (depth (n_kind n)) n acc) s = walk root n acc s.
Proof.
  intros V Hp Hs. induction 1 as [|n c Hn IH Hc]; intros acc; [done|].
  pose proof (in_tree_canonical _ _ Hn) as Hcan. destruct (child_of _ _ _ Hcan Hc) as (_ & Hpar & Hk & Hd).
  rewrite Hd. cbn [segs_of]. rewrite decide_False, Hpar, IH by done.
  destruct (sibling_names cfg n V Hp Hcan) as [Hnd Hgood].
  assert (Hseg : validSeg (n_name c) = true).
  { unfold good_segs in Hgood. rewrite Forall_forall in Hgood. apply Hgood. by apply list_elem_of_fmap_2. }
  apply validSeg_spec in Hseg as (H1 & H2 & H3 & _). cbn [walk].
  destruct (String.eqb_spec (n_name c) ""), (String.eqb_spec (n_name c) "."), (String.eqb_spec (n_name c) ".."); try done.
  cbn [orb]. unfold bind. rewrite (children_cached cfg) by done. by rewrite first_name.
Qed.

Lemma segs_good cfg n : valid_config cfg → portals_named cfg → in_tree cfg n →
  ∀ acc, good_segs acc → good_segs (segs_of (depth (n_kind n)) n acc) ∧
  (acc ≠ [] ∨ n_kind n ≠ kRoot → segs_of (depth (n_kind n)) n acc ≠ []).
Proof.
  intros V Hp. induction 1 as [|n c Hn IH Hc]; intros acc Hacc; [split; [done|]; cbn; by intros []|].
  pose proof (in_tree_canonical _ _ Hn) as Hcan. destruct (child_of _ _ _ Hcan Hc) as (_ & Hpar & Hk & Hd).
  rewrite Hd. cbn [segs_of]. rewrite decide_False, Hpar by done.
  destruct (sibling_names cfg n V Hp Hcan) as [_ Hgood]. unfold good_segs in Hgood. rewrite Forall_forall in Hgood.
  destruct (IH (n_name c :: acc)) as [Hg Hne].
  - constructor; [|done]. apply Hgood. by apply list_elem_of_fmap_2.
  - split; [done|]. intros _. apply Hne. by left.
Qed.

(** C28. The path lish shows for a node leads back to it. Over a valid
    configuration, for every node of the tree, whatever the current node,
    resolving [pathOf] of the node — which walks up by the fields of the node
    alone — walks down the names of live children to exactly that node, and
    changes nothing. (The directory names of the portals of a TPG are taken to
    be distinct path segments, as in a live tree.) *)
Theorem resolve_pathOf (cfg : Config) (n : Node) (s : Shell) (V : Config_Validate cfg = Ok tt)
    (Hp : portals_named cfg) (Hs : sh_cached s = Some cfg) (Hn : in_tree cfg n) :
  resolve root (pathOf n) s = (Ok n, s).
Proof.
  apply Config_Validate_spec in V. unfold resolve, bind, gets, pathOf.
  destruct (decide (n_kind n = kRoot)) as [Hk|Hk].
  - pose proof (in_tree_canonical _ _ Hn) as Hcan. unfold canonical in Hcan. rewrite Hk in Hcan. by subst n.
  - destruct (segs_good cfg n V Hp Hn [] ltac:(constructor)) as [Hg Hne]. specialize (Hne (or_intror Hk)).
    assert (Hpre : ∀ t, HasPrefix ("/" +:+ t) "/" = true) by (intros []; done). rewrite Hpre.
    assert (Hsplit : Split ("/" +:+ Join (segs_of (depth (n_kind n)) n []) "/") slash
                     = "" :: segs_of (depth (n_kind n)) n []).
    { etrans; [apply (Split_sep "" _ slash); constructor|]. f_equal. apply Split_Join; [done|]. by apply good_segs_free. }
    rewrite Hsplit. cbn [walk String.eqb orb]. by rewrite (walk_segs cfg).
Qed.
End paths.

(** ** Edits *)

Inductive creation :=
  | NewBackstore (bt name dev : string) (size : Z)
  | NewTarget (iqn : string)
  | NewLUN (iqn : string) (tag idx : Z) (bs : string)
  | NewACL (iqn : string) (tag : Z) (initiator : string)
  | NewPortal (iqn : string) (tag : Z) (p : Portal)
  | NewMapping (iqn : string) (tag : Z) (initiator : string) (ml tl : Z) (ro : bool).
(** The edit of the create or map verb, and of the delete or unmap verb. *)
Definition create_edit (x : creation) : Edit :=
  match x with
  | NewBackstore bt name dev size => add_backstore bt name dev size
  | NewTarget iqn => add_target iqn
  | NewLUN iqn tag idx bs => editTPG iqn tag (add_lun idx bs)
  | NewACL iqn tag i => editTPG iqn tag (add_acl i)
  | NewPortal iqn tag p => editTPG iqn tag (add_portal p)
  | NewMapping iqn tag i ml tl ro => editTPG iqn tag (editACL i (map_lun ml tl ro))
  end.
Definition delete_edit (x : creation) : Edit :=
  match x with
  | NewBackstore bt name _ _ => deleteBackstore bt name
  | NewTarget iqn => delete_target iqn
  | NewLUN iqn tag idx _ => editTPG iqn tag (delete_lun idx)
  | NewACL iqn tag i => editTPG iqn tag (deleteACL i)
  | NewPortal iqn tag p => editTPG iqn tag (deletePortal p)
  | NewMapping iqn tag i ml _ _ => editTPG iqn tag (editACL i (unmap_lun ml))
  end.

Lemma drop_appended {A} (f : A → bool) (l : list A) x : any f l = false → f x = true →
  drop_first f (l ++ [x]) = Some l.
Proof.
  intros Hf Hx. induction l as [|y l IH]; cbn; [by rewrite Hx|]. rewrite any_false in Hf.
  rewrite (Hf y) by left. rewrite IH; [done|]. apply any_false. intros z Hz. apply Hf. by right.
Qed.
(** An edit of the first match is undone by an edit that undoes it there. *)
Lemma edit_undone {A} (f : A → bool) (e e' : A → result goerr A) m m' (l l' : list A) :
  edit_first f e m l = Ok l' →
  (∀ x x', x' ∈ l' → f x = true → e x = Ok x' → f x' = true ∧ e' x' = Ok x) → edit_first f e' m' l' = Ok l.
Proof.
  revert l'. induction l as [|x l IH]; intros l'; cbn [edit_first]; [done|].
  destruct (f x) eqn:Hf.
  - destruct (e x) as [x'|] eqn:He; [|done]. intros [= <-] Hu. cbn [edit_first].
    destruct (Hu x x') as [Hf' He']; [left|done..|]. by rewrite Hf', He'.
  - destruct (edit_first f e m l) as [l1|] eqn:Hl; [|done]. intros [= <-] Hu. cbn [edit_first]. rewrite Hf.
    rewrite (IH l1); [done|done|]. intros y y' Hy. apply Hu. by right.
Qed.
Lemma editTPG_undone iqn tag (fn fn' : TPG → result goerr TPG) cfg cfg' :
  editTPG iqn tag fn cfg = Ok cfg' →
  (∀ g g' t', t' ∈ c_Targets cfg' → g' ∈ t_TPGs t' → fn g = Ok g' → g_Tag g' = g_Tag g ∧ fn' g' = Ok g) →
  editTPG iqn tag fn' cfg' = Ok cfg.
Proof.
  unfold editTPG. destruct (edit_first _ _ _ (c_Targets cfg)) as [ts|] eqn:Ht; [|done]. intros [= <-] Hu.
  cbn [c_Targets with_Targets] in *. rewrite (edit_undone _ _ _ _ (wrapf "no such target %q" [iqn]) _ _ Ht).
  - cbn. by destruct cfg.
  - intros t t' Hin Hiqn. destruct (edit_first _ fn _ (t_TPGs t)) as [gs|] eqn:Hg; [|done]. intros [= <-].
    split; [done|]. cbn [t_TPGs with_TPGs] in *. rewrite (edit_undone _ _ _ _ (wrapf "no such tpg%d" [itoa tag]) _ _ Hg).
    + cbn. by destruct t.
    + intros g g' Hg' Htag Hfn. destruct (Hu g g' _ Hin Hg' Hfn) as [-> ?]. done.
Qed.

Lemma any_split {A} (f g : A → bool) (l : list A) : any f l = false → any (λ x, g x && f x) l = false.
Proof. rewrite !any_false. intros Hf x Hx. rewrite (Hf x Hx). apply andb_false_r. Qed.

(** Delete undoes create. For each kind of object the shell can create or
    map, if the edit is accepted and what results is a valid configuration —
    which Sync asks before anything is changed — then the edit of the delete
    or unmap verb at the same place gives back the configuration as it was,
    whole. *)
Theorem delete_undoes_create (x : creation) (cfg cfg' : Config) (He : create_edit x cfg = Ok cfg')
    (V : Config_Validate cfg' = Ok tt) :
  delete_edit x cfg' = Ok cfg.
Proof.
  apply Config_Validate_spec in V.
  destruct x as [bt name dev size|iqn|iqn tag idx bs|iqn tag i|iqn tag p|iqn tag i ml tl ro]; cbn in *.
  - unfold add_backstore in He. destruct (any _ _) eqn:Ha; [done|]. injection He as <-.
    unfold deleteBackstore. cbn [c_Backstores with_Backstores]. rewrite drop_appended; [by destruct cfg | by apply any_split |].
    cbn. by rewrite !String.eqb_refl.
  - unfold add_target in He. destruct (any _ _) eqn:Ha; [done|]. injection He as <-.
    unfold delete_target. cbn [c_Targets with_Targets]. rewrite drop_appended; [by destruct cfg | done |].
    cbn. by rewrite String.eqb_refl.
  - apply (editTPG_undone _ _ _ _ _ _ He). intros g g' _ _ _. unfold add_lun. destruct (any _ _) eqn:Ha; [done|].
    intros [= <-]. split; [done|]. unfold delete_lun. cbn. rewrite drop_appended; [by destruct g | done |].
    cbn. apply Z.eqb_refl.
  - apply (editTPG_undone _ _ _ _ _ _ He). intros g g' _ _ _. unfold add_acl. destruct (any _ _) eqn:Ha; [done|].
    intros [= <-]. split; [done|]. unfold deleteACL. cbn. rewrite drop_appended; [by destruct g | done |].
    cbn. apply String.eqb_refl.
  - apply (editTPG_undone _ _ _ _ _ _ He). intros g g' t' Ht' Hg'. unfold add_portal. destruct (any _ _) eqn:Ha; [done|].
    intros [= <-]. split; [done|]. unfold deletePortal. cbn.
    pose proof (vc_targets _ V) as HF. rewrite Forall_forall in HF. pose proof (vt_tpgs _ _ (HF t' Ht')) as HG.
    rewrite Forall_forall in HG. pose proof (vg_portals_distinct _ _ (HG _ Hg')) as Hd. cbn in Hd.
    rewrite fmap_app in Hd. apply NoDup_app in Hd as (_ & Hd & _).
    rewrite drop_appended; [by destruct g | | by cbn; rewrite bool_decide_true, Z.eqb_refl].
    rewrite any_false in Ha |- *. intros q Hq. specialize (Ha q Hq). destruct (bool_decide_reflect (p_IP q = p_IP p)) as [Hip|]; [|done].
    cbn in Ha |- *. rewrite Ha. cbn. apply andb_false_iff. destruct (Z.eqb_spec (p_Port q) 0) as [H0|]; [right|by left].
    apply Z.eqb_neq. intros Hport. apply (Hd (Portal_key q)); [by apply list_elem_of_fmap_2|].
    apply list_elem_of_singleton. unfold Portal_key, Portal_port. by rewrite Hip, H0, Hport.
  - apply (editTPG_undone _ _ _ _ _ _ He). intros g g' _ _ _. unfold editACL.
    destruct (edit_first _ (map_lun ml tl ro) _ (g_ACLs g)) as [l|] eqn:Hl; [|done]. intros [= <-]. split; [done|]. cbn.
    rewrite (edit_undone _ _ _ _ (wrapf "no such acl %q" [i]) _ _ Hl); [cbn; by destruct g|].
    intros a a' _ Hi. unfold map_lun. destruct (any _ _) eqn:Ha; [done|]. intros [= <-]. split; [done|].
    unfold unmap_lun. cbn. rewrite drop_appended; [by destruct a | done | by cbn; rewrite Z.eqb_refl].
Qed.
