(* ===== verification/Applog.v ===== *)
(** * applog: the access log

    src/applog: levels and options, the attributes of a record, and the
    middleware that writes one record per request. A handler is the calls it
    makes of the ResponseWriter, and how it ends; [Writer] is what net/http's
    own writer sends for such calls, and a [context] is what applog keeps in
    one. Timestamps and the rendering of records, which is log/slog's, are left
    out; an id that is minted is the sixteen hex digits of eight random bytes. *)

From S2P Require Import Prelude GoStrings Errors Netip Configfs AppTranslate Storage.

(** ** Levels and options (applog.go) *)

Definition LevelDebug : Z := -4.
Definition LevelInfo : Z := 0.
Definition LevelNotice : Z := LevelInfo + 2.
Definition LevelWarn : Z := 4.
Definition LevelError : Z := 8.
Definition SchemaVersion : Z := 1.

Definition ParseLevel (s : string) : result goerr Z :=
  let l := ToLower (TrimSpace s) in
  let among names := any (String.eqb l) names in
  if among [""; "info"] then Ok LevelInfo
  else if among ["debug"] then Ok LevelDebug
  else if among ["notice"] then Ok LevelNotice
  else if among ["warn"; "warning"] then Ok LevelWarn
  else if among ["error"] then Ok LevelError
  else Err (wrapf "unknown log level %q (want debug, info, notice, warn or error)" [s]).

Inductive log_format := TextFormat | JSONFormat.
Record logger := mkLogger { lg_Level : Z; lg_Format : log_format; lg_Attrs : list (string * string) }.
Definition Log_New (format level : string) : result goerr logger :=
  let? lvl := ParseLevel level in
  let f := ToLower (TrimSpace format) in
  let attrs := [("service", "applianced"); ("schema_version", itoa SchemaVersion)] in
  if any (String.eqb f) [""; "text"] then Ok (mkLogger lvl TextFormat attrs)
  else if String.eqb f "json" then Ok (mkLogger lvl JSONFormat attrs)
  else Err (wrapf "unknown log format %q (want text or json)" [format]).

(** What a log call is given: a string, or any other value. *)
Inductive larg := AStr (s : string) | AVal (v : Z).
Inductive lval := VArg (a : larg) | VLevel (l : Z) | VText (s : string).
(** [replaceAttr], of an attribute at the depth of its groups. *)
Definition replaceAttr (groups : list string) (a : string * lval) : string * lval :=
  match groups, a with
  | [], (k, VLevel l) => if String.eqb k "level" && (l =? LevelNotice) then (k, VText "NOTICE") else a
  | _, _ => a
  end.
Fixpoint pairs_of (args : list larg) : list (string * larg) :=
  match args with
  | AStr k :: v :: rest => (k, v) :: pairs_of rest
  | _ :: _ :: rest => pairs_of rest
  | _ => []
  end.
Definition log_attrs (id event : string) (args : list larg) : list (string * larg) :=
  ("event", AStr event) :: (if String.eqb id "" then [] else [("request_id", AStr id)]) ++ pairs_of args.

(** [BuildInfo]: the settings are ranged over in order. *)
Definition BuildInfo (bi : option (string * string * list (string * string))) : string * string * string :=
  match bi with
  | None => ("unknown", "unknown", "unknown")
  | Some (go, main, settings) =>
      let commit := foldl (λ commit s,
        if String.eqb s.1 "vcs.revision" then s.2
        else if String.eqb s.1 "vcs.modified"
        then (if String.eqb s.2 "true" then commit +:+ "-dirty" else commit)
        else commit) "unknown" settings in
      (if String.eqb main "" then "unknown" else main, commit, go)
  end.

(** ** Request ids (requestid.go) *)

(** A context, as far as applog looks at it: the id and whether a routeHolder
    travels in it, and whether the request has been cancelled. [None] is nil. *)
Record context := mkContext { cx_id : string; cx_holder : bool; cx_cancelled : bool }.
Definition WithRequestID (ctx : context) (id : string) : context :=
  if String.eqb id "" then ctx else mkContext id (cx_holder ctx) (cx_cancelled ctx).
Definition RequestID (ctx : option context) : string :=
  match ctx with None => "" | Some ctx => cx_id ctx end.
(** [context.WithoutCancel]: the values stay. *)
Definition Observability (parent : context) : context := mkContext (cx_id parent) (cx_holder parent) false.
Definition NewRequestID (random : result errno (list Z)) : string :=
  match random with Ok b => hex_encode b | Err _ => "" end.

(** ** Records (applog.go)

    What a call gives to slog, when the logger takes its level. *)

Record line := mkLine { ln_Level : Z; ln_Msg : string; ln_Attrs : list (string * larg) }.
Definition log_at (level : Z) (ctx : option context) (l : logger) (event msg : string) (args : list larg) : list line :=
  if lg_Level l <=? level then [mkLine level msg (log_attrs (RequestID ctx) event args)] else [].
Definition Notice := log_at LevelNotice.
Definition Info := log_at LevelInfo.
Definition Warn := log_at LevelWarn.
Definition Error := log_at LevelError.
(** slog's own default, and what the standard logger's lines become: their
    level, and the flags of its prefix. *)
Record process_log := mkProcessLog { pl_Default : option logger; pl_BridgeLevel : Z; pl_Flags : Z }.
Definition Install (l : logger) (_ : process_log) : process_log := mkProcessLog (Some l) LevelInfo 0.
(** One line of http.Server's ErrorLog. *)
Definition ServerErrorLog (l : logger) (text : string) : list line :=
  if lg_Level l <=? LevelWarn then [mkLine LevelWarn text []] else [].

(** ** The response writer (access.go) *)

(** One call: a header, or a body of which [n] bytes were accepted; what a
    handler does is a list of them. *)
Inductive wcall := WHeader (code : Z) | WBody (n : Z).

Record recorder := mkRecorder { rc_status : Z; rc_written : Z; rc_wrote : bool }.
Definition newRecorder : recorder := mkRecorder 200 0 false.
(** The new state, and the call passed on to the wrapped writer. *)
Definition record (c : wcall) (rc : recorder) : recorder * list wcall :=
  match c with
  | WHeader code =>
      if (100 <=? code) && (code <? 200) then (rc, [WHeader code])
      else if rc_wrote rc then (rc, [])
      else (mkRecorder code (rc_written rc) true, [WHeader code])
  | WBody n => (mkRecorder (rc_status rc) (rc_written rc + n) true, [WBody n])
  end.
Fixpoint record_all (cs : list wcall) (rc : recorder) : recorder * list wcall :=
  match cs with
  | [] => (rc, [])
  | c :: cs =>
      let '(rc, out) := record c rc in
      let '(rc, out') := record_all cs rc in (rc, out ++ out')
  end.

(** net/http's writer: the final status, if the handler has given one, the
    informational ones before it, the bytes of the body it accepted, and those
    of them that go to the client: none in answer to a HEAD. 101 is final; a
    second final header is superfluous and dropped. *)
Record wire := mkWire { wi_status : option Z; wi_info : list Z; wi_accepted : Z; wi_bytes : Z }.
Definition newWire : wire := mkWire None [] 0 0.
Definition informational (code : Z) : bool := (100 <=? code) && (code <=? 199) && negb (code =? 101).
Definition write (head : bool) (c : wcall) (w : wire) : wire :=
  match c with
  | WHeader code =>
      match wi_status w with
      | Some _ => w
      | None => if informational code then mkWire None (wi_info w ++ [code]) (wi_accepted w) (wi_bytes w)
                else mkWire (Some code) (wi_info w) (wi_accepted w) (wi_bytes w)
      end
  | WBody n => mkWire (Some (default 200 (wi_status w))) (wi_info w) (wi_accepted w + n)
                 (if head then wi_bytes w else wi_bytes w + n)
  end.
Definition write_all (head : bool) (cs : list wcall) (w : wire) : wire := foldl (λ w c, write head c w) w cs.
(** When a handler returns, what it wrote is sent, 200 if it gave no status.
    When it panics net/http cuts the connection: what the client gets, if
    anything, is not determined. *)
Definition finish (w : wire) : wire :=
  mkWire (Some (default 200 (wi_status w))) (wi_info w) (wi_accepted w) (wi_bytes w).
Definition sent (panics : bool) (w : wire) : option wire := if panics then None else Some (finish w).

(** ** Routes (route.go) *)

(** [set] of a routeHolder, and [routeOf]: the leaf pattern captured inside the
    mount, the mount's own, or the path. *)
Definition holder_set (p held : string) : string := if String.eqb p "" then held else p.
Definition withRouteHolder (ctx : context) : context := mkContext (cx_id ctx) true (cx_cancelled ctx).
(** The defer of patternRecorder, which a panic runs too; without a holder in
    the request's context there is nothing to set. *)
Definition CaptureRoute (ctx : context) (leaf held : string) : string :=
  if cx_holder ctx then holder_set leaf held else held.
Definition routeOf (held mount path : string) : string :=
  if negb (String.eqb held "") then held else if negb (String.eqb mount "") then mount else path.

(** ** The middleware *)

Record access_request := mkAccess {
  aq_Method : string; aq_Path : string; aq_HeaderID : string; aq_RemoteAddr : string;
  aq_Mount : string;        (* the pattern of the outer mux, "" before routing *)
  aq_Leaf : string }.       (* the pattern the inner mux matched, "" for none *)
Record access_record := mkAccessRecord {
  ar_Level : Z; ar_ID : string; ar_Method : string; ar_Route : string; ar_Status : Z; ar_Bytes : Z;
  ar_RemoteAddr : string; ar_Panicked : bool }.

Definition access_level (panicked : bool) (status : Z) (meth path : string) : Z :=
  if panicked || (500 <=? status) then LevelError
  else if 400 <=? status then LevelWarn
  else if String.eqb meth "GET" && String.eqb path "/v1/health" then LevelDebug
  else LevelInfo.
Definition request_id (random : result errno (list Z)) (r : access_request) : string :=
  if String.eqb (aq_HeaderID r) "" then NewRequestID random else aq_HeaderID r.
(** The context the handler gets; [base] is the server's own. *)
Definition routed_context (base : context) (random : result errno (list Z)) (r : access_request) : context :=
  withRouteHolder (WithRequestID base (request_id random r)).
(** The server's own context has no id and no holder. *)
Definition server_context (cancelled : bool) : context := mkContext "" false cancelled.
(** What a handler does: its calls, and whether it panics after them. *)
Record handled := mkHandled { hd_Calls : list wcall; hd_Panics : bool }.
(** The calls that reach the wrapped writer, the id echoed in the header, the
    record emitted from the defer, and the panic, which goes on. *)
Definition AccessLog (base : context) (random : result errno (list Z)) (next : handled) (r : access_request)
    : list wcall * option string * access_record * bool :=
  let id := request_id random r in
  let '(rec, out) := record_all (hd_Calls next) newRecorder in
  (* CaptureRoute's own defer runs first *)
  let held := CaptureRoute (routed_context base random r) (aq_Leaf r) "" in
  let p := hd_Panics next in
  (out, if String.eqb id "" then None else Some id,
   mkAccessRecord (access_level p (rc_status rec) (aq_Method r) (aq_Path r)) id (aq_Method r)
     (routeOf held (aq_Mount r) (aq_Path r)) (rc_status rec) (rc_written rec) (aq_RemoteAddr r) p,
   p).

(** ** The record is true *)

Definition accepts (c : wcall) : Prop := match c with WHeader code => code ≠ 101 | WBody n => 0 <= n end.
(** The recorder agrees with the writer behind it. *)
Definition agrees (rc : recorder) (w : wire) : Prop :=
  rc_status rc = default 200 (wi_status w) ∧ rc_written rc = wi_accepted w ∧ rc_wrote rc = bool_decide (is_Some (wi_status w)).

Lemma record_agrees head c rc w : accepts c → agrees rc w →
  agrees (record c rc).1 (write head c w) ∧ write_all head (record c rc).2 w = write head c w.
Proof.
  intros Hc (Hs & Hb & Hw). destruct rc as [st n wr], w as [ws info acc bytes]. cbn in *. subst.
  destruct c as [code|k]; cbn in *; [|by repeat split].
  assert (Hi : informational code = ((100 <=? code) && (code <? 200))).
  { unfold informational. assert (H101 : (code =? 101) = false) by by apply Z.eqb_neq.
    assert (Hle : (code <=? 199) = (code <? 200)) by (destruct (Z.leb_spec code 199), (Z.ltb_spec code 200); lia).
    by rewrite H101, Hle, andb_true_r. }
  rewrite <- Hi. destruct (informational code) eqn:E; cbn.
  - rewrite E. by destruct ws.
  - destruct ws as [s|]; cbn; [done|]. by rewrite E.
Qed.
Lemma record_all_agrees head cs rc w : Forall accepts cs → agrees rc w →
  agrees (record_all cs rc).1 (write_all head cs w) ∧ write_all head (record_all cs rc).2 w = write_all head cs w.
Proof.
  revert rc w. induction cs as [|c cs IH]; intros rc w Hcs Ha; [done|]. apply Forall_cons in Hcs as [Hc Hcs].
  destruct (record_agrees head c rc w Hc Ha) as [Ha1 Hw1]. cbn [record_all].
  change (write_all head (c :: cs) w) with (write_all head cs (write head c w)).
  destruct (record c rc) as [rc1 out]; cbn [fst snd] in *. destruct (IH rc1 (write head c w) Hcs Ha1) as [Ha2 Hw2].
  destruct (record_all cs rc1) as [rc2 out']; cbn [fst snd] in *. split; [done|].
  unfold write_all in *. by rewrite foldl_app, Hw1.
Qed.
(** To any other method what is accepted is what goes out. *)
Lemma write_all_bytes cs w : wi_bytes w = wi_accepted w →
  wi_bytes (write_all false cs w) = wi_accepted (write_all false cs w).
Proof.
  revert w. induction cs as [|c cs IH]; intros w Hw; [done|]. apply IH.
  destruct c; cbn; repeat case_match; cbn; congruence.
Qed.
Lemma write_all_head cs w : wi_bytes (write_all true cs w) = wi_bytes w.
Proof.
  revert w. induction cs as [|c cs IH]; intros w; [done|]. change (write_all true (c :: cs) w) with (write_all true cs (write true c w)).
  rewrite IH. destruct c; cbn; by repeat case_match.
Qed.

(** C40. The access log is transparent, and its record is true. Whatever a
    handler writes and however it ends, net/http's writer is left exactly as it
    would have been without the log, and a panic goes on; so the client is sent
    the same. Exactly one record is made. When the handler returns, its status
    is the one sent (200 when the handler gave none) and its byte count what
    the writer accepted, which is what was sent, except in answer to a HEAD,
    to which no body is sent; it is at error level for a 5xx and warning level
    for a 4xx. When the handler panics, net/http cuts the connection and
    nothing is claimed of what was sent: the record is at error level, marked
    as panicked, and its status is the one the handler had given by then, or
    else an assumed 200. The record names the pattern of the route, never a
    path with a caller's names in it, when a mux matched, and whatever the
    handler logs, also after the client went away, carries the id of that
    record. (A handler that answers 101 or flushes is left out; none here
    does.) *)
Theorem AccessLog_true (random : result errno (list Z)) (cancelled : bool) (next : handled) (r : access_request)
    (Hcalls : Forall accepts (hd_Calls next)) :
  let base := server_context cancelled in
  let '(out, echoed, rec, panics) := AccessLog base random next r in
  let head := String.eqb (aq_Method r) "HEAD" in
  let left := write_all head (hd_Calls next) newWire in
  write_all head out newWire = left ∧ panics = hd_Panics next ∧
  sent panics (write_all head out newWire) = sent (hd_Panics next) left ∧
  ar_Panicked rec = hd_Panics next ∧ ar_Bytes rec = wi_accepted left ∧
  (∀ w, sent (hd_Panics next) left = Some w →
     wi_status w = Some (ar_Status rec) ∧ wi_bytes w = (if head then 0 else ar_Bytes rec) ∧
     (500 <= ar_Status rec → ar_Level rec = LevelError) ∧ (400 <= ar_Status rec < 500 → ar_Level rec = LevelWarn)) ∧
  (hd_Panics next = true → ar_Level rec = LevelError ∧ ar_Status rec = default 200 (wi_status left)) ∧
  (aq_Leaf r ≠ "" → ar_Route rec = aq_Leaf r) ∧ (aq_Leaf r = "" → aq_Mount r ≠ "" → ar_Route rec = aq_Mount r) ∧
  (aq_HeaderID r ≠ "" → ar_ID rec = aq_HeaderID r ∧ echoed = Some (aq_HeaderID r)) ∧
  let ctx := Observability (routed_context base random r) in
  cx_cancelled ctx = false ∧ ∀ level l event msg args ln, ln ∈ log_at level (Some ctx) l event msg args →
    ln_Attrs ln = log_attrs (ar_ID rec) event args.
Proof.
  unfold AccessLog, CaptureRoute. cbv zeta. cbn [routed_context withRouteHolder cx_holder].
  set (head := String.eqb (aq_Method r) "HEAD").
  destruct (record_all_agrees head (hd_Calls next) newRecorder newWire Hcalls ltac:(done)) as [(Hs & Hb & _) Ho].
  destruct (record_all (hd_Calls next) newRecorder) as [rec out]. cbn [fst snd] in *. cbv zeta.
  cbn [ar_Status ar_Bytes ar_Panicked ar_Level ar_Route ar_ID].
  split_and!; [done | done | by rewrite Ho | done | done | | | | | | done |].
  - unfold sent. intros w. destruct (hd_Panics next); [done|]. intros [= <-]. unfold finish. cbn [wi_status wi_bytes].
    split_and!; [by rewrite Hs | | |].
    + rewrite Hb. clearbody head. destruct head; [apply write_all_head | by apply write_all_bytes].
    + unfold access_level. intros Hge. apply Z.leb_le in Hge. by rewrite Hge.
    + unfold access_level. intros [Hge Hlt]. apply Z.leb_le in Hge.
      assert (H5 : (500 <=? rc_status rec) = false) by (apply Z.leb_gt; lia). by rewrite Hge, H5.
  - unfold access_level. by intros ->.
  - intros Hl. unfold routeOf, holder_set. apply String.eqb_neq in Hl. by rewrite !Hl.
  - intros -> Hm. unfold routeOf, holder_set. cbn. apply String.eqb_neq in Hm. by rewrite Hm.
  - intros Hid. unfold request_id. apply String.eqb_neq in Hid. by rewrite !Hid.
  - intros level l event msg args ln. unfold log_at. case_match; [|by intros ?%not_elem_of_nil].
    intros ->%list_elem_of_singleton. cbn. unfold WithRequestID.
    destruct (String.eqb_spec (request_id random r) "") as [->|]; done.
Qed.

(** A handler that returns, after an interim answer and a superfluous header. *)
Lemma AccessLog_true_witness :
  let next := mkHandled [WHeader 103; WHeader 201; WHeader 500; WBody 12] false in
  let r := mkAccess "POST" "/v1/volumes/secret" "" "10.0.0.1:5000" "/v1/" "POST /volumes/{name}" in
  let '(out, echoed, rec, panics) := AccessLog (server_context true) (Ok [1; 2; 3; 4; 5; 6; 7; 255]) next r in
  out = [WHeader 103; WHeader 201; WBody 12] ∧ echoed = Some "01020304050607ff" ∧
  rec = mkAccessRecord LevelInfo "01020304050607ff" "POST" "POST /volumes/{name}" 201 12 "10.0.0.1:5000" false ∧
  wi_status (finish (write_all false (hd_Calls next) newWire)) = Some (ar_Status rec).
Proof.
  assert (Hc : Forall accepts [WHeader 103; WHeader 201; WHeader 500; WBody 12]) by (repeat constructor; done).
  destruct (AccessLog_true (Ok [1; 2; 3; 4; 5; 6; 7; 255]) true (mkHandled [WHeader 103; WHeader 201; WHeader 500; WBody 12] false)
    (mkAccess "POST" "/v1/volumes/secret" "" "10.0.0.1:5000" "/v1/" "POST /volumes/{name}") Hc)
    as (_ & _ & _ & _ & _ & Hst & _).
  split; [vm_compute; reflexivity|]. split; [vm_compute; reflexivity|]. split; [vm_compute; reflexivity|].
  exact (proj1 (Hst _ eq_refl)).
Defined.
(** One that panics before it wrote anything, and the answer to a HEAD. *)
Example panic_assumed_200 :
  (AccessLog (server_context false) (Err EIO) (mkHandled [] true) (mkAccess "GET" "/v1/hosts" "" "" "" "")).1.2
  = mkAccessRecord LevelError "" "GET" "/v1/hosts" 200 0 "" true
  ∧ sent true newWire = None.
Proof. by split. Qed.
Example head_counts_unsent :
  ar_Bytes (AccessLog (server_context false) (Err EIO) (mkHandled [WBody 12] false) (mkAccess "HEAD" "/" "" "" "" "")).1.2 = 12
  ∧ wi_bytes (write_all true [WBody 12] newWire) = 0.
Proof. by split. Qed.
