(* ===== verification/Setup.v ===== *)
(** * setup: preparing a host

    src/setup: which distribution the host runs, the readiness checks of
    [Preflight], and [SetupSystem], which may format and mount a disk. [Host]
    adds to [Files] what this package asks of the operating system: external
    commands, the search of a tool, a bind and an HTTP GET. The lines printed
    along the way are left out; the two embedded files are the parameter
    [assets]. *)

From S2P Require Import Prelude GoStrings Errors Netip Configfs AppTranslate Storage.

(** What a command does: its exit status (-1 for a signal), its standard output
    and both outputs together; or it does not start. *)
Inductive exit :=
  | Exited (code : Z) (stdout combined : string)
  | NotStarted (msg : string).

Class Host (H : Type) `{Files H} := {
  ho_euid : H → Z;
  ho_command : string → list string → H → exit * H;
  ho_lookpath : string → H → bool * H;
  ho_listen : string → H → result (bool * string) unit * H; (* bind and close; is it EADDRINUSE, the text *)
  ho_get : string → H → result string Z * H                 (* the status *)
}.

(** ** net *)

Definition colon : ascii := chr 58.
(** [net.SplitHostPort]; [None] is any error. *)
Definition SplitHostPort (s : string) : option (string * string) :=
  match s with
  | String "[" rest =>
      match Cut rest "]" with
      | Some (host, String ":" port) =>
          if ContainsAny port [colon; "["%char; "]"%char] || ContainsChar host "[" then None else Some (host, port)
      | _ => None
      end
  | _ =>
      match splitLastByte s colon with
      | Some (host, port) =>
          if ContainsChar host colon || ContainsAny s ["["%char; "]"%char] then None else Some (host, port)
      | None => None
      end
  end.
Definition JoinHostPort (host port : string) : string :=
  if ContainsChar host colon then "[" +:+ host +:+ "]:" +:+ port else host +:+ ":" +:+ port.

(** [strconv.Quote]: the escapes of ASCII and of a byte that is no UTF-8. A
    valid rune outside ASCII is kept (Go also escapes the unprintable ones). *)
Definition hex2 (b : Z) : string := String "\" (String "x" (hex_encode [b])).
Definition escaped (c : ascii) : string := String "\" (str1 c).
Definition quote_rune (r : Z * string) : string :=
  match r.2 with
  | String c EmptyString =>
      let b := byte_of c in
      if (b =? 34) || (b =? 92) then escaped c
      else if (0x20 <=? b) && (b <? 0x7F) then r.2
      else if b =? 7 then escaped "a" else if b =? 8 then escaped "b"
      else if b =? 12 then escaped "f" else if b =? 10 then escaped "n"
      else if b =? 13 then escaped "r" else if b =? 9 then escaped "t"
      else if b =? 11 then escaped "v" else hex2 b
  | s => s
  end.
Definition dquote : ascii := chr 34.
Definition Quote (s : string) : string :=
  String dquote (foldr (λ r acc, quote_rune r +:+ acc) (str1 dquote) (runes s)).

(** ** distro.go *)

Record Distro := mkDistro { d_ID : string; d_Version : string; d_Pretty : string }.

Fixpoint trim_left (c : ascii) (s : string) : string :=
  match s with String d r => if Ascii.eqb c d then trim_left c r else s | EmptyString => s end.
Fixpoint trim_tail (c : ascii) (s : string) : string :=
  match s with
  | EmptyString => EmptyString
  | String d r => let t := trim_tail c r in if String.eqb t "" && Ascii.eqb c d then "" else String d t
  end.
(** [strings.Trim], of double quotes. *)
Definition trim_quotes (s : string) : string := trim_tail dquote (trim_left dquote s).

Definition os_release (d : Distro) (line : string) : Distro :=
  match Cut (TrimSpace line) "=" with
  | None => d
  | Some (k, v) =>
      let v := trim_quotes v in
      if String.eqb k "ID" then mkDistro v (d_Version d) (d_Pretty d)
      else if String.eqb k "VERSION_ID" then mkDistro (d_ID d) v (d_Pretty d)
      else if String.eqb k "PRETTY_NAME" then mkDistro (d_ID d) (d_Version d) v
      else d
  end.

Definition debian_like (d : Distro) : bool := any (String.eqb (d_ID d)) ["debian"; "ubuntu"].
Definition azure_like (d : Distro) : bool := any (String.eqb (d_ID d)) ["azurelinux"; "mariner"].
Definition Supported (d : Distro) : bool := any (String.eqb (d_ID d)) ["debian"; "ubuntu"; "azurelinux"; "mariner"].
Definition pkgMgrInstall (d : Distro) : string :=
  if debian_like d then "apt-get install -y" else if azure_like d then "tdnf install -y" else "<install>".
Definition InstallHint (d : Distro) (pkgs : list string) : string := pkgMgrInstall d +:+ " " +:+ Join pkgs " ".
Definition Pkg (d : Distro) (capability : string) : string :=
  if String.eqb capability "lio-modules" then ""
  else if String.eqb capability "iscsi-initiator"
  then (if azure_like d then "iscsi-initiator-utils" else "open-iscsi")
  else capability.

(** ** preflight.go: reports *)

Inductive Severity := SevOK | SevWarn | SevFatal.
Definition Severity_String (s : Severity) : string :=
  match s with SevWarn => "WARN" | SevFatal => "FATAL" | SevOK => "OK" end.
Record PreCheck := mkCheck { k_Name : string; k_Passed : bool; k_Sev : Severity; k_Detail : string }.
Record Readiness := mkReadiness { r_Distro : Distro; r_Checks : list PreCheck }.

Definition fatal_check (c : PreCheck) : bool :=
  negb (k_Passed c) && match k_Sev c with SevFatal => true | _ => false end.
Definition Failed (r : Readiness) : bool := any fatal_check (r_Checks r).

(** [%-ns]. *)
Definition pad (n : nat) (s : string) : string := s +:+ of_chars (repeat (chr 32) (n - length (runes s))).
Definition check_status (c : PreCheck) : string := if k_Passed c then "OK" else Severity_String (k_Sev c).
Definition check_line (c : PreCheck) : string :=
  "  [" +:+ pad 5 (check_status c) +:+ "] " +:+ pad 24 (k_Name c) +:+ " " +:+ k_Detail c +:+ nl_str.
Definition warned (c : PreCheck) : bool :=
  negb (k_Passed c) && match k_Sev c with SevWarn => true | _ => false end.
Definition Fprint (r : Readiness) : string * bool :=
  let warn := Z.of_nat (length (filter (λ c, warned c = true) (r_Checks r))) in
  let failed := Failed r in
  ("preflight — " +:+ d_Pretty (r_Distro r) +:+ nl_str +:+ Join (check_line <$> r_Checks r) "" +:+
   (if failed then nl_str +:+ "RESULT: NOT READY — resolve the FATAL items above (setup-system fixes most)."
    else if 0 <? warn then nl_str +:+ "RESULT: READY with " +:+ itoa warn +:+ " warning(s)."
    else nl_str +:+ "RESULT: READY.") +:+ nl_str,
   failed).

Record Options := mkOptions { o_ISCSIPort : Z; o_RESTListen : string; o_Runtime : bool }.

Definition lioModules : list string := ["target_core_mod"; "iscsi_target_mod"; "target_core_file"].
Definition conflictingUnits : list string := ["target.service"; "rtslib-fb-targetctl.service"].
Definition configfsRoot : string := "/sys/kernel/config".
Definition configfsTarget : string := "/sys/kernel/config/target".

Definition healthURL (listen : string) : string :=
  if String.eqb listen "" then ""
  else
    match SplitHostPort listen with
    | None => ""
    | Some (host, port) =>
        let loopback :=
          match ParseAddr host with
          | Some addr =>
              if negb (IsUnspecified addr) then ""
              else if Is6 addr && negb (Is4In6 addr) then "::1" else "127.0.0.1"
          | None => if negb (String.eqb host "") then "" else "127.0.0.1"
          end in
        let host := if negb (String.eqb loopback "") then loopback else host in
        "http://" +:+ JoinHostPort host port +:+ "/v1/health"
    end.

Section Host.
Context {H : Type} `{Host H}.

Definition command (name : string) (args : list string) : ST H exit :=
  λ w, let '(e, w) := ho_command name args w in (Ok e, w).
Definition lookpath (tool : string) : ST H bool := λ w, let '(b, w) := ho_lookpath tool w in (Ok b, w).

(** An open, a write and a close, each of which may fail. *)
Definition os_WriteFile (p data : string) : ST H unit :=
  fop "open" p (FCreateTrunc p);;
  do w <- try (fop "write" p (FWrite p data));
  do c <- try (fs_Close p);
  match w with Err e => throw e | Ok _ => of_result c end.
Definition ok_of {A} (m : ST H A) : ST H bool := do r <- try m; ret (is_ok r).

Definition Detect : ST H Distro :=
  do r <- try (fs_ReadFile "/etc/os-release");
  ret (match r with
       | Err _ => mkDistro "unknown" "" ""
       | Ok data => foldl os_release (mkDistro "unknown" "" "") (Split data nl)
       end).

(** ** Probes *)

Definition moduleLoaded (name : string) : ST H bool := ok_of (fs_Stat ("/sys/module/" +:+ name)).
Definition moduleAvailable (name : string) : ST H bool :=
  do e <- command "modinfo" ["-F"; "filename"; name];
  ret (match e with Exited 0 _ _ => true | _ => false end).
Definition mount_entry (path src line : string) : string :=
  match Fields line with
  | dev :: mp :: _ => if String.eqb mp path then dev else src
  | _ => src
  end.
Definition mountSource (path : string) : ST H string :=
  do r <- try (fs_ReadFile "/proc/mounts");
  ret (match r with
       | Err _ => ""
       | Ok data => foldl (mount_entry path) "" (Split data nl)
       end).
Definition mounted (path : string) : ST H bool := do s <- mountSource path; ret (negb (String.eqb s "")).
Definition unitActive (unit : string) : ST H bool :=
  do e <- command "systemctl" ["is-active"; unit];
  ret (match e with
       | Exited _ out _ => String.eqb (TrimSpace out) "active"
       | NotStarted _ => false
       end).

(** A directory that cannot be read contributes nothing. *)
Definition names_of (p : string) : ST H (list string) :=
  do r <- try (fs_ReadDir p);
  ret (match r with Ok l => l.*1 | Err _ => [] end).
Definition kernelTargetHolds (port : Z) : ST H string :=
  let root := configfsRoot +:+ "/target/iscsi" in
  do iqns <- names_of root;
  do portals <- mcollect (λ iqn,
      do tpgs <- names_of (root +:+ "/" +:+ iqn);
      mcollect (λ tpg,
        if negb (HasPrefix tpg "tpgt_") then ret []
        else do nps <- names_of (root +:+ "/" +:+ iqn +:+ "/" +:+ tpg +:+ "/np");
             ret (filter (λ np, HasSuffix np (":" +:+ itoa port) = true) nps)) tpgs) iqns;
  ret (match portals with [] => "" | _ => "the kernel LIO target, on " +:+ Join portals ", " end).

Definition StatusOK : Z := 200.
Definition httpHealthy (url : string) : ST H (bool * string) := λ w,
  match ho_get url w with
  | (Err msg, w) => (Ok (false, "appliance not responding at " +:+ url +:+ ": " +:+ msg), w)
  | (Ok code, w) =>
      (Ok (if code =? StatusOK then (true, "REST healthy at " +:+ url)
           else (false, "appliance at " +:+ url +:+ " returned HTTP " +:+ itoa code)), w)
  end.
Definition applianceHolds (listen : string) : ST H string :=
  let url := healthURL listen in
  if String.eqb url "" then ret ""
  else do h <- httpHealthy url; ret (if h.1 then "a running appliance, answering /health" else "").

Definition checkPort (name addr : string) (heldBy : ST H string) : ST H PreCheck := λ w,
  let addr := match SplitHostPort addr with Some _ => addr | None => ":" +:+ addr end in
  match ho_listen addr w with
  | (Ok _, w) => (Ok (mkCheck name true SevFatal (addr +:+ " is free")), w)
  | (Err (inuse, msg), w) =>
      (do who <- (if inuse : bool then heldBy else ret "");
       ret (if negb (String.eqb who "")
            then mkCheck name true SevFatal (addr +:+ " is in use, by " +:+ who)
            else mkCheck name false SevFatal (addr +:+ " is not bindable: " +:+ msg))) w
  end.

(** ** Preflight *)

Definition check_module (d : Distro) (m : string) : ST H (list PreCheck) :=
  do loaded <- moduleLoaded m;
  if loaded then ret [mkCheck ("module:" +:+ m) true SevFatal "loaded"]
  else
    do available <- moduleAvailable m;
    if available then ret [mkCheck ("module:" +:+ m) true SevFatal "available (setup-system will load it)"]
    else
      let pkg := Pkg d "lio-modules" in
      let fix_ := "kernel target modules are missing" +:+
        (if negb (String.eqb pkg "") then "; install: " +:+ InstallHint d [pkg] else "") in
      ret [mkCheck ("module:" +:+ m) false SevFatal fix_].
Definition check_present (path name there missing : string) : ST H PreCheck :=
  do ok <- ok_of (fs_Stat path);
  ret (if ok then mkCheck name true SevWarn there else mkCheck name false SevWarn missing).
Definition check_unit (u : string) : ST H (list PreCheck) :=
  do active <- unitActive u;
  ret [if active
       then mkCheck ("conflict:" +:+ u) false SevFatal
              ("active — a competing LIO writer; setup-system masks it (systemctl mask " +:+ u +:+ ")")
       else mkCheck ("conflict:" +:+ u) true SevFatal "not active"].
Definition check_runtime (opts : Options) : ST H (list PreCheck) :=
  let url := healthURL (o_RESTListen opts) in
  if String.eqb url "" then ret []
  else do h <- httpHealthy url; ret [mkCheck "appliance-health" h.1 SevFatal h.2].
Definition check_ports (opts : Options) : ST H (list PreCheck) :=
  do iscsi <- (if negb (o_ISCSIPort opts =? 0)
               then do c <- checkPort "port:iscsi" (":" +:+ itoa (o_ISCSIPort opts)) (kernelTargetHolds (o_ISCSIPort opts));
                    ret [c]
               else ret []);
  do rest <- (if negb (String.eqb (o_RESTListen opts) "")
              then do c <- checkPort "port:rest" (o_RESTListen opts) (applianceHolds (o_RESTListen opts)); ret [c]
              else ret []);
  ret (iscsi ++ rest).

Definition Preflight (opts : Options) : ST H Readiness :=
  do d <- Detect;
  let root := λ w,
    (Ok (if ho_euid w =? 0 then mkCheck "root" true SevFatal "running as root"
         else mkCheck "root" false SevFatal "must run as root (configfs writes need CAP_SYS_ADMIN)"), w) in
  do c1 <- root;
  let c2 := if Supported d then mkCheck "distro" true SevWarn (d_Pretty d)
            else mkCheck "distro" false SevWarn
                   ("unrecognised distro " +:+ Quote (d_ID d) +:+
                    " — setup-system is unsupported here; preflight guidance is generic") in
  do c3 <- mcollect (check_module d) lioModules;
  do m <- mounted configfsRoot;
  let c4 := if m then mkCheck "configfs" true SevWarn ("mounted at " +:+ configfsRoot)
            else mkCheck "configfs" false SevWarn
                   ("not mounted; setup-system mounts it (mount -t configfs none " +:+ configfsRoot +:+ ")") in
  do c5 <- check_present (configfsTarget +:+ "/iscsi") "iscsi-fabric" "present"
             ("missing; setup-system creates it (mkdir " +:+ configfsTarget +:+ "/iscsi)");
  do c6 <- check_present "/var/target/pr" "pr-aptpl-dir"
             "/var/target/pr present (PR reservations persist across restart)"
             "/var/target/pr missing; SCSI-3 PR registrations will fail with NOT READY and will not persist. setup-system creates it";
  do c7 <- mcollect check_unit conflictingUnits;
  do c8 <- (if o_Runtime opts then check_runtime opts else check_ports opts);
  ret (mkReadiness d ([c1; c2] ++ c3 ++ [c4; c5; c6] ++ c7 ++ c8)).
End Host.
