(* ===== verification/SetupSystem.v ===== *)
(** * setup: what SetupSystem changes

    src/setup/setup.go. [SetupSystem] is a computation over a [Host]: it runs
    commands and writes files, and returns at the first error, except where
    the source drops one. *)

From S2P Require Import Prelude GoStrings Errors Netip Configfs AppTranslate Storage Setup.

Record SetupOptions := mkSetupOptions {
  so_DataRoot : string; so_DataDisk : string; so_Force : bool; so_ForceMount : bool; so_Enable : bool }.

Definition fstabPath : string := "/etc/fstab".
Definition fstab_line (uuid root : string) : string :=
  "UUID=" +:+ uuid +:+ " " +:+ root +:+ " xfs nofail,x-systemd.device-timeout=10s 0 0".
Definition dropin_dir : string := "/etc/systemd/system/applianced.service.d".
Definition env_path : string := "/etc/glitr/applianced.env".

(** ** The text of fstab *)

(** A blank line or a comment. *)
Definition fstab_prose (l : string) : bool :=
  let t := TrimSpace l in String.eqb t "" || HasPrefix t "#".
(** An entry for [mountpoint]. *)
Definition fstab_entry (mountpoint l : string) : bool :=
  negb (fstab_prose l) &&
  match Fields l with _ :: mp :: _ => String.eqb mp mountpoint | _ => false end.
(** The lines kept, and whether an entry for the mount point was found. *)
Fixpoint fstab_scan (line mountpoint : string) (ls : list string) : list string * bool :=
  match ls with
  | [] => ([], false)
  | l :: ls =>
      let '(keep, found) := fstab_scan line mountpoint ls in
      if fstab_prose l then (l :: keep, found)
      else if fstab_entry mountpoint l then (if String.eqb (Join (Fields l) " ") line then l :: keep else keep, true)
      else (l :: keep, found)
  end.
(** [slices.Insert(keep, n-1, line)] before a blank last element, or [line] and
    an empty one after the last. *)
Definition fstab_add (line : string) (keep : list string) : list string :=
  match last keep with
  | Some l => if String.eqb (TrimSpace l) "" then removelast keep ++ [line; l] else keep ++ [line; ""]
  | None => keep ++ [line; ""]
  end.

Section SetupSystem.
Context {H : Type} `{Host H} (assets : string → string).

Definition run (name : string) (args : list string) : ST H unit :=
  do e <- command name args;
  match e with
  | Exited 0 _ _ => ret tt
  | Exited n _ out => throw (wrapf "%s %s: exit status %d: %s" [name; Join args " "; itoa n; TrimSpace out])
  | NotStarted msg => throw (wrapf "%s %s: %v: " [name; Join args " "; msg])
  end.

Definition installAsset (assetPath dst : string) : ST H unit :=
  fs_MkdirAll (Dir dst);; os_WriteFile dst (assets assetPath).

Definition writeEnvFile (opts : SetupOptions) : ST H unit :=
  let root := if String.eqb (so_DataRoot opts) "" then "/var/lib/glitr" else so_DataRoot opts in
  let env := "# glitr applianced flags (edit to taste; the REST API is unauthenticated)" +:+ nl_str +:+
             "GLITR_ARGS=-root " +:+ root +:+ " -listen 127.0.0.1:8080" +:+ nl_str in
  fs_MkdirAll "/etc/glitr";;
  do there <- ok_of (fs_Stat env_path);
  if there then ret tt else os_WriteFile env_path env.

Definition blkidValue (dev field : string) : ST H string :=
  do e <- command "blkid" ["-s"; field; "-o"; "value"; dev];
  match e with
  | Exited 0 out _ => ret (TrimSpace out)
  | Exited 2 _ _ => ret ""
  | Exited n _ _ => throw (wrapf "blkid %s %s: exit status %d" [field; dev; itoa n])
  | NotStarted msg => throw (wrapf "blkid %s %s: %v" [field; dev; msg])
  end.

Definition ensureFstab (path line mountpoint : string) : ST H bool :=
  do r <- try (fs_ReadFile path);
  do data <- match r with
             | Ok d => ret d
             | Err e => if IsNotExist e then ret "" else throw e
             end;
  let '(keep, found) := fstab_scan line mountpoint (Split data nl) in
  if found && any (String.eqb line) keep then ret false
  else
    let out := Join (fstab_add line keep) nl_str in
    let tmp := path +:+ ".glitr.tmp" in
    os_WriteFile tmp out;;
    do r <- try (fs_Rename tmp path);
    match r with
    | Err e => try (fs_Remove tmp);; throw e
    | Ok _ => ret true
    end.

Definition installPackages (d : Distro) (pkgs : list string) : ST H unit :=
  if debian_like d then try (run "apt-get" ["update"]);; run "apt-get" (["install"; "-y"] ++ pkgs)
  else if azure_like d then run "tdnf" (["install"; "-y"] ++ pkgs)
  else throw (wrapf "no package manager known for %s" [d_ID d]).

Definition ensureTool (d : Distro) (tool pkg : string) : ST H unit :=
  do found <- lookpath tool;
  if found then ret tt
  else if String.eqb pkg ""
  then throw (wrapf "%s not found and no package known to install it on %s" [tool; d_ID d])
  else
    onerr (installPackages d [pkg]) (ErrWrap "install %s: %w (try manually: %s)" [pkg; InstallHint d [pkg]]);;
    do found <- lookpath tool;
    if found then ret tt else throw (wrapf "%s still not found after installing %s" [tool; pkg]).

Definition checkMountTarget (root dev : string) (forceMount : bool) : ST H unit :=
  do r <- try (fs_ReadDir root);
  match r with
  | Err e =>
      if IsNotExist e then ret tt
      else throw (ErrWrap "cannot check whether %s is empty before mounting %s: %w (use -force-mount to override)" [root; dev] e)
  | Ok entries =>
      if negb (bool_decide (entries = [])) && negb forceMount
      then throw (wrapf "%s is not empty; mounting %s over it would hide the existing data (migrate or empty it, or use -force-mount to override)" [root; dev])
      else ret tt
  end.

Definition writeMountDropin (root : string) : ST H unit :=
  let content := "# installed by `applianced setup-system -data-disk`" +:+ nl_str +:+
                 "[Unit]" +:+ nl_str +:+ "RequiresMountsFor=" +:+ root +:+ nl_str in
  fs_MkdirAll dropin_dir;;
  os_WriteFile (path_Join [dropin_dir; "10-datamount.conf"]) content.

Definition formatDisk (opts : SetupOptions) : ST H unit :=
  let dev := so_DataDisk opts in
  do r <- try (blkidValue dev "TYPE");
  match r with
  | Err e =>
      if negb (so_Force opts)
      then throw (ErrWrap "cannot probe %s for an existing filesystem: %w (use -force to format anyway)" [dev] e)
      else onerr (run "mkfs.xfs" ["-f"; dev]) (ErrWrap "mkfs.xfs %s: %w" [dev])
  | Ok fstype =>
      if String.eqb fstype "xfs" then ret tt
      else if String.eqb fstype "" || so_Force opts
      then onerr (run "mkfs.xfs" ["-f"; dev]) (ErrWrap "mkfs.xfs %s: %w" [dev])
      else throw (wrapf "%s already has a %s filesystem; refusing to format (use -force to override)" [dev; fstype])
  end.
Definition mountDisk (opts : SetupOptions) : ST H unit :=
  let dev := so_DataDisk opts in let root := so_DataRoot opts in
  do m <- mounted root;
  if negb m then
    checkMountTarget root dev (so_ForceMount opts);;
    onerr (run "mount" [dev; root]) (ErrWrap "mount %s %s: %w" [dev; root])
  else
    do src <- mountSource root;
    if negb (String.eqb src "") && negb (String.eqb src dev)
    then throw (wrapf "%s is already mounted from %s, not %s; refusing to write an fstab entry that would change it on next boot" [root; src; dev])
    else ret tt.
Definition setupDataDisk (opts : SetupOptions) : ST H unit :=
  let dev := so_DataDisk opts in let root := so_DataRoot opts in
  do d <- Detect;
  ensureTool d "mkfs.xfs" (Pkg d "xfsprogs");;
  formatDisk opts;;
  mountDisk opts;;
  do r <- try (blkidValue dev "UUID");
  match r with
  | Err e => throw (ErrMsgV "could not read UUID of %s: %v" [dev] e)
  | Ok uuid =>
      if String.eqb uuid "" then throw (wrapf "could not read UUID of %s: <nil>" [dev])
      else
        do _ <- ensureFstab fstabPath (fstab_line uuid root) root;
        writeMountDropin root
  end.

Definition loadModule (d : Distro) (m : string) : ST H unit :=
  do loaded <- moduleLoaded m;
  if loaded then ret tt
  else onerr (run "modprobe" [m]) (ErrWrap "modprobe %s: %w (install: %s)" [m; InstallHint d [Pkg d "lio-modules"]]).

Definition SetupSystem (opts : SetupOptions) : ST H unit := λ w,
  if negb (ho_euid w =? 0) then (Err (wrapf "setup-system must run as root" []), w)
  else
    (do d <- Detect;
     if negb (Supported d)
     then throw (wrapf "setup-system does not support %q (%s); supported: debian, ubuntu, azurelinux" [d_ID d; d_Pretty d])
     else
       mfor (loadModule d) lioModules;;
       installAsset "assets/modules-load.conf" "/etc/modules-load.d/glitr.conf";;
       (do m <- mounted configfsRoot;
        if m then ret tt
        else
          fs_MkdirAll configfsRoot;;
          onerr (run "mount" ["-t"; "configfs"; "none"; configfsRoot]) (ErrWrap "mount configfs: %w" []));;
       fs_MkdirAll "/var/target/pr";;
       onerr (fs_MkdirAll (configfsTarget +:+ "/iscsi"))
         (ErrWrap "mkdir %s/iscsi: %w (are the LIO modules loaded?)" [configfsTarget]);;
       try (run "systemctl" ("mask" :: conflictingUnits));;
       (if negb (String.eqb (so_DataRoot opts) "") then fs_MkdirAll (so_DataRoot opts) else ret tt);;
       (if negb (String.eqb (so_DataDisk opts) "") then setupDataDisk opts else ret tt);;
       installAsset "assets/applianced.service" "/etc/systemd/system/applianced.service";;
       writeEnvFile opts;;
       run "systemctl" ["daemon-reload"];;
       (if so_Enable opts then run "systemctl" ["enable"; "--now"; "applianced.service"] else ret tt)) w.
End SetupSystem.
