(* ===== verification/SetupProofs.v ===== *)
(** * setup: what SetupSystem may do to a host, and what it leaves in fstab

    A logged host remembers the commands it ran, the directories it listed and
    the file operations it was asked for, each with its answer. [triple] is the
    rule set: what a computation appends to the log is a chain, every event
    permitted after the one before it. Then the text of fstab, over [Disk]. *)

From S2P Require Import Prelude GoStrings Errors Netip LioModel Configfs FsPaths AppModel AppTranslate AppAptpl.
From S2P Require Import AppAptplProofs Storage AppDisk Setup SetupSystem.

(** ** Logged hosts *)

Inductive hevent :=
  | ECommand (name : string) (args : list string) (answer : exit)
  | EStat (p : string) (answer : result errno Z)
  | EReadDir (p : string) (answer : result errno (list (string * bool)))
  | EFile (o : fileop).
Class HasLog (H : Type) := hlog : H → list hevent.
Class LoggedHost (H : Type) `{Host H} `{HasLog H} : Prop := {
  log_command n a w : hlog (ho_command n a w).2 = hlog w ++ [ECommand n a (ho_command n a w).1];
  log_fstat p w : hlog (fl_stat p w).2 = hlog w ++ [EStat p (fl_stat p w).1];
  log_freaddir p w : hlog (fl_readdir p w).2 = hlog w ++ [EReadDir p (fl_readdir p w).1];
  log_fop o w : hlog (fl_op o w).2 = hlog w ++ [EFile o];
  log_freadfile p w : hlog (fl_readfile p w).2 = hlog w;
  log_lookpath t w : hlog (ho_lookpath t w).2 = hlog w;
  log_listen a w : hlog (ho_listen a w).2 = hlog w;
  log_get u w : hlog (ho_get u w).2 = hlog w
}.

(** Any host becomes a logged one. *)
Section logged.
Context {H : Type} `{Host H}.
Definition logging {A} (e : A → list hevent) (r : A * H) (l : list hevent) : A * (H * list hevent) :=
  (r.1, (r.2, l ++ e r.1)).
#[export] Instance logged_files : Files (H * list hevent) := {
  fl_stat p w := logging (λ r, [EStat p r]) (fl_stat p w.1) w.2;
  fl_readdir p w := logging (λ r, [EReadDir p r]) (fl_readdir p w.1) w.2;
  fl_readfile p w := logging (λ _, []) (fl_readfile p w.1) w.2;
  fl_op o w := logging (λ _, [EFile o]) (fl_op o w.1) w.2;
  fl_now w := logging (λ _, []) (fl_now w.1) w.2;
  fl_random w := logging (λ _, []) (fl_random w.1) w.2
}.
#[export] Instance logged_host : Host (H * list hevent) := {
  ho_euid w := ho_euid w.1;
  ho_command n a w := logging (λ r, [ECommand n a r]) (ho_command n a w.1) w.2;
  ho_lookpath t w := logging (λ _, []) (ho_lookpath t w.1) w.2;
  ho_listen a w := logging (λ _, []) (ho_listen a w.1) w.2;
  ho_get u w := logging (λ _, []) (ho_get u w.1) w.2
}.
#[export] Instance logged_log : HasLog (H * list hevent) := snd.
#[export] Instance logged_lawful : LoggedHost (H * list hevent).
Proof. split; intros; cbn; rewrite ?app_nil_r; done. Qed.
End logged.

(** ** Chains *)

Section chains.
Context (P : option hevent → hevent → Prop).
Fixpoint chain (prev : option hevent) (l : list hevent) : Prop :=
  match l with
  | [] => True
  | e :: l => P prev e ∧ chain (Some e) l
  end.
Fixpoint last_of (prev : option hevent) (l : list hevent) : option hevent :=
  match l with
  | [] => prev
  | e :: l => last_of (Some e) l
  end.
Lemma chain_app prev l1 l2 : chain prev (l1 ++ l2) ↔ chain prev l1 ∧ chain (last_of prev l1) l2.
Proof. revert prev. induction l1 as [|e l1 IH]; intros prev; cbn; [tauto|]. rewrite IH. tauto. Qed.
Lemma last_of_app prev l1 l2 : last_of prev (l1 ++ l2) = last_of (last_of prev l1) l2.
Proof. revert prev. induction l1; intros prev; cbn; auto. Qed.

Context {H : Type} `{LoggedHost H}.

(** From any state and after an event satisfying [pre], what [m] appends is a
    chain, and its answer and last event satisfy [post]. *)
Definition triple {A} (pre : option hevent → Prop) (m : ST H A) (post : result goerr A → option hevent → Prop) : Prop :=
  ∀ w prev, pre prev →
    ∃ l, hlog (m w).2 = hlog w ++ l ∧ chain prev l ∧ post (m w).1 (last_of prev l).
(** Whatever came before, and nothing said of the end. *)
Definition safe_run {A} (m : ST H A) : Prop := triple (λ _, True) m (λ _ _, True).

Lemma triple_silent {A} (pre : option hevent → Prop) (m : ST H A) (post : result goerr A → option hevent → Prop) :
  (∀ w, hlog (m w).2 = hlog w ∧ ∀ prev, pre prev → post (m w).1 prev) → triple pre m post.
Proof. intros Hm w prev Hp. exists []. destruct (Hm w) as [-> Hpost]. rewrite app_nil_r. cbn. auto. Qed.
Lemma triple_bind {A B} pre (m : ST H A) (f : A → ST H B) mid post :
  triple pre m mid → (∀ a, triple (mid (Ok a)) (f a) post) → (∀ e prev, mid (Err e) prev → post (Err e) prev) →
  triple pre (bind m f) post.
Proof.
  intros Hm Hf He w prev Hp. destruct (Hm w prev Hp) as (l & Hl & Hc & Hmid). unfold bind.
  destruct (m w) as [[a|e] w']; cbn [fst snd] in *; [|exists l; auto].
  destruct (Hf a w' _ Hmid) as (l' & Hl' & Hc' & Hpost). exists (l ++ l').
  rewrite Hl', Hl, (assoc_L (++)), chain_app, last_of_app. auto.
Qed.
Lemma triple_weaken {A} pre (m : ST H A) post pre' post' :
  triple pre m post → (∀ x, pre' x → pre x) → (∀ r x, post r x → post' r x) → triple pre' m post'.
Proof. intros Hm Hpre Hpost w prev Hp. destruct (Hm w prev (Hpre _ Hp)) as (l & ? & ? & ?). exists l. auto. Qed.

Lemma safe_silent {A} (m : ST H A) : (∀ w, hlog (m w).2 = hlog w) → safe_run m.
Proof. intros Hm. apply triple_silent. auto. Qed.
Lemma safe_ret {A} (a : A) : safe_run (ret a).
Proof. by apply safe_silent. Qed.
Lemma safe_throw {A} e : safe_run (throw e : ST H A).
Proof. by apply safe_silent. Qed.
Lemma safe_of_result {A} (r : result goerr A) : safe_run (of_result r).
Proof. by apply safe_silent. Qed.
Lemma safe_bind {A B} (m : ST H A) (f : A → ST H B) : safe_run m → (∀ a, safe_run (f a)) → safe_run (bind m f).
Proof. intros Hm Hf. by eapply triple_bind; [exact Hm | exact Hf | auto]. Qed.
Lemma triple_try {A} pre (m : ST H A) post :
  triple pre m post → triple pre (try m) (λ r x, match r with Ok r => post r x | Err _ => False end).
Proof. intros Hm w prev Hp. destruct (Hm w prev Hp) as (l & ?). exists l. unfold try. by destruct (m w). Qed.
Lemma safe_try {A} (m : ST H A) : safe_run m → safe_run (try m).
Proof. intros Hm. eapply triple_weaken; [by apply triple_try | auto | auto]. Qed.
Lemma triple_onerr {A} pre (m : ST H A) f : triple pre m (λ _ _, True) → triple pre (onerr m f) (λ _ _, True).
Proof. intros Hm w prev Hp. destruct (Hm w prev Hp) as (l & ?). exists l. unfold onerr. by destruct (m w) as [[] ?]. Qed.
Lemma safe_onerr {A} (m : ST H A) f : safe_run m → safe_run (onerr m f).
Proof. apply triple_onerr. Qed.
Lemma safe_mfor {A} (f : A → ST H unit) l : (∀ x, safe_run (f x)) → safe_run (mfor f l).
Proof. intros Hf. induction l as [|x l IH]; cbn; [apply safe_ret|]. by apply safe_bind. Qed.
Lemma safe_mcollect {A B} (f : A → ST H (list B)) l : (∀ x, safe_run (f x)) → safe_run (mcollect f l).
Proof.
  intros Hf. induction l as [|x l IH]; cbn; [apply safe_ret|]. apply safe_bind; [done|]. intros ?.
  apply safe_bind; [done|]. intros ?. apply safe_ret.
Qed.
Lemma safe_ReadFile p : safe_run (fs_ReadFile p).
Proof.
  apply safe_silent. intros w. unfold fs_ReadFile, sys. pose proof (log_freadfile p w).
  by destruct (fl_readfile p w) as [[] ?].
Qed.
Lemma safe_lookpath t : safe_run (lookpath t).
Proof. apply safe_silent. intros w. unfold lookpath. pose proof (log_lookpath t w). by destruct (ho_lookpath t w). Qed.

(** The computations that append one event. *)
Lemma triple_command n a (pre : option hevent → Prop) :
  (∀ prev r, pre prev → P prev (ECommand n a r)) →
  triple pre (command n a) (λ r x, ∃ e, r = Ok e ∧ x = Some (ECommand n a e)).
Proof.
  intros HP w prev Hp. unfold command. pose proof (log_command n a w) as Hl. destruct (ho_command n a w) as [e w'].
  exists [ECommand n a e]. cbn in *. split_and!; auto. by exists e.
Qed.
Lemma triple_fop op p o (pre : option hevent → Prop) :
  (∀ prev, pre prev → P prev (EFile o)) → triple pre (fop op p o) (λ _ _, True).
Proof.
  intros HP w prev Hp. unfold fop, sys. pose proof (log_fop o w) as Hl.
  exists [EFile o]. destruct (fl_op o w) as [[] w']; cbn in *; auto.
Qed.
Lemma safe_fop op p o : (∀ prev, P prev (EFile o)) → safe_run (fop op p o).
Proof. intros HP. apply triple_fop. auto. Qed.
Lemma triple_Stat p : (∀ prev r, P prev (EStat p r)) →
  triple (λ _, True) (fs_Stat p) (λ r x, ∃ a, x = Some (EStat p a) ∧ is_ok r = is_ok a).
Proof.
  intros HP w prev _. unfold fs_Stat, sys. pose proof (log_fstat p w) as Hl. destruct (fl_stat p w) as [r w'].
  exists [EStat p r]. destruct r; cbn in *; split_and!; eauto.
Qed.
Lemma triple_ReadDir p : (∀ prev r, P prev (EReadDir p r)) →
  triple (λ _, True) (fs_ReadDir p) (λ r x, ∃ a, x = Some (EReadDir p a) ∧
    match a, r with
    | Ok l, Ok l' => l = [] ↔ l' = []
    | Err e, Err e' => IsNotExist e' = bool_decide (e = ENOENT)
    | _, _ => False
    end).
Proof.
  intros HP w prev _. unfold fs_ReadDir, bind, sys. pose proof (log_freaddir p w) as Hl.
  destruct (fl_readdir p w) as [r w']. exists [EReadDir p r].
  destruct r as [l|e]; cbn in *; (split_and!; [done | auto..|]); eexists; (split; [done|]); [|done].
  pose proof (sort_by_perm dirent_le l) as Hs. split; intros Hn; subst.
  - done.
  - rewrite Hn in Hs. by apply Permutation_nil_l in Hs.
Qed.
End chains.

Create HintDb setup.
Ltac fold_safe :=
  match goal with |- triple ?P _ ?m _ => change (safe_run P m) end.
#[export] Hint Resolve safe_ret safe_throw safe_of_result safe_ReadFile safe_lookpath : setup.
Ltac safe_step :=
  match goal with
  | |- safe_run _ (bind _ _) => apply safe_bind; [|intros]
  | |- safe_run _ (try _) => apply safe_try
  | |- safe_run _ (onerr _ _) => apply safe_onerr
  | |- safe_run _ (mfor _ _) => apply safe_mfor; intros
  | |- safe_run _ (mcollect _ _) => apply safe_mcollect; intros
  | |- safe_run _ (if ?b then _ else _) => destruct b
  | |- safe_run _ (match ?x with _ => _ end) => destruct x
  | |- safe_run _ (let _ := _ in _) => cbv zeta
  end.
Ltac safely := cbv zeta; repeat (first [solve [eauto 3 with setup] | safe_step]; cbv beta zeta).

(** ** What SetupSystem may do *)

Section guards.
Context (opts : SetupOptions).
Definition disk : string := so_DataDisk opts.
Definition data_root : string := so_DataRoot opts.

(** An answer of blkid after which the disk may be formatted: it holds no file
    system, or the operator insists and it is not XFS already. *)
Definition may_format (answer : exit) : Prop :=
  match answer with
  | Exited 0 out _ => TrimSpace out = "" ∨ (so_Force opts = true ∧ TrimSpace out ≠ "xfs")
  | Exited 2 _ _ => True
  | _ => so_Force opts = true
  end.
(** A listing of the data root after which the disk may be mounted over it. *)
Definition may_mount (answer : result errno (list (string * bool))) : Prop :=
  match answer with
  | Ok [] => True
  | Ok _ => so_ForceMount opts = true
  | Err e => e = ENOENT
  end.
(** The files written, and the directories made. *)
Definition dropin_path : string := path_Join [dropin_dir; "10-datamount.conf"].
Definition fstab_tmp : string := fstabPath +:+ ".glitr.tmp".
Definition own_files : list string :=
  ["/etc/modules-load.d/glitr.conf"; "/etc/systemd/system/applianced.service"; env_path; dropin_path; fstab_tmp].
Definition own_dirs : list string :=
  ["/etc/modules-load.d"; "/etc/systemd/system"; "/etc/glitr"; dropin_dir; configfsRoot; "/var/target/pr";
   configfsTarget +:+ "/iscsi"; data_root].
Definition own_op (o : fileop) : Prop :=
  match o with
  | FMkdirAll p => p ∈ own_dirs
  | FCreateTrunc p | FWrite p _ | FClose p => p ∈ own_files
  | FRename a b => a = fstab_tmp ∧ b = fstabPath
  | FRemove p => p = fstab_tmp
  | _ => False
  end.

Definition permits (prev : option hevent) (e : hevent) : Prop :=
  match e with
  | ECommand name args _ =>
      if String.eqb name "mkfs.xfs" then
        args = ["-f"; disk] ∧ disk ≠ "" ∧
        ∃ answer, prev = Some (ECommand "blkid" ["-s"; "TYPE"; "-o"; "value"; disk] answer) ∧ may_format answer
      else if String.eqb name "mount" then
        args = ["-t"; "configfs"; "none"; configfsRoot] ∨
        (args = [disk; data_root] ∧ disk ≠ "" ∧ ∃ answer, prev = Some (EReadDir data_root answer) ∧ may_mount answer)
      else name ∈ ["modprobe"; "systemctl"; "blkid"; "apt-get"; "tdnf"]
  | EFile o =>
      own_op o ∧ (o = FCreateTrunc env_path → ∃ answer, prev = Some (EStat env_path answer) ∧ is_ok answer = false)
  | EStat _ _ | EReadDir _ _ => True
  end.

Context {H : Type} `{LoggedHost H} (assets : string → string).
Notation safe := (safe_run permits).

(** A command of the vocabulary that needs no guard. *)
Definition plain_command (name : string) : Prop := name ∈ ["modprobe"; "systemctl"; "blkid"; "apt-get"; "tdnf"].
Lemma permits_plain prev name args r : plain_command name → permits prev (ECommand name args r).
Proof.
  unfold plain_command. rewrite !elem_of_cons, elem_of_nil. intros Hn. cbn.
  destruct Hn as [->|[->|[->|[->|[->|[]]]]]]; cbn; set_solver.
Qed.
Lemma safe_command name args : plain_command name → safe (command name args).
Proof.
  intros Hn. apply (triple_weaken permits (λ _, True) _ (λ r x, ∃ e, r = Ok e ∧ x = Some (ECommand name args e))); [|auto..].
  refine (triple_command _ _ _ _ _). intros. by apply permits_plain.
Qed.
Lemma triple_run (pre : option hevent → Prop) name args :
  (∀ prev r, pre prev → permits prev (ECommand name args r)) → triple permits pre (run name args) (λ _ _, True).
Proof.
  intros HP. unfold run. eapply triple_bind; [by apply triple_command | | auto].
  intros e. eapply (triple_weaken permits (λ _, True) _ (λ _ _, True)); [|auto..].
  fold_safe. safely.
Qed.
Lemma safe_run_plain name args : plain_command name → safe (run name args).
Proof. intros Hn. apply triple_run. intros. by apply permits_plain. Qed.
Lemma safe_op op p o : own_op o → o ≠ FCreateTrunc env_path → safe (fop op p o).
Proof. intros Ho Hne. refine (safe_fop _ _ _ _ _). by split. Qed.
Lemma safe_MkdirAll p : p ∈ own_dirs → safe (fs_MkdirAll p).
Proof. intros Hp. by apply safe_op. Qed.
Lemma triple_fs_Stat p : triple permits (λ _, True) (fs_Stat p) (λ r x, ∃ a, x = Some (EStat p a) ∧ is_ok r = is_ok a).
Proof. refine (triple_Stat _ _ _). done. Qed.
Lemma safe_Stat p : safe (fs_Stat p).
Proof. by eapply triple_weaken; [apply triple_fs_Stat|..]. Qed.
Lemma safe_fs_ReadDir p : safe (fs_ReadDir p).
Proof. eapply triple_weaken; [refine (triple_ReadDir _ _ _); done|done..]. Qed.
Lemma triple_WriteFile (pre : option hevent → Prop) p data : p ∈ own_files →
  (p = env_path → ∀ prev, pre prev → ∃ answer, prev = Some (EStat env_path answer) ∧ is_ok answer = false) →
  triple permits pre (os_WriteFile p data) (λ _ _, True).
Proof.
  intros Hp Henv. unfold os_WriteFile. eapply triple_bind; [| |auto].
  - refine (triple_fop _ _ _ _ _ _). intros prev Hpre. split; [done|]. intros [= He]. by eapply Henv.
  - intros a. fold_safe. apply safe_bind; [by apply safe_try, safe_op|]. intros w.
    apply safe_bind; [by apply safe_try, safe_op|]. intros c. safely.
Qed.
Lemma safe_WriteFile p data : p ∈ own_files → p ≠ env_path → safe (os_WriteFile p data).
Proof. intros Hp Hne. by apply triple_WriteFile. Qed.
Lemma safe_installAsset a dst : Dir dst ∈ own_dirs → dst ∈ own_files → dst ≠ env_path → safe (installAsset assets a dst).
Proof. intros. apply safe_bind; [by apply safe_MkdirAll|]. intros _. by apply safe_WriteFile. Qed.
Lemma safe_mountSource p : safe (mountSource p).
Proof. unfold mountSource. safely. Qed.
Lemma safe_mounted p : safe (mounted p).
Proof. unfold mounted. apply safe_bind; [apply safe_mountSource|]. intros. safely. Qed.
Lemma safe_Detect : safe Detect.
Proof. unfold Detect. safely. Qed.
Lemma safe_loadModule d m : safe (loadModule d m).
Proof.
  unfold loadModule, moduleLoaded, ok_of. apply safe_bind.
  - apply safe_bind; [apply safe_try, safe_Stat|]. intros. safely.
  - intros []; [safely|]. apply triple_onerr, safe_run_plain. set_solver.
Qed.
Lemma safe_writeEnvFile : safe (writeEnvFile opts).
Proof.
  unfold writeEnvFile. cbv zeta. apply safe_bind; [apply safe_MkdirAll; set_solver|]. intros _. unfold ok_of.
  eapply triple_bind; [|instantiate (1 := λ r x, r = Ok false → ∃ a, x = Some (EStat env_path a) ∧ is_ok a = false)|auto].
  - eapply triple_bind; [apply triple_try, triple_fs_Stat| |done]. intros r. apply triple_silent. intros w. split; [done|].
    intros prev (a & -> & Hr) [= Ha]. exists a. by rewrite <- Hr.
  - intros [|]; [by eapply triple_weaken; [apply safe_ret|..]|]. apply triple_WriteFile; [set_solver|]. auto.
Qed.
Lemma safe_blkidValue dev field : safe (blkidValue dev field).
Proof. unfold blkidValue. apply safe_bind; [apply safe_command; set_solver|]. intros. safely. Qed.
Lemma safe_ensureFstab line mp : safe (ensureFstab fstabPath line mp).
Proof.
  unfold ensureFstab. apply safe_bind; [safely|]. intros r. apply safe_bind; [safely|]. intros data.
  destruct (fstab_scan _ _ _) as [keep found]. destruct (_ && _); [safely|]. cbv zeta.
  apply safe_bind; [apply safe_WriteFile; [set_solver | done]|]. intros _. apply safe_bind; [apply safe_try, safe_op; done|].
  intros [u|e]; [safely|]. apply safe_bind; [apply safe_try, safe_op; done|]. intros. safely.
Qed.
Lemma safe_ensureTool d tool pkg : safe (ensureTool d tool pkg).
Proof.
  unfold ensureTool, installPackages. safely; apply safe_run_plain; set_solver.
Qed.

(** The two guarded steps: what was answered just before is what the step may
    rely on. *)
Definition probed (r : result goerr exit) (x : option hevent) : Prop :=
  ∃ e, r = Ok e ∧ x = Some (ECommand "blkid" ["-s"; "TYPE"; "-o"; "value"; disk] e).
Lemma triple_mkfs (Hdisk : disk ≠ "") :
  triple permits (λ x, ∃ e, x = Some (ECommand "blkid" ["-s"; "TYPE"; "-o"; "value"; disk] e) ∧ may_format e)
    (onerr (run "mkfs.xfs" ["-f"; disk]) (ErrWrap "mkfs.xfs %s: %w" [disk])) (λ _ _, True).
Proof. apply triple_onerr, triple_run. intros prev r (e & -> & He). cbn. by eauto. Qed.
Lemma safe_formatDisk : disk ≠ "" → safe (formatDisk opts).
Proof.
  intros Hdisk. unfold formatDisk. cbv zeta. fold disk.
  eapply triple_bind; [apply triple_try| |done].
  - unfold blkidValue. eapply (triple_bind _ _ _ _ probed); [refine (triple_command _ _ _ _ _)| |by intros ? ? (? & ? & _)].
    + intros. by apply permits_plain; set_solver.
    + intros e.
      instantiate (1 := λ r x, ∃ e, x = Some (ECommand "blkid" ["-s"; "TYPE"; "-o"; "value"; disk] e) ∧
        match r with
        | Ok v => (v = "" → may_format e) ∧ (so_Force opts = true → v ≠ "xfs" → may_format e)
        | Err _ => so_Force opts = true → may_format e
        end).
      destruct e as [n out all|msg].
      * apply triple_silent. intros w. split; [by destruct n as [|[|[]|]|]|]. intros prev (e & [= <-] & ->).
        exists (Exited n out all). split; [done|]. destruct n as [|[|[]|]|]; cbn; auto.
      * apply triple_silent. intros w. split; [done|]. intros prev (e & [= <-] & ->). exists (NotStarted msg). by cbn.
  - intros [v|e].
    + destruct (String.eqb_spec v "xfs"); [by eapply triple_weaken; [apply safe_ret|..]|].
      destruct (String.eqb_spec v "") as [->|].
      * eapply triple_weaken; [by apply triple_mkfs | | done]. intros x (e & -> & He & _). eauto.
      * destruct (so_Force opts) eqn:F; cbn [orb]; [|by eapply triple_weaken; [apply safe_throw|..]].
        eapply triple_weaken; [by apply triple_mkfs | | done]. intros x (e & -> & _ & He). eauto.
    + destruct (so_Force opts) eqn:F; cbn [negb]; [|by eapply triple_weaken; [apply safe_throw|..]].
      eapply triple_weaken; [by apply triple_mkfs | | done]. intros x (e' & -> & He). eauto.
Qed.
Lemma safe_mountDisk : disk ≠ "" → safe (mountDisk opts).
Proof.
  intros Hdisk. unfold mountDisk. cbv zeta. fold disk data_root. apply safe_bind; [apply safe_mounted|]. intros m.
  destruct m; cbn [negb]; [apply safe_bind; [apply safe_mountSource|]; intros; safely|].
  eapply (triple_bind _ _ _ _ (λ r x, r = Ok tt → ∃ a, x = Some (EReadDir data_root a) ∧ may_mount a)); [| |done].
  - unfold checkMountTarget. eapply triple_bind; [apply triple_try; refine (triple_ReadDir _ _ _); done | | done].
    intros r. apply triple_silent. intros w.
    destruct r as [l|e]; cbn.
    + split; [by destruct (_ && _)|]. intros prev (a & -> & Ha). destruct a as [l0|]; [|done].
      destruct (bool_decide_reflect (l = [])) as [Hl|Hl]; cbn.
      * intros _. exists (Ok l0). split; [done|]. apply Ha in Hl. by rewrite Hl.
      * destruct (so_ForceMount opts) eqn:F; [|done]. intros _. exists (Ok l0). split; [done|]. by destruct l0.
    + split; [by destruct (IsNotExist e)|]. intros prev (a & -> & Ha). destruct a as [l0|e0]; [done|].
      revert Ha. case_bool_decide as He; intros ->; [|done]. intros _. exists (Err e0). by subst.
  - intros []. apply triple_onerr, triple_run. intros prev r Hp. destruct (Hp eq_refl) as (a & -> & Ha).
    cbn. right. by eauto.
Qed.
Lemma safe_mount_configfs :
  safe (do m <- mounted configfsRoot;
        if m then ret tt
        else
          fs_MkdirAll configfsRoot;;
          onerr (run "mount" ["-t"; "configfs"; "none"; configfsRoot]) (ErrWrap "mount configfs: %w" [])).
Proof.
  apply safe_bind; [apply safe_mounted|]. intros []; [safely|].
  apply safe_bind; [apply safe_MkdirAll; set_solver|]. intros _. apply safe_onerr, triple_run. intros. cbn. by left.
Qed.
Lemma safe_setupDataDisk : disk ≠ "" → safe (setupDataDisk opts).
Proof.
  intros Hdisk. unfold setupDataDisk, writeMountDropin. cbv zeta.
  apply safe_bind; [apply safe_Detect|]. intros d. apply safe_bind; [apply safe_ensureTool|]. intros _.
  apply safe_bind; [by apply safe_formatDisk|]. intros _. apply safe_bind; [by apply safe_mountDisk|]. intros _.
  apply safe_bind; [apply safe_try, safe_blkidValue|]. intros [uuid|e]; [|safely].
  destruct (String.eqb uuid ""); [safely|]. apply safe_bind; [apply safe_ensureFstab|]. intros _.
  apply safe_bind; [apply safe_MkdirAll; set_solver|]. intros _. apply safe_WriteFile; [set_solver | done].
Qed.

(** C17. SetupSystem formats and mounts only on evidence, and touches nothing
    else. Whatever the host answers to each command and file operation, among
    everything SetupSystem does to it: mkfs.xfs is run on the data disk alone,
    and only right after blkid said, of that disk, that it holds no file
    system, or with Force on anything but XFS (an XFS is never reformatted; a
    probe that failed counts as unknown, not as empty); the disk is mounted
    only right after the data root was listed and found empty or missing, or,
    with ForceMount, not empty, and never when it could not be listed; an
    environment file that exists is not written; no file beside its own few
    and fstab is written, and no other command is run. Without being root it
    does nothing. *)
Theorem SetupSystem_guards (w : H) :
  ∃ l, hlog (SetupSystem assets opts w).2 = hlog w ++ l ∧ chain permits None l ∧ (ho_euid w ≠ 0 → l = []).
Proof.
  unfold SetupSystem. destruct (Z.eqb_spec (ho_euid w) 0) as [Hroot|Hroot]; cbn [negb].
  2:{ exists []. by rewrite app_nil_r. }
  refine (_ (_ : safe _)).
  { intros Hs. destruct (Hs w None I) as (l & Hl & Hc & _). exists l. split; [exact Hl|]. by split. }
  apply safe_bind; [apply safe_Detect|]. intros d. destruct (Supported d); cbn [negb]; [|safely].
  apply safe_bind; [by apply safe_mfor, safe_loadModule|]. intros _.
  apply safe_bind; [apply safe_installAsset; [set_solver..|done]|]. intros _.
  apply safe_bind; [apply safe_mount_configfs|]. intros _.
  apply safe_bind; [apply safe_MkdirAll; set_solver|]. intros _.
  apply safe_bind; [apply safe_onerr, safe_MkdirAll; set_solver|]. intros _.
  apply safe_bind; [apply safe_try, safe_run_plain; set_solver|]. intros _.
  apply safe_bind; [destruct (String.eqb (so_DataRoot opts) _); cbn [negb]; [safely|apply safe_MkdirAll; unfold own_dirs; set_solver]|]. intros _.
  apply safe_bind; [destruct (String.eqb_spec (so_DataDisk opts) ""); cbn [negb]; [safely|by apply safe_setupDataDisk]|]. intros _.
  apply safe_bind; [apply safe_installAsset; [set_solver..|done]|]. intros _.
  apply safe_bind; [apply safe_writeEnvFile|]. intros _. apply safe_bind; [apply safe_run_plain; set_solver|]. intros _.
  destruct (so_Enable opts); [apply safe_run_plain; set_solver | safely].
Qed.
End guards.
