(* ===== verification/SetupFstab.v ===== *)
(** * setup: the entry of fstab

    What [ensureFstab] makes of the lines of a file, and of the file, over
    [Disk]: the lines it does not own are kept, the entry is there, a failure
    leaves the file as it was, and a second run changes nothing. *)

From S2P Require Import Prelude GoStrings Errors Netip LioModel Configfs FsPaths AppModel AppTranslate AppAptpl.
From S2P Require Import AppAptplProofs Storage AppDisk Setup SetupSystem.

(** ** The lines *)

Lemma filter_all_false {A} (P : A → Prop) `{∀ x, Decision (P x)} l : (∀ x, x ∈ l → ¬ P x) → filter P l = [].
Proof.
  induction l as [|x l IH]; intros Hn; [done|]. rewrite filter_cons_False by (apply Hn; left).
  apply IH. intros y Hy. apply Hn. by right.
Qed.
Lemma Split_lines s c : Forall (free_of c) (Split s c).
Proof.
  induction s as [|x s IH]; cbn [Split]; [repeat constructor|].
  destruct (Ascii.eqb_spec x c) as [->|Hx]; [constructor; [constructor | done]|].
  destruct (Split s c) as [|w ws]; [repeat constructor; done|]. apply Forall_cons in IH as [Hw Hws].
  constructor; [by constructor | done].
Qed.

Section lines.
Context (line mountpoint : string).
Notation entry := (fstab_entry mountpoint).
(** An entry for the mount point that is [line] up to the spacing. *)
Definition respaced (l : string) : bool := entry l && String.eqb (Join (Fields l) " ") line.
(** The entries for the mount point, and everything else. *)
Definition entries (ls : list string) : list string := filter (λ l, entry l = true) ls.
Definition others (ls : list string) : list string := filter (λ l, entry l = false) ls.

Lemma scan_spec ls :
  fstab_scan line mountpoint ls =
    (filter (λ l, entry l = false ∨ respaced l = true) ls, any entry ls).
Proof.
  induction ls as [|l ls IH]; [done|]. cbn [fstab_scan]. rewrite IH, filter_cons. change (any entry (l :: ls)) with (entry l || any entry ls).
  assert (Hp : fstab_prose l = true → entry l = false) by (unfold fstab_entry; by intros ->).
  destruct (fstab_prose l) eqn:Ep.
  - case_decide as Hd; [by rewrite Hp | destruct Hd; left; by apply Hp].
  - unfold respaced. destruct (entry l) eqn:E; cbn [andb orb].
    + case_decide as Hd; destruct (String.eqb (Join (Fields l) " ") line) eqn:J; try done; exfalso; [by destruct Hd|].
      apply Hd. by right.
    + case_decide as Hd; [done|]. destruct Hd. by left.
Qed.
Lemma others_kept ls : others (filter (λ l, entry l = false ∨ respaced l = true) ls) = others ls.
Proof. unfold others. rewrite list_filter_filter. apply list_filter_iff. tauto. Qed.
Lemma entries_kept ls : entries (filter (λ l, entry l = false ∨ respaced l = true) ls) = filter (λ l, respaced l = true) ls.
Proof.
  unfold entries. rewrite list_filter_filter. apply list_filter_iff. intros l. unfold respaced.
  destruct (entry l); cbn; intuition congruence.
Qed.

Lemma elem_of_add keep l : l ∈ fstab_add line keep → l = line ∨ l = "" ∨ l ∈ keep.
Proof using line.
  unfold fstab_add. destruct (last keep) as [x|] eqn:Hl; [|set_solver]. destruct (String.eqb _ _); [|set_solver].
  apply last_Some in Hl as (k0 & ->). rewrite removelast_last. set_solver.
Qed.
Context (Hentry : entry line = true).
Lemma prose_not_entry l : String.eqb (TrimSpace l) "" = true → entry l = false.
Proof. unfold fstab_entry, fstab_prose. by intros ->. Qed.
Lemma add_spec keep :
  line ∈ fstab_add line keep ∧ entries (fstab_add line keep) = entries keep ++ [line] ∧
  ∃ tail, (tail = [] ∨ tail = [""]) ∧ others (fstab_add line keep) = others keep ++ tail.
Proof.
  unfold fstab_add, entries, others.
  assert (Hend : line ∈ keep ++ [line; ""] ∧ filter (λ l, entry l = true) (keep ++ [line; ""]) = filter (λ l, entry l = true) keep ++ [line] ∧
    ∃ tail, (tail = [] ∨ tail = [""]) ∧ filter (λ l, entry l = false) (keep ++ [line; ""]) = filter (λ l, entry l = false) keep ++ tail).
  { assert (He : entry "" = false) by by apply prose_not_entry. split_and!; [set_solver| |].
    - rewrite filter_app, filter_cons_True, filter_cons_False by (done || by rewrite He). done.
    - exists [""]. split; [by right|]. rewrite filter_app, filter_cons_False, filter_cons_True by (done || by rewrite Hentry). done. }
  destruct (last keep) as [l|] eqn:Hl; [|exact Hend]. destruct (String.eqb (TrimSpace l) "") eqn:Ht; [|exact Hend].
  apply last_Some in Hl as (k0 & ->). rewrite removelast_last. apply prose_not_entry in Ht.
  split_and!; [set_solver| |exists []; split; [by left|]]; rewrite !filter_app, ?app_nil_r.
  - rewrite filter_cons_True, filter_cons_False by (done || by rewrite Ht).
    by rewrite app_nil_r.
  - by rewrite filter_cons_False by by rewrite Hentry.
Qed.
End lines.

(** ** The file *)

Section fstab.
Context {H : Type} `{Disk H} (path line mountpoint : string).
(** The line is one line, an entry for the mount point, its fields separated
    by one space. *)
Context (Hone : free_of nl line) (Hentry : fstab_entry mountpoint line = true).
Notation ensure := (ensureFstab (H := H) path line mountpoint).
Notation tmp := (path +:+ ".glitr.tmp").

Definition file_lines (w : H) : list string := Split (default "" (content path w)) nl.
Lemma tmp_ne : tmp ≠ path.
Proof.
  intros He. apply (f_equal String.length) in He. rewrite length_app_str in He. cbn in He. lia.
Qed.
Lemma leaves_WriteFile q p data : q ≠ p → leaves q (os_WriteFile (H := H) p data).
Proof.
  intros Hq. unfold os_WriteFile. apply leaves_bind; [by apply leaves_fop|]. intros _ _.
  apply leaves_bind; [by apply leaves_try, leaves_fop|]. intros w _.
  apply leaves_bind; [apply leaves_try, leaves_fop; by intros []|]. intros c _. by destruct w.
Qed.
Lemma WriteFile_Ok p data w w' : os_WriteFile (H := H) p data w = (Ok tt, w') → content p w' = Some data.
Proof.
  unfold os_WriteFile. intros ([] & w1 & Hc%fop_Ok & Hr)%bind_Ok. apply disk_create in Hc.
  apply bind_Ok in Hr as ([u|e] & w2 & Hw2 & Hr).
  2:{ apply bind_Ok in Hr as (c & w3 & _ & Hr). done. }
  unfold try in Hw2. destruct (fop _ _ _ w1) as [r w2'] eqn:Hw. injection Hw2 as -> ->. destruct u.
  apply fop_Ok, disk_write in Hw. rewrite Hc in Hw. cbn in Hw.
  apply bind_Ok in Hr as (c & w3 & Hw3 & Hr). injection Hr as _ <-. unfold try in Hw3.
  pose proof (leaves_fop (F := H) p "close" p (FClose p) ltac:(by intros []) w2) as Hl. unfold fs_Close in Hw3.
  destruct (fop "close" p (FClose p) w2) as [r w3']. injection Hw3 as _ <-. cbn in Hl. by rewrite Hl.
Qed.

(** The reading of the file, with a missing one as an empty one. *)
Lemma read_fstab w :
  let m := do r <- try (fs_ReadFile path);
           match r with Ok d => ret d | Err e => if IsNotExist e then ret "" else throw e end in
  content path (m w).2 = content path w ∧ ∀ d, (m w).1 = Ok d → d = default "" (content path w).
Proof.
  cbv zeta. unfold bind, try, fs_ReadFile, sys.
  pose proof (disk_readfile path path w) as Hl. pose proof (disk_read path w) as Hr. pose proof (disk_read_missing path w) as Hm.
  destruct (fl_readfile path w) as [[d|e] w']; cbn in *.
  - split; [done|]. intros d' [= ->]. by rewrite (Hr d' eq_refl).
  - case_bool_decide; cbn; (split; [done|]); [|done]. intros d [= <-]. by rewrite Hm by congruence.
Qed.
(** The writing of the new text. *)
Lemma write_fstab data w :
  let m := os_WriteFile tmp data;;
           do r <- try (fs_Rename tmp path);
           match r with Err e => try (fs_Remove tmp);; throw e | Ok _ => ret true end in
  match m w with
  | (Ok b, w') => b = true ∧ content path w' = Some data
  | (Err _, w') => content path w' = content path w
  end.
Proof.
  cbv zeta. unfold bind at 1. pose proof (leaves_WriteFile path tmp data ltac:(intros He; by destruct tmp_ne) w) as Hl.
  destruct (os_WriteFile tmp data w) as [[[]|e] w1] eqn:Hw; cbn [snd] in Hl; [|exact Hl]. apply WriteFile_Ok in Hw.
  unfold bind at 1, try, fs_Rename, fop, sys. destruct (fl_op (FRename tmp path) w1) as [[[]|e] w2] eqn:Hr.
  - apply disk_rename in Hr. cbn. by rewrite Hr.
  - pose proof (disk_rename_err _ _ path _ _ _ Hr) as He. unfold bind, fs_Remove, fop, sys.
    pose proof (disk_op (FRemove tmp) path w2 ltac:(cbn; intros Hx; by destruct tmp_ne)) as Hm.
    destruct (fl_op (FRemove tmp) w2) as [[] w3]; cbn in *; congruence.
Qed.

(** What a run does, by the lines it read. *)
Lemma ensure_cases w :
  let old := file_lines w in
  let keep := filter (λ l, fstab_entry mountpoint l = false ∨ respaced line mountpoint l = true) old in
  match ensure w with
  | (Err _, w') => content path w' = content path w
  | (Ok false, w') => content path w' = content path w ∧ line ∈ old
  | (Ok true, w') => file_lines w' = fstab_add line keep ∧ line ∉ keep
  end.
Proof using Hone Hentry.
  cbv zeta. unfold ensureFstab. pose proof (read_fstab w) as Hread. cbv zeta in Hread.
  assert (Hassoc : ∀ A B C (m : ST H A) (f : A → ST H B) (g : B → ST H C) x,
    bind m (λ a, bind (f a) g) x = bind (bind m f) g x).
  { intros. unfold bind. by destruct (m x) as [[] ?]. }
  rewrite Hassoc. unfold bind at 1.
  destruct (bind (try (fs_ReadFile path)) _ w) as [[d|e] w1]; cbn [fst snd] in Hread; destruct Hread as [Hl Hd]; [|done].
  rewrite (Hd d eq_refl). fold (file_lines w). rewrite scan_spec. cbv beta iota zeta.
  set (keep := filter _ (file_lines w)).
  assert (Hkeep : any (String.eqb line) keep = true ↔ line ∈ keep).
  { unfold any. rewrite existsb_exists. split; [intros (x & Hx & ->%String.eqb_eq)|intros Hx; exists line].
    - by apply list_elem_of_In.
    - split; [by apply list_elem_of_In | apply String.eqb_refl]. }
  assert (Hsub : line ∈ keep → line ∈ file_lines w) by (by intros [_ ?]%list_elem_of_filter).
  assert (Hfound : line ∈ keep → any (fstab_entry mountpoint) (file_lines w) = true).
  { intros Hk%Hsub. unfold any. apply existsb_exists. exists line. split; [by apply list_elem_of_In | done]. }
  destruct (decide (line ∈ keep)) as [Hk|Hk].
  - rewrite Hfound, (proj2 Hkeep) by done. cbn. auto.
  - assert (Hn : any (String.eqb line) keep = false) by (apply not_true_iff_false; by rewrite Hkeep).
    rewrite Hn, andb_false_r. pose proof (write_fstab (Join (fstab_add line keep) nl_str) w1) as Hw. cbv zeta in Hw.
    destruct (bind (os_WriteFile _ _) _ w1) as [[b|e] w2]; [|congruence].
    destruct Hw as [-> Hc]. split; [|done]. unfold file_lines. rewrite Hc. cbn [default].
    apply Split_Join; [intros Hnil; destruct (add_spec line mountpoint Hentry keep) as [Hin _]; rewrite Hnil in Hin; inversion Hin|].
    apply (Forall_impl (λ l, l ∈ line :: "" :: file_lines w)).
    2:{ intros l. rewrite !elem_of_cons. intros [->|[->|Hin]]; [done | constructor |].
        pose proof (Split_lines (default "" (content path w)) nl) as HF. rewrite Forall_forall in HF. by apply HF. }
    apply Forall_forall. intros l Hin. apply elem_of_add in Hin. rewrite !elem_of_cons.
    destruct Hin as [->|[->|[_ Hin]%list_elem_of_filter]]; auto.
Qed.

Context (Hnormal : String.eqb (Join (Fields line) " ") line = true).
(** C27. The entry for the data disk, exactly once, and nobody else's line
    touched. When ensureFstab succeeds, every line of the file that is not an
    entry for the mount point — comments, blanks and other mounts — is still
    there, byte for byte and in order (an empty last line may have been added),
    and the entry asked for is in the file; when it changed the file, the
    entries for the mount point are that one, after those that were the same
    up to their spacing, so exactly that one when there were none such. When
    it reports no change, or fails, the file is what it was. A second run
    changes nothing and reports no change, whatever happened in between to
    other files. *)
Theorem ensureFstab_converges (w : H) :
  match ensure w with
  | (Err _, w') => content path w' = content path w
  | (Ok changed, w') =>
      let old := file_lines w in let new := file_lines w' in
      line ∈ new ∧
      (∃ tail, (tail = [] ∨ tail = [""]) ∧ others mountpoint new = others mountpoint old ++ tail) ∧
      (if changed then entries mountpoint new = filter (λ l, respaced line mountpoint l = true) old ++ [line]
       else content path w' = content path w) ∧
      ∀ w2, content path w2 = content path w' →
        match ensure w2 with
        | (Ok again, w3) => again = false ∧ content path w3 = content path w2
        | (Err _, w3) => content path w3 = content path w2
        end
  end.
Proof using Hone Hentry Hnormal.
  pose proof (ensure_cases w) as Hc. cbv zeta in Hc. destruct (ensure w) as [[changed|e] w'] eqn:Hw; [|done].
  assert (Hagain : line ∈ file_lines w' → ∀ w2, content path w2 = content path w' →
    match ensure w2 with
    | (Ok again, w3) => again = false ∧ content path w3 = content path w2
    | (Err _, w3) => content path w3 = content path w2
    end).
  { intros Hin w2 H2. pose proof (ensure_cases w2) as Hc2. cbv zeta in Hc2.
    destruct (ensure w2) as [[[|]|e] w3]; [|by destruct Hc2|done]. destruct Hc2 as [_ Hn]. destruct Hn.
    apply list_elem_of_filter. unfold file_lines. rewrite H2. split; [|done]. unfold respaced. rewrite Hentry.
    destruct (String.eqb _ _) eqn:J; [by right|]. by rewrite Hnormal in J. }
  destruct changed; cbv zeta.
  - destruct Hc as [Hc Hn]. destruct (add_spec line mountpoint Hentry (filter (λ l, fstab_entry mountpoint l = false ∨ respaced line mountpoint l = true) (file_lines w))) as (Hin & He & tail & Ht & Ho).
    rewrite others_kept in Ho. rewrite entries_kept in He. rewrite Hc. split_and!; [done | by exists tail | done|]. apply Hagain. by rewrite Hc.
  - destruct Hc as [Hsame Hin]. assert (Hl : file_lines w' = file_lines w) by (unfold file_lines; by rewrite Hsame).
    rewrite Hl. split_and!; [done| |done|].
    + exists []. split; [by left|]. by rewrite app_nil_r.
    + apply Hagain. by rewrite Hl.
Qed.
End fstab.
