(* ===== verification/SetupPreflight.v ===== *)
(** * setup: the verdict of Preflight

    A host that answers every probe the same way while it is being looked at
    is [Frozen]; on one, [Preflight] is a function of the answers. [ready] says
    from the answers alone when the appliance can run. *)

From S2P Require Import Prelude GoStrings Errors Netip Configfs AppTranslate Storage Setup SetupSystem SetupProofs.

Class Frozen (H : Type) `{Host H} : Prop := {
  frozen_stat p w : (fl_stat p w).2 = w;
  frozen_readdir p w : (fl_readdir p w).2 = w;
  frozen_readfile p w : (fl_readfile p w).2 = w;
  frozen_command n a w : (ho_command n a w).2 = w;
  frozen_listen a w : (ho_listen a w).2 = w;
  frozen_get u w : (ho_get u w).2 = w
}.

(** The events of looking. *)
Definition probe (e : hevent) : Prop :=
  match e with
  | ECommand name args _ => (name = "modinfo" ∧ take 2 args = ["-F"; "filename"]) ∨ (name = "systemctl" ∧ take 1 args = ["is-active"])
  | EStat _ _ | EReadDir _ _ => True
  | EFile _ => False
  end.

Lemma any_app_false {A} (f : A → bool) l1 l2 : any f (l1 ++ l2) = false ↔ any f l1 = false ∧ any f l2 = false.
Proof. unfold any. by rewrite existsb_app, orb_false_iff. Qed.
Lemma any_mjoin {A B} (f : B → bool) (R : A → list B → Prop) (P : A → Prop) l ys :
  (∀ x bs, R x bs → any f bs = false ↔ P x) → Forall2 R l ys → any f (mjoin ys) = false ↔ Forall P l.
Proof.
  intros HR. induction 1 as [|x bs l ys Hx _ IH]; [done|]. cbn [mjoin list_join].
  by rewrite any_app_false, IH, Forall_cons, (HR _ _ Hx).
Qed.

Section verdict.
Context {H : Type} `{HF : Frozen H}.
Implicit Types w : H.

(** ** What the answers amount to *)

Definition module_ok w (m : string) : bool :=
  is_ok (fl_stat ("/sys/module/" +:+ m) w).1 ||
  match (ho_command "modinfo" ["-F"; "filename"; m] w).1 with Exited 0 _ _ => true | _ => false end.
Definition unit_active w (u : string) : bool :=
  match (ho_command "systemctl" ["is-active"; u] w).1 with
  | Exited _ out _ => String.eqb (TrimSpace out) "active"
  | NotStarted _ => false
  end.
Definition listing w (p : string) : list string :=
  match (fl_readdir p w).1 with Ok l => (sort_by dirent_le l).*1 | Err _ => [] end.
(** A portal on [port] below any TPG of any target of the kernel. *)
Definition kernel_portal w (port : Z) : Prop :=
  ∃ iqn tpg np,
    iqn ∈ listing w "/sys/kernel/config/target/iscsi" ∧
    tpg ∈ listing w ("/sys/kernel/config/target/iscsi/" +:+ iqn) ∧ HasPrefix tpg "tpgt_" = true ∧
    np ∈ listing w ("/sys/kernel/config/target/iscsi/" +:+ iqn +:+ "/" +:+ tpg +:+ "/np") ∧
    HasSuffix np (":" +:+ itoa port) = true.
Definition healthy w (listen : string) : Prop :=
  healthURL listen ≠ "" ∧ (ho_get (healthURL listen) w).1 = Ok 200.
Definition port_addr (addr : string) : string := match SplitHostPort addr with Some _ => addr | None => ":" +:+ addr end.
(** The address is free, or in use by the one expected to hold it. *)
Definition port_ok w (addr : string) (expected : Prop) : Prop :=
  match (ho_listen (port_addr addr) w).1 with
  | Ok _ => True
  | Err (inuse, _) => inuse = true ∧ expected
  end.
Definition ready (opts : Options) w : Prop :=
  ho_euid w = 0 ∧ Forall (λ m, module_ok w m = true) lioModules ∧
  Forall (λ u, unit_active w u = false) conflictingUnits ∧
  if o_Runtime opts then healthURL (o_RESTListen opts) ≠ "" → healthy w (o_RESTListen opts)
  else (o_ISCSIPort opts ≠ 0 →
          port_ok w (":" +:+ itoa (o_ISCSIPort opts)) (kernel_portal w (o_ISCSIPort opts))) ∧
       (o_RESTListen opts ≠ "" → port_ok w (o_RESTListen opts) (healthy w (o_RESTListen opts))).

(** ** Asking *)

Notation logged := (H * list hevent)%type.
(** [m] gives an answer satisfying [Q], and only looks. *)
Definition asks {A} w (m : ST logged A) (Q : A → Prop) : Prop :=
  ∀ l, ∃ a es, m (w, l) = (Ok a, (w, l ++ es)) ∧ Forall probe es ∧ Q a.

Lemma asks_ret {A} w (a : A) (Q : A → Prop) : Q a → asks w (ret a) Q.
Proof. intros Ha l. exists a, []. by rewrite app_nil_r. Qed.
Lemma asks_bind {A B} w (m : ST logged A) (f : A → ST logged B) (P : A → Prop) (Q : B → Prop) :
  asks w m P → (∀ a, P a → asks w (f a) Q) → asks w (bind m f) Q.
Proof.
  intros Hm Hf l. destruct (Hm l) as (a & es & He & Hp & Ha). destruct (Hf a Ha (l ++ es)) as (b & es' & He' & Hp' & Hb).
  exists b, (es ++ es'). unfold bind. rewrite He, He', (assoc_L (++)). split_and!; [done | by apply Forall_app | done].
Qed.
Lemma asks_weaken {A} w (m : ST logged A) (P Q : A → Prop) : asks w m P → (∀ a, P a → Q a) → asks w m Q.
Proof. intros Hm HPQ l. destruct (Hm l) as (a & es & ? & ? & ?). exists a, es. auto. Qed.
Lemma asks_mcollect {A B} w (f : A → ST logged (list B)) (l : list A) (P : A → list B → Prop) (Q : list B → Prop) :
  (∀ x, x ∈ l → asks w (f x) (P x)) → (∀ ys, Forall2 P l ys → Q (mjoin ys)) → asks w (mcollect f l) Q.
Proof.
  revert Q. induction l as [|x l IH]; intros Q Hf HQ; cbn [mcollect]; [apply asks_ret, (HQ []); constructor|].
  eapply asks_bind; [apply Hf; left|]. intros y Hy.
  apply (asks_bind _ _ _ (λ r, Q (y ++ r))).
  - apply IH; [intros z Hz; apply Hf; by right|]. intros ys Hys. apply (HQ (y :: ys)). by constructor.
  - intros r Hr. by apply asks_ret.
Qed.
Lemma asks_command w n a : (n = "modinfo" ∧ take 2 a = ["-F"; "filename"]) ∨ (n = "systemctl" ∧ take 1 a = ["is-active"]) →
  asks w (command n a) (λ e, e = (ho_command n a w).1).
Proof using HF.
  intros Hn l. unfold command. cbn. unfold logging. rewrite frozen_command. eexists _, [_]. split_and!; [done | by apply Forall_singleton | done].
Qed.
Lemma asks_ReadFile w p : asks w (try (fs_ReadFile p)) (λ _, True).
Proof using HF.
  intros l. unfold try, fs_ReadFile, sys. cbn. unfold logging. rewrite frozen_readfile, app_nil_r.
  destruct (fl_readfile p w).1; eexists _, []; rewrite app_nil_r; done.
Qed.
Lemma asks_Stat w p : asks w (ok_of (fs_Stat p)) (λ b, b = is_ok (fl_stat p w).1).
Proof using HF.
  intros l. unfold ok_of, bind, try, fs_Stat, sys. cbn. unfold logging. rewrite frozen_stat.
  destruct (fl_stat p w).1 eqn:E; eexists _, [_]; cbn; (split_and!; [done | by apply Forall_singleton | done]).
Qed.
Lemma asks_names w p : asks w (names_of p) (λ l, l = listing w p).
Proof using HF.
  intros l. unfold names_of, listing, bind, try, fs_ReadDir, bind, sys. cbn. unfold logging. rewrite frozen_readdir.
  destruct (fl_readdir p w).1 eqn:E; eexists _, [_]; cbn; (split_and!; [done | by apply Forall_singleton | done]).
Qed.
Lemma asks_mounted w p : asks w (mounted p) (λ _, True).
Proof using HF.
  unfold mounted, mountSource. apply (asks_bind _ _ _ (λ _, True)); [|intros; by apply asks_ret].
  apply (asks_bind _ _ _ (λ _, True)); [apply asks_ReadFile|]. intros; by apply asks_ret.
Qed.
Lemma asks_Detect w : asks w Detect (λ _, True).
Proof using HF. unfold Detect. eapply asks_bind; [apply asks_ReadFile|]. intros; by apply asks_ret. Qed.
Lemma asks_unitActive w u : asks w (unitActive u) (λ b, b = unit_active w u).
Proof using HF.
  unfold unitActive. eapply asks_bind; [apply asks_command; by right|]. intros e ->. by apply asks_ret.
Qed.
Lemma asks_httpHealthy w url : asks w (httpHealthy url) (λ h, h.1 = true ↔ (ho_get url w).1 = Ok 200).
Proof using HF.
  intros l. unfold httpHealthy. cbn. unfold logging. rewrite frozen_get, app_nil_r.
  destruct (ho_get url w).1 as [code|msg]; eexists _, []; rewrite app_nil_r; (split_and!; [done..|]); cbn; [|done].
  destruct (Z.eqb_spec code StatusOK) as [->|Hn]; cbn; [done|]. split; [done|]. intros [= ->]. by destruct Hn.
Qed.

Lemma Forall2_is_fmap {A B} (f : A → B) l ys : Forall2 (λ x y, y = f x) l ys → ys = f <$> l.
Proof. induction 1; cbn; by f_equal. Qed.
Lemma asks_kernelTargetHolds w port : asks w (kernelTargetHolds port) (λ s, s ≠ "" ↔ kernel_portal w port).
Proof using HF.
  unfold kernelTargetHolds. cbv zeta. change (configfsRoot +:+ "/target/iscsi") with "/sys/kernel/config/target/iscsi".
  eapply asks_bind; [apply asks_names|]. intros iqns ->.
  set (below := λ iqn tpg, listing w ("/sys/kernel/config/target/iscsi/" +:+ iqn +:+ "/" +:+ tpg +:+ "/np")).
  set (found := λ iqn tpg, if HasPrefix tpg "tpgt_" then filter (λ np, HasSuffix np (":" +:+ itoa port) = true) (below iqn tpg) else []).
  eapply (asks_bind _ _ _ (λ ps, ps = mjoin ((λ iqn, mjoin (found iqn <$> listing w ("/sys/kernel/config/target/iscsi/" +:+ iqn)))
     <$> listing w "/sys/kernel/config/target/iscsi"))).
  - apply (asks_mcollect _ _ _ (λ iqn ps, ps = mjoin (found iqn <$> listing w ("/sys/kernel/config/target/iscsi/" +:+ iqn))));
      [|intros ys Hys; f_equal; by apply Forall2_is_fmap].
    intros iqn _. cbv beta.
    change (("/sys/kernel/config/target/iscsi" +:+ "/" +:+ iqn)) with ("/sys/kernel/config/target/iscsi/" +:+ iqn).
    eapply asks_bind; [apply asks_names|]. intros tpgs ->.
    apply (asks_mcollect _ _ _ (λ tpg ps, ps = found iqn tpg)); [|intros ys Hys; f_equal; by apply Forall2_is_fmap].
    intros tpg _. cbv beta. unfold found, below. destruct (HasPrefix tpg "tpgt_"); cbn [negb]; [|by apply asks_ret].
    eapply asks_bind; [apply asks_names|]. intros nps ->. by apply asks_ret.
  - intros ps Hps. apply asks_ret. transitivity (ps ≠ []); [by destruct ps|].
    rewrite Hps. unfold kernel_portal. split.
    + intros Hne. destruct (mjoin _) as [|np rest] eqn:E; [done|].
      assert (Hin : np ∈ np :: rest) by left. rewrite <- E in Hin.
      apply list_elem_of_join in Hin as (l1 & Hin & (iqn & -> & Hiqn)%list_elem_of_fmap).
      apply list_elem_of_join in Hin as (l2 & Hin & (tpg & -> & Htpg)%list_elem_of_fmap). unfold found, below in Hin.
      destruct (HasPrefix tpg "tpgt_") eqn:Hp; [|inversion Hin]. apply list_elem_of_filter in Hin as [Hs Hin].
      by exists iqn, tpg, np.
    + intros (iqn & tpg & np & Hiqn & Htpg & Hp & Hin & Hs) Hnil.
      assert (Hbad : np ∈ ([] : list string)); [|inversion Hbad]. rewrite <- Hnil.
      apply list_elem_of_join. eexists. split; [|apply list_elem_of_fmap; by exists iqn].
      apply list_elem_of_join. eexists. split; [|apply list_elem_of_fmap; by exists tpg].
      unfold found, below. rewrite Hp. by apply list_elem_of_filter.
Qed.
Lemma asks_applianceHolds w listen : asks w (applianceHolds listen) (λ s, s ≠ "" ↔ healthy w listen).
Proof using HF.
  unfold applianceHolds, healthy. cbv zeta. destruct (String.eqb_spec (healthURL listen) "") as [->|Hne].
  - apply asks_ret. split; [done | by intros []].
  - eapply asks_bind; [apply asks_httpHealthy|]. intros [ok detail] Hh. apply asks_ret. cbn in *.
    rewrite <- Hh. destruct ok; naive_solver.
Qed.
Lemma asks_checkPort w name addr heldBy expected :
  asks w heldBy (λ s, s ≠ "" ↔ expected) →
  asks w (checkPort name addr heldBy) (λ c, fatal_check c = false ↔ port_ok w addr expected).
Proof using HF.
  intros Hh l. unfold checkPort, port_ok, port_addr. cbv zeta. cbn [ho_listen logged_host fst snd]. unfold logging.
  set (a := match SplitHostPort addr with Some _ => addr | None => ":" +:+ addr end). rewrite frozen_listen, app_nil_r.
  destruct (ho_listen a w).1 as [u|[inuse msg]].
  - eexists _, []. rewrite app_nil_r. by split_and!.
  - assert (Hwho : asks w (if inuse : bool then heldBy else ret "") (λ s, s ≠ "" ↔ inuse = true ∧ expected)).
    { destruct inuse; [eapply asks_weaken; [exact Hh|]; cbn; tauto|]. apply asks_ret. naive_solver. }
    refine (asks_bind w _ _ _ (λ c, fatal_check c = false ↔ inuse = true ∧ expected) Hwho _ l).
    intros who Hwho'. apply asks_ret. rewrite <- Hwho'. destruct (String.eqb_spec who ""); naive_solver.
Qed.
Lemma asks_moduleAvailable w m :
  asks w (moduleAvailable m)
    (λ b, b = match (ho_command "modinfo" ["-F"; "filename"; m] w).1 with Exited 0 _ _ => true | _ => false end).
Proof using HF.
  unfold moduleAvailable. eapply asks_bind; [apply asks_command; by left|]. intros e ->. by apply asks_ret.
Qed.
Lemma asks_module w d m : asks w (check_module d m) (λ cs, any fatal_check cs = negb (module_ok w m)).
Proof using HF.
  unfold check_module, moduleLoaded, module_ok. eapply asks_bind; [apply asks_Stat|]. intros b ->.
  destruct (is_ok _); [by apply asks_ret|]. cbn [orb]. eapply asks_bind; [apply asks_moduleAvailable|]. intros b ->.
  by destruct (match (ho_command _ _ w).1 with Exited _ _ _ => _ | NotStarted _ => _ end); apply asks_ret.
Qed.
Lemma asks_unit w u : asks w (check_unit u) (λ cs, any fatal_check cs = unit_active w u).
Proof using HF.
  unfold check_unit. eapply asks_bind; [apply asks_unitActive|]. intros b ->. apply asks_ret.
  by destruct (unit_active w u).
Qed.
Lemma asks_present w p n a b : asks w (check_present p n a b) (λ c, fatal_check c = false).
Proof using HF.
  unfold check_present. eapply asks_bind; [apply asks_Stat|]. intros x _. apply asks_ret. by destruct x.
Qed.

Lemma asks_ports w opts :
  asks w (check_ports opts) (λ cs, any fatal_check cs = false ↔
    (o_ISCSIPort opts ≠ 0 → port_ok w (":" +:+ itoa (o_ISCSIPort opts)) (kernel_portal w (o_ISCSIPort opts))) ∧
    (o_RESTListen opts ≠ "" → port_ok w (o_RESTListen opts) (healthy w (o_RESTListen opts)))).
Proof using HF.
  unfold check_ports.
  apply (asks_bind _ _ _ (λ cs, any fatal_check cs = false ↔
    (o_ISCSIPort opts ≠ 0 → port_ok w (":" +:+ itoa (o_ISCSIPort opts)) (kernel_portal w (o_ISCSIPort opts))))).
  { destruct (Z.eqb_spec (o_ISCSIPort opts) 0); cbn [negb]; [apply asks_ret; naive_solver|].
    eapply asks_bind; [apply asks_checkPort, asks_kernelTargetHolds|]. intros c Hc. apply asks_ret. cbn. rewrite orb_false_r. naive_solver. }
  intros iscsi Hi.
  apply (asks_bind _ _ _ (λ cs, any fatal_check cs = false ↔
    (o_RESTListen opts ≠ "" → port_ok w (o_RESTListen opts) (healthy w (o_RESTListen opts))))).
  { destruct (String.eqb_spec (o_RESTListen opts) ""); cbn [negb]; [apply asks_ret; naive_solver|].
    eapply asks_bind; [apply asks_checkPort, asks_applianceHolds|]. intros c Hc. apply asks_ret. cbn. rewrite orb_false_r. naive_solver. }
  intros rest Hr. apply asks_ret. unfold any in *. rewrite existsb_app, orb_false_iff. by rewrite Hi, Hr.
Qed.
Lemma asks_runtime w opts :
  asks w (check_runtime opts) (λ cs, any fatal_check cs = false ↔
    (healthURL (o_RESTListen opts) ≠ "" → healthy w (o_RESTListen opts))).
Proof using HF.
  unfold check_runtime, healthy. cbv zeta. destruct (String.eqb_spec (healthURL (o_RESTListen opts)) "") as [->|Hne].
  - apply asks_ret. naive_solver.
  - eapply asks_bind; [apply asks_httpHealthy|]. intros [ok detail] Hh. apply asks_ret. cbn in *.
    rewrite <- Hh. destruct ok; naive_solver.
Qed.

(** Preflight only looks, and its verdict is the readiness of the host. On
    a host that answers the same while it is looked at, Preflight ends with a
    report and the host as it was, having only listed directories, looked for
    files, and run modinfo and systemctl is-active; and the report fails
    exactly when the host is not ready: not root, a kernel module neither
    loaded nor available, a competing writer active, or — before the start — a
    port neither free nor in use by the one expected to hold it, which is the
    kernel target for the iSCSI port and a healthy appliance for the other; or
    — at run time — an appliance that does not answer 200. Warnings never make
    it fail. *)
Theorem Preflight_verdict (opts : Options) (w : H) (l : list hevent) :
  ∃ rep es, Preflight (H := H * list hevent) opts (w, l) = (Ok rep, (w, l ++ es)) ∧ Forall probe es ∧
    (Failed rep = false ↔ ready opts w) ∧ (Fprint rep).2 = Failed rep.
Proof using HF.
  revert l. change (asks w (Preflight opts) (λ rep, (Failed rep = false ↔ ready opts w) ∧ (Fprint rep).2 = Failed rep)).
  unfold Preflight. eapply asks_bind; [apply asks_Detect|]. intros d _. cbv zeta.
  apply (asks_bind _ _ _ (λ c, fatal_check c = false ↔ ho_euid w = 0)).
  { intros l. cbn. eexists _, []. rewrite app_nil_r. split_and!; [done..|]. destruct (Z.eqb_spec (ho_euid w) 0); naive_solver. }
  intros c1 H1'. apply (asks_bind _ _ _ (λ cs, any fatal_check cs = false ↔ Forall (λ m, module_ok w m = true) lioModules)).
  { eapply asks_mcollect; [intros m _; apply asks_module|]. intros ys. apply any_mjoin. intros m cs ->. by rewrite negb_false_iff. }
  intros c3 H3. eapply asks_bind; [apply asks_mounted|]. intros m _. cbv zeta.
  eapply asks_bind; [apply asks_present|]. intros c5 H5. eapply asks_bind; [apply asks_present|]. intros c6 H6.
  apply (asks_bind _ _ _ (λ cs, any fatal_check cs = false ↔ Forall (λ u, unit_active w u = false) conflictingUnits)).
  { eapply asks_mcollect; [intros u _; apply asks_unit|]. intros ys. apply any_mjoin. by intros u cs ->. }
  intros c7 H7. eapply asks_bind; [|intros c8 H8; apply asks_ret; split; [|done]].
  { instantiate (1 := λ cs, any fatal_check cs = false ↔ if o_Runtime opts then _ else _).
    destruct (o_Runtime opts); [apply asks_runtime | apply asks_ports]. }
  unfold Failed, ready. cbn [r_Checks]. rewrite !any_app_false. cbn [any existsb]. rewrite !orb_false_iff, H5, H6.
  rewrite H3, H7, H8, H1'. assert (Hd : fatal_check (if Supported d then mkCheck "distro" true SevWarn (d_Pretty d)
    else mkCheck "distro" false SevWarn ("unrecognised distro " +:+ Quote (d_ID d) +:+
      " — setup-system is unsupported here; preflight guidance is generic")) = false) by by destruct (Supported d).
  rewrite Hd. destruct m; cbn; tauto.
Qed.
End verdict.
