(* ===== verification/Inspect.v ===== *)
(** * cmd/applianced: the report of [inspect]

    The lines main.go prints about the tree it discovers, and that printing
    them changes nothing. A line is a string without its newline. [stat_blocks]
    is stat's count of the 512-byte blocks a file has; the arithmetic of
    [humanBytes] is that of a float64, whose 53 bits of precision [float53]
    rounds to. *)

From S2P Require Import Prelude GoStrings Errors Netip LioModel Configfs FsPaths LioAptpl LioApply Trace.
From S2P Require Import LioEffects LioSync LioStranded AppAptpl.

(** ** Byte counts *)

(** [a / b] to the nearest integer, a tie to the even one. *)
Definition div_even (a b : Z) : Z :=
  let q := a / b in
  let r := 2 * (a mod b) in
  if r <? b then q else if b <? r then q + 1 else if Z.even q then q else q + 1.
(** [float64(n)] of [0 ≤ n < 2^63], which is an integer. *)
Definition float53 (n : Z) : Z :=
  let ulp := 2 ^ Z.max 0 (Z.log2 n - 52) in div_even n ulp * ulp.

(** [for m := n / unit; m >= unit && exp < 4; m /= unit]; four turns at most. *)
Fixpoint scale (turns : nat) (m div : Z) (exp : nat) : Z * nat :=
  match turns with
  | S turns => if 1024 <=? m then scale turns (m / 1024) (div * 1024) (S exp) else (div, exp)
  | O => (div, exp)
  end.
(** A byte count in one of the prefixes; the value is [float53 n / div], which
    a float64 represents, and [%.1f] rounds it to tenths. *)
Definition humanBytes (n : Z) : string :=
  if n <? 1024 then itoa n +:+ "B"
  else
    let '(div, exp) := scale 4 (n / 1024) 1024 0 in
    let f := float53 n in
    let suffix := default "" (["KiB"; "MiB"; "GiB"; "TiB"; "PiB"] !! exp) in
    if f mod div =? 0 then itoa (f / div) +:+ suffix
    else
      let tenths := div_even (10 * f) div in
      itoa (tenths / 10) +:+ "." +:+ itoa (tenths mod 10) +:+ suffix.

(** ** Notes *)

Definition blockSizeNote (b : Backstore) : string :=
  let bs := default "" (bs_Attributes b !! "block_size") in
  if String.eqb bs "" then "  block=?(unreadable)"
  else if String.eqb bs "512" then "  block=512 (512n)"
  else if String.eqb bs "4096" then "  block=4096 (4Kn)"
  else "  block=" +:+ bs.
Definition portalAddr (p : Portal) : string := Portal_String p.
Definition portalNote (p : Portal) : string :=
  if negb (IsUnspecified (p_IP p)) then "  (explicit bind)"
  else if Is4 (p_IP p) then "  (wildcard: every IPv4 address on this host)"
  else "  (wildcard: every address on this host)".
Definition portalList (ps : list Portal) : string := Join (portalAddr <$> ps) ",".
Definition portalSummary (ps : list Portal) : string :=
  match ps with
  | [] => "NONE"
  | _ => if (3 <? length ps)%nat then itoa (Z.of_nat (length ps)) +:+ " (use -v)" else portalList ps
  end.
Definition lunBackstore (g : TPG) (idx : Z) : string :=
  match List.find (λ l, l_Index l =? idx) (g_LUNs g) with
  | Some l => l_Backstore l
  | None => "MISSING TPG LUN"
  end.

(** [%x] of an unsigned integer; sixteen digits hold a uint64. *)
Fixpoint hex_digits (fuel : nat) (n : Z) (acc : string) : string :=
  match fuel with
  | O => acc
  | S fuel =>
      let acc := String (hex_char (n mod 16)) acc in
      if n <? 16 then acc else hex_digits fuel (n / 16) acc
  end.
Definition format_x (n : Z) : string := hex_digits 16 n "".

(** ** Reservations *)

(** What [describePR] says of a state that was read. *)
Definition describe_state (st : PRState) : string :=
  let regs := st_Registrations st in
  if (length regs =? 0)%nat && String.eqb (st_Holder st) "" && negb (st_Truncated st) then ""
  else
    (if negb (String.eqb (st_Holder st) "")
     then "RESERVED by " +:+ st_Holder st
            +:+ (if String.eqb (st_Type st) "" then "" else " [" +:+ st_Type st +:+ "]")
     else if (length regs =? 0)%nat then "registration list UNPARSABLE"
     else "registered, no reservation held")
    +:+ "; " +:+ itoa (Z.of_nat (length regs)) +:+ " registration(s)"
    +:+ foldr (λ r s, (nl_str +:+ "        key 0x" +:+ format_x (lr_Key r) +:+ "  " +:+ lr_Initiator r) +:+ s) "" regs
    +:+ (if st_APTPLActive st then nl_str +:+ "        APTPL active (persists across a target restart)" else "")
    +:+ (if st_Truncated st
         then nl_str +:+ "        WARNING: the kernel's registration list was truncated or unparsable; absence from this list does NOT mean not registered"
         else "").

Section inspect.
Context {K : Type} `{Kernel K} (root : string) (pageSize : Z).
Context (stat_blocks : string → ST K Z) (text : goerr → string).

Definition describePR (b : Backstore) : ST K string :=
  do r <- try (PRState_read root pageSize b);
  ret (match r with
       | Err e => "SCSI-3 PR state UNREADABLE: " +:+ text e
       | Ok st => describe_state st
       end).

Definition allocatedBytes (path : string) : ST K Z := do n <- stat_blocks path; ret (n * 512).
Definition describeVolume (b : Backstore) : ST K string :=
  do alloc <- try (allocatedBytes (bs_Dev b));
  let parts :=
    (if 0 <? bs_Size b then ["capacity=" +:+ humanBytes (bs_Size b)] else [])
    ++ (match alloc with Ok a => ["allocated=" +:+ humanBytes a] | Err _ => [] end) in
  ret (Join parts "  ").

Definition inspect_backstore (verbose : bool) (b : Backstore) : ST K (list string) :=
  do pr <- describePR b;
  if negb verbose then
    ret (if String.eqb pr "" then [] else ["  backstore " +:+ bs_Name b +:+ "  " +:+ pr])
  else
    do d <- describeVolume b;
    ret (["  backstore " +:+ bs_Type b +:+ "/" +:+ bs_Name b +:+ " dev=" +:+ bs_Dev b +:+ " wwn=" +:+ bs_WWN b
            +:+ blockSizeNote b]
         ++ (if String.eqb d "" then [] else ["      " +:+ d])
         ++ (if String.eqb pr "" then [] else ["      " +:+ pr])).

Definition bool_text (b : bool) : string := if b then "true" else "false".
Definition inspect_mapped (g : TPG) (ml : MappedLUN) : string :=
  "        mapped_lun" +:+ itoa (ml_Index ml) +:+ " -> lun" +:+ itoa (ml_TPGLUN ml) +:+ " ("
    +:+ lunBackstore g (ml_TPGLUN ml) +:+ ") " +:+ (if ml_WriteProtect ml then "ro" else "rw").
Definition inspect_acl (verbose : bool) (g : TPG) (a : ACL) : list string :=
  ("      acl " +:+ acl_InitiatorIQN a +:+ " (mapped " +:+ itoa (Z.of_nat (length (acl_MappedLUNs a))) +:+ ")")
    :: (if verbose then inspect_mapped g <$> acl_MappedLUNs a else []).
Definition inspect_tpg (verbose : bool) (g : TPG) : list string :=
  ["    tpg" +:+ itoa (g_Tag g) +:+ " enable=" +:+ bool_text (g_Enable g) +:+ " portals=" +:+ portalSummary (g_Portals g)
     +:+ " luns=" +:+ itoa (Z.of_nat (length (g_LUNs g))) +:+ " acls=" +:+ itoa (Z.of_nat (length (g_ACLs g)))]
  ++ (if verbose then (λ p, "      portal " +:+ portalAddr p +:+ portalNote p) <$> g_Portals g else [])
  ++ ((λ l, "      lun" +:+ itoa (l_Index l) +:+ " -> " +:+ l_Backstore l) <$> g_LUNs g)
  ++ (g_ACLs g ≫= inspect_acl verbose g).
Definition inspect_target (verbose : bool) (t : Target) : list string :=
  ("  target " +:+ t_IQN t) :: (t_TPGs t ≫= inspect_tpg verbose).

Definition reportOrphanPRState (cfg : Config) : ST K (list string) :=
  do r <- try (DBRoot root);
  match r with
  | Err _ => ret []
  | Ok dbRoot =>
      let live := filter (λ w, w ≠ "") (bs_WWN <$> c_Backstores cfg) in
      do r <- try (OrphanPRState dbRoot live);
      ret (match r with
           | Err e => [""; "cannot check for orphaned SCSI-3 PR state: " +:+ text e]
           | Ok [] => []
           | Ok orphans =>
               [""; "saved SCSI-3 PR metadata with no matching backstore: " +:+ itoa (Z.of_nat (length orphans))]
               ++ ((λ o, "  " +:+ o) <$> orphans)
               ++ ["these are inert (only read back for a backstore with the same WWN) and are NOT";
                   "removed automatically: a volume can be absent temporarily (a partially restored db,";
                   "a backstore not yet replayed) and reaping would destroy live fencing state.";
                   "Remove them only if those volumes are really gone."]
           end)
  end.

(** [inspectCmd]: what it prints, or the error it exits with. *)
Definition inspectCmd (verbose : bool) : ST K (list string) :=
  do cfg <- Discover root;
  do bs <- mcollect (inspect_backstore verbose) (c_Backstores cfg);
  do orphans <- reportOrphanPRState cfg;
  ret (["backstores: " +:+ itoa (Z.of_nat (length (c_Backstores cfg))) +:+ ", targets: "
          +:+ itoa (Z.of_nat (length (c_Targets cfg)))]
       ++ bs ++ (c_Targets cfg ≫= inspect_target verbose) ++ orphans).
End inspect.

(** ** What the report says *)

Lemma append_nonempty a b : a ≠ "" → a +:+ b ≠ "".
Proof. by destruct a. Qed.
Lemma describe_state_silent st : describe_state st = "" →
  st_Registrations st = [] ∧ st_Holder st = "" ∧ st_Truncated st = false.
Proof.
  unfold describe_state.
  destruct (_ && _) eqn:E.
  - intros _. rewrite !andb_true_iff, negb_true_iff, Nat.eqb_eq, String.eqb_eq, length_zero_iff_nil in E. tauto.
  - intros Hd. exfalso. revert Hd. apply append_nonempty. repeat case_match; done.
Qed.
Lemma describe_state_holder st : st_Holder st ≠ "" →
  HasPrefix (describe_state st) ("RESERVED by " +:+ st_Holder st) = true.
Proof.
  intros Hh. unfold describe_state. apply String.eqb_neq in Hh. rewrite Hh, andb_false_r. cbn [negb andb].
  rewrite !app_assoc_str, <- (app_assoc_str "RESERVED by " (st_Holder st)). apply HasPrefix_app.
Qed.
Lemma unparsed_nonneg s : 0 ≤ (parseRegistrations s).2.
Proof.
  unfold parseRegistrations. induction (Split s nl) as [|l ls IH]; cbn; [done|].
  destruct (parseRegLine l); cbn; lia.
Qed.

Section proofs.
Context {K : Type} `{HL : LoggedKernel K} (root : string) (pageSize : Z).
Context (stat_blocks : string → ST K Z) (text : goerr → string).
Notation describePR := (describePR root pageSize text).
Notation inspectCmd := (inspectCmd root pageSize stat_blocks text).

Lemma quiet_PRState_read b : quiet (PRState_read (K := K) root pageSize b).
Proof. unfold quiet, PRState_read. emit. Qed.
Lemma quiet_OrphanPRState dbRoot live : quiet (OrphanPRState (K := K) dbRoot live).
Proof. unfold quiet, OrphanPRState. emit. Qed.
Lemma quiet_inspect_backstore verbose b :
  (∀ p, quiet (stat_blocks p)) → quiet (inspect_backstore root pageSize stat_blocks text verbose b).
Proof.
  intros Hstat. unfold quiet, inspect_backstore, Inspect.describePR, describeVolume, allocatedBytes.
  emit; (apply quiet_PRState_read || apply Hstat).
Qed.

(** inspect is a read-only look at a host that another process may be
    writing: whatever it finds, it asks the kernel for no change, which is why
    it needs no lock. *)
Theorem inspect_reads (verbose : bool) (Hstat : ∀ p, quiet (stat_blocks p)) : quiet (inspectCmd verbose).
Proof.
  unfold quiet, Inspect.inspectCmd, reportOrphanPRState, DBRoot.
  emit; eauto using emits_Discover, emits_quiet, quiet_inspect_backstore, quiet_OrphanPRState.
Qed.

(** inspect does not hide a reservation it read: [describePR] says nothing
    about a backstore only when the kernel's registration list was read, was
    not cut short, and held no registration and no line that could not be
    parsed, and when the holder that was read names nobody; and whatever it
    says of a holder that was read begins with the holder's name. *)
Theorem describePR_silent (b : Backstore) (k k' : K) (said : string)
    (Hrun : describePR b k = (Ok said, k')) :
  (said = "" →
   ∃ regs held k1 k2 k3,
     ReadAttr root (objPath b ++ ["pr"; "res_pr_registered_i_pts"]) k = (Ok regs, k1) ∧
     parseRegistrations regs = ([], 0) ∧ slen regs < pageSize - prMaxRegLine ∧
     ReadAttr root (objPath b ++ ["pr"; "res_holder"]) k2 = (Ok held, k3) ∧ (parseHolder held).1.1 = "") ∧
  (∀ st, PRState_read root pageSize b k = (Ok st, k') → st_Holder st ≠ "" →
     HasPrefix said ("RESERVED by " +:+ st_Holder st) = true).
Proof.
  clear stat_blocks. unfold Inspect.describePR, bind at 1, try, ret in Hrun.
  destruct (PRState_read root pageSize b k) as [[st|e] k0] eqn:Hread; injection Hrun as <- <-.
  2:{ split; [intros Hs; by apply append_nonempty in Hs | done]. }
  split; [|intros st' [= <-]; apply describe_state_holder].
  intros (Hregs & Hholder & Htr)%describe_state_silent.
  unfold PRState_read in Hread.
  destruct (bind_Ok _ _ _ _ _ Hread) as (regs & k1 & Hr & Hread1). apply onerr_Ok in Hr.
  destruct (parseRegistrations regs) as [parsed unparsed] eqn:Hp.
  destruct (bind_Ok _ _ _ _ _ Hread1) as (held & k3 & Hh & Hread2). apply onerr_Ok in Hh.
  destruct (parseHolder held) as [[holder isid] known] eqn:Hq.
  destruct (bind_Ok _ _ _ _ _ Hread2) as (ty & k4 & _ & Hread3).
  destruct (bind_Ok _ _ _ _ _ Hread3) as (ap & k5 & _ & Hread4).
  injection Hread4 as <- _. cbn in Hregs, Hholder, Htr. subst.
  apply orb_false_iff in Htr as [Hu Hlen]. exists regs, held, k1, k1, k3.
  pose proof (unparsed_nonneg regs) as Hn. rewrite Hp in Hn. cbn in Hn.
  split_and!; [done | | lia | done | by rewrite Hq].
  rewrite Hp. f_equal. lia.
Qed.
End proofs.

(** ** Examples *)

Example humanBytes_round : humanBytes (3 * 2 ^ 40) = "3TiB".
Proof. vm_compute. reflexivity. Qed.
(** Three bytes of 1027 are dropped. *)
Example humanBytes_inexact : humanBytes 1027 = "1.0KiB" ∧ humanBytes (2 ^ 20 - 1) = "1024.0KiB".
Proof. split; vm_compute; reflexivity. Qed.
(** A holder whose text was not understood is passed over. *)
Example holder_unknown_unsaid :
  describe_state (mkPRState [] "" false "" false false) = "" ∧
  HasPrefix (describe_state (mkPRState [mkLiveReg "iqn.x:h" 4660] "" false "" false false))
    "registered, no reservation held" = true.
Proof. split; vm_compute; reflexivity. Qed.
Example describe_key :
  HasSuffix (describe_state (mkPRState [mkLiveReg "iqn.x:h" 4660] "" true "" false false)) "key 0x1234  iqn.x:h" = true.
Proof. vm_compute. reflexivity. Qed.
