(* ===== verification/Daemon.v ===== *)
(** * cmd/applianced: the subcommands

    main.go: the choice of a subcommand, [serve] up to the point where the
    daemon accepts connections ([startup]), and [reinit]. What a subcommand
    exits with is a value; the machine it leaves comes with it. The flags have
    been parsed; [rest] are the arguments the parser left over. *)

From S2P Require Import Prelude GoStrings Errors Netip LioModel Configfs LioAptpl LioApply Trace LioEffects LioSync.
From S2P Require Import LioStranded AppModel AppDb AppPortals AppAptpl AppTranslate Storage AppCoordinator.
From S2P Require Import AppObjects AppIdentity AppRun AppReach Saveconfig Applog Setup SetupSystem.

(** ** The command line *)

Inductive command := CServe | CPreflight | CSetup | CInspect | CReinit | CHelp | CUnknown (sub : string).
(** [main]: the subcommand and its arguments. *)
Definition subcommand (args : list string) : string * list string :=
  match args with
  | a :: rest => if HasPrefix a "-" then ("serve", args) else (a, rest)
  | [] => ("serve", [])
  end.
Definition main_command (args : list string) : command * list string :=
  let '(sub, args) := subcommand args in
  let named := String.eqb sub in
  (if named "serve" then CServe
   else if named "preflight" then CPreflight
   else if named "setup-system" then CSetup
   else if named "inspect" then CInspect
   else if named "reinit" then CReinit
   else if named "help" || named "-h" || named "--help" then CHelp
   else CUnknown sub, args).
Definition extraArgsError (name : string) (rest : list string) : result goerr unit :=
  match rest with
  | [] => Ok tt
  | a :: _ => Err (wrapf "%s: unexpected argument %q -- this command takes no positional arguments..." [name; a])
  end.

(** [uint16(n)] of an int. *)
Definition uint16 (n : Z) : Z := n mod 2 ^ 16.

(** The flags of [serve]; an interval is in nanoseconds. *)
Record serve_flags := mkServeFlags {
  sf_root : string; sf_iqn : string; sf_portals : string; sf_port : Z; sf_listen : string;
  sf_prInterval : Z; sf_lock : string; sf_writeBack : bool; sf_noUnmap : bool;
  sf_logFormat : string; sf_logLevel : string }.
Definition default_flags : serve_flags :=
  mkServeFlags "/var/lib/glitr" "" "0.0.0.0" 3260 "127.0.0.1:8080" (30 * 10 ^ 9) DefaultLockPath
    false false "text" "info".

(** [http.Server], as [newRESTServer] fills it in; durations in seconds. *)
Record rest_server := mkServer {
  hs_Addr : string; hs_ReadHeaderTimeout : Z; hs_ReadTimeout : Z; hs_WriteTimeout : Z; hs_IdleTimeout : Z }.
Definition newRESTServer (addr : string) : rest_server := mkServer addr 5 30 60 120.

(** ** serve *)

Inductive startup_failure :=
  | BadLog (e : goerr)
  | BadPortals (e : aerr)
  | BadConfig (e : aerr)
  | LockFailed (e : goerr)
  | LockHeld
  | NoStore (e : goerr)
  | NoDBRoot (e : goerr)
  | NoPRDir (e : goerr)
  | NotOpened (e : aerr)
  | OpenPanicked.

Section serve.
Context {K F : Type} `{Kernel K} `{HostFiles F}.
Context (range : ∀ A, list A → list A) (mroot : string).
Context (marshal : db → string) (unmarshal : string → option Loaded).
Notation machine := (machine K F).
Notation world := (world K F).

Inductive started :=
  | Exited (why : startup_failure) (m : machine)
  | Serving (lg : logger) (l : Lock) (w : world).

(** The settings that are checked before anything is touched. *)
Definition settings_of (fl : serve_flags) : result startup_failure (logger * list Portal) :=
  match Log_New (sf_logFormat fl) (sf_logLevel fl) with
  | Err e => Err (BadLog e)
  | Ok lg =>
      match ParsePortals (sf_portals fl) (uint16 (sf_port fl)) with
      | Err e => Err (BadPortals e)
      | Ok ps =>
          match AppConfig_Validate range (mkAppConfig (sf_iqn fl) "" ps "" false false) with
          | Err e => Err (BadConfig e)
          | Ok _ => Ok (lg, ps)
          end
      end
  end.

(** From the lock on: the store, the directory of saved reservations, and the
    coordinator that restores them. *)
Definition open_appliance (fl : serve_flags) (ps : list Portal) (lg : logger) (l : Lock) (m : machine) : started :=
  let root := sf_root fl in
  match Store_Open root (m_f m) with
  | (Err e, f) => Exited (NoStore e) (mkMachine (m_k m) f)
  | (Ok quarantined, f) =>
      match DBRoot mroot (m_k m) with
      | (Err e, k) => Exited (NoDBRoot e) (mkMachine k f)
      | (Ok dbRoot, k) =>
          match fs_MkdirAll (path_Join [dbRoot; "pr"]) f with
          | (Err e, f) => Exited (NoPRDir e) (mkMachine k f)
          | (Ok _, f) =>
              let cfg := mkAppConfig (sf_iqn fl) "" ps dbRoot (sf_writeBack fl) (sf_noUnmap fl) in
              match Open range mroot (Some (APTPLProvider dbRoot)) marshal unmarshal root quarantined cfg
                      (mkWorld (new_coord root cfg quarantined) k f) with
              | (Done _, w) => Serving lg l w
              | (Fail e, w) => Exited (NotOpened e) (mkMachine (w_k w) (w_f w))
              | (Panic, w) => Exited OpenPanicked (mkMachine (w_k w) (w_f w))
              end
          end
      end
  end.

Definition startup (fl : serve_flags) (m : machine) : started :=
  match settings_of fl with
  | Err why => Exited why m
  | Ok (lg, ps) =>
      let '(r, l, f) := TryLock (Lock_New (sf_lock fl)) (m_f m) in
      let m := mkMachine (m_k m) f in
      match r with
      | Err e => Exited (LockFailed e) m
      | Ok false => Exited LockHeld m
      | Ok true => open_appliance fl ps lg l m
      end
  end.

(** ** reinit *)

Inductive reinit_end :=
  | RUnsaid                     (* neither -adopt nor -wipe, or both *)
  | RLockFailed (e : goerr)
  | RLockHeld
  | RFailed (e : aerr)
  | RPanicked
  | RDone.

(** The deferred Unlock runs when the command returns, not when it exits. *)
Definition reinitCmd (root iqn : string) (adopt wipe : bool) (lockPath : string) (m : machine)
    : reinit_end * Lock * machine :=
  let lock := Lock_New lockPath in
  if Bool.eqb adopt wipe then (RUnsaid, lock, m)
  else
    let '(r, lock, f) := TryLock lock (m_f m) in
    let m := mkMachine (m_k m) f in
    match r with
    | Err e => (RLockFailed e, lock, m)
    | Ok false => (RLockHeld, lock, m)
    | Ok true =>
        let '(o, w) := Reinit range marshal unmarshal root iqn "" wipe
                         (mkWorld (new_coord root (mkAppConfig "" "" [] "" false false) []) (m_k m) f) in
        match o with
        | Done _ => let '(lock, f) := Unlock lock (w_f w) in (RDone, lock, mkMachine (w_k w) f)
        | Fail e => (RFailed e, lock, mkMachine (w_k w) (w_f w))
        | Panic => (RPanicked, lock, mkMachine (w_k w) (w_f w))
        end
    end.
End serve.
Arguments Exited {K F}.
Arguments Serving {K F}.

(** ** preflight and setup-system *)

Section host.
Context {H : Type} `{Host H}.
(** The report, and the exit status. *)
Definition preflightCmd (port : Z) (listen : string) (runtime : bool) (w : H) : string * bool * H :=
  match Preflight (mkOptions port listen runtime) w with
  | (Ok rep, w) => let '(out, failed) := Fprint rep in (out, failed, w)
  | (Err _, w) => ("", true, w)
  end.
Definition setupCmd (assets : string → string) (root dataDisk : string) (force forceMount start : bool) : ST H unit :=
  SetupSystem assets (mkSetupOptions root dataDisk force forceMount start).
End host.

(** ** Starting is guarded *)

Section proofs.
Context {K F : Type} `{HL : LoggedKernel K} `{HF : HostFiles F}.
Context (range : ∀ A, list A → list A) (mroot : string).
Context (marshal : db → string) (unmarshal : string → option Loaded).
Notation machine := (machine K F).
Notation startup := (startup (K := K) (F := F) range mroot marshal unmarshal).
Notation reinitCmd := (reinitCmd (K := K) (F := F) range marshal unmarshal).

(** The lock was taken on the files of [m]. *)
Definition lock_taken (path : string) (m : machine) : Prop :=
  ∃ l f fd, TryLock (Lock_New path) (m_f m) = (Ok true, l, f) ∧ lk_f l = Some fd.

Lemma TryLock_held path f l f' : TryLock (F := F) (Lock_New path) f = (Ok true, l, f') → ∃ fd, lk_f l = Some fd.
Proof.
  unfold TryLock. cbn [lk_f Lock_New].
  repeat case_match; intros [=]; subst; cbn; eauto.
Qed.
Lemma quiet_DBRoot : quiet (DBRoot (K := K) mroot).
Proof. unfold quiet, DBRoot. emit. Qed.

(** The world that opening the appliance led to, with the db_root the kernel
    named in its settings; it is one the other properties speak of unless the
    document records a block size of zero. *)
Definition opened (dbRoot : string) (w : world K F) : Prop :=
  ∃ root quarantined cfg w0, ac_DBRoot cfg = dbRoot ∧
    Open range mroot (Some (APTPLProvider dbRoot)) marshal unmarshal root quarantined cfg w0 = (Done tt, w) ∧
    (usable_document unmarshal (c_dbPath (new_coord root cfg quarantined)) w0 →
     reachable range mroot (Some (APTPLProvider dbRoot)) 4096 marshal unmarshal w).

(** What a start that got the lock leads to. *)
Definition guarded (path : string) (m : machine) (s : started) : Prop :=
  match s with
  | Exited (BadLog _ | BadPortals _ | BadConfig _) m' => m' = m
  | Exited (LockFailed _ | LockHeld) m' => m_k m' = m_k m
  | Exited (NoStore _ | NoDBRoot _ | NoPRDir _) m' => trace m' = trace m ∧ lock_taken path m
  | Exited (NotOpened _ | OpenPanicked) _ => lock_taken path m
  | Serving lg l w =>
      lock_taken path m ∧ is_Some (lk_f l) ∧
      ∃ dbRoot, answered (DBRoot mroot) dbRoot ∧ opened dbRoot w
  end.

(** C10. The daemon looks before it touches: whatever the flags, the kernel and
    the disk, [serve] leaves the machine as it was when a setting is refused,
    leaves the kernel as it was when the lock is not to be had, asks the kernel
    for no change before the coordinator is opened, and when it gets as far as
    serving it holds the host-wide lock and a coordinator that [Open] gave, in
    a state the other properties speak of if the document it read records no
    block size of zero, and the saved reservations of the db_root the kernel
    named are the ones it restored from. *)
Theorem startup_guarded (fl : serve_flags) (m : machine) : guarded (sf_lock fl) m (startup fl m).
Proof.
  unfold Daemon.startup. destruct (settings_of range fl) as [[lg ps]|why] eqn:Hset; cycle 1.
  { unfold settings_of in Hset. repeat case_match; simplify_eq; done. }
  destruct (TryLock _ _) as [[r l] f] eqn:Hlock. destruct r as [[]|e]; [|done..].
  assert (Htaken : lock_taken (sf_lock fl) m) by (destruct (TryLock_held _ _ _ _ Hlock); by exists l, f, x).
  unfold open_appliance. cbn [m_f m_k].
  destruct (Store_Open _ f) as [[q|e] f1]; [|done].
  destruct (DBRoot mroot (m_k m)) as [[dbRoot|e] k] eqn:Hdb; pose proof (quiet_run _ _ _ _ quiet_DBRoot Hdb) as Hq;
    [|by split].
  destruct (fs_MkdirAll _ f1) as [[u|e] f2]; [|by split].
  destruct (Open _ _ _ _ _ _ _ _ _) as [[[]|e|] w] eqn:Hopen; [|done..].
  split; [done|]. split; [by destruct (TryLock_held _ _ _ _ Hlock); eexists|].
  exists dbRoot. split; [by exists (m_k m), k|].
  do 4 eexists. split_and!; [|exact Hopen|intros Hdoc; by eapply reach_open]. done.
Qed.

(** A computation that leaves the kernel alone. *)
Definition off_kernel {A} (m : App K F A) : Prop := ∀ w, w_k (m w).2 = w_k w.
Lemma off_ret {A} (a : A) : off_kernel (aret a).
Proof. done. Qed.
Lemma off_fail {A} e : off_kernel (afail (A := A) e).
Proof. done. Qed.
Lemma off_of_res {A} (r : result aerr A) : off_kernel (of_res r).
Proof. by destruct r. Qed.
Lemma off_get : off_kernel get.
Proof. done. Qed.
Lemma off_modify f : off_kernel (modify f).
Proof. done. Qed.
Lemma off_files {A} (m : ST F A) : off_kernel (in_files m).
Proof. intros w. unfold in_files. by destruct (m (w_f w)) as [[] ?]. Qed.
Lemma off_bind {A B} (m : App K F A) (g : A → App K F B) :
  off_kernel m → (∀ a, off_kernel (g a)) → off_kernel (abind m g).
Proof.
  intros Hm Hg w. specialize (Hm w). unfold abind. destruct (m w) as [[a|e|] w']; cbn in *; [|done..].
  by rewrite Hg.
Qed.
Lemma off_try {A} (m : App K F A) : off_kernel m → off_kernel (atry m).
Proof. intros Hm w. specialize (Hm w). unfold atry. by destruct (m w) as [[] ?]. Qed.
Ltac off :=
  cbv zeta; repeat (match goal with
  | |- off_kernel (abind _ _) => apply off_bind; [|intros]
  | |- off_kernel (atry _) => apply off_try
  | |- off_kernel (in_files _) => apply off_files
  | |- off_kernel (of_res _) => apply off_of_res
  | |- off_kernel (if ?b then _ else _) => destruct b
  | |- off_kernel (match ?x with _ => _ end) => destruct x
  | |- off_kernel _ => first [apply off_ret | apply off_fail | apply off_get | apply off_modify | done]
  end; cbv beta zeta).

Lemma off_remint objs : off_kernel (remint objs).
Proof. induction objs as [|o objs IH]; cbn [remint]; off. unfold newIdentity, random16. off. Qed.
Lemma off_set_aside root objs : off_kernel (set_aside root objs).
Proof. induction objs as [|o objs IH]; cbn [set_aside]; off. Qed.
Lemma off_persist : off_kernel (persist marshal).
Proof. unfold persist, publish. off. Qed.
Lemma off_Reinit root iqn path wipe : off_kernel (Reinit range marshal unmarshal root iqn path wipe).
Proof.
  unfold Reinit, readMachineID, load, wipeObjects, remintWWNs, set_state, AppCoordinator.st.
  off; auto using off_remint, off_set_aside, off_persist.
Qed.

(** [reinit] decides nothing on the operator's behalf and is the only
    writer while it works: unless exactly one of -adopt and -wipe is given the
    machine is left as it was, the kernel is never changed, the database is
    reached only after the host-wide lock was taken, and a re-initialisation
    that succeeds gives the lock back. *)
Theorem reinit_guarded (root iqn : string) (adopt wipe : bool) (lockPath : string) (m : machine) :
  let '(r, l, m') := reinitCmd root iqn adopt wipe lockPath m in
  m_k m' = m_k m ∧ (adopt = wipe ↔ r = RUnsaid) ∧ (r = RUnsaid → m' = m) ∧
  match r with
  | RUnsaid => True
  | RLockFailed _ | RLockHeld => m_f m' = (TryLock (Lock_New lockPath) (m_f m)).2
  | RFailed _ | RPanicked => lock_taken lockPath m
  | RDone => lock_taken lockPath m ∧ lk_f l = None
  end.
Proof.
  unfold Daemon.reinitCmd. destruct (Bool.eqb adopt wipe) eqn:Hb.
  { apply eqb_prop in Hb. by split_and!. }
  assert (Hne : adopt ≠ wipe) by (intros ->; by rewrite eqb_reflx in Hb).
  destruct (TryLock _ _) as [[r l] f] eqn:Hlock. destruct r as [[]|e]; [|split_and!; naive_solver..].
  assert (Htaken : lock_taken lockPath m) by (destruct (TryLock_held _ _ _ _ Hlock); by exists l, f, x).
  pose proof (off_Reinit root iqn "" wipe
    (mkWorld (new_coord root (mkAppConfig "" "" [] "" false false) []) (m_k m) f)) as Hk.
  cbn [m_k m_f]. destruct (Reinit _ _ _ _ _ _ _ _) as [[[]|e|] w]; cbn [snd] in Hk; cycle 1.
  1,2: split_and!; naive_solver.
  unfold Unlock. destruct (lk_f l) eqn:Hl; split_and!; naive_solver.
Qed.
End proofs.
