(* ===== verification/Drain.v ===== *)
(** * cmd/applianced: the drain

    [runServer] of main.go as a state machine: the goroutine that serves, the
    goroutine that waits for [stop] and shuts the server down, and net/http's
    server between them. A connection is idle or has a request in flight.
    net/http: ListenAndServe returns ErrServerClosed once the server is
    shutting down; Shutdown closes the listeners, then, over and over, the idle
    connections, until no connection is left, and gives up when its context
    expires; while it runs, a connection is closed after its request. *)

From S2P Require Import Prelude Errors.

Inductive main_pc :=
  | Starting                       (* serveFn has not bound its address *)
  | Accepting
  | Waiting                        (* <-drained *)
  | Returned (err : option goerr).
Inductive shut_pc :=
  | AwaitStop                      (* <-stop *)
  | Draining                       (* inside srv.Shutdown *)
  | Finished.                      (* drained is closed *)

Record server := mkServing {
  sv_main : main_pc; sv_shut : shut_pc; sv_stop : bool; sv_drained : bool;
  sv_shutting : bool;              (* inShutdown *)
  sv_idle : list Z; sv_active : list Z;
  sv_done : list Z;                (* the requests that finished *)
  sv_warned : bool                 (* lifecycle.drain_failed was logged *)
}.
Definition server0 : server := mkServing Starting AwaitStop false false false [] [] [] false.

Definition set_main v s := mkServing v (sv_shut s) (sv_stop s) (sv_drained s) (sv_shutting s)
  (sv_idle s) (sv_active s) (sv_done s) (sv_warned s).
Definition set_conns idle active done s := mkServing (sv_main s) (sv_shut s) (sv_stop s) (sv_drained s)
  (sv_shutting s) idle active done (sv_warned s).
(** [defer close(drained)], after a warning or none. *)
Definition shut_down warned s := mkServing (sv_main s) Finished (sv_stop s) true (sv_shutting s)
  (sv_idle s) (sv_active s) (sv_done s) (sv_warned s || warned).

Inductive event :=
  | EListen (err : option goerr)   (* net.Listen, in ListenAndServe *)
  | EAcceptError (e : goerr)
  | EConnect (c : Z)               (* a connection, which counts as busy until its first request is read *)
  | ERequest (c : Z)               (* a request on a kept-alive connection *)
  | EFinish (c : Z)                (* the handler returned *)
  | EHangUp (c : Z)                (* an idle connection goes away *)
  | EStop                          (* a signal: close(stop) *)
  | EShutdown                      (* Shutdown is entered: no listener any more *)
  | EClosed                        (* serveFn returns ErrServerClosed *)
  | EPoll (err : option goerr)     (* idle connections are closed; the listener's error, if all are gone *)
  | EBudget                        (* the context expires *)
  | EJoin.                         (* <-drained *)

Definition drop (c : Z) (l : list Z) : list Z := filter (λ x, x ≠ c) l.

Definition step (ev : event) (s : server) : option server :=
  match sv_main s with
  | Returned _ => None             (* the process exits *)
  | pc =>
      match ev with
      | EListen err =>
          match pc with
          | Starting =>
              match err with
              | Some e => Some (set_main (Returned (Some e)) s)
              | None => if sv_shutting s then None else Some (set_main Accepting s)
              end
          | _ => None
          end
      | EAcceptError e =>
          match pc with
          | Accepting => if sv_shutting s then None else Some (set_main (Returned (Some e)) s)
          | _ => None
          end
      | EConnect c =>
          match pc with
          | Accepting =>
              if sv_shutting s || bool_decide (c ∈ sv_idle s ++ sv_active s) then None
              else Some (set_conns (sv_idle s) (c :: sv_active s) (sv_done s) s)
          | _ => None
          end
      | ERequest c =>
          if bool_decide (c ∈ sv_idle s)
          then Some (set_conns (drop c (sv_idle s)) (c :: sv_active s) (sv_done s) s) else None
      | EFinish c =>
          if bool_decide (c ∈ sv_active s)
          then Some (set_conns (if sv_shutting s then sv_idle s else c :: sv_idle s)
                       (drop c (sv_active s)) (c :: sv_done s) s)
          else None
      | EHangUp c =>
          if bool_decide (c ∈ sv_idle s)
          then Some (set_conns (drop c (sv_idle s)) (sv_active s) (sv_done s) s) else None
      | EStop =>
          if sv_stop s then None
          else Some (mkServing pc (sv_shut s) true (sv_drained s) (sv_shutting s)
                       (sv_idle s) (sv_active s) (sv_done s) (sv_warned s))
      | EShutdown =>
          match sv_shut s with
          | AwaitStop =>
              if sv_stop s
              then Some (mkServing pc Draining true (sv_drained s) true
                           (sv_idle s) (sv_active s) (sv_done s) (sv_warned s))
              else None
          | _ => None
          end
      | EClosed =>
          match pc with
          | Waiting => None
          | _ => if sv_shutting s then Some (set_main Waiting s) else None
          end
      | EPoll err =>
          match sv_shut s with
          | Draining =>
              match sv_active s, sv_idle s with
              | [], _ => Some (shut_down (bool_decide (is_Some err)) (set_conns [] [] (sv_done s) s))
              | _, [] => None
              | _, _ => Some (set_conns [] (sv_active s) (sv_done s) s)
              end
          | _ => None
          end
      | EBudget => match sv_shut s with Draining => Some (shut_down true s) | _ => None end
      | EJoin =>
          match pc with
          | Waiting => if sv_drained s then Some (set_main (Returned None) s) else None
          | _ => None
          end
      end
  end.

Fixpoint run (evs : list event) (s : server) : option server :=
  match evs with
  | [] => Some s
  | ev :: evs => match step ev s with Some s => run evs s | None => None end
  end.

(** ** The invariant *)

(** Where the shutting goroutine is says what has been done by then. *)
Definition joined (s : server) : Prop :=
  match sv_shut s with
  | AwaitStop => sv_shutting s = false ∧ sv_drained s = false ∧ sv_main s ≠ Waiting ∧ sv_main s ≠ Returned None
  | Draining => sv_shutting s = true ∧ sv_stop s = true ∧ sv_drained s = false ∧ sv_main s ≠ Returned None
  | Finished =>
      sv_shutting s = true ∧ sv_stop s = true ∧ sv_drained s = true ∧
      (sv_warned s = false → sv_active s = [] ∧ sv_idle s = [])
  end.

Ltac step_cases :=
  match goal with H : step _ _ = Some _ |- _ =>
    unfold step in H; cbn in H; repeat (case_match || case_bool_decide); simplify_eq/= end.
Ltac in_nil := match goal with H : _ ∈ [] |- _ => by apply not_elem_of_nil in H end.

Lemma joined_step ev s s' : joined s → step ev s = Some s' → joined s'.
Proof.
  destruct s as [m [] st dr shu idl act dn wa]; unfold joined; cbn; intros J Hs;
    destruct ev; step_cases; cbn; destruct_and?; simplify_eq; split_and?; try done; try (intros ->);
    repeat match goal with
    | H : false = false → _ |- _ => destruct (H eq_refl) as [-> ->]; clear H
    end; try done; try in_nil; by rewrite orb_true_r.
Qed.
Lemma joined_run evs s s' : joined s → run evs s = Some s' → joined s'.
Proof.
  revert s. induction evs as [|ev evs IH]; intros s Hj; cbn; [by intros [= <-]|].
  destruct (step ev s) as [s1|] eqn:E; [|done]. apply IH. by eapply joined_step.
Qed.

(** Every request that was begun, of a run of the server. *)
Definition begun (evs : list event) : list Z :=
  omap (λ ev, match ev with EConnect c | ERequest c => Some c | _ => None end) evs.

Lemma drop_cons c x l : drop c (x :: l) = if decide (x = c) then drop c l else x :: drop c l.
Proof.
  unfold drop. case_decide as E; [rewrite filter_cons_False by tauto | rewrite filter_cons_True by done]; done.
Qed.
Lemma drop_notin c l : c ∉ l → drop c l = l.
Proof.
  induction l as [|x l IH]; [done|]. intros [Hx Hl]%not_elem_of_cons.
  rewrite drop_cons, decide_False by done. by rewrite IH.
Qed.
Lemma drop_perm c l : NoDup l → c ∈ l → l ≡ₚ c :: drop c l.
Proof.
  induction 1 as [|x l Hx Hnd IH]; [by intros ?%not_elem_of_nil|].
  intros Hc. rewrite drop_cons. case_decide as E.
  - subst. by rewrite drop_notin.
  - rewrite (Permutation_swap x c). constructor. apply IH. by apply elem_of_cons in Hc as [->|?].
Qed.

(** The connections are distinct, and a request is answered or in flight. *)
Definition accounted (evs : list event) (s : server) : Prop :=
  NoDup (sv_idle s ++ sv_active s) ∧ begun evs ≡ₚ sv_done s ++ sv_active s.
#[local] Arguments drop : simpl never.
Section moves.
Context (b dn idl act : list Z) (c : Z) (Hnd : NoDup (idl ++ act)).
Lemma begun_more : b ≡ₚ dn ++ act → b ++ [c] ≡ₚ dn ++ c :: act.
Proof using. intros ->. by rewrite <- (Permutation_middle dn act c), Permutation_app_comm. Qed.
Lemma begun_done : NoDup (idl ++ act) → c ∈ act → b ≡ₚ dn ++ act → b ≡ₚ c :: dn ++ drop c act.
Proof using.
  intros (_ & _ & Ha)%NoDup_app Hc ->. rewrite (drop_perm c act Ha Hc) at 1.
  by rewrite <- (Permutation_middle dn (drop c act) c).
Qed.
Lemma distinct_connect : c ∉ idl ++ act → NoDup (idl ++ c :: act).
Proof using Hnd. intros Hc. rewrite <- Permutation_middle. by constructor. Qed.
Lemma distinct_request : c ∈ idl → NoDup (drop c idl ++ c :: act).
Proof using Hnd.
  intros Hc. pose proof Hnd as (Hi & _)%NoDup_app. rewrite <- Permutation_middle, app_comm_cons.
  by rewrite <- (drop_perm c idl).
Qed.
Lemma distinct_finish : c ∈ act → NoDup (c :: idl ++ drop c act).
Proof using Hnd.
  intros Hc. pose proof Hnd as (_ & _ & Ha)%NoDup_app. rewrite Permutation_middle. by rewrite <- (drop_perm c act).
Qed.
Lemma distinct_closed : c ∈ act → NoDup (idl ++ drop c act).
Proof using Hnd. intros Hc. by apply distinct_finish in Hc as [_ ?]%NoDup_cons. Qed.
Lemma distinct_gone : c ∈ idl → NoDup (drop c idl ++ act).
Proof using Hnd.
  intros Hc. apply distinct_request in Hc. rewrite <- Permutation_middle in Hc. by apply NoDup_cons in Hc as [_ ?].
Qed.
End moves.
Create HintDb drain.
#[local] Hint Resolve begun_more begun_done distinct_connect distinct_request distinct_finish distinct_closed
  distinct_gone NoDup_nil_2 : drain.

Lemma accounted_step evs ev s s' : accounted evs s → step ev s = Some s' → accounted (evs ++ [ev]) s'.
Proof.
  intros [Hnd Hb] Hs. unfold accounted, begun in *. rewrite omap_app.
  destruct s as [m sh st dr shu idl act dn wa]. cbn in Hnd, Hb.
  destruct ev; step_cases; rewrite ?app_nil_r, ?orb_true_r in *; try done; split; eauto with drain; try done.
  all: change (NoDup ((z0 :: l0) ++ z :: l)) in Hnd; by apply NoDup_app in Hnd as (_ & _ & Ha).
Qed.
Lemma accounted_run evs0 evs s s' : accounted evs0 s → run evs s = Some s' → accounted (evs0 ++ evs) s'.
Proof.
  revert evs0 s. induction evs as [|ev evs IH]; intros evs0 s Ha; cbn; [rewrite app_nil_r; by intros [= <-]|].
  destruct (step ev s) as [s1|] eqn:E; [|done]. rewrite (assoc_L (++) evs0 [ev] evs : evs0 ++ ev :: evs = (evs0 ++ [ev]) ++ evs).
  apply IH. by eapply accounted_step.
Qed.

(** ** Joining the drain *)

(** C19. The drain is waited for: when [runServer] returns without an error, it
    was asked to stop, no connection is accepted any more, and either every
    request that was ever begun has been answered and no connection is left,
    or the log says the drain failed. *)
Theorem runServer_joined (evs : list event) (s : server) (Hrun : run evs server0 = Some s)
    (Hret : sv_main s = Returned None) :
  sv_stop s = true ∧ sv_shutting s = true ∧
  (sv_warned s = false → begun evs ≡ₚ sv_done s ∧ sv_active s = [] ∧ sv_idle s = []).
Proof.
  pose proof (joined_run evs server0 s ltac:(by split_and!) Hrun) as Hj.
  pose proof (accounted_run [] evs server0 s ltac:(split; [apply NoDup_nil_2 | done]) Hrun) as [_ Hb].
  unfold joined in Hj. destruct (sv_shut s); [by destruct_and?..|].
  destruct Hj as (Hsh & Hst & _ & Hq). split_and!; [done..|]. intros Hw.
  destruct (Hq Hw) as [Ha Hi]. split_and!; [|done..]. by rewrite Hb, Ha, app_nil_r.
Qed.

(** ** It ends *)

(** What is left to do once the server is shutting down. *)
Definition measure (s : server) : nat :=
  3 * length (sv_idle s) + 2 * length (sv_active s)
  + match sv_main s with Starting => 3 | Accepting => 2 | Waiting => 1 | Returned _ => 0 end
  + match sv_shut s with AwaitStop => 2 | Draining => 1 | Finished => 0 end.

Lemma drop_shorter c l : c ∈ l → (length (drop c l) < length l)%nat.
Proof.
  induction l as [|x l IH]; [by intros ?%not_elem_of_nil|]. intros Hc. rewrite drop_cons.
  assert (Hle : (length (drop c l) ≤ length l)%nat) by apply length_filter.
  case_decide; cbn; [lia|]. apply elem_of_cons in Hc as [->|Hc]; [done|]. specialize (IH Hc). lia.
Qed.
Lemma measure_step ev s s' : joined s → sv_shutting s = true → step ev s = Some s' →
  (measure s' < measure s)%nat ∧ sv_shutting s' = true.
Proof.
  intros Hj Hsh Hs. assert (Hg : sv_stop s = true ∧ sv_shut s ≠ AwaitStop).
  { unfold joined in Hj. destruct (sv_shut s); destruct_and?; [congruence | done..]. }
  destruct Hg as [Hst Hne]. clear Hj. destruct s as [m sh st dr shu idl act dn wa]. cbn in Hsh, Hst, Hne. subst shu st.
  unfold measure. pose proof drop_shorter as Hd.
  destruct ev as [| | |c|c|c| | | |err| |]; unfold step in Hs; cbn in Hs;
    repeat match type of Hs with context [match ?x with _ => _ end] => destruct x eqn:? end;
    try done; injection Hs as <-; cbn; (split; [|done]);
    repeat match goal with E : bool_decide _ = true |- _ => apply bool_decide_eq_true, Hd in E end; lia.
Qed.
Lemma measure_run evs s s' : joined s → sv_shutting s = true → run evs s = Some s' →
  (length evs + measure s' ≤ measure s)%nat ∧ sv_shutting s' = true.
Proof.
  revert s. induction evs as [|ev evs IH]; intros s Hj Hsh; cbn [run]; [by intros [= <-]|].
  destruct (step ev s) as [s1|] eqn:E; [|done]. intros Hr.
  destruct (measure_step ev s s1 Hj Hsh E) as [Hlt Hsh1].
  destruct (IH s1 (joined_step _ _ _ Hj E) Hsh1 Hr) as [Hle ?]. split; [cbn [length]; lia | done].
Qed.
(** The steps of the process itself and of the clock, which wait for no handler
    and no client. *)
Definition own (ev : event) : bool :=
  match ev with EClosed | EPoll _ | EBudget | EJoin => true | _ => false end.
Lemma shutting_proceeds s : joined s → sv_shutting s = true →
  (∃ err, sv_main s = Returned err) ∨ ∃ ev, own ev = true ∧ is_Some (step ev s).
Proof.
  intros Hj Hsh. destruct s as [m sh st dr shu idl act dn wa]. unfold joined in Hj. cbn in *. subst shu.
  destruct sh; destruct_and?; [done| |].
  - destruct m; [right; exists EBudget; split; [done|]; by eexists..|]. left. by eexists.
  - destruct m; [right; exists EClosed; split; [done|]; by eexists..| |left; by eexists].
    right. exists EJoin. cbn. subst dr. split; [done|]. by eexists.
Qed.

(** C30. A stop ends the process: once a signal has arrived, [runServer] has
    already failed or the shutdown can begin; and once it has begun, only a
    bounded number of steps follow, whatever clients and handlers do, and until
    [runServer] has returned the process or the clock has a step to take that
    waits for neither, so it returns even when a handler never does. *)
Theorem runServer_stops (evs : list event) (s : server) (Hrun : run evs server0 = Some s)
    (Hstop : sv_stop s = true) :
  (sv_shutting s = false → (∃ e, sv_main s = Returned (Some e)) ∨ is_Some (step EShutdown s)) ∧
  (sv_shutting s = true → ∀ more s', run more s = Some s' →
     (length more ≤ measure s)%nat ∧ ((∀ ev, own ev = true → step ev s' = None) ↔ ∃ err, sv_main s' = Returned err)).
Proof.
  pose proof (joined_run evs server0 s ltac:(by split_and!) Hrun) as Hj. split.
  - intros Hsh. destruct s as [m sh st dr shu idl act dn wa]. unfold joined in Hj. cbn in *. subst shu st.
    destruct sh; destruct_and?; [|done..]. destruct m as [| | |[e|]]; cbn; [right; by eexists..|left; by eexists|done].
  - intros Hsh more s' Hm. destruct (measure_run more s s' Hj Hsh Hm) as [Hle Hsh']. split; [lia|].
    pose proof (joined_run more s s' Hj Hm) as Hj'. split.
    + intros Hstuck. destruct (shutting_proceeds s' Hj' Hsh') as [|(ev & Hown & s2 & He)]; [done|]. by rewrite Hstuck in He.
    + intros [err Hret] ev _. unfold step. by rewrite Hret.
Qed.

(** ** Runs *)

(** Two clients; the second's request is still in flight when the signal
    comes, and is waited for. *)
Definition drained_run : list event :=
  [EListen None; EConnect 1; EConnect 2; EFinish 1; ERequest 1; EFinish 1; EStop; EShutdown; EClosed;
   EPoll None; EFinish 2; EPoll None; EJoin].
Definition after (evs : list event) : server := default server0 (run evs server0).
(** Its handler outlives the budget. *)
Definition cut_run : list event :=
  [EListen None; EConnect 1; EStop; EShutdown; EClosed; EBudget; EJoin].
Example joins_only_drained :
  run [EListen None; EConnect 1; EStop; EShutdown; EClosed; EJoin] server0 = None ∧
  sv_done (after drained_run) = [2; 1; 1] ∧ sv_warned (after drained_run) = false ∧
  sv_active (after cut_run) = [1] ∧ sv_warned (after cut_run) = true.
Proof. by vm_compute. Qed.

Lemma runServer_joined_witness :
  sv_stop (after drained_run) = true ∧ sv_shutting (after drained_run) = true ∧
  (sv_warned (after drained_run) = false →
   begun drained_run ≡ₚ sv_done (after drained_run) ∧ sv_active (after drained_run) = [] ∧
   sv_idle (after drained_run) = []).
Proof. apply (runServer_joined drained_run); vm_compute; reflexivity. Defined.
Definition stopped_run : list event := [EListen None; EConnect 1; EStop; EShutdown].
Lemma runServer_stops_witness :
  (sv_shutting (after stopped_run) = false →
     (∃ e, sv_main (after stopped_run) = Returned (Some e)) ∨ is_Some (step EShutdown (after stopped_run))) ∧
  (sv_shutting (after stopped_run) = true → ∀ more s', run more (after stopped_run) = Some s' →
     (length more ≤ measure (after stopped_run))%nat ∧
     ((∀ ev, own ev = true → step ev s' = None) ↔ ∃ err, sv_main s' = Returned err)).
Proof. apply (runServer_stops stopped_run); vm_compute; reflexivity. Defined.
