(* ===== verification/MemDisk.v ===== *)
(** * A small file system in memory

    An instance of [Files], and of the contract [Disk], to run the appliance
    on: a map from paths to contents. A directory is the files below it, a
    truncated file holds its size as text, clocks stand still and random bytes
    count up. It stands for no particular file system: the properties hold of
    every instance, and this one shows that their hypotheses can. With the lock
    files and the temporary files hostlock and saveconfig ask for, and the
    kernel of [MemKernel], it is a [machine]; a lock that is held is the file
    (locked). *)

From S2P Require Import Prelude GoStrings Errors Netip LioModel Configfs FsPaths LioAptpl LioApply Trace LioSync.
From S2P Require Import MemKernel AppTranslate Storage AppDisk Saveconfig SaveconfigProofs.

Record memdisk := mkMemdisk { md_files : gmap string string; md_draw : Z }.
Definition inside (p q : string) : bool := HasPrefix q (p +:+ "/").

Definition md_entry (p : string) (e : string * string) : list (string * bool) :=
  match CutPrefix e.1 (p +:+ "/") with
  | Some rest => match Split rest slash with
                 | [n] => [(n, false)]
                 | n :: _ => [(n, true)]
                 | [] => []
                 end
  | None => []
  end.
Definition md_list (p : string) (m : gmap string string) : list (string * bool) :=
  remove_dups (filter (λ e, ContainsChar e.1 slash = false) (mjoin (md_entry p <$> map_to_list m))).
Definition md_stat (p : string) (m : gmap string string) : result errno Z :=
  match m !! p with
  | Some d => Ok (slen d)
  | None => if existsb (λ e, inside p e.1) (map_to_list m) then Ok 0 else Err ENOENT
  end.

(** The files below [old], moved below [new]. *)
Definition moved (old new : string) (m : gmap string string) : gmap string string :=
  list_to_map (mjoin ((λ e : string * string,
    match CutPrefix e.1 (old +:+ "/") with
    | Some rest => [(new +:+ "/" +:+ rest, e.2)]
    | None => []
    end) <$> map_to_list m)).
Definition md_rename (old new : string) (m : gmap string string) : result errno unit * gmap string string :=
  match m !! old with
  | Some d => (Ok tt, <[new := d]> (delete old m))
  | None =>
      if existsb (λ e, inside old e.1) (map_to_list m)
      then (Ok tt, delete new (moved old new m
                     ∪ filter (λ e, inside old e.1 = false ∧ inside new e.1 = false) m))
      else (Err ENOENT, m)
  end.

Definition md_op (o : fileop) (m : gmap string string) : result errno unit * gmap string string :=
  match o with
  | FMkdirAll _ | FSync _ | FClose _ | FSyncDir _ => (Ok tt, m)
  | FOpen p | FOpenWrite p => (match m !! p with Some _ => Ok tt | None => Err ENOENT end, m)
  | FRemove p => (match m !! p with Some _ => Ok tt | None => Err ENOENT end, delete p m)
  | FRemoveAll p => (Ok tt, filter (λ e, e.1 ≠ p ∧ inside p e.1 = false) m)
  | FLink old new =>
      match m !! old, m !! new with
      | Some d, None => (Ok tt, <[new := d]> m)
      | Some _, Some _ => (Err EEXIST, m)
      | None, _ => (Err ENOENT, m)
      end
  | FRename old new => md_rename old new m
  | FCreateTrunc p => (Ok tt, <[p := ""]> m)
  | FCreate p => (Ok tt, <[p := default "" (m !! p)]> m)
  | FWrite p d => (Ok tt, <[p := default "" (m !! p) +:+ d]> m)
  | FTruncate p n => (Ok tt, <[p := itoa n]> m)
  | FClone dst src => (match m !! src with Some _ => Ok tt | None => Err ENOENT end,
                       match m !! src with Some d => <[dst := d]> m | None => m end)
  end.

#[global] Instance mem_files : Files memdisk := {
  fl_stat p f := (md_stat p (md_files f), f);
  fl_readdir p f := (Ok (md_list p (md_files f)), f);
  fl_readfile p f := (match md_files f !! p with Some d => Ok d | None => Err ENOENT end, f);
  fl_op o f := let '(r, m) := md_op o (md_files f) in (r, mkMemdisk m (md_draw f));
  fl_now f := ("20260101T000000.000000000Z", f);
  fl_random f := (Ok (md_draw f mod 256 :: repeat 0 15), mkMemdisk (md_files f) (md_draw f + 1))
}.

Lemma moved_outside old new m q : inside new q = false → moved old new m !! q = None.
Proof.
  intros Hq. apply not_elem_of_list_to_map_1. intros (e & -> & He)%list_elem_of_fmap.
  apply list_elem_of_join in He as (l & He & (x & -> & _)%list_elem_of_fmap).
  destruct (CutPrefix x.1 (old +:+ "/")) as [rest|]; [|inversion He].
  apply list_elem_of_singleton in He as ->. cbn [fst] in Hq. unfold inside in Hq.
  rewrite <- (app_assoc_str new "/" rest), HasPrefix_app in Hq. done.
Qed.
Lemma filter_lookup (P : string * string → Prop) `{∀ e, Decision (P e)} (m : gmap string string) q :
  (∀ d, P (q, d)) → filter P m !! q = m !! q.
Proof.
  intros HP. apply option_eq. intros d. rewrite map_lookup_filter_Some. split; [by intros [? _] | by auto].
Qed.

Lemma md_op_elsewhere o q m : ¬ touches o q → (md_op o m).2 !! q = m !! q.
Proof.
  destruct o as [p|p|p|old new|old new|p|p|p|p|p d|p n|dst src|p|p|p]; cbn; intros Hq; try done;
    try (by rewrite lookup_insert_ne by congruence).
  - by rewrite lookup_delete_ne by congruence.
  - apply filter_lookup. intros d. unfold inside. cbn. destruct (HasPrefix q (p +:+ "/")) eqn:Hp; tauto.
  - destruct (m !! old), (m !! new); try done. cbn. by rewrite lookup_insert_ne by congruence.
  - unfold md_rename. destruct (m !! old).
    + cbn. rewrite lookup_insert_ne, lookup_delete_ne by (intros ->; tauto). done.
    + destruct (existsb _ _); [|done]. cbn. rewrite lookup_delete_ne by (intros ->; tauto).
      rewrite lookup_union_r; [|apply moved_outside; unfold inside; destruct (HasPrefix q (new +:+ "/")) eqn:Hn; tauto].
      apply filter_lookup. intros d. unfold inside. cbn.
      destruct (HasPrefix q (old +:+ "/")) eqn:Ho, (HasPrefix q (new +:+ "/")) eqn:Hn; tauto.
  - destruct (m !! src); [|done]. by rewrite lookup_insert_ne by congruence.
Qed.

Lemma md_list_names p m : Forall (λ e : string * bool, free_of slash e.1) (md_list p m).
Proof.
  apply Forall_forall. intros e He. apply elem_of_remove_dups, list_elem_of_filter in He as [He _].
  by apply ContainsChar_false.
Qed.

#[global, refine] Instance mem_disk : Disk memdisk := {
  content q f := md_files f !! q;
  disk_stat _ _ _ := eq_refl;
  disk_readdir _ _ _ := eq_refl;
  disk_readfile _ _ _ := eq_refl;
  disk_now _ _ := eq_refl;
  disk_random _ _ := eq_refl;
  disk_read := _; disk_read_missing := _; disk_names := _; disk_op := _; disk_create := _; disk_write := _; disk_rename := _; disk_rename_err := _
}.
Proof.
  - intros p f d. cbn. by destruct (md_files f !! p) as [d'|]; intros [= ->].
  - intros p f. cbn. by destruct (md_files f !! p).
  - intros p f l [= <-]. apply md_list_names.
  - intros o q f Hq. pose proof (md_op_elsewhere o q (md_files f) Hq) as Hm. cbn.
    by destruct (md_op o (md_files f)).
  - intros p f f' [= <-]. apply lookup_insert_eq.
  - intros p d f f' [= <-]. apply lookup_insert_eq.
  - intros old new f f'. cbn. unfold md_rename. destruct (md_files f !! old) as [d|] eqn:Hd.
    + intros [= <-]. cbn. by rewrite lookup_insert_eq.
    + destruct (existsb _ _); [|done]. intros [= <-]. cbn. by rewrite lookup_delete_eq.
  - intros old new q e f f'. cbn. unfold md_rename. destruct (md_files f !! old) as [d|]; [done|].
    destruct (existsb _ _); [done|]. by intros [= _ <-].
Defined.

(** ** The machine *)

Definition locked_file : string := "(locked)".
Definition temp_name (d pre suf : string) (f : memdisk) : string := (d +:+ "/" +:+ pre) +:+ itoa (md_draw f) +:+ suf.

#[global] Instance mem_hostfiles : HostFiles memdisk := {
  fl_createtemp d pre suf f :=
    let p := temp_name d pre suf f in
    match md_files f !! p with
    | Some _ => (Err EEXIST, f)
    | None => (Ok p, mkMemdisk (<[p := ""]> (md_files f)) (md_draw f + 1))
    end;
  fl_openlock p f := (Ok 3, mkMemdisk (<[p := default "" (md_files f !! p)]> (md_files f)) (md_draw f));
  fl_flock fd f :=
    match md_files f !! locked_file with
    | Some _ => (Err EWOULDBLOCK, f)
    | None => (Ok tt, mkMemdisk (<[locked_file := ""]> (md_files f)) (md_draw f))
    end;
  fl_funlock fd f := mkMemdisk (delete locked_file (md_files f)) (md_draw f);
  fl_fclose fd f := f
}.
#[global] Instance mem_hostdisk : HostDisk memdisk.
Proof.
  split; intros d pre suf f; cbn; destruct (md_files f !! temp_name d pre suf f) as [c|] eqn:E.
  - intros t f' [=].
  - intros t f' [= <- <-]. split_and!; [apply HasPrefix_app | apply lookup_insert_eq |].
    intros q Hq. cbn. by rewrite lookup_insert_ne by congruence.
  - by intros e f' q [= _ <-].
  - intros e f' q [=].
Qed.

(** The kernel with a log of the changes it is asked for. *)
Notation traced := (tree * list sysop)%type.
Definition bare_machine (files : gmap string string) : machine traced memdisk := mkMachine (bare, []) (mkMemdisk files 0).
