(* ===== verification/AppWitnesses.v ===== *)
(** * Concrete runs of the appliance

    An appliance with a recorded volume, host and connection is started over
    the in-memory configfs of [MemKernel] and the in-memory disk of [MemDisk],
    and served requests; each witness applies a property of the appliance where
    its hypotheses hold, most of them on that run. *)

From S2P Require Import Prelude GoStrings Errors Netip LioModel LioValid Configfs FsPaths LioAptpl LioApply.
From S2P Require Import LioSync LioDelta LioStranded MemKernel AppModel AppDb AppWf AppPortals AppTranslate.
From S2P Require Import AppTranslateProofs AppAptpl AppAptplProofs Storage AppCoordinator AppObjects AppHosts.
From S2P Require Import AppIdentity AppClear AppEvents AppRest AppRun AppSteady AppRequests AppClearProofs.
From S2P Require Import AppReach AppRestProofs AppDisk AppAtomic AppBytes AppMutations MemDisk.
From S2P Require Import AppOpLog AppLogged AppLogEdges AppLoggedProofs.

(** Maps are ranged over in the order of their keys. *)
Definition listed : ∀ A, list A → list A := λ _ l, l.
Lemma listed_perm A (l : list A) : listed A l ≡ₚ l.
Proof. done. Qed.

(** ** A database *)

Definition vol_a : Object :=
  mkObject "00000000-0000-4000-8000-0000000000aa" "data" KindVolume "00000000000040aa" 1048576 512
    "2026-01-01T00:00:00Z" stateReady "".
Definition host_1 : Host := mkHost "00000000-0000-4000-8000-0000000000bb" "node 1" [host_a].
Definition portal_0 : Portal := mkPortal (Addr4 0) 3260.
Definition storage_iqn : string := "iqn.2004-01.com.example:storage".
Definition sample : db :=
  mkDb 1 [vol_a] [host_1] [mkConnection (o_UUID vol_a) (h_UUID host_1) 3] {[ o_UUID vol_a := 0 ]}
    [portal_0] storage_iqn "".
Definition settings : AppConfig := mkAppConfig storage_iqn "" [portal_0] "" false false.

Lemma validateLoaded_exact_witness :
  validateLoaded listed "db" (loaded_of sample) = Ok tt ↔
  no_nulls (loaded_of sample) ∧ wf_db (db_of (loaded_of sample)) ∧ exports_bounded (db_of (loaded_of sample)).
Proof. exact (validateLoaded_exact listed listed_perm "db" (loaded_of sample)). Defined.

Lemma load_document_roundtrip_witness :
  load_document listed "db" (loaded_of sample) = Ok sample ↔
  db_Version sample = dbVersion ∧ wf_db sample ∧ exports_bounded sample.
Proof. exact (load_document_roundtrip listed listed_perm "db" sample). Defined.

Lemma sample_wf : wf_db sample.
Proof.
  assert (Hv : validateLoaded listed "db" (loaded_of sample) = Ok tt) by (vm_compute; reflexivity).
  apply (validateLoaded_wf listed listed_perm) in Hv as (_ & Hwf & _).
  by rewrite (proj2 (loaded_of_no_nulls sample)) in Hwf.
Qed.
Lemma sample_presentable : Forall presentable (db_Objects sample).
Proof. repeat constructor; right; vm_compute; reflexivity. Qed.
Lemma sample_portals : valid_portals (portals sample settings).
Proof.
  assert (Hv : AppConfig_Validate listed settings = Ok tt) by (vm_compute; reflexivity).
  by apply (AppConfig_Validate_spec listed listed_perm) in Hv as (_ & Hv & _).
Qed.

Lemma desiredLIO_validates_witness :
  ∃ c d', desiredLIO listed "/data" settings "" ∅ sample = Some (c, d') ∧ Config_Validate c = Ok tt.
Proof.
  apply (desiredLIO_validates listed listed_perm).
  - apply sample_wf.
  - apply sample_presentable.
  - vm_compute. reflexivity.
  - apply sample_portals.
Defined.

(** The host reaches its volume at the LUN recorded. *)
Lemma desiredLIO_access_witness :
  ∃ c d', desiredLIO listed "/data" settings "" ∅ sample = Some (c, d') ∧
    (grants c host_a 3 "/data/objects/00000000-0000-4000-8000-0000000000aa/disk" "00000000000040aa" ↔
     entitled "/data" "" ∅ sample host_a 3 "/data/objects/00000000-0000-4000-8000-0000000000aa/disk" "00000000000040aa").
Proof.
  destruct (desired_defined listed listed_perm "/data" settings "" ∅ sample sample_wf
    (Forall_impl _ _ _ sample_presentable presentable_sized))
    as (c & d' & Hd).
  exists c, d'. split; [exact Hd|].
  apply (desiredLIO_access listed listed_perm "/data" settings "" ∅ sample c d' sample_wf Hd).
Defined.

(** ** A saved reservation file *)

Definition saved_lines : list string :=
  ["initiator_fabric=iSCSI"; "initiator_node=" +:+ host_a; "initiator_sid=00023d000004"; "sa_res_key=170";
   "res_holder=1"; "res_type=01"; "res_scope=00"; "res_all_tg_pt=0"; "mapped_lun=0"; "target_fabric=iSCSI";
   "target_node=" +:+ storage_iqn; "tpgt=1"; "port_rtpi=1"; "target_lun=0"].
Lemma saved_registration : registration saved_lines.
Proof.
  split.
  - repeat (apply Forall_cons; split; [constructor; [by apply (bool_decide_unpack _) | by vm_compute..]|]).
    constructor.
  - apply Forall_forall. by apply (bool_decide_unpack _).
Qed.

Lemma ParseAPTPL_roundtrip_witness :
  ParseAPTPL (render_aptpl [saved_lines; saved_lines]) = Ok ((λ ls, Join ls ",") <$> [saved_lines; saved_lines]).
Proof.
  apply ParseAPTPL_roundtrip; [done|]. apply Forall_cons. split; [apply saved_registration|].
  apply Forall_singleton, saved_registration.
Defined.

Definition no_registrations : string := "No Registrations or Reservations" +:+ nl_str.
Lemma ParseAPTPL_none_witness : isNoRegistrations no_registrations = true.
Proof. apply ParseAPTPL_none. vm_compute. reflexivity. Defined.

Lemma ParseAPTPL_truncated_witness :
  ∃ e, ParseAPTPL (render_aptpl [saved_lines] +:+ startMark +:+ " " +:+ itoa 1 +:+ nl_str
                   +:+ "initiator_fabric=iSCSI" +:+ nl_str +:+ "sa_res_") = Err e.
Proof.
  apply (ParseAPTPL_truncated [saved_lines] 1 ("initiator_fabric=iSCSI" +:+ nl_str +:+ "sa_res_")).
  - lia.
  - apply Forall_singleton, saved_registration.
  - by apply (bool_decide_unpack _).
Defined.

(** ** A start and some requests *)

(** What is on the disk: the database, which [docs] decodes, and the volume. *)
Definition stored_text : string := "{...}" +:+ nl_str.
Definition encode (d : db) : string := "{...}".
Definition docs (s : string) : option Loaded :=
  if String.eqb s stored_text then Some (loaded_of sample) else None.
Definition disk_a : memdisk :=
  mkMemdisk {[ "/data/appliance.json" := stored_text; DiskPath "/data" (o_UUID vol_a) := "" ]} 1.
Definition off : world tree memdisk := mkWorld (new_coord "" settings []) bare disk_a.

Definition begin : App tree memdisk unit :=
  Open listed DefaultRoot None encode docs "/data" [] settings.
Definition serve (r : request) : App tree memdisk unit :=
  perform listed DefaultRoot None 4096 encode r.
Notation live := (reachable (K := tree) (F := memdisk) listed DefaultRoot None 4096 encode docs).

Definition w_started : world tree memdisk := (begin off).2.
Definition w_created : world tree memdisk :=
  (serve (RCreate KindVolume (mkCreateRequest "scratch" 2097152 0 "" "")) w_started).2.
Definition w_host : world tree memdisk :=
  (serve (RCreateHost "node 2" ["iqn.2004-01.com.example:host-b"]) w_created).2.
Definition w_connected : world tree memdisk :=
  (serve (RConnect KindVolume "scratch" "node 2" (Some 0)) w_host).2.

Lemma docs_usable path (w : world tree memdisk) : usable_document (F := memdisk) docs path w.
Proof.
  intros data f loaded _. unfold docs. destruct (String.eqb data stored_text); [|done]. intros [= <-].
  rewrite (proj2 (loaded_of_no_nulls sample)). exact (Forall_impl _ _ _ sample_presentable presentable_sized).
Qed.

(** The whole system at work: every step succeeds, the kernel is left serving
    both volumes, each to its own host, and no reconcile failed. *)
Example run_succeeds :
  (begin off).1 = Done tt
  ∧ (serve (RCreate KindVolume (mkCreateRequest "scratch" 2097152 0 "" "")) w_started).1 = Done tt
  ∧ (serve (RCreateHost "node 2" ["iqn.2004-01.com.example:host-b"]) w_created).1 = Done tt
  ∧ (serve (RConnect KindVolume "scratch" "node 2" (Some 0)) w_host).1 = Done tt
  ∧ c_lastReconcileErr (w_c w_connected) = None.
Proof. split_and!; vm_compute; reflexivity. Qed.
Example kernel_serves :
  match (Discover DefaultRoot (w_k w_connected)).1 with
  | Ok c => (λ t, (t_IQN t, (λ g, (g_Enable g, l_Index <$> g_LUNs g,
                (λ a, (acl_InitiatorIQN a, ml_Index <$> acl_MappedLUNs a)) <$> g_ACLs g)) <$> t_TPGs t))
              <$> c_Targets c
  | Err _ => []
  end = [(storage_iqn, [(true, [0; 1], [(host_a, [3]); ("iqn.2004-01.com.example:host-b", [0])])])].
Proof. vm_compute. reflexivity. Qed.

Definition next_uuid (w : world tree memdisk) : string :=
  (newIdentity_of (md_draw (w_f w) mod 256 :: repeat 0 15)).1.
Lemma fresh_by (w : world tree memdisk) :
  bool_decide (0 <= md_draw (w_f w) mod 256 < 256) = true →
  bool_decide (next_uuid w ∉ o_UUID <$> db_Objects (c_st (w_c w)) ∧
    next_uuid w ∉ h_UUID <$> db_Hosts (c_st (w_c w)) ∧ next_uuid w ≠ c_prClearing (w_c w)) = true →
  fresh w.
Proof.
  intros Hb%bool_decide_eq_true Hu%bool_decide_eq_true b f' [= <- <-]. split; [|exact Hu].
  split; [done|]. constructor; [exact Hb|]. repeat constructor; by vm_compute.
Qed.

Lemma live_serve r (w : world tree memdisk) :
  live w → good_request r → fresh w → (serve r w).1 = Done tt → live (serve r w).2.
Proof.
  intros Hl Hg Hf Hr. destruct (serve r w) as [o w'] eqn:Hs. cbn in Hr. subst o.
  by apply (reach_request _ _ _ _ _ _ r w (Done tt) w').
Qed.

Lemma live_started : live w_started.
Proof.
  apply (reach_open _ _ _ _ _ _ "/data" [] settings off); [apply docs_usable|]. unfold w_started.
  assert (Hb : (begin off).1 = Done tt) by (vm_compute; reflexivity).
  rewrite <- Hb. apply surjective_pairing.
Qed.
Lemma live_connected : live w_connected.
Proof.
  destruct run_succeeds as (_ & H1 & H2 & H3 & _). unfold w_connected.
  apply live_serve; [unfold w_host | exact I | apply fresh_by; vm_compute; reflexivity | exact H3].
  apply live_serve; [unfold w_created | exact I | apply fresh_by; vm_compute; reflexivity | exact H2].
  apply live_serve; [apply live_started | by left | apply fresh_by; vm_compute; reflexivity | exact H1].
Qed.


Lemma reachable_health_witness :
  let c := w_c w_connected in
  let h := HealthSnapshot c in
  he_Detail h = c_lastReconcileErr c ∧ (he_Degraded h = true ↔ c_applied c = None) ∧
  he_ClearInProgress h = "" ∧
  (∀ u n, c_withheld c !! u = Some n → n ∈ he_Withheld h) ∧
  ∀ u cn, cn ∈ db_Connections (c_st c) → cn_ObjectUUID cn = u → ready (c_st c) u →
    u ∈ exported_of (c_prClearing c) (c_withheld c) (c_st c) ↔ hl_withheldNames (c_health c) !! u = None.
Proof.
  apply (reachable_health listed listed_perm DefaultRoot None 4096 encode docs).
  apply live_connected.
Defined.

(** ** A clear and a commit on that run *)

Lemma ClearReservation_outcomes_witness :
  let '(o, w') := ClearReservation (F := memdisk) listed DefaultRoot None 4096 KindVolume "scratch" "scratch"
                    w_connected in
  clear_spec (K := tree) DefaultRoot 4096 KindVolume "scratch" "scratch" (w_c w_connected) o (w_c w').
Proof.
  apply (ClearReservation_outcomes listed listed_perm DefaultRoot None 4096).
  apply (reachable_quiescent listed listed_perm DefaultRoot None 4096 encode docs).
  apply live_connected.
Defined.
Example clear_succeeds :
  match (ClearReservation (F := memdisk) listed DefaultRoot None 4096 KindVolume "scratch" "scratch" w_connected).1 with
  | Done (res, err) => err = None ∧ cl_Object res = "scratch" ∧ cl_HeldKnown res = true
  | _ => False
  end.
Proof. vm_compute. split_and!; reflexivity. Qed.

Definition other_portal : db → result aerr db := replace_portals [mkPortal (Addr4 0) 3261].
Lemma other_portal_keeps d : keeps sound d other_portal.
Proof. intros d1 d2 _ Hs Hd. by eapply replace_portals_sound. Qed.

(** A commit on the running appliance, and one on an appliance that believes
    its last reconcile failed, and which therefore heals the kernel first. *)
Definition w_degraded : world tree memdisk :=
  mkWorld (set_lastReconcileErr (Some ErrStaleScope) (w_c w_connected)) (w_k w_connected) (w_f w_connected).
Lemma degraded_sound : sound (c_st (w_c w_degraded)).
Proof.
  assert (Hs : sound (c_st (w_c w_connected))).
  { apply (reachable_quiescent listed listed_perm DefaultRoot None 4096 encode docs w_connected live_connected). }
  revert Hs. unfold w_degraded. generalize w_connected. by intros [[] k f].
Qed.
Lemma commit_atomic_witness :
  let '(h, w1) := healIfDegraded (F := memdisk) listed DefaultRoot None w_degraded in
  let '(o, w') := commit listed DefaultRoot None encode other_portal w_degraded in
  commit_ends listed encode ["data"] "appliance.json" other_portal w_degraded h w1 o w'.
Proof.
  apply (commit_atomic listed listed_perm DefaultRoot None encode ["data"] "appliance.json").
  - done.
  - repeat constructor.
  - reflexivity.
  - apply degraded_sound.
  - vm_compute. reflexivity.
  - apply other_portal_keeps.
Defined.
Example commit_heals :
  (healIfDegraded (F := memdisk) listed DefaultRoot None w_degraded).1 = Done tt
  ∧ (commit listed DefaultRoot None encode other_portal w_degraded).1 = Done tt.
Proof. vm_compute. split; reflexivity. Qed.

(** A later start, on the disk a commit left, of a decoder that undoes the
    encoder. *)
Definition w_moved : world tree memdisk := (commit listed DefaultRoot None encode other_portal w_connected).2.
Definition docs_after (s : string) : option Loaded :=
  if String.eqb s stored_text then Some (loaded_of (c_st (w_c w_moved))) else None.
Lemma other_portal_version d d1 d2 : reindexed d d1 → other_portal d1 = Ok d2 → db_Version d2 = db_Version d.
Proof. intros [-> _] Hd. by injection Hd as <-. Qed.
Example restart_loads :
  (load (K := tree) listed docs_after (mkWorld (w_c w_started) bare (w_f w_moved))).1 = Done true.
Proof. vm_compute. reflexivity. Qed.

(** ** HTTP requests on that run *)

(** The one text each struct decodes. *)
Definition only {A} (a : A) (s : string) : result string A :=
  if String.eqb s "{}" then Ok a else Err "unexpected end of JSON input".
Definition json_a : Decoders :=
  mkDecoders (only (mkPortalsBody [] 0)) (only (mkObjectBody "third" 1048576 0 "" "")) (only "renamed") (only 4194304)
    (only "scratch") (only (mkConnectionBody "node 1" None)) (only (mkHostBody "node 3" [])) (only (Some []))
    (only (mkBindingsBody [] [])).
Definition answer (r : http) : App tree memdisk response := Handler listed DefaultRoot None 4096 encode json_a r.
Definition post_volume : http := mkHttp "POST" ["v1"; "volumes"] [] "{}".

Lemma fresh_connected : fresh w_connected.
Proof. apply fresh_by; vm_compute; reflexivity. Qed.

(** A create is answered 201; the same create again is answered 200 with the
    same record; a path that is not there, a method that is not served and a
    body that is not JSON are told apart. *)
Example http_run :
  let code (r : outcome response * world tree memdisk) :=
    match r.1 with Done rs => rs_Code rs | _ => 0 end in
  let w1 := (answer post_volume w_connected).2 in
  [code (answer post_volume w_connected); code (answer post_volume w1);
   code (answer (mkHttp "GET" ["v1"; "volumes"; "third"] [] "") w1);
   code (answer (mkHttp "HEAD" ["v1"; "volumes"; "fourth"] [] "") w1);
   code (answer (mkHttp "PUT" ["v1"; "volumes"] [] "{}") w1);
   code (answer (mkHttp "POST" ["v1"; "hosts"] [] "{") w1);
   code (answer (mkHttp "DELETE" ["v1"; "volumes"; "third"] [] "") w1);
   code (answer (mkHttp "DELETE" ["v1"; "volumes"; "data"] [] "") w1)] = [201; 200; 200; 404; 405; 400; 200; 409].
Proof. vm_compute. reflexivity. Qed.

Lemma Handler_reachable_witness :
  ∃ rs w', answer post_volume w_connected = (Done rs, w') ∧ live w' ∧
    (ht_Method post_volume = "GET" ∨ ht_Method post_volume = "HEAD" → w' = w_connected).
Proof.
  apply (Handler_reachable listed listed_perm DefaultRoot None 4096 encode docs json_a).
  - apply live_connected.
  - apply fresh_connected.
Defined.


(** Deleting one volume leaves the bytes of the other. *)
Lemma request_spares_bytes_witness :
  content (DiskPath "/data" (o_UUID vol_a)) (w_f (serve (RDelete KindVolume "scratch") w_connected).2)
  = content (DiskPath "/data" (o_UUID vol_a)) (w_f w_connected).
Proof.
  apply (request_spares_bytes listed listed_perm DefaultRoot None 4096 encode docs ["data"]
           (RDelete KindVolume "scratch") vol_a).
  - done.
  - repeat constructor.
  - split; vm_compute; reflexivity.
  - apply live_connected.
  - apply fresh_connected.
  - apply (bool_decide_unpack _). vm_compute. exact I.
  - vm_compute. intros [=].
Defined.

(** ** The log of that run *)

Module Logs.
Definition no_log : logst := mkLogst None [] noted0 [].
Definition move_portals : request := RSetPortals [mkPortal (Addr4 0) 3261].
Definition told_by (r : record) : string * level * option value * option value * option value :=
  (r_event r, r_level r, attr r "outcome", attr r "durable", attr r "reconcile_outcome").
Definition said {A} (r : outcome A * world tree memdisk * logst) := told_by <$> lg_out r.2.

Lemma placed_connected : placed ["data"] (w_c w_connected).
Proof. split; vm_compute; reflexivity. Qed.
Lemma request_recorded_witness :
  let '(o, w', l') := perform_op listed DefaultRoot None 4096 encode move_portals w_connected no_log in
  perform listed DefaultRoot None 4096 encode move_portals w_connected = (o, w') ∧
  ∃ rs rec, lg_out l' = lg_out no_log ++ rs ++ [rec] ∧
    true_record encode ["data"] eventTargetPortals (returned listed DefaultRoot None 4096 encode move_portals w_connected) w_connected w' rec.
Proof.
  apply (request_recorded listed listed_perm DefaultRoot None 4096 encode docs ["data"]).
  - done.
  - repeat constructor.
  - apply live_connected.
  - exact I.
  - apply fresh_connected.
  - apply placed_connected.
  - reflexivity.
Defined.
Example move_said :
  said (perform_op listed DefaultRoot None 4096 encode move_portals w_connected no_log)
  = [(eventTargetPortals, LevelInfo, Some (VStr outcomeSucceeded), Some (VBool true), Some (VStr reconcileSucceeded))].
Proof. vm_compute. reflexivity. Qed.

Definition history : list request :=
  [RCreateHost "node 2" ["iqn.2004-01.com.example:host-b"]; move_portals; RDelete KindVolume "nothing"].
Lemma log_tells_conditions_witness :
  ∃ new, lg_out (run_op (F := memdisk) listed DefaultRoot None 4096 encode docs "/data" [] settings history off no_log).2
         = lg_out no_log ++ new ∧
    edges eventReconcileFailed eventReconcileRecovered false new
      = Some (present (c_lastReconcileErr (w_c
          (run_op (F := memdisk) listed DefaultRoot None 4096 encode docs "/data" [] settings history off no_log).1.2))) ∧
    edges eventBackupFailed eventBackupRecovered false new
      = Some (present (he_BackupErr (HealthSnapshot (w_c
          (run_op (F := memdisk) listed DefaultRoot None 4096 encode docs "/data" [] settings history off no_log).1.2)))).
Proof.
  pose proof (log_tells_conditions (F := memdisk) listed DefaultRoot None 4096 encode docs "/data" [] settings history
    off no_log) as H.
  assert (Ho : (run_op (F := memdisk) listed DefaultRoot None 4096 encode docs "/data" [] settings history off no_log).1.1
    = Done tt) by (vm_compute; reflexivity).
  destruct (run_op _ _ _ _ _ _ _ _ _ _ off no_log) as [[o w'] l']. exact (H Ho).
Defined.

(** A kernel that does not let the saved records go: the clear has dropped the
    fence, and its record says failed at info level, nothing reconciled; the
    health last logged is not the one published. *)
Definition stuck : Kernel tree :=
  Build_Kernel tree sys_lstat sys_stat sys_readdir sys_readlink sys_readfile sys_random
    (λ o t, match o with
            | SysUnlink p | SysRmdir p => if HasPrefix p "/var/target" then (Err EACCES, t) else sys_op o t
            | _ => sys_op o t
            end).
Definition settings_pr : AppConfig := mkAppConfig storage_iqn "" [portal_0] "/var/target" false false.
Definition w_pr : world tree memdisk := (Open listed DefaultRoot None encode docs "/data" [] settings_pr off).2.
Definition stuck_clear :=
  ClearReservation_op (F := memdisk) (H := stuck) listed DefaultRoot None 4096 KindVolume "data" "data" w_pr no_log.
Example clear_said :
  match stuck_clear.1.1 with Done (_, Some (AStatus code err _ _ _ _)) => (code, err) | _ => (0, "") end
    = (StatusConflict, CodeFenceDropped)
  ∧ said stuck_clear
    = [(eventPRClearing, LevelWarn, None, None, None);
       (eventPRCleared, LevelInfo, Some (VStr outcomeFailed), Some (VBool false), Some (VStr reconcileNotRequired))]
  ∧ nt_conditions (lg_noted stuck_clear.2) = ["clear_in_progress"]
  ∧ Conditions (HealthSnapshot (w_c stuck_clear.1.2)) = ["withheld_after_failed_clear"].
Proof. vm_compute. split_and!; reflexivity. Qed.

(** A disk that fails: the appliance's own failure, answered and logged as the
    caller's. *)
Definition full : Files memdisk :=
  Build_Files memdisk fl_stat fl_readdir fl_readfile
    (λ o f, match o with FRename _ _ => (Err EIO, f) | _ => fl_op o f end) fl_now fl_random.
Definition failed_move :=
  SetPortals_op (K := tree) (F := memdisk) (H0 := full) listed DefaultRoot None encode [mkPortal (Addr4 0) 3261]
    w_connected no_log.
Example portals_said :
  match failed_move.1.1 with Fail e => status e | _ => 0 end = StatusConflict
  ∧ said failed_move
    = [(eventTargetPortals, LevelInfo, Some (VStr outcomeFailed), Some (VBool false), Some (VStr reconcileNotRequired))].
Proof. vm_compute. split; reflexivity. Qed.

(** A start reads a document that records a block size of zero and succeeds;
    connecting that object panics, and the deferred record says succeeded. This
    is what [usable_document] leaves out. *)
Definition vol_0 : Object :=
  mkObject (o_UUID vol_a) "data" KindVolume (o_WWN vol_a) 1048576 0 "2026-01-01T00:00:00Z" stateReady "".
Definition sample_0 : db := with_Exports ∅ (with_Connections [] (with_Objects [vol_0] sample)).
Definition docs_0 (s : string) : option Loaded :=
  if String.eqb s stored_text then Some (loaded_of sample_0) else None.
Definition start_0 := Open (K := tree) (F := memdisk) listed DefaultRoot None encode docs_0 "/data" [] settings off.
Definition w_0 : world tree memdisk := start_0.2.
Definition panicked := Connect_op (K := tree) (F := memdisk) listed DefaultRoot None encode KindVolume "data" "node 1" (Some 0) w_0 no_log.
Example panic_said :
  start_0.1 = Done tt ∧ panicked.1.1 = Panic
  ∧ said panicked
    = [(eventConnectionCreate, LevelInfo, Some (VStr outcomeSucceeded), Some (VBool false),
        Some (VStr reconcileNotRequired))].
Proof. vm_compute. split_and!; reflexivity. Qed.
End Logs.
