(* ===== verification/SetupWitnesses.v ===== *)
(** * setup: a host in memory

    A [memhost] is an in-memory file system with a function that answers
    commands, binds and requests. SetupSystem and Preflight run on it, the
    properties of setup are applied to it, and two files of fstab show where
    [ensureFstab] leaves more than one entry. *)

From S2P Require Import Prelude GoStrings Errors Netip LioModel Configfs FsPaths AppTranslate AppAptpl Storage AppDisk.
From S2P Require Import Setup SetupSystem SetupProofs SetupFstab SetupPreflight MemDisk.

Record memhost := mkMemhost {
  mh_disk : memdisk;
  mh_command : string → list string → exit;
  mh_listen : string → result (bool * string) unit;
  mh_get : string → result string Z
}.
Definition on_disk {A} (r : A * memdisk) (h : memhost) : A * memhost :=
  (r.1, mkMemhost r.2 (mh_command h) (mh_listen h) (mh_get h)).
#[global] Instance memhost_files : Files memhost := {
  fl_stat p h := on_disk (fl_stat p (mh_disk h)) h;
  fl_readdir p h := on_disk (fl_readdir p (mh_disk h)) h;
  fl_readfile p h := on_disk (fl_readfile p (mh_disk h)) h;
  fl_op o h := on_disk (fl_op o (mh_disk h)) h;
  fl_now h := on_disk (fl_now (mh_disk h)) h;
  fl_random h := on_disk (fl_random (mh_disk h)) h
}.
#[global] Instance memhost_host : Host memhost := {
  ho_euid _ := 0;
  ho_command n a h := (mh_command h n a, h);
  ho_lookpath t h := (true, h);
  ho_listen a h := (mh_listen h a, h);
  ho_get u h := (mh_get h u, h)
}.
#[global] Instance memhost_frozen : Frozen memhost.
Proof. by split; intros; destruct w as [[] ? ? ?]. Qed.

(** A Debian host, with a blank disk unless [fstype] says otherwise. *)
Definition sample_files (fstab : string) : gmap string string := list_to_map
  [("/etc/os-release", "ID=debian" +:+ nl_str +:+ "PRETTY_NAME=" +:+ Quote "Debian" +:+ nl_str);
   ("/sys/module/target_core_mod", ""); ("/sys/module/iscsi_target_mod", ""); ("/sys/module/target_core_file", "");
   ("/proc/mounts", "none /sys/kernel/config configfs rw 0 0" +:+ nl_str);
   ("/etc/fstab", fstab)].
Definition sample_command (fstype : string) (name : string) (args : list string) : exit :=
  if String.eqb name "blkid" then
    match args with
    | [_; field; _; _; _] =>
        if String.eqb field "UUID" then Exited 0 ("abcd" +:+ nl_str) ""
        else if String.eqb fstype "" then Exited 2 "" "" else Exited 0 (fstype +:+ nl_str) ""
    | _ => Exited 4 "" ""
    end
  else if String.eqb (default "" (head args)) "is-active" then Exited 3 ("inactive" +:+ nl_str) ""
  else Exited 0 "" "".
(** The REST port is taken, by an appliance that answers or not. *)
Definition sample_host (fstype fstab : string) (status : Z) : memhost :=
  mkMemhost (mkMemdisk (sample_files fstab) 0) (sample_command fstype)
    (λ a, if String.eqb a "0.0.0.0:8080" then Err (true, "address already in use") else Ok tt)
    (λ u, if String.eqb u "http://127.0.0.1:8080/v1/health" then Ok status else Err "connection refused").
Definition sample_setup (force : bool) : SetupOptions := mkSetupOptions "/var/lib/glitr" "/dev/vdb" force false false.
Definition commands (l : list hevent) : list (string * list string) :=
  mjoin ((λ e, match e with ECommand n a _ => [(n, a)] | _ => [] end) <$> l).
Definition setup_commands (fstype : string) (force : bool) : list (string * list string) :=
  commands (hlog (SetupSystem (H := memhost * list hevent) id (sample_setup force) (sample_host fstype "" 200, [])).2).

Example blank_disk_formatted :
  (SetupSystem (H := memhost * list hevent) id (sample_setup false) (sample_host "" "" 200, [])).1
    = Ok tt ∧
  setup_commands "" false =
    [("systemctl", ["mask"; "target.service"; "rtslib-fb-targetctl.service"]);
     ("blkid", ["-s"; "TYPE"; "-o"; "value"; "/dev/vdb"]); ("mkfs.xfs", ["-f"; "/dev/vdb"]);
     ("mount", ["/dev/vdb"; "/var/lib/glitr"]);
     ("blkid", ["-s"; "UUID"; "-o"; "value"; "/dev/vdb"]); ("systemctl", ["daemon-reload"])].
Proof. by vm_compute. Qed.
Example other_filesystem_refused :
  (SetupSystem (H := memhost * list hevent) id (sample_setup false) (sample_host "ext4" "" 200, [])).1
    = Err (wrapf "%s already has a %s filesystem; refusing to format (use -force to override)" ["/dev/vdb"; "ext4"]).
Proof. by vm_compute. Qed.
Example health_urls :
  healthURL "0.0.0.0:8080" = "http://127.0.0.1:8080/v1/health" ∧
  healthURL "[::]:8080" = "http://[::1]:8080/v1/health" ∧
  healthURL ":80" = "http://127.0.0.1:80/v1/health" ∧
  healthURL "host:80" = "http://host:80/v1/health" ∧ healthURL "fd00::1" = "".
Proof. by vm_compute. Qed.

(** ** The properties, applied *)

Lemma SetupSystem_guards_witness :
  ∃ l, hlog (SetupSystem (H := memhost * list hevent) id (sample_setup true) (sample_host "ext4" "" 200, [])).2 = [] ++ l ∧
    chain (permits (sample_setup true)) None l ∧ (0 ≠ 0 → l = []).
Proof.
  exact (SetupSystem_guards (H := memhost * list hevent) (sample_setup true) id (sample_host "ext4" "" 200, [])).
Defined.

Definition sample_line : string := fstab_line "abcd" "/var/lib/glitr".
Definition stale_line : string := fstab_line "gone" "/var/lib/glitr".
Definition tabbed_line : string :=
  "UUID=abcd" +:+ str1 (chr 9) +:+ "/var/lib/glitr xfs nofail,x-systemd.device-timeout=10s 0 0".
Definition root_line : string := "UUID=root / ext4 defaults 0 1".
Definition disk_with (ls : list string) : memdisk := mkMemdisk {["/etc/fstab" := Join (ls ++ [""]) nl_str]} 0.
Definition ensure_on (ls : list string) : result goerr bool * memdisk :=
  ensureFstab (H := memdisk) "/etc/fstab" sample_line "/var/lib/glitr" (disk_with ls).

Lemma ensureFstab_converges_witness :
  ensure_on ["# was " +:+ stale_line; root_line; stale_line]
    = (Ok true, mkMemdisk {["/etc/fstab" := Join ["# was " +:+ stale_line; root_line; sample_line; ""] nl_str]} 0) ∧
  match ensure_on [root_line; stale_line] with
  | (Err _, w') => content "/etc/fstab" w' = content "/etc/fstab" (disk_with [root_line; stale_line])
  | (Ok changed, w') =>
      let old := file_lines "/etc/fstab" (disk_with [root_line; stale_line]) in let new := file_lines "/etc/fstab" w' in
      sample_line ∈ new ∧
      (∃ tail, (tail = [] ∨ tail = [""]) ∧ others "/var/lib/glitr" new = others "/var/lib/glitr" old ++ tail) ∧
      (if changed then entries "/var/lib/glitr" new
         = filter (λ l, respaced sample_line "/var/lib/glitr" l = true) old ++ [sample_line]
       else content "/etc/fstab" w' = content "/etc/fstab" (disk_with [root_line; stale_line])) ∧
      ∀ w2, content "/etc/fstab" w2 = content "/etc/fstab" w' →
        match ensureFstab (H := memdisk) "/etc/fstab" sample_line "/var/lib/glitr" w2 with
        | (Ok again, w3) => again = false ∧ content "/etc/fstab" w3 = content "/etc/fstab" w2
        | (Err _, w3) => content "/etc/fstab" w3 = content "/etc/fstab" w2
        end
  end.
Proof.
  split; [vm_compute; reflexivity|].
  refine (ensureFstab_converges (H := memdisk) "/etc/fstab" sample_line "/var/lib/glitr" _ _ _ (disk_with [root_line; stale_line])).
  - apply ContainsChar_false. vm_compute. reflexivity.
  - vm_compute. reflexivity.
  - vm_compute. reflexivity.
Defined.

(** Two runs that end with two entries for one mount point: one that differs in
    its spacing alone is kept and the new one added; a stale one beside the
    exact one is left, and no change is reported. *)
Example respaced_entry_doubled :
  entries "/var/lib/glitr" (file_lines "/etc/fstab" (ensure_on [tabbed_line]).2) = [tabbed_line; sample_line].
Proof. by vm_compute. Qed.
Example stale_entry_beside_exact_stays :
  ensure_on [stale_line; sample_line] = (Ok false, disk_with [stale_line; sample_line]).
Proof. by vm_compute. Qed.
(** ForceMount does not override a data root that cannot be listed, which the
    message of the refusal says it does. *)
Example force_mount_cannot_override {H} `{Host H} (root dev : string) (w w' : H) :
  fl_readdir root w = (Err EACCES, w') →
  (checkMountTarget root dev true w).1 =
    Err (ErrWrap "cannot check whether %s is empty before mounting %s: %w (use -force-mount to override)" [root; dev]
           (ErrSys "open" root EACCES)).
Proof. intros E. unfold checkMountTarget, bind, try, fs_ReadDir, bind, sys. by rewrite E. Qed.

Lemma Preflight_verdict_witness :
  let opts := mkOptions 0 "0.0.0.0:8080" false in let w := sample_host "" "" 200 in
  ready opts w ∧
  ∃ rep es, Preflight (H := memhost * list hevent) opts (w, []) = (Ok rep, (w, [] ++ es)) ∧ Forall probe es ∧
    (Failed rep = false ↔ ready opts w) ∧ (Fprint rep).2 = Failed rep.
Proof.
  intros opts w.
  assert (Hp := Preflight_verdict (H := memhost) opts w []). split; [|exact Hp].
  destruct Hp as (rep & es & Hrun & _ & Hready & _). apply Hready.
  assert (Hf : (Failed <$> (match (Preflight (H := memhost * list hevent) opts (w, [])).1 with Ok r => Some r | Err _ => None end)) = Some false)
    by (vm_compute; reflexivity).
  rewrite Hrun in Hf. cbn in Hf. by injection Hf.
Defined.
Example taken_port_fails :
  (Failed <$> (match (Preflight (H := memhost * list hevent) (mkOptions 0 "0.0.0.0:8080" false) (sample_host "" "" 503, [])).1 with
               | Ok r => Some r | Err _ => None end)) = Some true.
Proof. by vm_compute. Qed.
