(* ===== verification/LishWitnesses.v ===== *)
(** * saveconfig and lish, run on a machine in memory

    A session of the shell builds a configuration, saves it, clears the kernel
    and restores it; the properties of saveconfig and lish are applied there. *)

From S2P Require Import Prelude GoStrings Errors Netip LioModel LioValid Configfs FsPaths LioAptpl LioApply Trace LioEffects LioSync.
From S2P Require Import LioSafety MemKernel AppTranslate Storage AppDisk MemDisk Saveconfig SaveconfigProofs.
From S2P Require Import Lish LishShell LishLocking LishTree.

(** The one configuration these files hold is kept beside its text. *)
Definition text_of (c : Config) : result string string := Ok "{}".
Definition decode_one (c : Config) (s : string) : result string (Config * string) :=
  match CutPrefix s "{}" with Some rest => Ok (c, rest) | None => Err "invalid character" end.

Definition session (c : Config) (lines : list string) (m : machine traced memdisk) : Shell traced memdisk :=
  (run DefaultRoot None text_of (decode_one c) "help" (λ _, Err "EOF") (λ _, "") [] (Join lines nl_str)
     (NewShell m (Some (Lock_New "")))).2.
Definition built : list string :=
  ["cd /backstores/fileio"; "create disk0 /srv/disk0 1048576"; "cd disk0"; "set wwn 0123456789abcdef"; "cd /iscsi";
   "create iqn.2004-01.com.example:target-a"; "cd iqn.2004-01.com.example:target-a/tpg1/luns"; "create 0 disk0";
   "cd ../acls"; "create iqn.2004-01.com.example:host-a"; "cd iqn.2004-01.com.example:host-a"; "map 4 0 ro"].
Definition s_built : Shell traced memdisk := session emptyConfig built (bare_machine ∅).
Definition discovered (m : machine traced memdisk) : Config :=
  match (Discover DefaultRoot (m_k m)).1 with Ok c => c | Err _ => emptyConfig end.
Definition cfg_built : Config := discovered (sh_m s_built).

(** The session has made what it was asked for, and says where it is. *)
Example shell_builds :
  (bs_Name <$> c_Backstores cfg_built) = ["disk0"] ∧
  ((λ t, (t_IQN t, (λ g, (g_Tag g, g_Enable g, g_LUNs g, g_ACLs g)) <$> t_TPGs t)) <$> c_Targets cfg_built)
    = [("iqn.2004-01.com.example:target-a",
        [(1, true, [mkLUN 0 "disk0"], [mkACL "iqn.2004-01.com.example:host-a" [mkMappedLUN 4 0 true]])])] ∧
  sh_out (session emptyConfig (built ++ ["pwd"; "ls"; "frob"; "exit"; "pwd"]) (bare_machine ∅))
    = ["/iscsi/iqn.2004-01.com.example:target-a/tpg1/acls/iqn.2004-01.com.example:host-a" +:+ nl_str;
       "mapped_lun4 [-> lun0 ro]" +:+ nl_str].
Proof. by vm_compute. Qed.
(** A second session cannot change anything while the lock is held. *)
Example locked_out :
  let s := session emptyConfig ["cd /iscsi"; "create iqn.2004-01.com.example:target-a"; "pwd"]
             (bare_machine {[ locked_file := "" ]}) in
  trace s = [] ∧ sh_out s = ["/iscsi" +:+ nl_str].
Proof. by vm_compute. Qed.

(** ** The properties of saveconfig *)

Definition m_built : machine traced memdisk := sh_m s_built.
Definition save_path : string := "/etc/glitr/lio-config.json".

(** What is saved is what is restored into an empty kernel. *)
Example save_clear_restore :
  let c := cfg_built in
  let s := session c ["save"; "clear"; "restore"] m_built in
  discovered (sh_m s) = c ∧ c_Targets c ≠ [] ∧ md_files (m_f (sh_m s)) !! save_path = Some ("{}" +:+ nl_str).
Proof.
  cbv zeta. split_and!; [|vm_compute; intros [=]|vm_compute; reflexivity].
  vm_compute. reflexivity.
Qed.

Lemma Save_restores_witness :
  HasPrefix save_path (Dir save_path +:+ "/" +:+ ".lio-config-") = false ∧
  let '(r, w') := Save DefaultRoot text_of save_path m_built in
  trace w' = trace m_built ∧
  match r with
  | Err _ =>
      content save_path (m_f w') = content save_path (m_f m_built) ∨
      ∃ cfg data, (Discover DefaultRoot (m_k m_built)).1 = Ok cfg ∧ text_of cfg = Ok data ∧
        content save_path (m_f w') = Some (data +:+ nl_str)
  | Ok _ =>
      ∃ cfg data, (Discover DefaultRoot (m_k m_built)).1 = Ok cfg ∧ text_of cfg = Ok data ∧
      content save_path (m_f w') = Some (data +:+ nl_str) ∧
      ∀ rest (k2 : traced), decode_one cfg_built (data +:+ nl_str) = Ok (cfg, rest) → json_blank rest = true →
        Config_Validate cfg = Ok tt →
        let '(rep, err, w2) := Restore DefaultRoot None (decode_one cfg_built) save_path (mkMachine k2 (m_f w')) in
        (rep, err, m_k w2) = Sync DefaultRoot None cfg k2 ∨ (is_Some err ∧ m_k w2 = k2)
  end.
Proof.
  split; [vm_compute; reflexivity|].
  pose proof (Save_restores (K := traced) (F := memdisk) DefaultRoot None text_of (decode_one cfg_built) save_path m_built eq_refl) as Hs.
  exact Hs.
Defined.

Definition root_segs : list string := ["sys"; "kernel"; "config"; "target"].
Lemma default_clean : clean_root DefaultRoot root_segs.
Proof. split_and!; [done | by repeat constructor | reflexivity]. Qed.
Definition m_saved : machine traced memdisk := mkMachine (bare, []) (mkMemdisk {[ save_path := "{}" +:+ nl_str ]} 0).
Lemma Restore_understands_witness :
  let '(rep, err, w') := Restore DefaultRoot (Some one_record) (decode_one one_disk) save_path m_saved in
  (m_k w' = m_k m_saved ∧ rep = emptyReport ∧ (err = None → content save_path (m_f m_saved) = None)) ∨
  ∃ data cfg rest l, content save_path (m_f m_saved) = Some data ∧ decode_one one_disk data = Ok (cfg, rest) ∧
    json_blank rest = true ∧ valid_config cfg ∧
    (rep, err, m_k w') = Sync DefaultRoot (Some one_record) cfg (m_k m_saved) ∧
    trace w' = trace m_saved ++ l ∧ Forall (prunes_only DefaultRoot cfg (Discover DefaultRoot (m_k m_saved)).1) l.
Proof.
  assert (Hp : quiet_provider (K := traced) (Some one_record)) by (intros f b [= <-]; apply emits_ret).
  pose proof (Restore_understands (K := traced) (F := memdisk) DefaultRoot root_segs (Some one_record) (decode_one one_disk)
    save_path m_saved default_clean Hp) as Hr.
  exact Hr.
Defined.
(** Text after the value is refused, whatever the value. *)
Example trailing_refused :
  let m := mkMachine (bare, []) (mkMemdisk {[ save_path := "{}{}" ]} 0) in
  Restore DefaultRoot None (decode_one one_disk) save_path m
  = (emptyReport, Some (wrapf "saveconfig: %s: trailing content after the configuration object" [save_path]), m).
Proof. vm_compute. reflexivity. Qed.

(** ** The properties of lish *)

Definition fresh_shell (m : machine traced memdisk) : Shell traced memdisk := NewShell m (Some (Lock_New "")).
Lemma run_guarded_witness :
  let s := fresh_shell (bare_machine ∅) in
  let s' := (run DefaultRoot None text_of (decode_one emptyConfig) "help" (λ _, Err "EOF") (λ _, "") [] (Join built nl_str) s).2 in
  guarded s s' ∧ idle s' ∧ trace s' ≠ [].
Proof.
  cbv zeta.
  assert (Hi : idle (fresh_shell (bare_machine ∅))) by by exists (Lock_New "").
  destruct (run_guarded (K := traced) (F := memdisk) DefaultRoot None text_of (decode_one emptyConfig) "help" (λ _, Err "EOF")
    (λ _, "") [] (Join built nl_str) (fresh_shell (bare_machine ∅)) Hi) as [Hg He].
  split; [exact Hg|]. split; [exact He|]. vm_compute. intros [=].
Defined.

Definition shell_with (c : Config) : Shell traced memdisk :=
  mkShell (bare_machine ∅) [] None rootNode (Some c) false.
Definition deep_node : Node := mappedNode target_a 1 host_a 0.
Lemma one_disk_config_valid : Config_Validate one_disk = Ok tt.
Proof. vm_compute. reflexivity. Qed.
Lemma deep_in_tree : in_tree one_disk deep_node.
Proof.
  apply (in_child _ (aclNode target_a 1 host_a)); [|vm_compute; left].
  apply (in_child _ (groupNode kACLs "acls" target_a 1)); [|vm_compute; left].
  apply (in_child _ (tpgNode target_a 1)); [|vm_compute; right; left].
  apply (in_child _ (targetNode target_a)); [|vm_compute; left].
  apply (in_child _ iscsiNode); [|vm_compute; left].
  apply (in_child _ rootNode); [constructor|]. vm_compute. right. left.
Qed.
Lemma one_disk_portals : portals_named one_disk.
Proof.
  intros t g [->|Ht]%elem_of_cons; [|inversion Ht]. intros [->|Hg]%elem_of_cons; [|inversion Hg].
  split; [apply (bool_decide_unpack _) | repeat constructor]; vm_compute; done.
Qed.
Lemma resolve_pathOf_witness :
  pathOf deep_node = "/iscsi/iqn.2004-01.com.example:target-a/tpg1/acls/iqn.2004-01.com.example:host-a/mapped_lun0" ∧
  resolve DefaultRoot (pathOf deep_node) (shell_with one_disk) = (Ok deep_node, shell_with one_disk).
Proof.
  split; [vm_compute; reflexivity|]. apply (resolve_pathOf DefaultRoot one_disk deep_node (shell_with one_disk)).
  - apply one_disk_config_valid.
  - apply one_disk_portals.
  - reflexivity.
  - apply deep_in_tree.
Defined.

Definition second_mapping : creation := NewMapping target_a 1 host_a 7 0 false.
Definition mapped_twice : Config := match create_edit second_mapping one_disk with Ok c => c | Err _ => emptyConfig end.
Lemma delete_undoes_create_witness :
  Config_Validate mapped_twice = Ok tt ∧ delete_edit second_mapping mapped_twice = Ok one_disk.
Proof.
  assert (V : Config_Validate mapped_twice = Ok tt) by (vm_compute; reflexivity).
  split; [exact V|]. apply (delete_undoes_create second_mapping one_disk mapped_twice); [vm_compute; reflexivity | exact V].
Defined.

(** [create] at portals drops the port of its argument. *)
Example create_portal_drops_port :
  (λ t, g_Portals <$> t_TPGs t) <$> c_Targets (discovered (sh_m (session emptyConfig
    ["cd /iscsi"; "create iqn.2004-01.com.example:target-a"; "cd iqn.2004-01.com.example:target-a/tpg1/portals";
     "create 10.0.0.1:3261"] (bare_machine ∅))))
  = [[[mkPortal (Addr4 167772161) 3260]]].
Proof. by vm_compute. Qed.
