(* ===== verification/DaemonWitnesses.v ===== *)
(** * applianced and its client, run on a machine in memory

    The daemon is started over a kernel that knows its db_root and a disk with
    a recorded volume; the properties of Daemon.v and Inspect.v are applied
    there. *)

From S2P Require Import Prelude GoStrings Errors Netip LioModel LioValid Configfs FsPaths LioAptpl LioApply Trace.
From S2P Require Import LioEffects LioSync LioStranded MemKernel AppModel AppDb AppPortals AppAptpl AppTranslate Storage.
From S2P Require Import AppDisk AppCoordinator AppObjects AppHosts AppIdentity AppClear AppRest AppAnswers AppReach.
From S2P Require Import AppRestProofs MemDisk AppWitnesses.
From S2P Require Import Saveconfig SaveconfigProofs Applog Inspect Daemon GoUrl Client ClientProofs ClientServer.

Definition db_root : string := "/var/target".
Definition kernel_at (saved : list (string * node)) : tree :=
  list_to_map ((DefaultRoot +:+ "/dbroot", NFile (db_root +:+ nl_str)) :: saved) ∪ bare.
Definition host_machine (saved : list (string * node)) (files : gmap string string) : machine traced memdisk :=
  mkMachine (kernel_at saved, []) (mkMemdisk (files ∪ md_files disk_a) 1).
Definition flags (iqn portals : string) (port : Z) : serve_flags :=
  mkServeFlags "/data" iqn portals port "127.0.0.1:8080" (30 * 10 ^ 9) "" false false "text" "info".
Definition good_flags : serve_flags := flags storage_iqn "0.0.0.0" 3260.
Definition start : serve_flags → machine traced memdisk → started :=
  startup (K := traced) (F := memdisk) listed DefaultRoot encode docs.

Definition why_exited {K F} (s : @started K F) : option startup_failure :=
  match s with Exited why _ => Some why | Serving _ _ _ => None end.
Definition is_not_opened (o : option startup_failure) : bool :=
  match o with Some (NotOpened _) => true | _ => false end.

(** It starts; without its database it does not, nor while the lock is held,
    nor with a saved reservation it cannot read. *)
Example starts :
  why_exited (start good_flags (host_machine [] ∅)) = None ∧
  why_exited (start good_flags (host_machine [] {[ locked_file := "" ]})) = Some LockHeld ∧
  is_not_opened (why_exited (start good_flags
    (host_machine [(APTPLPath db_root (o_WWN vol_a), NFile "garbage")] ∅))) = true.
Proof. split_and!; vm_compute; reflexivity. Qed.
(** The kernel has been asked for nothing when a setting is refused. *)
Example refuses_settings :
  start (flags "not an iqn" "0.0.0.0" 3260) (host_machine [] ∅)
    = Exited (match settings_of listed (flags "not an iqn" "0.0.0.0" 3260) with Err e => e | Ok _ => LockHeld end)
        (host_machine [] ∅).
Proof. vm_compute. reflexivity. Qed.
(** A port beyond sixteen bits is taken for another one. *)
Example port_wraps :
  match settings_of listed (flags "" "0.0.0.0" 68796) with Ok (_, ps) => ps = [mkPortal (Addr4 0) 3260] | Err _ => False end.
Proof. vm_compute. reflexivity. Qed.

Lemma startup_guarded_witness :
  guarded listed DefaultRoot encode docs "" (host_machine [] ∅) (start good_flags (host_machine [] ∅)).
Proof.
  pose proof (startup_guarded listed DefaultRoot encode docs good_flags (host_machine [] ∅)) as Hg. exact Hg.
Defined.

(** A clone is given an identity; the volumes are kept, under new WWNs. *)
Definition reinitialised : reinit_end * Lock * machine traced memdisk :=
  reinitCmd listed encode docs "/data" "iqn.2004-01.com.example:clone" true false ""
    (host_machine [] {[ "/etc/machine-id" := "0123456789abcdef0123456789abcdef" +:+ nl_str ]}).
Example reinit_adopts : reinitialised.1.1 = RDone ∧ lk_f reinitialised.1.2 = None ∧ trace reinitialised.2 = [].
Proof. split_and!; vm_compute; reflexivity. Qed.

(** ** inspect *)

Definition no_blocks (p : string) : ST traced Z := throw (ErrSys "stat" p ENOENT).
Lemma quiet_no_blocks p : quiet (no_blocks p).
Proof. apply emits_throw. Qed.
Definition error_text (e : goerr) : string := "error".
Example inspect_reports :
  (inspectCmd (K := tree) DefaultRoot 4096 (λ p, throw (ErrSys "stat" p ENOENT)) error_text true synced).1
  = Ok ["backstores: 1, targets: 1";
        "  backstore fileio/disk0 dev=/srv/disk0 wwn=0123456789abcdef  block=512 (512n)"; "      capacity=1MiB";
        "  target iqn.2004-01.com.example:target-a";
        "    tpg1 enable=true portals=0.0.0.0:3260 luns=1 acls=1";
        "      portal 0.0.0.0:3260  (wildcard: every IPv4 address on this host)"; "      lun0 -> disk0";
        "      acl iqn.2004-01.com.example:host-a (mapped 1)"; "        mapped_lun0 -> lun0 (disk0) ro"].
Proof. vm_compute. reflexivity. Qed.

Lemma inspect_reads_witness :
  (∀ p, quiet (no_blocks p)) ∧ quiet (inspectCmd DefaultRoot 4096 no_blocks error_text true).
Proof.
  split; [apply quiet_no_blocks|].
  exact (inspect_reads DefaultRoot 4096 no_blocks error_text true quiet_no_blocks).
Defined.

(** The reservation of a fenced disk is named. *)
Definition said_of_disk0 : string :=
  match (describePR (K := tree) DefaultRoot 4096 error_text disk0 fenced).1 with Ok s => s | Err _ => "" end.
Definition tree_after : tree := (describePR (K := tree) DefaultRoot 4096 error_text disk0 fenced).2.
Lemma said_of_disk0_run :
  describePR (K := tree) DefaultRoot 4096 error_text disk0 fenced = (Ok said_of_disk0, tree_after).
Proof.
  assert (Hok : is_ok (describePR (K := tree) DefaultRoot 4096 error_text disk0 fenced).1 = true) by (vm_compute; reflexivity).
  revert Hok. unfold said_of_disk0, tree_after. generalize (describePR (K := tree) DefaultRoot 4096 error_text disk0 fenced).
  by intros [[s|e] k].
Qed.
Example fenced_said : HasPrefix said_of_disk0 ("RESERVED by " +:+ host_a) = true.
Proof. vm_compute. reflexivity. Qed.
Lemma describePR_silent_witness :
  (said_of_disk0 = "" →
   ∃ regs held k1 k2 k3,
     ReadAttr DefaultRoot (objPath disk0 ++ ["pr"; "res_pr_registered_i_pts"]) fenced = (Ok regs, k1) ∧
     parseRegistrations regs = ([], 0) ∧ slen regs < 4096 - prMaxRegLine ∧
     ReadAttr DefaultRoot (objPath disk0 ++ ["pr"; "res_holder"]) k2 = (Ok held, k3) ∧ (parseHolder held).1.1 = "") ∧
  (∀ st, PRState_read DefaultRoot 4096 disk0 fenced = (Ok st, tree_after) → st_Holder st ≠ "" →
     HasPrefix said_of_disk0 ("RESERVED by " +:+ st_Holder st) = true).
Proof.
  pose proof (describePR_silent DefaultRoot 4096 error_text disk0 fenced tree_after said_of_disk0
    said_of_disk0_run) as Hd. exact Hd.
Defined.

(** ** The client, against the appliance in memory

    The running appliance of [AppWitnesses], served to the client: a create and
    its repetition, and the properties of the client applied there. *)

Module ClientWitnesses.
Definition endpoint : URL := mkURL "http" "127.0.0.1:8080" "" "" "".
Lemma endpoint_mounted : mounted_at endpoint [].
Proof. by split. Qed.
(** Another, behind a proxy. *)
Definition proxied : URL := mkURL "https" "proxy.example" "/storage/a" "" "token=1".
Lemma proxied_mounted : mounted_at proxied ["storage"; "a"].
Proof. by split; [repeat constructor|]. Qed.
Definition marshal_any (b : cbody) : result string string := Ok "{}".
(** The identifier of the record, or the code of the error. *)
Definition render_a (rs : response) : string :=
  match rs_Body rs with
  | BObject o => o_UUID o
  | BError code _ => "error " +:+ code
  | _ => ""
  end.
(** The object the requests of [AppWitnesses] create. *)
Definition the_third : Object :=
  match last (db_Objects (c_st (w_c (answer post_volume w_connected).2))) with Some o => o | None => vol_a end.
Definition silent {A} (a : A) : Codec A := mkCodec a (λ _, (a, true)) (λ _, (a, true)).
Definition codecs_a : Codecs :=
  mkCodecs (silent the_third) (silent []) (silent host_1) (silent []) (silent (mkClTarget "" [])) (silent true)
    (silent (mkClCleared "" false false "" "" "" false "")) (silent (mkHostResponse host_1 "")) 
    (silent (mkClConnInfo "" [] 0 "")) (silent (mkDisconnectResponse "" "")) (silent []) (silent noHealth)
    (λ s, (λ code, (code, code, "")) <$> CutPrefix s "error ").
Definition transport : creq → ST (world tree memdisk) cresp :=
  served listed DefaultRoot None 4096 encode json_a (λ _, "") render_a [].
Definition req_third : ClCreateRequest := mkClCreateRequest "third" 1048576 0 "" "".
Definition create_third (w : world tree memdisk) := CreateVolume transport marshal_any codecs_a endpoint req_third w.

(** Created, then found there; an unknown object is the appliance's error. *)
Example client_run :
  let '(v1, e1, w1) := create_third w_connected in
  let '(v2, e2, w2) := create_third w1 in
  (v1.2, e1) = (true, None) ∧ (v2.2, e2) = (false, None) ∧
  IsCode (Client_Delete transport marshal_any codecs_a endpoint KindVolume "no/such" w2).1.2 CodeNotFound = true ∧
  (Client_Delete transport marshal_any codecs_a endpoint KindVolume "third" w2).1.2 = None.
Proof. vm_compute. split_and!; reflexivity. Qed.

Definition its_answer : option response :=
  answer_to listed DefaultRoot None 4096 encode json_a marshal_any endpoint [] (KCreate KindVolume req_third) w_connected.
Lemma third_answered : rs_Body <$> its_answer = Some (BObject the_third).
Proof. vm_compute. reflexivity. Qed.
Lemma creates_told_witness :
  truthful_answer listed DefaultRoot None 4096 encode docs is_object w_connected
    (create_ transport marshal_any codecs_a endpoint KindVolume req_third w_connected).
Proof.
  refine (creates_told listed listed_perm DefaultRoot None 4096 encode docs json_a (λ _, "") render_a
    marshal_any codecs_a endpoint [] (KCreate KindVolume req_third) w_connected endpoint_mounted live_connected
    fresh_connected _ _ (Forall_nil_2 _)).
  - intros b _. by exists "{}".
  - intros rs Hrs. pose proof third_answered as Hans. unfold its_answer in Hans. rewrite Hrs in Hans. injection Hans as Hb.
    unfold readable, read_back. rewrite Hb. exact (ex_intro _ the_third (conj eq_refl eq_refl)).
Defined.

(** A reference of every awkward character, and a filter, through a proxy. *)
Lemma calls_arrive_witness :
  let c := KDisconnect KindSnapshot "a/b c?d%e#f" "h" in
  let c' := KConnections "a b" "" "h&i" in
  (∃ r rq segs, issue (recording (λ _, Err (wrapf "" []))) marshal_any codecs_a proxied c [] = [] ++ [r] ∧ cq_Body r = None ∧
    server_view ["storage"; "a"] r = Some rq ∧ ht_Path rq = APIPrefix :: segs ∧
    dispatch (ht_Method rq) segs = Ok (DeleteConnection KindSnapshot, ["a/b c?d%e#f"; "h"]) ∧
    (query_of c ≠ [] ∨ u_RawQuery proxied = "" → ∀ key, query_Get (ht_Query rq) key = "")) ∧
  ∃ r rq segs, issue (recording (λ _, Err (wrapf "" []))) marshal_any codecs_a proxied c' [] = [] ++ [r] ∧ cq_Body r = None ∧
    server_view ["storage"; "a"] r = Some rq ∧ ht_Path rq = APIPrefix :: segs ∧
    dispatch (ht_Method rq) segs = Ok (AllConnections, []) ∧
    (query_of c' ≠ [] ∨ u_RawQuery proxied = "" → ∀ key, query_Get (ht_Query rq) key = asked_query c' key).
Proof.
  intros c c'. assert (Hrefs : Forall addressable (call_refs c)) by (repeat constructor; done).
  split.
  - exact (proj2 (calls_arrive marshal_any codecs_a proxied _ (λ _, Err (wrapf "" [])) c [] proxied_mounted Hrefs)).
  - exact (proj2 (calls_arrive marshal_any codecs_a proxied _ (λ _, Err (wrapf "" [])) c' [] proxied_mounted (Forall_nil_2 _))).
Defined.

(** A query of the endpoint is sent with a listing that asks nothing. *)
Example endpoint_query_kept :
  (λ rq, query_Get (ht_Query rq) "object") <$>
    server_view [] (mkCreq "GET" (client_url (mkURL "http" "h" "" "" "object=x") (query_of (KConnections "" "" ""))
                                    (path_of (KConnections "" "" ""))) None)
  = Some "x" ∧ asked_query (KConnections "" "" "") "object" = "".
Proof. by vm_compute. Qed.
(** Behind a base path that needs escaping, the encoding asked for is dropped,
    and a slash in a reference becomes a separator. *)
Example escaped_base_splits_reference :
  EscapedPath (client_url (mkURL "http" "proxy" "/a b" "" "") [] ["volumes"; "x/y"]) = "/a%20b/v1/volumes/x/y".
Proof. by vm_compute. Qed.
End ClientWitnesses.
